(* ===== verification/_CoqProject ===== *)
-Q . S2P
Prelude.v
JsNum.v
JsSet.v
Blocks.v
Host.v
PacksContainer.v
WMap.v
MapCodec.v
Vec.v
Geo.v
GeoFacts.v
Growth.v
Cargo.v
Machine.v
BotOps.v
BotFacts.v
Programmator.v
ProgFacts.v
ProgSafety.v
ProgSem.v
Bots.v
Packs.v
World.v
Shape.v
WorldFacts.v
WorldProps.v
Anims.v
Tiles.v
View.v
Tails.v
JsText.v
Colours.v
Overlay.v
Names.v
Drops.v
Start.v
Async.v
InventoryPanel.v
StatusPanel.v
Tables.v
Skills.v
Windows.v
MapWindow.v
MapPanel.v
Session.v
AdminMap.v
AdminPage.v
Admin.v
AdminFacts.v
AdminProps.v
AdminSpec.v
