(* ===== verification/Prelude.v ===== *)
(** * OpenMines: a verification development of the JavaScript code

    The JavaScript of this repository is the browser client of a mining game
    ([src/docs/reference/js_reference/scripts/], below just "scripts/") and the
    admin panel of its server ([src/crates/server/openmines-server/admin/app.js]).
    In the client a world of blocks is dug, built and walked on by bots; a bot is
    steered by the keyboard or by a program the user draws as a grid of cells;
    timers let sand fall, living blocks grow, programs run, and draw the world.
    The admin panel polls the server, shows tables and a map, and sends commands.

    ** Foundations

    - [Prelude]: typed arrays, loops, rows and columns, errors, automation.
    - [JsNum]: numbers: binary64 ([spec_float] at precision 53) for the variables
      of programs and the volumes of cargo, ToInt32 for [~~] and [>>].
    - [JsSet]: the ECMAScript [Set], whose iterators survive changes of the set.
    - [Host]: [performance.now()], [Math.random()], [RandInt] as two streams.
    - [JsText]: [parseInt], numerals, the class [Locale] of what the host's
      language tables decide (case, dates, grouping of digits).
    - [Async]: promises: a [Comp] runs to its next [await], an event loop resumes
      one suspended computation at a time; the rules of [try]/[finally] on them.

    ** The client

    - [Blocks] (scripts/tables/DataTables.js): block codes and statistics.
    - [WMap], [MapCodec] (scripts/wmap.js): the three layers of the map, every
      operation on them; the run-length code of stored worlds.
    - [PacksContainer], [Packs] (scripts/entitys/): buildings, their plans, the
      check of a place, the construction, and the chunked index of buildings.
    - [Geo], [GeoFacts], [Growth] (scripts/geophys.js): falling and growth.
    - [Vec], [Cargo] (usefuladitions.js, cargo.js): vectors, crystals, geo stack.
    - [Machine], [BotOps], [BotFacts] (scripts/bot.js): a bot and its operations,
      in a state monad [St]; the operations that may throw are in [X].
    - [Programmator], [ProgFacts], [ProgSafety], [ProgSem]
      (scripts/programmator.js): the 111 operations of the program language, the
      executor, their decomposition, type safety, and single programs.
    - [Bots] (BotsContainer of scripts/bot.js): the index of bots by chunks.
    - [World], [Shape], [WorldFacts], [WorldProps] (controls.js, main.js,
      guiControls.js, wrenderer.js): all bots on one map, keys, mouse, messages
      and timers as the [Event]s of one transition relation [page_step].
    - [Anims], [Drops] (minestileset.js, wrenderer.js): animations and drops, as
      objects in a store with the sets and the pools that refer to them.
    - [Tiles] (minestileset.js, wrenderer.js): the tile sheet, what a frame draws.
    - [View], [Overlay] (wrenderer.js): the camera and the places where bots are
      drawn, which follow the world of [World] frame by frame; skins, nicknames, the
      box of a program's view, lightnings.
    - [Tails] (bot.js): the strands behind a bot.
    - [Start] (main.js, bot.js): the page from [LoadWorld] to the timers, with its
      random blocks and bots; its last state is the first one of [World].
    - [Windows] (guiControls.js, main.js): the windows of the page and the messages
      posted to the programmator, after each callback of [World.prog_timer].
    - [MapWindow], [MapPanel] (userGUI/Mapdrawer.js, MapTables.js): colours, the
      picture of the map, pixel by pixel, and the marks on it; the options, the
      timer and the mouse around it.
    - [StatusPanel] (guiControls.js, wrenderer.js): the icons and bars that show the
      state of the current bot, refreshed by the frames.
    - [Skills], [Tables] (DataTables.js, bot.js, programmator.js, userGUI/Skills.js):
      skills with their effects over real powers; names and codes.
    - [InventoryPanel] (userGUI/Inventory.js, items.js): the items, and the places of
      the panel as elements of the document that move from place to place.
    - [Names] (DataTables.js, usefuladitions.js): nicknames, amounts in short.
    - [Colours] (usefuladitions.js, bot.js): the colours of the tails, random ones.
    - [Session] (wrenderer.js, guiControls.js, main.js): all of the above as one
      state: a frame is the whole of [WRenderer.Update], with the pictures it paints;
      each other event is its handler with what it shows, opens and posts.

    ** The admin panel (admin/app.js)

    - [AdminMap]: coordinates, zoom and grid of the map.
    - [AdminPage]: the page and its synchronous functions, in a monad [PS].
    - [Admin]: the async functions and listeners, as computations of [Async].
    - [AdminFacts], [AdminProps], [AdminSpec]: the exclusion of refreshes, the
      invariant of the page, the outcome of every request.

    ** What the theorems show

    - Safety of the whole: [WorldProps.world_safe] (every interleaving of events in
      which the programs that are set fit - well formed, and longer than the starts
      of the bots - keeps the map, the bots and the programs well formed, and throws
      nothing once a bot is chosen; for one that does not fit see
      [WorldProps.stale_start_throws]), resting on [ProgSafety.Execute_safe] (a
      well-formed program never gets stuck), on the invariants of the map and on
      those of the bots; [Start.page_starts_safe] (every page that loads begins in
      such a state); [Session.session_safe] (so does everything around the world -
      view, tails, animations, panels, windows, map - for inputs in their ranges, and
      no frame throws), for which [Session.session_refines_page] says that the
      session moves its world by the steps of [World.page_step] only;
      [AdminProps.page_invariant] and [AdminFacts.refresh_exclusive] for the
      panel under every interleaving of answers and clicks.
    - Conservation and termination: falling only permutes blocks, and only
      boundedly many visits and ticks change anything; animations end, and so do
      drops of bots that rest; a held key gives way once a bot has a cooldown, and
      can hang the page when it has none; the search for the first places of the
      bots ends exactly when the map has a solid block.
    - What is shown follows what is: the camera and the drawn bot settle, tails stay
      near, the panels show the current bot within fifteen frames, the programmator
      gets the state of its program, the map panel names the cell under the mouse
      unless it is left of the map or above it.
    - Refinement: the index of bots, its search, the geo stack, the pictures of the
      terrain, of the map window and of the admin map, and the inventory panel,
      against plain descriptions of what they are for; the box of a program's view
      against the block its conditions read.
    - Round trips: stored worlds, calls and returns of programs, the geo tool, the
      forms of the market.
    - Errors: each outcome of the panel's requests; what one throwing program does
      to all others; stale starts of reloaded programs; what a failed or odd
      answer does to the panel.

    ** Bounds and fuel

    Only eight functions take fuel.  [Programmator.empty_scan] scans at most the 16
    cells of a line.  [AdminMap.grid_loop] has [grid_fuel], proved enough
    ([grid_fuel_enough]).  [JsText.digits_of] has one unit per bit,
    and [JsText.decimals] one per place of a numeral the host prints.
    [Names.thousands] and [Colours.hex_digits] have one unit per bit, proved enough
    ([thousands_spec], [hex_digits_spec]).
    [World.hold_loop] may truly not end; [page_step] asks for some fuel that
    suffices, and [WorldProps] shows when there is one and when there is none.
    [Start.find_place] may not end either: [Start.page_starts_iff] says when some
    fuel suffices, for random numbers that try every place.
    Bytes and 32-bit conversions are written out where the code stores or shifts.

    ** What is idealised

    Times, random numbers, camera and screen coordinates are exact rationals:
    rounding of those does not enter the statements.  Distances are compared by
    their squares.  A parsed program is given as cells ([JSON.parse] belongs to the
    language, the texts come from the editor's frame), an answer of the server as a
    typed value; both may be any value of their type.

    ** Not modelled

    Canvas calls beyond the rectangles, pixels, strokes and texts above;
    [resizeCanvas] and the sizes of the document, which are inputs; the event
    listeners of the checkboxes in the page itself; [LightningAnim.GetExemplar], which
    nothing calls; empty bodies ([Respawn], [Interact], [GetFromBox]); and the server,
    which is written in Rust. *)


From Stdlib Require Export ZArith Lia.
From stdpp Require Export base tactics list gmap strings numbers.

#[global] Open Scope Z_scope.

(** ** Typed arrays

    A JavaScript typed array is a list of numbers of fixed length.  A read
    outside [0, length) gives [undefined] ([None]); a write outside it is
    ignored, and a write inside it stores the value modulo the element
    width, as the integer-indexed exotic objects of ECMAScript do. *)

Definition aget (a : list Z) (i : Z) : option Z :=
  if 0 <=? i then a !! Z.to_nat i else None.

(** The conversion a [Uint8Array] applies to every stored number. *)
Definition u8 (v : Z) : Z := v mod 256.

(** The conversion a [Uint32Array] applies to every stored number. *)
Definition u32 (v : Z) : Z := v mod 2 ^ 32.

Definition aset (a : list Z) (i v : Z) : list Z :=
  if 0 <=? i then <[Z.to_nat i := u8 v]> a else a.

(** [new Uint8Array(n)]: n zero bytes. *)
Definition new_Uint8Array (n : Z) : list Z := replicate (Z.to_nat n) 0.

(** A Uint8Array holds bytes only. *)
Definition is_byte (v : Z) : Prop := 0 <= v < 256.

#[global] Instance is_byte_dec (v : Z) : Decision (is_byte v).
Proof. unfold is_byte. apply _. Defined.

(** ** Automation *)

Create Rewrite HintDb arr.
Create HintDb mines.

(** Split every boolean test of the goal and of the hypotheses, and let
    [lia] close what the tests contradict. *)
Ltac split_tests :=
  repeat match goal with
  | |- context [if ?b then _ else _] => destruct b eqn:?
  | H : context [if ?b then _ else _] |- _ => destruct b eqn:?
  end.

(** Boolean comparisons of the hypotheses as propositions; then [lia]. *)
Ltac zprop :=
  repeat match goal with
  | H : (_ <=? _) = true |- _ => apply Z.leb_le in H
  | H : (_ <=? _) = false |- _ => apply Z.leb_gt in H
  | H : (_ <? _) = true |- _ => apply Z.ltb_lt in H
  | H : (_ <? _) = false |- _ => apply Z.ltb_ge in H
  | H : (_ =? _) = true |- _ => apply Z.eqb_eq in H
  | H : (_ =? _) = false |- _ => apply Z.eqb_neq in H
  end.

Ltac zlia := zprop; lia.

Ltac zcrush := split_tests; simplify_eq/=; try lia; try congruence; auto.

(** ** Typed-array lemmas *)

Lemma u8_byte v : is_byte (u8 v).
Proof. unfold is_byte, u8. apply Z.mod_pos_bound. lia. Qed.

Lemma u8_small v : is_byte v -> u8 v = v.
Proof. unfold is_byte, u8. apply Z.mod_small. Qed.

Lemma aget_Some_range a i v : aget a i = Some v -> 0 <= i < Z.of_nat (length a).
Proof.
  unfold aget. destruct (0 <=? i) eqn:E; [|done].
  intros H%lookup_lt_Some. lia.
Qed.

Lemma aget_is_Some a i : 0 <= i < Z.of_nat (length a) -> is_Some (aget a i).
Proof.
  intros H. unfold aget. replace (0 <=? i) with true by lia.
  apply lookup_lt_is_Some. lia.
Qed.

Lemma aget_out a i : ~ (0 <= i < Z.of_nat (length a)) -> aget a i = None.
Proof.
  intros H. unfold aget. destruct (0 <=? i) eqn:E; [|done].
  apply lookup_ge_None. lia.
Qed.

Lemma length_aset a i v : length (aset a i v) = length a.
Proof. unfold aset. destruct (0 <=? i); [apply length_insert | done]. Qed.

Lemma aget_aset_eq a i v :
  0 <= i < Z.of_nat (length a) -> aget (aset a i v) i = Some (u8 v).
Proof.
  intros H. unfold aget, aset. replace (0 <=? i) with true by lia.
  apply list_lookup_insert_eq. lia.
Qed.

Lemma aget_aset_ne a i j v : i <> j -> aget (aset a i v) j = aget a j.
Proof.
  intros H. unfold aget, aset.
  destruct (0 <=? i) eqn:Ei, (0 <=? j) eqn:Ej; try done.
  apply list_lookup_insert_ne. lia.
Qed.

Lemma aset_out a i v : ~ (0 <= i < Z.of_nat (length a)) -> aset a i v = a.
Proof.
  intros H. unfold aset. destruct (0 <=? i) eqn:E; [|done].
  apply list_insert_ge. lia.
Qed.

(** One lookup lemma for every write. *)
Lemma aget_aset a i j v :
  aget (aset a i v) j =
  if (i =? j) && (0 <=? i) && (i <? Z.of_nat (length a)) then Some (u8 v) else aget a j.
Proof.
  destruct (decide (i = j)) as [->|Hne].
  - destruct (decide (0 <= j < Z.of_nat (length a))) as [Hj|Hj].
    + rewrite aget_aset_eq by done.
      replace ((j =? j) && (0 <=? j) && (j <? Z.of_nat (length a))) with true by lia. done.
    + rewrite aset_out by done.
      replace ((j =? j) && (0 <=? j) && (j <? Z.of_nat (length a))) with false by lia. done.
  - rewrite aget_aset_ne by done. replace (i =? j) with false by lia. done.
Qed.

Lemma length_new_Uint8Array n : 0 <= n -> Z.of_nat (length (new_Uint8Array n)) = n.
Proof. intros. unfold new_Uint8Array. rewrite length_replicate. lia. Qed.

Lemma aget_new_Uint8Array n i : 0 <= i < n -> aget (new_Uint8Array n) i = Some 0.
Proof.
  intros. unfold aget, new_Uint8Array. replace (0 <=? i) with true by lia.
  apply lookup_replicate_2. lia.
Qed.

#[export] Hint Rewrite length_aset : arr.
#[export] Hint Rewrite aget_aset_ne using lia : arr.
#[export] Hint Resolve u8_byte : mines.

(** The bytes of an array, as an invariant of its contents. *)
Definition all_bytes (a : list Z) : Prop := Forall is_byte a.

Lemma all_bytes_aset a i v : all_bytes a -> all_bytes (aset a i v).
Proof.
  intros H. unfold aset. destruct (0 <=? i); [|done].
  apply Forall_insert; [done | apply u8_byte].
Qed.

Lemma all_bytes_aget a i v : all_bytes a -> aget a i = Some v -> is_byte v.
Proof.
  unfold aget. destruct (0 <=? i); [|done]. intros H Hi.
  eapply Forall_lookup_1; eauto.
Qed.

Lemma all_bytes_new n : all_bytes (new_Uint8Array n).
Proof. apply Forall_replicate. unfold is_byte. lia. Qed.

#[export] Hint Resolve all_bytes_aset all_bytes_new : mines.

(** ** Loops

    [for (let i = a; i < b; i++)] is a fold over [seqZ a (b - a)]; a loop
    that counts down is a fold over the reversed range. *)

Definition up_to (a b : Z) : list Z := seqZ a (b - a).
Definition down_to (a b : Z) : list Z := reverse (up_to b (a + 1)).

Lemma elem_of_up_to a b i : i ∈ up_to a b <-> a <= i < b.
Proof. unfold up_to. rewrite elem_of_seqZ. lia. Qed.

Lemma elem_of_down_to a b i : i ∈ down_to a b <-> b <= i <= a.
Proof. unfold down_to. rewrite elem_of_reverse, elem_of_up_to. lia. Qed.

(** An invariant of the body is an invariant of the fold. *)
Lemma foldl_invariant {A B} (P : A -> Prop) (f : A -> B -> A) l a :
  P a -> (forall a b, b ∈ l -> P a -> P (f a b)) -> P (foldl f a l).
Proof.
  revert a. induction l as [|b l IH]; intros a Ha Hf; simpl; [done|].
  apply IH; [apply Hf; [left|done] |].
  intros a' b' Hb. apply Hf. by right.
Qed.

(** A preorder that each body step respects relates the two ends of a fold. *)
Lemma foldl_preorder {A B} (R : relation A) `{!PreOrder R} (f : A -> B -> A) l a :
  (forall a b, b ∈ l -> R a (f a b)) -> R a (foldl f a l).
Proof.
  intros Hf. apply (foldl_invariant (fun a' => R a a')); [reflexivity|].
  intros a' b Hb Ha'. etransitivity; [exact Ha' | by apply Hf].
Qed.

(** ** Plain arrays *)

(** [a[i]] of an array: [None] is [undefined]. *)
Definition at_index {A} (l : list A) (i : Z) : option A :=
  if 0 <=? i then l !! Z.to_nat i else None.

Lemma at_index_Some {A} (l : list A) i : 0 <= i < Z.of_nat (length l) -> exists a, at_index l i = Some a.
Proof.
  intros Hi. unfold at_index. replace (0 <=? i) with true by lia. apply lookup_lt_is_Some. lia.
Qed.

Lemma at_index_nat {A} (l : list A) i a :
  at_index l i = Some a -> exists n, i = Z.of_nat n /\ l !! n = Some a.
Proof.
  unfold at_index. destruct (0 <=? i) eqn:E; [|done]. intros H. exists (Z.to_nat i). split; [lia | done].
Qed.

(** ** Errors

    What a JavaScript statement can throw here.  [StringIndex] is not an
    exception of the language: it marks the one place where the value of a
    program cell would leave the modelled type (see Programmator). *)

Inductive JsError := TypeError | ReferenceError | RangeError | StringIndex.

(** ** Row-major indices *)

Lemma index_inj w x1 y1 x2 y2 :
  0 <= x1 < w -> 0 <= x2 < w -> x1 + y1 * w = x2 + y2 * w -> x1 = x2 /\ y1 = y2.
Proof. intros. assert (y1 = y2) by nia. split; nia. Qed.

Lemma index_range w h x y :
  0 <= x < w -> 0 <= y < h -> 0 <= x + y * w < w * h.
Proof. intros. nia. Qed.

(** A boolean property of a range of integers, decided by computation. *)
Lemma range_check (P : Z -> bool) a n :
  forallb P (seqZ a n) = true -> forall v, a <= v < a + n -> P v = true.
Proof.
  intros H v Hv. rewrite forallb_forall in H. apply H.
  by apply list_elem_of_In, elem_of_seqZ.
Qed.

Lemma all_bytes_cons v l : all_bytes (v :: l) <-> is_byte v /\ all_bytes l.
Proof. split; [by inversion 1 | intros [? ?]; by constructor]. Qed.

(** If visiting b establishes P b and every step keeps what was established,
    a fold establishes P for every element it visits. *)
Lemma foldl_establish_in {A B} (I : A -> Prop) (P : B -> A -> Prop) (f : A -> B -> A) l a :
  I a -> (forall a b, b ∈ l -> I a -> I (f a b)) ->
  (forall a b, b ∈ l -> I a -> P b (f a b)) ->
  (forall a b c, b ∈ l -> c ∈ l -> I a -> P c a -> P c (f a b)) ->
  I (foldl f a l) /\ forall b, b ∈ l -> P b (foldl f a l).
Proof.
  intros Ha HI Hest Hkeep. split; [by apply (foldl_invariant I); [|intros; apply HI]|]. intros b.
  assert (forall l', (forall c, c ∈ l' -> c ∈ l) -> forall a, I a -> b ∈ l' -> P b (foldl f a l')) as H; [|by apply H].
  induction l' as [|c l' IH]; intros Hsub a' Ha' Hin; [by apply not_elem_of_nil in Hin|].
  apply elem_of_cons in Hin as [->|Hin]; simpl.
  - apply (foldl_invariant (λ a, I a /\ P c a)).
    + split; [apply HI | apply Hest]; auto using list_elem_of_here.
    + intros a1 b1 Hb [H1 H2]. split; [apply HI | apply Hkeep]; auto using list_elem_of_here, list_elem_of_further.
  - apply IH; auto using list_elem_of_here, list_elem_of_further.
Qed.

Lemma foldl_establish {A B} (I : A -> Prop) (P : B -> A -> Prop) (f : A -> B -> A) l a :
  I a -> (forall a b, I a -> I (f a b)) ->
  (forall a b, I a -> P b (f a b)) ->
  (forall a b c, I a -> P c a -> P c (f a b)) ->
  forall b, b ∈ l -> P b (foldl f a l).
Proof. intros. by apply (foldl_establish_in I P f l a); auto. Qed.

(** The sum of a function of index and value over a list. *)
Fixpoint wsum (f : nat -> Z -> Z) (l : list Z) : Z :=
  match l with [] => 0 | v :: l => f O v + wsum (λ i, f (S i)) l end.

Lemma wsum_insert f l i v old :
  l !! i = Some old -> wsum f (<[i:=v]> l) = wsum f l - f i old + f i v.
Proof.
  revert f i. induction l as [|w l IH]; intros f [|i] H; simplify_eq/=; [lia|].
  rewrite (IH _ i H). lia.
Qed.

Lemma wsum_bounds f l b :
  (forall i v, (i < length l)%nat -> 0 <= f i v <= b) -> 0 <= wsum f l <= b * Z.of_nat (length l).
Proof.
  revert f. induction l as [|w l IH]; intros f H; cbn [wsum length]; [lia|].
  pose proof (H O w ltac:(cbn; lia)). specialize (IH (λ i, f (S i)) ltac:(intros; apply H; cbn; lia)).
  lia.
Qed.
