(* ===== verification/JsNum.v ===== *)
(** * JavaScript numbers

    The number type of the program is IEEE binary64, represented by the
    Standard Library's [spec_float] at precision 53 and exponent bound 1024:
    every operation below rounds as the language does.  Also the integer
    conversions the code uses: [~~x] and [x >> n] go through ToInt32. *)

From S2P Require Import Prelude.
From Stdlib Require Export SpecFloat.
From Stdlib Require Import QArith Qround.
#[local] Open Scope Z_scope.

Definition prec : Z := 53.
Definition emax : Z := 1024.

Definition num := spec_float.

Definition num_of_Z (z : Z) : num := binary_normalize prec emax z 0 false.
Definition num_add : num -> num -> num := SFadd prec emax.
Definition num_sub : num -> num -> num := SFsub prec emax.
Definition num_mul : num -> num -> num := SFmul prec emax.
Definition num_div : num -> num -> num := SFdiv prec emax.
Definition num_eqb : num -> num -> bool := SFeqb.
Definition num_ltb : num -> num -> bool := SFltb.
Definition num_leb : num -> num -> bool := SFleb.

(** The remainder [x % y]: exact, with the sign of the dividend. *)
Definition num_rem (x y : num) : num :=
  match x, y with
  | S754_nan, _ | _, S754_nan => S754_nan
  | S754_infinity _, _ => S754_nan
  | _, S754_zero _ => S754_nan
  | S754_zero s, _ => S754_zero s
  | S754_finite _ _ _, S754_infinity _ => x
  | S754_finite s1 m1 e1, S754_finite _ m2 e2 =>
      let e := Z.min e1 e2 in
      let r := Z.shiftl (Z.pos m1) (e1 - e) mod Z.shiftl (Z.pos m2) (e2 - e) in
      if r =? 0 then S754_zero s1
      else binary_normalize prec emax (cond_Zopp s1 r) e s1
  end.

(** A number is truthy unless it is a zero or NaN. *)
Definition num_truthy (x : num) : bool :=
  match x with S754_zero _ | S754_nan => false | _ => true end.

(** The integer part of a number, rounded towards zero; NaN and the
    infinities give 0. *)
Definition num_trunc (x : num) : Z :=
  match x with
  | S754_finite s m e => cond_Zopp s (Z.shiftl (Z.pos m) e)
  | _ => 0
  end.

(** Wrap an integer to 32 bits, signed. *)
Definition wrap32 (z : Z) : Z := (z + 2 ^ 31) mod 2 ^ 32 - 2 ^ 31.

(** [~~x] on a number. *)
Definition to_int32 (x : num) : Z := wrap32 (num_trunc x).

(** [x >> n] on an integer-valued number. *)
Definition js_shr (x n : Z) : Z := Z.shiftr (wrap32 x) n.

(** [x << n] on an integer-valued number. *)
Definition js_shl (x n : Z) : Z := wrap32 (Z.shiftl (wrap32 x) n).

(** Truncation of a rational towards zero: the integer part [~~] keeps of a
    time or of a coordinate that is modelled as an exact rational. *)
Definition Qtrunc (q : Q) : Z := Z.quot (Qnum q) (Z.pos (Qden q)).

(** ** Width of the conversions *)

Lemma wrap32_range z : - 2 ^ 31 <= wrap32 z < 2 ^ 31.
Proof. unfold wrap32. pose proof (Z.mod_pos_bound (z + 2 ^ 31) (2 ^ 32)). lia. Qed.

Lemma wrap32_small z : - 2 ^ 31 <= z < 2 ^ 31 -> wrap32 z = z.
Proof. intros. unfold wrap32. rewrite Z.mod_small; lia. Qed.

Lemma to_int32_range x : - 2 ^ 31 <= to_int32 x < 2 ^ 31.
Proof. apply wrap32_range. Qed.

Lemma js_shr_small x n : - 2 ^ 31 <= x < 2 ^ 31 -> js_shr x n = Z.shiftr x n.
Proof. intros. unfold js_shr. by rewrite wrap32_small. Qed.

(** The chunk of a coordinate: [x >> 5] is the floor of x / 32. *)
Lemma js_shr_5 x : - 2 ^ 31 <= x < 2 ^ 31 -> js_shr x 5 = x / 32.
Proof. intros. rewrite js_shr_small by done. by rewrite Z.shiftr_div_pow2. Qed.

(** ** Integers as binary64 numbers

    An integer of magnitude below 2^53 has a 53-bit mantissa: conversion is
    exact, so the comparisons and the integer part agree with [Z]. *)

Lemma digits2_pos_spec p :
  2 ^ (Z.pos (digits2_pos p) - 1) <= Z.pos p < 2 ^ Z.pos (digits2_pos p).
Proof.
  induction p as [p IH|p IH|]; cbn [digits2_pos]; rewrite ?Pos2Z.inj_succ.
  - replace (2 ^ Z.succ (Z.pos (digits2_pos p)))
      with (2 * 2 ^ Z.pos (digits2_pos p)) by (rewrite Z.pow_succ_r; lia).
    replace (Z.succ (Z.pos (digits2_pos p)) - 1)
      with (Z.succ (Z.pos (digits2_pos p) - 1)) by lia.
    rewrite Z.pow_succ_r by lia. lia.
  - replace (2 ^ Z.succ (Z.pos (digits2_pos p)))
      with (2 * 2 ^ Z.pos (digits2_pos p)) by (rewrite Z.pow_succ_r; lia).
    replace (Z.succ (Z.pos (digits2_pos p)) - 1)
      with (Z.succ (Z.pos (digits2_pos p) - 1)) by lia.
    rewrite Z.pow_succ_r by lia. lia.
  - simpl. lia.
Qed.

Lemma digits2_pos_unique p d :
  2 ^ (d - 1) <= Z.pos p < 2 ^ d -> Z.pos (digits2_pos p) = d.
Proof.
  intros [H1 H2]. pose proof (digits2_pos_spec p) as [H3 H4].
  assert (0 <= d) as Hd.
  { destruct (decide (0 <= d)); [done|]. rewrite (Z.pow_neg_r 2 d) in H2; lia. }
  assert (d - 1 < Z.pos (digits2_pos p)).
  { apply (Z.pow_lt_mono_r_iff 2); lia. }
  assert (Z.pos (digits2_pos p) - 1 < d); [|lia].
  apply (Z.pow_lt_mono_r_iff 2); lia.
Qed.

Lemma Pos_iter_xO p k : Z.pos (Pos.iter xO p k) = Z.pos p * 2 ^ Z.pos k.
Proof.
  induction k as [|k IH] using Pos.peano_ind.
  - simpl. rewrite Z.pow_1_r. lia.
  - rewrite Pos.iter_succ, Pos2Z.inj_xO, IH, Pos2Z.inj_succ, Z.pow_succ_r by lia. lia.
Qed.

(** The 53-bit mantissa and the exponent of an integer below 2^53. *)
Definition mant (p : positive) : positive * Z :=
  match 53 - Z.pos (digits2_pos p) with
  | Z.pos k => (Pos.iter xO p k, Z.pos (digits2_pos p) - 53)
  | _ => (p, 0)
  end.

Lemma mant_spec p :
  Z.pos p < 2 ^ 53 ->
  let '(m, e) := mant p in
  e = Z.pos (digits2_pos p) - 53 /\ e <= 0 /\ Z.pos m = Z.pos p * 2 ^ (- e) /\
  Z.pos (digits2_pos m) = 53.
Proof.
  intros Hp. unfold mant.
  pose proof (digits2_pos_spec p) as [H1 H2].
  assert (Z.pos (digits2_pos p) - 1 < 53) as Hd.
  { apply (Z.pow_lt_mono_r_iff 2); lia. }
  destruct (53 - Z.pos (digits2_pos p)) as [|k|k] eqn:Ek; [|..|lia].
  - replace (Z.pos (digits2_pos p)) with 53 by lia. simpl. lia.
  - pose proof (Pos_iter_xO p k) as Hm.
    repeat split; [lia| |].
    + rewrite Hm. f_equal. f_equal. lia.
    + apply digits2_pos_unique. rewrite Hm.
      replace (53 - 1) with ((Z.pos (digits2_pos p) - 1) + Z.pos k) by lia.
      replace 53 with (Z.pos (digits2_pos p) + Z.pos k) by lia.
      rewrite !Z.pow_add_r by lia.
      split; [apply Z.mul_le_mono_nonneg_r; lia | apply Z.mul_lt_mono_pos_r; lia].
Qed.

Lemma binary_round_aux_exact s m e :
  Z.pos (digits2_pos m) = 53 -> -1000 <= e <= 0 ->
  binary_round_aux prec emax s (Z.pos m) e loc_Exact = S754_finite s m e.
Proof.
  intros Hm He.
  assert (forall l, shr_fexp prec emax (Z.pos m) e l = (shr_record_of_loc (Z.pos m) l, e)) as Hs.
  { intros l. unfold shr_fexp, Zdigits2. rewrite Hm.
    replace (fexp prec emax (53 + e) - e) with 0; [done|].
    unfold fexp, emin, prec, emax. lia. }
  unfold binary_round_aux. rewrite Hs. cbn [shr_record_of_loc shr_m loc_of_shr_record round_nearest_even].
  rewrite Hs. cbn [shr_record_of_loc shr_m].
  replace (e <=? emax - prec) with true by (unfold emax, prec; lia). done.
Qed.

Lemma binary_round_int s p :
  Z.pos p < 2 ^ 53 ->
  binary_round prec emax s p 0 = S754_finite s (mant p).1 (mant p).2.
Proof.
  intros Hp. pose proof (mant_spec p Hp) as Hmant.
  destruct (mant p) as [m e] eqn:Em. destruct Hmant as (He & Hle & Hm & Hd).
  unfold binary_round.
  replace (fexp prec emax (Z.pos (digits2_pos p) + 0)) with (Z.pos (digits2_pos p) - 53).
  2:{ unfold fexp, emin, prec, emax. lia. }
  unfold mant in Em. unfold shl_align. rewrite Z.sub_0_r.
  destruct (Z.pos (digits2_pos p) - 53) as [|k|k] eqn:Ek.
  - replace (53 - Z.pos (digits2_pos p)) with 0 in Em by lia. simplify_eq/=.
    apply binary_round_aux_exact; lia.
  - lia.
  - replace (53 - Z.pos (digits2_pos p)) with (Z.pos k) in Em by lia. simplify_eq/=.
    apply binary_round_aux_exact; lia.
Qed.

(** Conversion of a safe integer loses nothing. *)
Lemma num_trunc_of_Z z : Z.abs z < 2 ^ 53 -> num_trunc (num_of_Z z) = z.
Proof.
  intros Hz. destruct z as [|p|p]; [done|..];
    unfold num_of_Z, binary_normalize; rewrite binary_round_int by lia;
    pose proof (mant_spec p ltac:(lia)) as Hm;
    destruct (mant p) as [m e]; destruct Hm as (_ & He & Hm & _);
    cbn [num_trunc fst snd cond_Zopp];
    rewrite Hm, Z.shiftl_div_pow2, Z.div_mul by lia; lia.
Qed.

Lemma to_int32_of_Z z : - 2 ^ 31 <= z < 2 ^ 31 -> to_int32 (num_of_Z z) = z.
Proof. intros. unfold to_int32. rewrite num_trunc_of_Z by lia. by apply wrap32_small. Qed.

Lemma mant_compare p q :
  Z.pos p < 2 ^ 53 -> Z.pos q < 2 ^ 53 ->
  match Z.compare (mant p).2 (mant q).2 with
  | Lt => Lt | Gt => Gt | Eq => Pos.compare_cont Eq (mant p).1 (mant q).1
  end = (p ?= q)%positive.
Proof.
  intros Hp Hq. pose proof (mant_spec p Hp) as Mp. pose proof (mant_spec q Hq) as Mq.
  pose proof (digits2_pos_spec p) as [Lp Up]. pose proof (digits2_pos_spec q) as [Lq Uq].
  destruct (mant p) as [mp ep], (mant q) as [mq eq0].
  destruct Mp as (Ep & Lep & Mp & _), Mq as (Eq0 & Leq & Mq & _). cbn [fst snd].
  destruct (Z.compare_spec ep eq0) as [He|He|He].
  - change (Pos.compare_cont Eq mp mq) with (Pos.compare mp mq). 
    change ((Z.pos mp ?= Z.pos mq) = (Z.pos p ?= Z.pos q)).
    rewrite Mp, Mq, He.
    assert (0 < 2 ^ (- eq0)) by (apply Z.pow_pos_nonneg; lia).
    symmetry. apply Zmult_compare_compat_r. lia.
  - symmetry. apply Pos.compare_lt_iff.
    assert (2 ^ Z.pos (digits2_pos p) <= 2 ^ (Z.pos (digits2_pos q) - 1)); [|lia].
    apply Z.pow_le_mono_r; lia.
  - symmetry. apply Pos.compare_gt_iff.
    assert (2 ^ Z.pos (digits2_pos q) <= 2 ^ (Z.pos (digits2_pos p) - 1)); [|lia].
    apply Z.pow_le_mono_r; lia.
Qed.

(** Comparison of safe integers is the comparison of [Z]. *)
Lemma num_compare_of_Z a b :
  Z.abs a < 2 ^ 53 -> Z.abs b < 2 ^ 53 ->
  SFcompare (num_of_Z a) (num_of_Z b) = Some (a ?= b).
Proof.
  intros Ha Hb. destruct a as [|p|p], b as [|q|q]; unfold num_of_Z, binary_normalize;
    rewrite ?binary_round_int by lia; try done; cbn [SFcompare Z.compare]; f_equal.
  - apply mant_compare; lia.
  - pose proof (mant_compare p q ltac:(lia) ltac:(lia)) as <-.
    by destruct (Z.compare _ _).
Qed.

Lemma num_eqb_of_Z a b :
  Z.abs a < 2 ^ 53 -> Z.abs b < 2 ^ 53 -> num_eqb (num_of_Z a) (num_of_Z b) = (a =? b).
Proof.
  intros Ha Hb. unfold num_eqb, SFeqb. rewrite num_compare_of_Z by done.
  unfold Z.eqb. destruct (Z.compare_spec a b) as [->|H|H].
  - symmetry. apply Z.eqb_refl.
  - symmetry. apply Z.eqb_neq. lia.
  - symmetry. apply Z.eqb_neq. lia.
Qed.

Lemma num_ltb_of_Z a b :
  Z.abs a < 2 ^ 53 -> Z.abs b < 2 ^ 53 -> num_ltb (num_of_Z a) (num_of_Z b) = (a <? b).
Proof.
  intros Ha Hb. unfold num_ltb, SFltb. rewrite num_compare_of_Z by done.
  unfold Z.ltb. by destruct (a ?= b).
Qed.

(** ** Chunks

    The world, the buildings and the bots are indexed by chunks of 32x32
    cells: [Math.ceil(w / 32)] chunks in a row, chunk [x >> 5] for column x. *)

Definition ceil32 (w : Z) : Z := - ((- w) / 32).

Lemma ceil32_spec w : w <= 32 * ceil32 w < w + 32.
Proof.
  unfold ceil32. pose proof (Z.mod_pos_bound (- w) 32). pose proof (Z.div_mod (- w) 32). lia.
Qed.

(** A coordinate inside the world lies in one of its chunks. *)
Lemma chunk_in_range x w :
  0 <= x < w -> w <= 2 ^ 31 -> 0 <= js_shr x 5 < ceil32 w.
Proof.
  intros Hx Hw. rewrite js_shr_5 by lia. pose proof (ceil32_spec w).
  split; [apply Z.div_pos; lia|].
  apply Z.div_lt_upper_bound; lia.
Qed.
