(* ===== verification/JsSet.v ===== *)
(** * The ECMAScript [Set] and its iterators

    A [Set] keeps its values in insertion order.  The specification stores
    them in a list in which a deleted value leaves an empty slot, so that an
    iterator, which is an index into that list, survives insertions and
    deletions made while it runs. *)

From S2P Require Import Prelude.

Abbreviation JsSet := (list (option Z)).

Definition set_new : JsSet := [].

Definition set_has (s : JsSet) (v : Z) : bool := bool_decide (Some v ∈ s).

Definition set_add (s : JsSet) (v : Z) : JsSet :=
  if set_has s v then s else s ++ [Some v].

Definition set_delete (s : JsSet) (v : Z) : JsSet :=
  (λ x, if decide (x = Some v) then None else x) <$> s.

Definition set_clear (s : JsSet) : JsSet := (λ _, None) <$> s.

Definition set_size (s : JsSet) : nat := length (omap id s).

(** An iterator: the next index, or [None] once it is exhausted, for good. *)
Abbreviation SetIter := (option nat).

Definition set_iter : SetIter := Some 0%nat.

(** The first non-empty slot of a list, with its offset. *)
Fixpoint first_slot (l : JsSet) (i : nat) : option (Z * nat) :=
  match l with
  | [] => None
  | Some v :: _ => Some (v, i)
  | None :: l => first_slot l (S i)
  end.

(** [iter.next().value]: [None] is [undefined]. *)
Definition set_next (s : JsSet) (it : SetIter) : option Z * SetIter :=
  match it with
  | None => (None, None)
  | Some i =>
      match first_slot (drop i s) i with
      | Some (v, j) => (Some v, Some (S j))
      | None => (None, None)
      end
  end.

(** No value occurs twice. *)
Definition set_wf (s : JsSet) : Prop :=
  forall i j v, s !! i = Some (Some v) -> s !! j = Some (Some v) -> i = j.

Lemma set_has_iff s v : set_has s v = true <-> Some v ∈ s.
Proof. unfold set_has. apply bool_decide_eq_true. Qed.

Lemma set_has_add s v w : set_has (set_add s v) w = true <-> w = v \/ set_has s w = true.
Proof.
  unfold set_add. destruct (set_has s v) eqn:E.
  - split; [by right | intros [->|?]; done].
  - rewrite !set_has_iff, elem_of_app, list_elem_of_singleton.
    split; intros [H|H]; simplify_eq; auto.
Qed.

Lemma set_has_delete s v w :
  set_has (set_delete s v) w = true <-> w <> v /\ set_has s w = true.
Proof.
  unfold set_delete. rewrite !set_has_iff, list_elem_of_fmap. split.
  - intros (x & Hx & Hin). case_decide; simplify_eq. split; [congruence|done].
  - intros [Hne Hin]. exists (Some w). case_decide; [congruence|done].
Qed.

Lemma set_has_clear s v : set_has (set_clear s) v = false.
Proof.
  apply not_true_iff_false. unfold set_clear. rewrite set_has_iff, list_elem_of_fmap.
  by intros (? & ? & ?).
Qed.

Lemma set_add_mono s v w : set_has s w = true -> set_has (set_add s v) w = true.
Proof. rewrite set_has_add. auto. Qed.

Lemma set_wf_add s v : set_wf s -> set_wf (set_add s v).
Proof.
  intros Hwf. unfold set_add. destruct (set_has s v) eqn:E; [done|].
  assert (forall i, s !! i <> Some (Some v)) as Hn.
  { intros i Hi. apply not_true_iff_false in E. apply E. rewrite set_has_iff.
    by eapply list_elem_of_lookup_2. }
  intros i j w Hi Hj.
  apply lookup_app_Some in Hi as [Hi|[Hi1 Hi2]]; apply lookup_app_Some in Hj as [Hj|[Hj1 Hj2]].
  - eauto.
  - apply list_lookup_singleton_Some in Hj2 as [? ?]. simplify_eq. by destruct (Hn i).
  - apply list_lookup_singleton_Some in Hi2 as [? ?]. simplify_eq. by destruct (Hn j).
  - apply list_lookup_singleton_Some in Hj2 as [? ?].
    apply list_lookup_singleton_Some in Hi2 as [? ?]. lia.
Qed.

Lemma set_wf_delete s v : set_wf s -> set_wf (set_delete s v).
Proof.
  intros Hwf i j w Hi Hj. unfold set_delete in *.
  rewrite list_lookup_fmap in Hi, Hj.
  destruct (s !! i) as [x|] eqn:Ei, (s !! j) as [y|] eqn:Ej; simplify_eq/=.
  repeat case_decide; simplify_eq. eapply Hwf; eauto.
Qed.

Lemma first_slot_Some l i v j :
  first_slot l i = Some (v, j) -> (i <= j)%nat /\ l !! (j - i)%nat = Some (Some v).
Proof.
  revert i. induction l as [|[x|] l IH]; intros i H; simplify_eq/=.
  - split; [lia|]. by rewrite Nat.sub_diag.
  - apply IH in H as [? H]. split; [lia|].
    replace (j - i)%nat with (S (j - S i)) by lia. done.
Qed.

Lemma first_slot_None l i : first_slot l i = None -> forall v, Some v ∉ l.
Proof.
  revert i. induction l as [|[x|] l IH]; intros i H v; simplify_eq/=; [set_solver|].
  apply IH with (v := v) in H. set_solver.
Qed.

(** What an iterator yields is in the set. *)
Lemma set_next_has s it v it' : set_next s it = (Some v, it') -> set_has s v = true.
Proof.
  unfold set_next. destruct it as [i|]; [|done].
  destruct (first_slot (drop i s) i) as [[w j]|] eqn:E; [|done].
  intros [= <- _]. apply first_slot_Some in E as [_ E].
  rewrite lookup_drop in E. rewrite set_has_iff. by eapply list_elem_of_lookup_2.
Qed.

(** A fresh iterator yields a value as soon as the set has one. *)
Lemma set_next_fresh s v :
  set_has s v = true -> exists w it, set_next s set_iter = (Some w, it).
Proof.
  intros Hv. unfold set_next, set_iter. rewrite drop_0.
  destruct (first_slot s 0) as [[w j]|] eqn:E; [by eexists _, _|].
  eapply first_slot_None with (v := v) in E. by apply set_has_iff in Hv.
Qed.

#[export] Hint Resolve set_wf_add set_wf_delete set_add_mono : mines.
