(* ===== verification/Blocks.v ===== *)
(** * Blocks: the block statistics and the block codes

    Models [scripts/tables/DataTables.js]: the class [BlockStatistics], the
    table [BlockStats] of 256 entries, [FallType] and the enumeration
    [Block]. *)

From S2P Require Import Prelude.

(** ** Data *)

(** [FallType]: [sand] is 0 and [bolder] is 1 in the source. *)
Inductive FallType := sand | bolder.

#[global] Instance FallType_eq_dec : EqDecision FallType.
Proof. solve_decision. Defined.

Record BlockStatistics := mkBlockStatistics {
  hasdensity : bool;
  hardness : Z;
  replesable : bool;
  cantake : bool;
  solid : bool;
  falltype : option FallType;
  diggablerock : bool;
  damage_fall : Z;
  damage_digg : Z;
  is_alive : bool;
  is_slime : bool;
  is_cry : bool
}.

(** The keys a parameter object may carry. *)
Inductive BSParam :=
  | p_hasdensity (b : bool) | p_hardness (n : Z) | p_replesable (b : bool)
  | p_cantake (b : bool) | p_solid (b : bool) | p_falltype (f : FallType)
  | p_diggablerock (b : bool) | p_damage_fall (n : Z) | p_damage_digg (n : Z)
  | p_is_alive (b : bool) | p_is_slime (b : bool) | p_is_cry (b : bool).

(** [this[key] = params[key]]. *)
Definition SetParam (s : BlockStatistics) (p : BSParam) : BlockStatistics :=
  let (hd, hn, rp, ct, so, ft, dr, df, dd, al, sl, cr) := s in
  match p with
  | p_hasdensity b => mkBlockStatistics b hn rp ct so ft dr df dd al sl cr
  | p_hardness n => mkBlockStatistics hd n rp ct so ft dr df dd al sl cr
  | p_replesable b => mkBlockStatistics hd hn b ct so ft dr df dd al sl cr
  | p_cantake b => mkBlockStatistics hd hn rp b so ft dr df dd al sl cr
  | p_solid b => mkBlockStatistics hd hn rp ct b ft dr df dd al sl cr
  | p_falltype f => mkBlockStatistics hd hn rp ct so (Some f) dr df dd al sl cr
  | p_diggablerock b => mkBlockStatistics hd hn rp ct so ft b df dd al sl cr
  | p_damage_fall n => mkBlockStatistics hd hn rp ct so ft dr n dd al sl cr
  | p_damage_digg n => mkBlockStatistics hd hn rp ct so ft dr df n al sl cr
  | p_is_alive b => mkBlockStatistics hd hn rp ct so ft dr df dd b sl cr
  | p_is_slime b => mkBlockStatistics hd hn rp ct so ft dr df dd al b cr
  | p_is_cry b => mkBlockStatistics hd hn rp ct so ft dr df dd al sl b
  end.

(** [SetParams]: the keys of the object in order. *)
Definition SetParams (s : BlockStatistics) (ps : list BSParam) : BlockStatistics :=
  foldl SetParam s ps.

(** The class fields' initial values. *)
Definition BlockStatistics_fields : BlockStatistics :=
  mkBlockStatistics false (-1) false false false None false 0 0 false false false.

(** [new BlockStatistics(params)]. *)
Definition new_BlockStatistics (ps : list BSParam) : BlockStatistics :=
  SetParams BlockStatistics_fields ps.

Definition basicBS : BlockStatistics := new_BlockStatistics [].

(** The assignments [BlockStats[i] = new BlockStatistics({...})], in order. *)
Definition BlockStats_writes : list (Z * list BSParam) := [
  (30, []);
  (31, []);
  (32, [p_replesable true]);
  (33, [p_replesable true]);
  (34, [p_replesable true]);
  (35, [p_replesable true]);
  (36, []);
  (37, []);
  (38, [p_solid true; p_damage_fall 1000]);
  (39, []);
  (40, [p_hardness 2091; p_cantake true; p_solid true; p_falltype bolder; p_damage_fall 100]);
  (41, [p_hardness 2091; p_cantake true; p_solid true; p_falltype bolder; p_damage_fall 100]);
  (42, [p_hardness 2091; p_cantake true; p_solid true; p_falltype bolder; p_damage_fall 100]);
  (43, [p_hardness 4191; p_cantake true; p_solid true; p_falltype bolder; p_damage_fall 200]);
  (44, [p_hardness 4191; p_cantake true; p_solid true; p_falltype bolder; p_damage_fall 200]);
  (45, [p_hardness 4191; p_cantake true; p_solid true; p_falltype bolder; p_damage_fall 200]);
  (48, [p_hasdensity true; p_hardness 741; p_solid true; p_damage_fall 10]);
  (49, [p_hasdensity false; p_hardness 0; p_solid true; p_damage_fall 1]);
  (50, [p_hardness 2091; p_cantake true; p_solid true; p_is_alive true; p_damage_fall 200]);
  (51, [p_hardness 2091; p_cantake true; p_solid true; p_is_alive true; p_damage_fall 100]);
  (52, [p_hardness 2091; p_cantake true; p_solid true; p_is_alive true; p_damage_fall 200]);
  (53, [p_hardness 2091; p_cantake true; p_solid true; p_is_alive true; p_damage_fall 200]);
  (54, [p_hardness 2091; p_cantake true; p_solid true; p_is_alive true; p_damage_fall 100]);
  (55, [p_hardness 2091; p_cantake true; p_solid true; p_is_alive true; p_damage_fall 300]);
  (60, [p_hardness 201; p_replesable true; p_cantake true; p_solid true; p_falltype sand; p_damage_fall 10]);
  (61, [p_hardness 201; p_replesable true; p_cantake true; p_solid true; p_falltype sand; p_damage_fall 10]);
  (62, [p_hardness 411; p_replesable true; p_cantake true; p_solid true; p_falltype sand; p_damage_fall 15]);
  (63, [p_hardness 411; p_replesable true; p_cantake true; p_solid true; p_falltype sand; p_damage_fall 15]);
  (64, [p_hardness 831; p_replesable true; p_cantake true; p_solid true; p_falltype sand; p_damage_fall 17]);
  (65, [p_hardness 831; p_replesable true; p_cantake true; p_solid true; p_falltype sand; p_damage_fall 17]);
  (66, [p_hardness 152; p_solid true; p_falltype sand; p_is_slime true; p_damage_fall 100; p_damage_digg 50]);
  (67, [p_hardness 341; p_solid true; p_falltype sand; p_is_slime true; p_damage_fall 200; p_damage_digg 200]);
  (68, [p_hardness 341; p_solid true; p_falltype sand; p_is_slime true; p_damage_fall 350]);
  (71, [p_hasdensity true; p_hardness 96; p_cantake true; p_solid true; p_is_cry true; p_damage_fall 100]);
  (72, [p_hasdensity true; p_hardness 131; p_cantake true; p_solid true; p_is_cry true; p_damage_fall 100]);
  (73, [p_hasdensity true; p_hardness 201; p_cantake true; p_solid true; p_is_cry true; p_damage_fall 100]);
  (74, [p_hasdensity true; p_hardness 411; p_cantake true; p_solid true; p_is_cry true; p_damage_fall 100]);
  (75, [p_hasdensity true; p_hardness 224; p_cantake true; p_solid true; p_is_cry true; p_damage_fall 100]);
  (80, [p_solid true; p_damage_fall 10; p_damage_digg 2]);
  (81, [p_hasdensity true; p_hardness 66; p_solid true; p_damage_digg 20; p_damage_fall 100]);
  (82, [p_hardness 66; p_cantake true; p_solid true; p_falltype sand; p_is_slime true; p_damage_digg 1; p_damage_fall 20]);
  (86, [p_hardness 68; p_solid true; p_falltype sand; p_is_slime true; p_damage_digg 10; p_damage_fall 20]);
  (90, [p_solid true]);
  (91, [p_hardness 43; p_cantake true; p_solid true; p_falltype sand; p_damage_fall 100]);
  (92, [p_hardness 1041; p_cantake true; p_solid true; p_falltype bolder; p_damage_fall 110]);
  (93, [p_hardness 1041; p_cantake true; p_solid true; p_falltype bolder; p_damage_fall 110]);
  (94, [p_hardness 1041; p_cantake true; p_solid true; p_falltype bolder; p_damage_fall 110]);
  (97, [p_hardness 96; p_replesable true; p_cantake true; p_solid true; p_falltype sand; p_damage_fall 10]);
  (98, [p_hardness 96; p_replesable true; p_cantake true; p_solid true; p_falltype sand; p_damage_fall 10]);
  (99, [p_hardness 43; p_replesable true; p_cantake true; p_solid true; p_falltype sand; p_damage_fall 2]);
  (100, [p_hardness 43; p_replesable true; p_cantake true; p_solid true; p_falltype sand; p_damage_fall 2]);
  (101, [p_hasdensity true; p_hardness 66; p_solid true; p_damage_fall 10]);
  (102, [p_hasdensity true; p_hardness 91; p_solid true; p_damage_fall 10]);
  (103, [p_hardness 43; p_solid true; p_diggablerock true; p_damage_fall 10]);
  (104, [p_solid true; p_damage_fall 10000]);
  (105, [p_hasdensity true; p_hardness 391; p_solid true; p_damage_fall 10]);
  (106, [p_solid true; p_damage_fall 10000]);
  (107, [p_hasdensity true; p_hardness 14; p_cantake true; p_solid true; p_is_cry true; p_damage_fall 50]);
  (108, [p_hasdensity true; p_hardness 96; p_cantake true; p_solid true; p_is_cry true; p_damage_fall 50]);
  (109, [p_hasdensity true; p_hardness 61; p_cantake true; p_solid true; p_is_cry true; p_damage_fall 50]);
  (110, [p_hasdensity true; p_hardness 61; p_cantake true; p_solid true; p_is_cry true; p_damage_fall 50]);
  (111, [p_hasdensity true; p_hardness 61; p_cantake true; p_solid true; p_is_cry true; p_damage_fall 50]);
  (112, [p_hasdensity true; p_hardness 61; p_cantake true; p_solid true; p_is_cry true; p_damage_fall 50]);
  (113, [p_hardness 306; p_solid true; p_diggablerock true; p_damage_fall 10]);
  (114, [p_solid true; p_damage_fall 500]);
  (115, [p_solid true; p_damage_fall 500]);
  (116, [p_hardness 1041; p_cantake true; p_solid true; p_is_alive true; p_damage_fall 50]);
  (117, [p_solid true; p_damage_fall 1000]);
  (118, [p_hardness 516; p_solid true; p_replesable false; p_diggablerock true; p_is_slime true; p_damage_fall 10; p_damage_digg 5]);
  (119, [p_solid true; p_cantake true; p_damage_fall 500]);
  (120, [p_hardness 1881; p_solid true; p_diggablerock true; p_damage_fall 50]);
  (121, [p_hardness 3666; p_solid true; p_diggablerock true; p_damage_fall 70]);
  (122, [p_hardness 73491; p_solid true; p_diggablerock true; p_damage_fall 90])
].

(** The table: 256 shared default entries, then the assignments. *)
Definition BlockStats : list BlockStatistics :=
  foldl (λ t '(i, ps), <[Z.to_nat i := new_BlockStatistics ps]> t)
    (replicate 256 basicBS) BlockStats_writes.

(** [BlockStats[id]] for a byte [id]; every id the program looks up comes
    from a byte array or from the enumeration below. *)
Definition stats (id : Z) : BlockStatistics :=
  default basicBS (BlockStats !! Z.to_nat id).

(** The enumeration [Block]: its keys, and the code of each. *)
Inductive BlockName :=
  | B_empty | B_gate | B_vulk | B_ground0 | B_ground1 | B_ground2 | B_road
  | B_g_road | B_build_entry | B_build_corner | B_poly | B_bolder_black0
  | B_bolder_black1 | B_bolder_black2 | B_bolder_metal0 | B_bolder_metal1
  | B_bolder_metal2 | B_block_quadro | B_block_support | B_alive_cyan
  | B_alive_red | B_alive_vio | B_alive_black | B_alive_white | B_alive_reinbow
  | B_sand_white0 | B_sand_white1 | B_sand_red0 | B_sand_red1 | B_sand_grey0
  | B_sand_grey1 | B_slime_white | B_slime_vio | B_slime_perl | B_cry_x_green
  | B_cry_x_blue | B_cry_x_red | B_cry_x_cyan | B_cry_x_ | B_block_war_constr
  | B_block_war | B_slime_war | B_slime_yellow | B_box | B_magma
  | B_bolder_grey0 | B_bolder_grey1 | B_bolder_grey2 | B_sand_blue0
  | B_sand_blue1 | B_sand_yellow0 | B_sand_yellow | B_block_green
  | B_block_yellow | B_rock_vio | B_block_fed | B_block_red | B_build_frame
  | B_cry_green | B_cry_red | B_cry_blue | B_cry_vio | B_cry_white | B_cry_cyan
  | B_rock_blue | B_rock_black | B_rock_black_green | B_alive_blue | B_rock_red
  | B_rock_acid | B_rock_hypno | B_rock_golden | B_rock_green | B_rock_shit.

Definition Block (b : BlockName) : Z :=
  match b with
  | B_empty => 0
  | B_gate => 30
  | B_vulk => 31
  | B_ground0 => 32
  | B_ground1 => 33
  | B_ground2 => 34
  | B_road => 35
  | B_g_road => 36
  | B_build_entry => 37
  | B_build_corner => 38
  | B_poly => 39
  | B_bolder_black0 => 40
  | B_bolder_black1 => 41
  | B_bolder_black2 => 42
  | B_bolder_metal0 => 43
  | B_bolder_metal1 => 44
  | B_bolder_metal2 => 45
  | B_block_quadro => 48
  | B_block_support => 49
  | B_alive_cyan => 50
  | B_alive_red => 51
  | B_alive_vio => 52
  | B_alive_black => 53
  | B_alive_white => 54
  | B_alive_reinbow => 55
  | B_sand_white0 => 60
  | B_sand_white1 => 61
  | B_sand_red0 => 62
  | B_sand_red1 => 63
  | B_sand_grey0 => 64
  | B_sand_grey1 => 65
  | B_slime_white => 66
  | B_slime_vio => 67
  | B_slime_perl => 68
  | B_cry_x_green => 71
  | B_cry_x_blue => 72
  | B_cry_x_red => 73
  | B_cry_x_cyan => 74
  | B_cry_x_ => 75
  | B_block_war_constr => 80
  | B_block_war => 81
  | B_slime_war => 82
  | B_slime_yellow => 86
  | B_box => 90
  | B_magma => 91
  | B_bolder_grey0 => 92
  | B_bolder_grey1 => 93
  | B_bolder_grey2 => 94
  | B_sand_blue0 => 97
  | B_sand_blue1 => 98
  | B_sand_yellow0 => 99
  | B_sand_yellow => 100
  | B_block_green => 101
  | B_block_yellow => 102
  | B_rock_vio => 103
  | B_block_fed => 104
  | B_block_red => 105
  | B_build_frame => 106
  | B_cry_green => 107
  | B_cry_red => 108
  | B_cry_blue => 109
  | B_cry_vio => 110
  | B_cry_white => 111
  | B_cry_cyan => 112
  | B_rock_blue => 113
  | B_rock_black => 114
  | B_rock_black_green => 115
  | B_alive_blue => 116
  | B_rock_red => 117
  | B_rock_acid => 118
  | B_rock_hypno => 119
  | B_rock_golden => 120
  | B_rock_green => 121
  | B_rock_shit => 122
  end.

Definition all_blocks : list BlockName := [
  B_empty; B_gate; B_vulk; B_ground0; B_ground1; B_ground2; B_road;
  B_g_road; B_build_entry; B_build_corner; B_poly; B_bolder_black0;
  B_bolder_black1; B_bolder_black2; B_bolder_metal0; B_bolder_metal1;
  B_bolder_metal2; B_block_quadro; B_block_support; B_alive_cyan;
  B_alive_red; B_alive_vio; B_alive_black; B_alive_white; B_alive_reinbow;
  B_sand_white0; B_sand_white1; B_sand_red0; B_sand_red1; B_sand_grey0;
  B_sand_grey1; B_slime_white; B_slime_vio; B_slime_perl; B_cry_x_green;
  B_cry_x_blue; B_cry_x_red; B_cry_x_cyan; B_cry_x_; B_block_war_constr;
  B_block_war; B_slime_war; B_slime_yellow; B_box; B_magma; B_bolder_grey0;
  B_bolder_grey1; B_bolder_grey2; B_sand_blue0; B_sand_blue1;
  B_sand_yellow0; B_sand_yellow; B_block_green; B_block_yellow; B_rock_vio;
  B_block_fed; B_block_red; B_build_frame; B_cry_green; B_cry_red;
  B_cry_blue; B_cry_vio; B_cry_white; B_cry_cyan; B_rock_blue; B_rock_black;
  B_rock_black_green; B_alive_blue; B_rock_red; B_rock_acid; B_rock_hypno;
  B_rock_golden; B_rock_green; B_rock_shit].

Coercion Block : BlockName >-> Z.

(** ** Facts of the table *)

(** A boolean property of every byte's entry, decided by computation. *)
Lemma stats_check (P : Z -> BlockStatistics -> bool) :
  forallb (λ i, P i (stats i)) (seqZ 0 256) = true ->
  forall id, is_byte id -> P id (stats id) = true.
Proof.
  intros H id Hid. apply (range_check (λ i, P i (stats i)) 0 256); [done|].
  unfold is_byte in Hid. lia.
Qed.

Ltac table_fact P id Hb H :=
  pose proof (stats_check P ltac:(vm_compute; reflexivity) id Hb) as H; cbv beta in H.

(** Whatever falls is a solid block without density that is not alive. *)
Lemma falling_stats id f :
  is_byte id -> falltype (stats id) = Some f ->
  solid (stats id) = true /\ hasdensity (stats id) = false /\ is_alive (stats id) = false.
Proof.
  intros Hb Hf.
  table_fact (λ (_ : Z) s, match falltype s with None => true | Some _ =>
    solid s && negb (hasdensity s) && negb (is_alive s) end) id Hb H.
  rewrite Hf in H.
  destruct (solid _), (hasdensity _), (is_alive _); done.
Qed.

Lemma alive_solid id : is_byte id -> is_alive (stats id) = true -> solid (stats id) = true.
Proof.
  intros Hb Ha.
  table_fact (λ (_ : Z) s, negb (is_alive s) || solid s) id Hb H.
  by rewrite Ha in H.
Qed.

(** Crystals are solid, diggable and keep a density. *)
Lemma crystal_stats id :
  is_byte id -> is_cry (stats id) = true ->
  solid (stats id) = true /\ hasdensity (stats id) = true /\ 0 <= hardness (stats id).
Proof.
  intros Hb Hc.
  table_fact (λ (_ : Z) s, negb (is_cry s) ||
    (solid s && hasdensity s && (0 <=? hardness s))) id Hb H.
  rewrite Hc in H. simpl in H.
  destruct (solid _), (hasdensity _); try done. simpl in H. lia.
Qed.

Lemma stats_0 : stats 0 = basicBS.
Proof. vm_compute. reflexivity. Qed.

Lemma Block_byte b : is_byte (Block b).
Proof. destruct b; cbn; unfold is_byte; lia. Qed.

(** The codes of the enumeration are pairwise different. *)
Lemma Block_inj a b : Block a = Block b -> a = b.
Proof. destruct a, b; cbn; congruence. Qed.

#[export] Hint Resolve Block_byte : mines.
