(* ===== verification/Host.v ===== *)
(** * The host: the clock and the random numbers

    [performance.now()] and [Math.random()] belong to the host, so the model
    keeps them as two streams with a cursor each: every call consumes one
    element.  A time and a random number are exact rationals. *)

From S2P Require Import Prelude JsNum.
From Stdlib Require Export QArith Qround.
#[global] Open Scope Z_scope.

Record Host := mkHost {
  clock : nat -> Q;
  random : nat -> Q;
  nclock : nat;
  nrandom : nat
}.

(** [performance.now()]. *)
Definition performance_now (h : Host) : Q * Host :=
  (clock h (nclock h), mkHost (clock h) (random h) (S (nclock h)) (nrandom h)).

(** [Math.random()]. *)
Definition Math_random (h : Host) : Q * Host :=
  (random h (nrandom h), mkHost (clock h) (random h) (nclock h) (S (nrandom h))).

(** [RandInt(min, max)] of usefuladitions.js:
    [min + Math.floor(Math.random() * (max + 1 - min))]. *)
Definition RandInt (min max : Z) (h : Host) : Z * Host :=
  let '(r, h) := Math_random h in
  (min + Qfloor (r * inject_Z (max + 1 - min)), h).

(** What the language promises of the two streams: the clock does not run
    backwards and a random number is in [0, 1). *)
Record Host_ok (h : Host) : Prop := {
  clock_mono : forall n, (clock h n <= clock h (S n))%Q;
  random_range : forall n, (0 <= random h n < 1)%Q
}.

(** A host with a constant clock and a constant random number. *)
Definition const_host (t r : Q) : Host := mkHost (λ _, t) (λ _, r) 0 0.

Lemma const_host_ok t r : (0 <= r < 1)%Q -> Host_ok (const_host t r).
Proof. split; intros; simpl; [apply Qle_refl | done]. Qed.

(** Calls advance the cursors and keep the streams. *)
Definition same_streams (h h' : Host) : Prop :=
  clock h' = clock h /\ random h' = random h /\
  (nclock h <= nclock h')%nat /\ (nrandom h <= nrandom h')%nat.

#[global] Instance same_streams_preorder : PreOrder same_streams.
Proof.
  split.
  - intros h. unfold same_streams. auto.
  - intros h1 h2 h3 (?&?&?&?) (?&?&?&?). unfold same_streams.
    repeat split; [congruence|congruence|lia|lia].
Qed.

Lemma same_streams_ok h h' : same_streams h h' -> Host_ok h -> Host_ok h'.
Proof. intros (E1&E2&_) [Hc Hr]. split; intros; rewrite ?E1, ?E2; auto. Qed.

Lemma performance_now_streams h : same_streams h (performance_now h).2.
Proof. unfold same_streams. simpl. auto. Qed.

Lemma RandInt_streams lo hi h : same_streams h (RandInt lo hi h).2.
Proof. unfold same_streams. simpl. auto. Qed.

#[export] Hint Resolve performance_now_streams RandInt_streams : mines.

(** [RandInt] stays between its bounds, both included. *)
Lemma RandInt_range lo hi h :
  Host_ok h -> lo <= hi -> lo <= (RandInt lo hi h).1 <= hi.
Proof.
  intros [_ Hr] Hle. specialize (Hr (nrandom h)) as [H0 H1].
  unfold RandInt, Math_random. cbn [fst].
  set (r := random h (nrandom h)) in *.
  set (n := hi + 1 - lo). assert (0 < n) by lia.
  assert (0 <= r * inject_Z n)%Q as Hlow.
  { apply Qmult_le_0_compat; [done|]. change 0%Q with (inject_Z 0). rewrite <- Zle_Qle. lia. }
  assert (r * inject_Z n < inject_Z n)%Q as Hup.
  { rewrite <- (Qmult_1_l (inject_Z n)) at 2. apply Qmult_lt_r; [|done].
    change 0%Q with (inject_Z 0). by rewrite <- Zlt_Qlt. }
  split.
  - pose proof (Qfloor_resp_le _ _ Hlow) as H2. change (Qfloor 0) with 0 in H2. lia.
  - pose proof (Qle_lt_trans _ _ _ (Qfloor_le (r * inject_Z n)) Hup) as H2.
    rewrite <- Zlt_Qlt in H2. lia.
Qed.
