(* ===== verification/PacksContainer.v ===== *)
(** * The container of buildings

    Models [class PacksContainer] of [scripts/entitys/packs.js]: buildings
    are found by the world coordinates of their entries, chunk by chunk.  A
    building is an object reference, here its identity, a number. *)

From S2P Require Import Prelude JsNum.

Abbreviation PackRef := Z.

Record PacksContainer := mkPacksContainer {
  pc_width : Z;
  pc_height : Z;
  pc_chunk_width : Z;
  pc_chunk_height : Z;
  pc_length : Z;
  pc_chunks_count : Z;
  (** [chunks]: an array of [Map<Number, Pack>], the missing ones undefined. *)
  pc_chunks : gmap Z (gmap Z PackRef)
}.

(** [constructor(width, height)]. *)
Definition new_PacksContainer (w h : Z) : PacksContainer :=
  mkPacksContainer w h (ceil32 w) (ceil32 h) (w * h) (ceil32 w * ceil32 h) ∅.

Definition pc_inside (c : PacksContainer) (x y : Z) : bool :=
  (0 <=? x) && (x <? pc_width c) && (0 <=? y) && (y <? pc_height c).

(** The chunk index and the key of a cell. *)
Definition pc_cindex (c : PacksContainer) (x y : Z) : Z :=
  js_shr x 5 + js_shr y 5 * pc_chunk_width c.
Definition pc_key (c : PacksContainer) (x y : Z) : Z := x + y * pc_width c.

(** [Get(x, y)]: [None] is [undefined]. *)
Definition pc_Get (c : PacksContainer) (x y : Z) : option PackRef :=
  if pc_inside c x y then
    match pc_chunks c !! pc_cindex c x y with
    | Some chunk => chunk !! pc_key c x y
    | None => None
    end
  else None.

Definition with_pc_chunks (c : PacksContainer) (cs : gmap Z (gmap Z PackRef)) : PacksContainer :=
  mkPacksContainer (pc_width c) (pc_height c) (pc_chunk_width c) (pc_chunk_height c)
    (pc_length c) (pc_chunks_count c) cs.

(** [Set(pack, x, y)]: an occupied cell keeps its building. *)
Definition pc_Set (c : PacksContainer) (pack : PackRef) (x y : Z) : PacksContainer :=
  if pc_inside c x y then
    let index := pc_key c x y in
    let cindex := pc_cindex c x y in
    match pc_chunks c !! cindex with
    | Some chunk =>
        match chunk !! index with
        | Some _ => c
        | None => with_pc_chunks c (<[cindex := <[index := pack]> chunk]> (pc_chunks c))
        end
    | None => with_pc_chunks c (<[cindex := {[index := pack]}]> (pc_chunks c))
    end
  else c.

(** [GetChunk(cx, cy)]: outside the container the warning reads the
    undeclared names [x] and [y], which throws. *)
Definition pc_GetChunk (c : PacksContainer) (cx cy : Z) : JsError + option (gmap Z PackRef) :=
  if (0 <=? cx) && (cx <? pc_chunk_width c) && (0 <=? cy) && (cy <? pc_chunk_height c)
  then inr (pc_chunks c !! (cx + cy * pc_chunk_width c))
  else inl ReferenceError.

(** ** Lemmas *)

Lemma pc_Set_width c p x y : pc_width (pc_Set c p x y) = pc_width c.
Proof. unfold pc_Set. repeat case_match; done. Qed.

Lemma pc_Set_inside c p x y x' y' : pc_inside (pc_Set c p x y) x' y' = pc_inside c x' y'.
Proof. unfold pc_Set. repeat case_match; done. Qed.

Lemma pc_Set_key c p x y x' y' : pc_key (pc_Set c p x y) x' y' = pc_key c x' y'.
Proof. unfold pc_Set. repeat case_match; done. Qed.

Lemma pc_Set_cindex c p x y x' y' : pc_cindex (pc_Set c p x y) x' y' = pc_cindex c x' y'.
Proof. unfold pc_Set. repeat case_match; done. Qed.

Lemma pc_key_inj c x y x' y' :
  pc_inside c x y = true -> pc_inside c x' y' = true ->
  pc_key c x y = pc_key c x' y' -> x = x' /\ y = y'.
Proof. unfold pc_inside, pc_key. intros. apply (index_inj (pc_width c)); lia. Qed.

(** The building stored at a free cell of the world is the one that is found
    there, and no other cell changes. *)
Lemma pc_Get_Set c p x y x' y' :
  pc_inside c x y = true -> pc_Get c x y = None ->
  pc_Get (pc_Set c p x y) x' y' =
  if decide (x' = x /\ y' = y) then Some p else pc_Get c x' y'.
Proof.
  intros Hin Hfree. unfold pc_Get at 1.
  rewrite pc_Set_inside, pc_Set_key, pc_Set_cindex.
  destruct (pc_inside c x' y') eqn:Hin'.
  2:{ case_decide as H; [destruct H; congruence|]. unfold pc_Get. by rewrite Hin'. }
  unfold pc_Get in *. rewrite Hin in Hfree. rewrite Hin'.
  unfold pc_Set. rewrite Hin.
  destruct (pc_chunks c !! pc_cindex c x y) as [chunk|] eqn:Ec; [rewrite Hfree|];
    cbn [pc_chunks with_pc_chunks];
    (destruct (decide (pc_cindex c x y = pc_cindex c x' y')) as [E|E];
      [rewrite <- E, lookup_insert_eq | rewrite lookup_insert_ne by done]).
  - destruct (decide (pc_key c x y = pc_key c x' y')) as [E'|E'].
    + rewrite <- E', lookup_insert_eq. apply pc_key_inj in E' as [-> ->]; [|done..].
      by rewrite decide_True.
    + rewrite lookup_insert_ne by done. rewrite Ec. rewrite decide_False; [done|].
      intros [-> ->]. done.
  - rewrite decide_False; [done|]. intros [-> ->]. done.
  - destruct (decide (pc_key c x y = pc_key c x' y')) as [E'|E'].
    + rewrite <- E', lookup_singleton_eq. apply pc_key_inj in E' as [-> ->]; [|done..].
      by rewrite decide_True.
    + rewrite lookup_singleton_ne by done. rewrite Ec. rewrite decide_False; [done|].
      intros [-> ->]. done.
  - rewrite decide_False; [done|]. intros [-> ->]. done.
Qed.

(** An occupied cell keeps its building. *)
Lemma pc_Set_occupied c p x y q :
  pc_Get c x y = Some q -> pc_Set c p x y = c.
Proof.
  unfold pc_Get, pc_Set. destruct (pc_inside c x y); [|done].
  destruct (pc_chunks c !! _) as [chunk|]; [|done]. by intros ->.
Qed.
