(* ===== verification/WMap.v ===== *)
(** * The world map

    Models [class WorldMap] of [scripts/wmap.js]: three byte arrays of
    width * height cells (solid blocks, background, density), the set of the
    indices of living blocks, and the operations on them. *)

From S2P Require Import Prelude JsNum JsSet Blocks Host PacksContainer.

(** ** State *)

Record WorldMap := mkWorldMap {
  width : Z;
  height : Z;
  chunkWidth : Z;
  chunkHeight : Z;
  terrain : list Z;
  background : list Z;
  blocksMeta : list Z;
  packContainer : PacksContainer;
  (** whether [geoPhisics] has been created (and its timers started) *)
  geoPhisics : bool;
  activeChunks : list Z;
  alivesList : JsSet
}.

Definition with_terrain (t : list Z) (m : WorldMap) : WorldMap :=
  mkWorldMap (width m) (height m) (chunkWidth m) (chunkHeight m) t (background m)
    (blocksMeta m) (packContainer m) (geoPhisics m) (activeChunks m) (alivesList m).
Definition with_background (b : list Z) (m : WorldMap) : WorldMap :=
  mkWorldMap (width m) (height m) (chunkWidth m) (chunkHeight m) (terrain m) b
    (blocksMeta m) (packContainer m) (geoPhisics m) (activeChunks m) (alivesList m).
Definition with_blocksMeta (d : list Z) (m : WorldMap) : WorldMap :=
  mkWorldMap (width m) (height m) (chunkWidth m) (chunkHeight m) (terrain m) (background m)
    d (packContainer m) (geoPhisics m) (activeChunks m) (alivesList m).
Definition with_alivesList (s : JsSet) (m : WorldMap) : WorldMap :=
  mkWorldMap (width m) (height m) (chunkWidth m) (chunkHeight m) (terrain m) (background m)
    (blocksMeta m) (packContainer m) (geoPhisics m) (activeChunks m) s.
Definition with_activeChunks (c : list Z) (m : WorldMap) : WorldMap :=
  mkWorldMap (width m) (height m) (chunkWidth m) (chunkHeight m) (terrain m) (background m)
    (blocksMeta m) (packContainer m) (geoPhisics m) c (alivesList m).

(** ** Operations *)

Definition ValidCoords (m : WorldMap) (x y : Z) : bool :=
  (0 <=? x) && (x <? width m) && (0 <=? y) && (y <? height m).

(** The index of a cell. *)
Definition idx (m : WorldMap) (x y : Z) : Z := x + y * width m.

(** A cell read at an index known to be in range. *)
Definition cell (a : list Z) (i : Z) : Z := default 0 (aget a i).

Definition _SetTile (i id density : Z) (m : WorldMap) : WorldMap :=
  if solid (stats id) then
    let m := if is_alive (stats id) then with_alivesList (set_add (alivesList m) i) m else m in
    let m := with_terrain (aset (terrain m) i id) m in
    with_blocksMeta (aset (blocksMeta m) i (if hasdensity (stats id) then density else 0)) m
  else with_background (aset (background m) i id) m.

Definition SetTileWithCoords (x y id density : Z) (m : WorldMap) : WorldMap :=
  if ValidCoords m x y then _SetTile (idx m x y) id density m else m.

Definition SetTileWithIndex (i id density : Z) (m : WorldMap) : WorldMap :=
  if i <? Z.of_nat (length (terrain m)) then _SetTile i id density m else m.

(** [Fill] with a single block. *)
Definition Fill (id : Z) (m : WorldMap) : WorldMap :=
  foldl (λ m i,
    if solid (stats id) then with_terrain (aset (terrain m) i id) m
    else with_background (aset (background m) i id) m)
    m (up_to 0 (Z.of_nat (length (terrain m)))).

(** [Fill] with a list of blocks: each cell gets a random one of them. *)
Definition FillRandom (ids : list Z) (m : WorldMap) (h : Host) : WorldMap * Host :=
  foldl (λ '(m, h) i,
    let '(r, h) := Math_random h in
    let selectedID := cell ids (Qfloor (r * inject_Z (Z.of_nat (length ids)))) in
    (if solid (stats selectedID) then with_terrain (aset (terrain m) i selectedID) m
     else with_background (aset (background m) i selectedID) m, h))
    (m, h) (up_to 0 (Z.of_nat (length (terrain m)))).

(** [Resyze(w, h)] for w, h >= 0: new arrays, an empty set, ground everywhere. *)
Definition Resyze (w h : Z) (m : WorldMap) : WorldMap :=
  let m := mkWorldMap w h (ceil32 w) (ceil32 h)
    (new_Uint8Array (w * h)) (new_Uint8Array (w * h)) (new_Uint8Array (w * h))
    (new_PacksContainer w h) true
    (new_Uint8Array (ceil32 w * ceil32 h)) (set_clear (alivesList m)) in
  Fill (Block B_ground0) m.

(** The fields before the constructor runs, and [new WorldMap(w, h)]. *)
Definition WorldMap_fields : WorldMap :=
  mkWorldMap 0 0 0 0 [] [] [] (new_PacksContainer 0 0) false [] set_new.
Definition new_WorldMap (w h : Z) : WorldMap := Resyze w h WorldMap_fields.

Definition ClearTile (x y : Z) (clearBackground : bool) (m : WorldMap) : WorldMap :=
  let i := idx m x y in
  let m := with_terrain (aset (terrain m) i 0) m in
  let m := if clearBackground
           then with_background (aset (background m) i (Block B_road)) m else m in
  with_blocksMeta (aset (blocksMeta m) i 0) m.

Definition FillRect (id xs ys w h : Z) (m : WorldMap) : WorldMap :=
  foldl (λ m y, foldl (λ m x, SetTileWithCoords x y id 0 m) m (up_to xs (xs + w)))
    m (up_to ys (ys + h)).

Definition ClearRect (xs ys w h : Z) (m : WorldMap) : WorldMap :=
  foldl (λ m y, foldl (λ m x, ClearTile x y true m) m (up_to xs (xs + w)))
    m (up_to ys (ys + h)).

Definition SetDensity (x y density : Z) (m : WorldMap) : WorldMap :=
  if ValidCoords m x y
  then with_blocksMeta (aset (blocksMeta m) (idx m x y) density) m else m.

Definition GetDensity (m : WorldMap) (x y : Z) : Z :=
  if ValidCoords m x y then cell (blocksMeta m) (idx m x y) else 0.

(** No bounds test: outside the array the density reads [undefined], which is
    not greater than 0, and the writes of the other branch are ignored. *)
Definition DiggTile (x y : Z) (m : WorldMap) : WorldMap :=
  let i := idx m x y in
  let d := aget (blocksMeta m) i in
  if (match d with Some d => 0 <? d | None => false end) then
    with_blocksMeta (aset (blocksMeta m) i (default 0 d - 1)) m
  else
    let m := with_terrain (aset (terrain m) i 0) m in
    with_blocksMeta (aset (blocksMeta m) i 0) m.

(** The solid block of a cell, or its background; 104 outside the world. *)
Definition GetIDByCoord (m : WorldMap) (x y : Z) : Z :=
  if ValidCoords m x y then
    let index := idx m x y in
    let tid := cell (terrain m) index in
    if negb (tid =? 0) && solid (stats tid) then tid else cell (background m) index
  else 104.

Definition GetIDByCoord_Terrain (m : WorldMap) (x y : Z) : Z :=
  if ValidCoords m x y then cell (terrain m) (idx m x y) else 104.

(** [None] is [undefined]. *)
Definition GetIDByCoord_Terrain_Unsafe (m : WorldMap) (x y : Z) : option Z :=
  aget (terrain m) (idx m x y).

Definition GetMetaByCoord (m : WorldMap) (x y : Z) : Z :=
  if ValidCoords m x y then cell (blocksMeta m) (idx m x y) else 0.

(** ** The invariant of the map *)

(** The solid layer holds solid blocks or nothing. *)
Definition terrain_cell (v : Z) : Prop := v = 0 \/ solid (stats v) = true.
(** The background layer holds blocks one can walk on. *)
Definition background_cell (v : Z) : Prop := solid (stats v) = false.

Record wf (m : WorldMap) : Prop := {
  wf_width : 0 <= width m;
  wf_height : 0 <= height m;
  wf_cw : chunkWidth m = ceil32 (width m);
  wf_ch : chunkHeight m = ceil32 (height m);
  wf_terrain_len : Z.of_nat (length (terrain m)) = width m * height m;
  wf_background_len : Z.of_nat (length (background m)) = width m * height m;
  wf_meta_len : Z.of_nat (length (blocksMeta m)) = width m * height m;
  wf_active_len : Z.of_nat (length (activeChunks m)) = chunkWidth m * chunkHeight m;
  wf_terrain : Forall (λ v, is_byte v /\ terrain_cell v) (terrain m);
  wf_background : Forall (λ v, is_byte v /\ background_cell v) (background m);
  wf_meta : all_bytes (blocksMeta m);
  wf_set : set_wf (alivesList m);
  (** every living block is in the set the growth timer draws from *)
  wf_alive : forall i v, aget (terrain m) i = Some v -> is_alive (stats v) = true ->
    set_has (alivesList m) i = true
}.

(** ** Reading and writing single cells *)

Lemma cell_aset a i j v :
  cell (aset a i v) j =
  if (i =? j) && (0 <=? i) && (i <? Z.of_nat (length a)) then u8 v else cell a j.
Proof. unfold cell. rewrite aget_aset. by case_match. Qed.

Lemma cell_aset_eq a i v : 0 <= i < Z.of_nat (length a) -> cell (aset a i v) i = u8 v.
Proof. intros. unfold cell. by rewrite aget_aset_eq. Qed.

Lemma cell_aset_ne a i j v : i <> j -> cell (aset a i v) j = cell a j.
Proof. intros. unfold cell. by rewrite aget_aset_ne. Qed.

Lemma aget_cell a i : 0 <= i < Z.of_nat (length a) -> aget a i = Some (cell a i).
Proof. intros H%aget_is_Some. unfold cell. destruct H as [v Hv]. by rewrite Hv. Qed.

Lemma Forall_aset P a i v : Forall P a -> P (u8 v) -> Forall P (aset a i v).
Proof. intros. unfold aset. case_match; [|done]. by apply Forall_insert. Qed.

Lemma Forall_cell (P : Z -> Prop) a i : Forall P a -> P 0 -> P (cell a i).
Proof.
  intros Ha H0. unfold cell, aget. case_match; [|done].
  destruct (a !! Z.to_nat i) eqn:E; [|done]. by eapply Forall_lookup_1.
Qed.

Lemma Forall_cell_in (P : Z -> Prop) a i :
  Forall P a -> 0 <= i < Z.of_nat (length a) -> P (cell a i).
Proof.
  intros Ha Hi. pose proof (aget_cell a i Hi) as H. unfold aget in H.
  case_match; [|done]. by eapply Forall_lookup_1.
Qed.

Lemma byte_0 : is_byte 0.
Proof. unfold is_byte. lia. Qed.

Lemma solid_0 : solid (stats 0) = false.
Proof. by rewrite stats_0. Qed.

Lemma road_background : background_cell (Block B_road).
Proof. vm_compute. reflexivity. Qed.

#[export] Hint Resolve byte_0 : mines.

Lemma idx_range m x y :
  ValidCoords m x y = true -> 0 <= idx m x y < width m * height m.
Proof. unfold ValidCoords, idx. intros. apply index_range; lia. Qed.

Lemma idx_inj m x y x' y' :
  ValidCoords m x y = true -> ValidCoords m x' y' = true ->
  idx m x y = idx m x' y' -> x = x' /\ y = y'.
Proof. unfold ValidCoords, idx. intros. apply (index_inj (width m)); lia. Qed.

Lemma idx_neq m x y x' y' :
  ValidCoords m x y = true -> ValidCoords m x' y' = true ->
  ~ (x = x' /\ y = y') -> idx m x y <> idx m x' y'.
Proof. intros H1 H2 Hne E. by apply idx_inj in E. Qed.

(** Two maps of the same shape. *)
Definition same_shape (m m' : WorldMap) : Prop :=
  width m' = width m /\ height m' = height m /\ chunkWidth m' = chunkWidth m /\
  chunkHeight m' = chunkHeight m /\ length (terrain m') = length (terrain m) /\
  length (background m') = length (background m) /\
  length (blocksMeta m') = length (blocksMeta m) /\
  length (activeChunks m') = length (activeChunks m).

#[global] Instance same_shape_preorder : PreOrder same_shape.
Proof.
  split; [intros m; unfold same_shape; tauto|].
  intros m1 m2 m3. unfold same_shape. intuition congruence.
Qed.

Lemma same_shape_valid m m' x y :
  same_shape m m' -> ValidCoords m' x y = ValidCoords m x y.
Proof. unfold same_shape, ValidCoords. intros (->&->&_). done. Qed.

Lemma same_shape_idx m m' x y : same_shape m m' -> idx m' x y = idx m x y.
Proof. unfold same_shape, idx. by intros (->&_). Qed.

Ltac shape :=
  unfold same_shape; cbn; repeat (case_match; cbn); rewrite ?length_aset; repeat split; auto.

Lemma _SetTile_shape i id d m : same_shape m (_SetTile i id d m).
Proof. unfold _SetTile. shape. Qed.

Lemma ClearTile_shape x y b m : same_shape m (ClearTile x y b m).
Proof. unfold ClearTile. shape. Qed.

Lemma DiggTile_shape x y m : same_shape m (DiggTile x y m).
Proof. unfold DiggTile. shape. Qed.

Lemma SetDensity_shape x y d m : same_shape m (SetDensity x y d m).
Proof. unfold SetDensity. shape. Qed.

Lemma SetTileWithCoords_shape x y id d m : same_shape m (SetTileWithCoords x y id d m).
Proof.
  unfold SetTileWithCoords. case_match; [apply _SetTile_shape | reflexivity].
Qed.

Lemma SetTileWithIndex_shape i id d m : same_shape m (SetTileWithIndex i id d m).
Proof.
  unfold SetTileWithIndex. case_match; [apply _SetTile_shape | reflexivity].
Qed.

#[export] Hint Resolve _SetTile_shape ClearTile_shape DiggTile_shape SetDensity_shape
  SetTileWithCoords_shape SetTileWithIndex_shape : mines.

(** ** Preservation of the invariant *)

Lemma wf_alive_aset t s i id :
  (is_alive (stats (u8 id)) = true -> set_has s i = true) ->
  (forall j v, aget t j = Some v -> is_alive (stats v) = true -> set_has s j = true) ->
  forall j v, aget (aset t i id) j = Some v -> is_alive (stats v) = true -> set_has s j = true.
Proof.
  intros Hi Ht j v. rewrite aget_aset. destruct ((i =? j) && _ && _) eqn:E; [|eauto].
  intros [= <-] Hv. replace j with i by lia. auto.
Qed.

Lemma not_alive_0 : is_alive (stats 0) = false.
Proof. by rewrite stats_0. Qed.

Lemma wf_SetTile i id d m : is_byte id -> wf m -> wf (_SetTile i id d m).
Proof.
  intros Hid [? ? ? ? ? ? ? ? Ht Hb Hm Hs Ha]. unfold _SetTile.
  destruct (solid (stats id)) eqn:Es.
  - split; cbn; rewrite ?length_aset; try done; try (by case_match).
    + case_match; cbn; apply Forall_aset; rewrite ?u8_small by done; unfold terrain_cell; auto.
    + destruct (is_alive _); cbn; by apply all_bytes_aset.
    + destruct (is_alive _); cbn; auto with mines.
    + intros j v. destruct (is_alive (stats id)) eqn:Eal; cbn; apply wf_alive_aset.
      * intros _. apply set_has_add. by left.
      * intros j' v' Hj Hv. apply set_add_mono. eauto.
      * rewrite u8_small by done. congruence.
      * eauto.
  - split; cbn; rewrite ?length_aset; try done.
    apply Forall_aset; [done|]. by rewrite u8_small.
Qed.

Lemma wf_SetTileWithCoords x y id d m :
  is_byte id -> wf m -> wf (SetTileWithCoords x y id d m).
Proof. intros. unfold SetTileWithCoords. case_match; [by apply wf_SetTile | done]. Qed.

Lemma wf_SetTileWithIndex i id d m :
  is_byte id -> wf m -> wf (SetTileWithIndex i id d m).
Proof. intros. unfold SetTileWithIndex. case_match; [by apply wf_SetTile | done]. Qed.

Lemma wf_clear_terrain i m :
  wf m -> wf (with_terrain (aset (terrain m) i 0) m).
Proof.
  intros [? ? ? ? ? ? ? ? Ht Hb Hm Hs Ha].
  split; cbn; rewrite ?length_aset; try done.
  - apply Forall_aset; [done|]. split; [apply u8_byte | by left].
  - apply wf_alive_aset; [|done]. change (u8 0) with 0. by rewrite not_alive_0.
Qed.

Lemma wf_set_meta i d m : wf m -> wf (with_blocksMeta (aset (blocksMeta m) i d) m).
Proof.
  intros [? ? ? ? ? ? ? ? Ht Hb Hm Hs Ha].
  split; cbn; rewrite ?length_aset; try done. by apply all_bytes_aset.
Qed.

Lemma wf_set_background i id m :
  is_byte id -> background_cell id -> wf m ->
  wf (with_background (aset (background m) i id) m).
Proof.
  intros Hid Hbg [? ? ? ? ? ? ? ? Ht Hb Hm Hs Ha].
  split; cbn; rewrite ?length_aset; try done.
  apply Forall_aset; [done|]. by rewrite u8_small.
Qed.

Lemma wf_set_terrain i id m :
  is_byte id -> solid (stats id) = true -> is_alive (stats id) = false -> wf m ->
  wf (with_terrain (aset (terrain m) i id) m).
Proof.
  intros Hid Hso Hal [? ? ? ? ? ? ? ? Ht Hb Hm Hs Ha].
  split; cbn; rewrite ?length_aset; try done.
  - apply Forall_aset; [done|]. rewrite u8_small by done. unfold terrain_cell. auto.
  - apply wf_alive_aset; [|done]. rewrite u8_small by done. congruence.
Qed.

(** [ClearTile] and [DiggTile] have no bounds test; they keep the invariant
    at every coordinate. *)
Lemma wf_ClearTile x y b m : wf m -> wf (ClearTile x y b m).
Proof.
  intros. unfold ClearTile. apply wf_set_meta. destruct b.
  - apply wf_set_background; [apply Block_byte | apply road_background |].
    by apply wf_clear_terrain.
  - by apply wf_clear_terrain.
Qed.

Lemma wf_DiggTile x y m : wf m -> wf (DiggTile x y m).
Proof.
  intros. unfold DiggTile. case_match; [by apply wf_set_meta|].
  by apply wf_set_meta, wf_clear_terrain.
Qed.

Lemma wf_SetDensity x y d m : wf m -> wf (SetDensity x y d m).
Proof. intros. unfold SetDensity. case_match; [by apply wf_set_meta | done]. Qed.

Lemma wf_set_activeChunks i v m :
  wf m -> wf (with_activeChunks (aset (activeChunks m) i v) m).
Proof.
  intros [? ? ? ? ? ? ? ? Ht Hb Hm Hs Ha].
  split; cbn; rewrite ?length_aset; done.
Qed.

Lemma wf_Fill id m :
  is_byte id -> is_alive (stats id) = false -> wf m -> wf (Fill id m).
Proof.
  intros Hid Hal Hwf. unfold Fill. apply foldl_invariant; [done|].
  intros m' i _ Hm'. destruct (solid (stats id)) eqn:E.
  - by apply wf_set_terrain.
  - by apply wf_set_background.
Qed.

Lemma wf_FillRect id xs ys w h m : is_byte id -> wf m -> wf (FillRect id xs ys w h m).
Proof.
  intros Hid Hwf. unfold FillRect. apply foldl_invariant; [done|]. intros m1 y _ H1.
  apply foldl_invariant; [done|]. intros m2 x _ H2. by apply wf_SetTileWithCoords.
Qed.

Lemma wf_ClearRect xs ys w h m : wf m -> wf (ClearRect xs ys w h m).
Proof.
  intros Hwf. unfold ClearRect. apply foldl_invariant; [done|]. intros m1 y _ H1.
  apply foldl_invariant; [done|]. intros m2 x _ H2. by apply wf_ClearTile.
Qed.

Lemma set_wf_clear s : set_wf (set_clear s).
Proof.
  intros i j v Hi. unfold set_clear in Hi. rewrite list_lookup_fmap in Hi.
  by destruct (s !! i).
Qed.

Lemma Forall_new P n : P 0 -> Forall P (new_Uint8Array n).
Proof. intros. by apply Forall_replicate. Qed.

Lemma ceil32_nonneg w : 0 <= w -> 0 <= ceil32 w.
Proof. pose proof (ceil32_spec w). lia. Qed.

(** A resized map is well formed, whatever it was before. *)
Lemma wf_Resyze w h m : 0 <= w -> 0 <= h -> wf (Resyze w h m).
Proof.
  intros Hw Hh. unfold Resyze.
  apply wf_Fill; [apply Block_byte | by vm_compute |].
  assert (0 <= w * h) by nia.
  assert (0 <= ceil32 w * ceil32 h) by (apply Z.mul_nonneg_nonneg; by apply ceil32_nonneg).
  split; cbn; rewrite ?length_new_Uint8Array; try done.
  - apply Forall_new. split; [apply byte_0 | by left].
  - apply Forall_new. split; [apply byte_0 | apply solid_0].
  - apply all_bytes_new.
  - apply set_wf_clear.
  - intros i v Hi. assert (v = 0) as ->.
    { unfold aget in Hi. case_match; [|done].
      apply lookup_replicate in Hi as [-> _]. done. }
    by rewrite not_alive_0.
Qed.

#[export] Hint Resolve wf_SetTile wf_SetTileWithCoords wf_SetTileWithIndex wf_ClearTile
  wf_DiggTile wf_SetDensity wf_FillRect wf_ClearRect wf_Resyze : mines.

(** ** What the operations do to the cells *)

Lemma terrain_at m i : wf m -> is_byte (cell (terrain m) i) /\ terrain_cell (cell (terrain m) i).
Proof.
  intros Hwf. apply (Forall_cell (λ v, is_byte v /\ terrain_cell v));
    [apply (wf_terrain m Hwf) | split; [apply byte_0 | by left]].
Qed.

Lemma terrain_cell_at m i : wf m -> terrain_cell (cell (terrain m) i).
Proof. intros. by apply terrain_at. Qed.

Lemma terrain_byte m i : wf m -> is_byte (cell (terrain m) i).
Proof. intros. by apply terrain_at. Qed.

Lemma background_at m i : wf m -> is_byte (cell (background m) i) /\ background_cell (cell (background m) i).
Proof.
  intros Hwf. apply (Forall_cell (λ v, is_byte v /\ background_cell v));
    [apply (wf_background m Hwf) | split; [apply byte_0 | apply solid_0]].
Qed.

(** In a well-formed map the block of a cell is its terrain when there is
    one. *)
Lemma GetID_wf m x y :
  wf m ->
  GetIDByCoord m x y =
  if ValidCoords m x y then
    if cell (terrain m) (idx m x y) =? 0 then cell (background m) (idx m x y)
    else cell (terrain m) (idx m x y)
  else 104.
Proof.
  intros Hwf. unfold GetIDByCoord. case_match; [|done].
  destruct (terrain_cell_at m (idx m x y) Hwf) as [E|E].
  - by rewrite E.
  - destruct (_ =? 0) eqn:E0; [done|]. by rewrite E.
Qed.

Lemma GetID_byte m x y : wf m -> is_byte (GetIDByCoord m x y).
Proof.
  intros Hwf. rewrite GetID_wf by done. repeat case_match.
  - by apply background_at.
  - by apply terrain_byte.
  - unfold is_byte. lia.
Qed.

Lemma GetID_Terrain_byte m x y : wf m -> is_byte (GetIDByCoord_Terrain m x y).
Proof.
  intros Hwf. unfold GetIDByCoord_Terrain. case_match; [by apply terrain_byte|].
  unfold is_byte. lia.
Qed.

(** A walkable cell holds no solid block, and a cell with no solid block is
    inside the map. *)
Lemma GetID_not_solid m x y :
  wf m -> solid (stats (GetIDByCoord m x y)) = false <->
  ValidCoords m x y = true /\ cell (terrain m) (idx m x y) = 0.
Proof.
  intros Hwf. rewrite GetID_wf by done.
  destruct (ValidCoords m x y) eqn:Ev.
  - destruct (cell (terrain m) (idx m x y) =? 0) eqn:E0.
    + pose proof (background_at m (idx m x y) Hwf) as [_ Hb]. unfold background_cell in Hb.
      rewrite Hb. split; [intros _; split; [done|lia] | done].
    + destruct (terrain_cell_at m (idx m x y) Hwf) as [E|E]; [lia|].
      rewrite E. split; [done|]. intros [_ ?]. lia.
  - change (solid (stats 104)) with true. split; [done|]. by intros [? _].
Qed.

Lemma GetID_Terrain_not_solid m x y :
  wf m -> solid (stats (GetIDByCoord_Terrain m x y)) = false <->
  ValidCoords m x y = true /\ cell (terrain m) (idx m x y) = 0.
Proof.
  intros Hwf. unfold GetIDByCoord_Terrain. destruct (ValidCoords m x y) eqn:Ev.
  - destruct (terrain_cell_at m (idx m x y) Hwf) as [E|E].
    + rewrite E, solid_0. tauto.
    + rewrite E. split; [done|]. intros [_ E0]. rewrite E0, solid_0 in E. done.
  - change (solid (stats 104)) with true. split; [done|]. by intros [? _].
Qed.

Lemma _SetTile_terrain i id d m :
  terrain (_SetTile i id d m) =
  if solid (stats id) then aset (terrain m) i id else terrain m.
Proof. unfold _SetTile. destruct (solid _); [|done]. cbn. by destruct (is_alive _). Qed.

Lemma _SetTile_background i id d m :
  background (_SetTile i id d m) =
  if solid (stats id) then background m else aset (background m) i id.
Proof. unfold _SetTile. destruct (solid _); [|done]. cbn. by destruct (is_alive _). Qed.

Lemma _SetTile_meta i id d m :
  blocksMeta (_SetTile i id d m) =
  if solid (stats id) then aset (blocksMeta m) i (if hasdensity (stats id) then d else 0)
  else blocksMeta m.
Proof. unfold _SetTile. destruct (solid _); [|done]. cbn. by destruct (is_alive _). Qed.

Lemma terrain_len m x y :
  wf m -> ValidCoords m x y = true -> 0 <= idx m x y < Z.of_nat (length (terrain m)).
Proof. intros Hwf Hv. rewrite (wf_terrain_len m Hwf). by apply idx_range. Qed.

Lemma background_len m x y :
  wf m -> ValidCoords m x y = true -> 0 <= idx m x y < Z.of_nat (length (background m)).
Proof. intros Hwf Hv. rewrite (wf_background_len m Hwf). by apply idx_range. Qed.

Lemma meta_len m x y :
  wf m -> ValidCoords m x y = true -> 0 <= idx m x y < Z.of_nat (length (blocksMeta m)).
Proof. intros Hwf Hv. rewrite (wf_meta_len m Hwf). by apply idx_range. Qed.

(** The terrain layer after a solid write. *)
Lemma terrain_SetTile_solid m x y id d x' y' :
  wf m -> is_byte id -> solid (stats id) = true -> ValidCoords m x y = true ->
  GetIDByCoord_Terrain (SetTileWithCoords x y id d m) x' y' =
  if decide (x' = x /\ y' = y) then id else GetIDByCoord_Terrain m x' y'.
Proof.
  intros Hwf Hid Hso Hv. unfold GetIDByCoord_Terrain.
  rewrite (same_shape_valid m), (same_shape_idx m) by apply SetTileWithCoords_shape.
  unfold SetTileWithCoords. rewrite Hv, _SetTile_terrain, Hso.
  destruct (ValidCoords m x' y') eqn:Ev.
  - case_decide as H.
    + destruct H as [-> ->]. rewrite cell_aset_eq by by apply terrain_len. by apply u8_small.
    + rewrite cell_aset_ne; [done|]. apply idx_neq; [done..|]. intros [-> ->]. by apply H.
  - case_decide as H; [|done]. destruct H as [-> ->]. congruence.
Qed.

Lemma terrain_ClearTile m x y b x' y' :
  wf m -> ValidCoords m x y = true ->
  GetIDByCoord_Terrain (ClearTile x y b m) x' y' =
  if decide (x' = x /\ y' = y) then 0 else GetIDByCoord_Terrain m x' y'.
Proof.
  intros Hwf Hv. unfold GetIDByCoord_Terrain.
  rewrite (same_shape_valid m), (same_shape_idx m) by apply ClearTile_shape.
  assert (terrain (ClearTile x y b m) = aset (terrain m) (idx m x y) 0) as -> by (by destruct b).
  destruct (ValidCoords m x' y') eqn:Ev.
  - case_decide as H.
    + destruct H as [-> ->]. by rewrite cell_aset_eq by by apply terrain_len.
    + rewrite cell_aset_ne; [done|]. apply idx_neq; [done..|]. intros [-> ->]. by apply H.
  - case_decide as H; [|done]. destruct H as [-> ->]. congruence.
Qed.

(** ** Properties *)

Lemma GetID_SetTileWithCoords m x y id d x' y' :
  wf m -> is_byte id ->
  GetIDByCoord (SetTileWithCoords x y id d m) x' y' =
  if ValidCoords m x y && (x' =? x) && (y' =? y)
     && (solid (stats id) || (cell (terrain m) (idx m x y) =? 0))
  then id else GetIDByCoord m x' y'.
Proof.
  intros Hwf Hid.
  assert (wf (SetTileWithCoords x y id d m)) as Hwf' by auto with mines.
  rewrite !GetID_wf by done.
  rewrite (same_shape_valid m), (same_shape_idx m) by apply SetTileWithCoords_shape.
  unfold SetTileWithCoords. destruct (ValidCoords m x y) eqn:Ev; [|done].
  rewrite _SetTile_terrain, _SetTile_background.
  destruct (ValidCoords m x' y') eqn:Ev'.
  2:{ destruct (decide (x' = x /\ y' = y)) as [[-> ->]|H]; [congruence|].
      replace (true && (x' =? x) && (y' =? y)) with false by lia. done. }
  destruct (decide (x' = x /\ y' = y)) as [[-> ->]|H].
  - rewrite !Z.eqb_refl. cbn [andb]. destruct (solid (stats id)) eqn:Es; cbn [orb].
    + rewrite cell_aset_eq by by apply terrain_len. rewrite u8_small by done.
      destruct (id =? 0) eqn:E0; [|done].
      assert (id = 0) as -> by lia. by rewrite solid_0 in Es.
    + rewrite cell_aset_eq by by apply background_len. rewrite u8_small by done.
      by destruct (_ =? 0).
  - replace (true && (x' =? x) && (y' =? y)) with false by lia. cbn [andb].
    assert (idx m x y <> idx m x' y').
    { apply idx_neq; [done..|]. intros [-> ->]. by apply H. }
    destruct (solid (stats id)); rewrite cell_aset_ne by done; done.
Qed.

(** [SetTileWithCoords] and [GetIDByCoord] agree: after writing block id at
    (x, y), a lookup at (x', y') gives id exactly when (x', y') is (x, y), the
    cell is inside the map, and id is solid or there was no solid block there
    (a walkable block written under a solid one stays hidden); every other
    lookup is unchanged. *)
Theorem SetTile_GetID m x y id d x' y' :
  wf m -> is_byte id ->
  GetIDByCoord (SetTileWithCoords x y id d m) x' y' =
  if ValidCoords m x y && (x' =? x) && (y' =? y)
     && (solid (stats id) || (cell (terrain m) (idx m x y) =? 0))
  then id else GetIDByCoord m x' y'.
Proof. apply GetID_SetTileWithCoords. Qed.

(** A map of 3x2 cells for the examples. *)
Definition demo_map : WorldMap := new_WorldMap 3 2.

Lemma demo_wf : wf demo_map.
Proof. apply wf_Resyze; lia. Qed.

Lemma SetTile_GetID_witness :
  GetIDByCoord (SetTileWithCoords 1 1 (Block B_block_green) 5 demo_map) 1 1 = 101.
Proof.
  rewrite (SetTile_GetID demo_map 1 1 (Block B_block_green) 5 1 1 demo_wf (Block_byte _)).
  vm_compute. reflexivity.
Defined.

(** Digging once: the layers after [DiggTile] inside the map. *)
Lemma DiggTile_layers m x y :
  wf m -> ValidCoords m x y = true ->
  terrain (DiggTile x y m) =
    (if 0 <? GetDensity m x y then terrain m else aset (terrain m) (idx m x y) 0) /\
  blocksMeta (DiggTile x y m) =
    aset (blocksMeta m) (idx m x y) (Z.max 0 (GetDensity m x y - 1)).
Proof.
  intros Hwf Hv. pose proof (meta_len m x y Hwf Hv) as Hl.
  pose proof (Forall_cell_in _ _ _ (wf_meta m Hwf) Hl) as Hb. unfold is_byte in Hb.
  unfold GetDensity, DiggTile. rewrite Hv, (aget_cell _ _ Hl). cbn [default].
  destruct (0 <? cell (blocksMeta m) (idx m x y)) eqn:E; cbn; (split; [done|]); f_equal; lia.
Qed.

Lemma DiggTile_cells m x y x' y' :
  wf m -> ValidCoords m x y = true ->
  GetDensity (DiggTile x y m) x' y' =
    (if decide (x' = x /\ y' = y) then Z.max 0 (GetDensity m x y - 1) else GetDensity m x' y') /\
  GetIDByCoord_Terrain (DiggTile x y m) x' y' =
    (if decide (x' = x /\ y' = y)
     then (if 0 <? GetDensity m x y then GetIDByCoord_Terrain m x y else 0)
     else GetIDByCoord_Terrain m x' y').
Proof.
  intros Hwf Hv. pose proof (meta_len m x y Hwf Hv) as Hl.
  pose proof (terrain_len m x y Hwf Hv) as Ht.
  pose proof (Forall_cell_in _ _ _ (wf_meta m Hwf) Hl) as Hb. unfold is_byte in Hb.
  destruct (DiggTile_layers m x y Hwf Hv) as [Et Em].
  assert (is_byte (Z.max 0 (GetDensity m x y - 1))) as Hd.
  { unfold GetDensity. rewrite Hv. unfold is_byte. lia. }
  unfold GetDensity at 1, GetIDByCoord_Terrain at 1.
  rewrite (same_shape_valid m), (same_shape_idx m), Et, Em by apply DiggTile_shape.
  case_decide as H.
  - destruct H as [-> ->]. rewrite Hv, cell_aset_eq, u8_small by done. split; [done|].
    unfold GetIDByCoord_Terrain. rewrite Hv. case_match; [done|]. by rewrite cell_aset_eq.
  - unfold GetDensity at 2, GetIDByCoord_Terrain. destruct (ValidCoords m x' y') eqn:Ev'; [|done].
    assert (idx m x y <> idx m x' y').
    { apply idx_neq; [done..|]. intros [-> ->]. by apply H. }
    rewrite cell_aset_ne by done. split; [done|]. case_match; [done|]. by rewrite cell_aset_ne.
Qed.

(** Digging out a block of density d takes d + 1 strokes: after n strokes the
    block is still there with density d - n when n <= d, and is gone once
    n > d; no other cell changes. *)
Theorem digging_strokes m x y (n : nat) x' y' :
  wf m -> ValidCoords m x y = true ->
  let m' := Nat.iter n (DiggTile x y) m in
  GetDensity m' x y = Z.max 0 (GetDensity m x y - Z.of_nat n) /\
  GetIDByCoord_Terrain m' x y =
    (if Z.of_nat n <=? GetDensity m x y then GetIDByCoord_Terrain m x y else 0) /\
  (~ (x' = x /\ y' = y) ->
   GetIDByCoord_Terrain m' x' y' = GetIDByCoord_Terrain m x' y' /\
   GetDensity m' x' y' = GetDensity m x' y').
Proof.
  intros Hwf Hv. cbv zeta.
  assert (0 <= GetDensity m x y) as Hd0.
  { unfold GetDensity. rewrite Hv.
    pose proof (Forall_cell_in _ _ _ (wf_meta m Hwf) (meta_len m x y Hwf Hv)) as [? _]. done. }
  induction n as [|n (IHd & IHt & IHo)].
  - cbn [Nat.iter nat_rect]. split; [lia|]. split; [|done]. change (Z.of_nat 0) with 0. by rewrite (proj2 (Z.leb_le _ _) Hd0).
  - rewrite Nat.iter_succ. set (m1 := Nat.iter n (DiggTile x y) m) in *.
    assert (wf m1 /\ ValidCoords m1 x y = true) as [Hwf1 Hv1].
    { unfold m1. clear -Hwf Hv. induction n as [|n [IH1 IH2]]; [done|]. rewrite Nat.iter_succ.
      split; [by apply wf_DiggTile|].
      by rewrite (same_shape_valid _ _ _ _ (DiggTile_shape x y _)). }
    destruct (DiggTile_cells m1 x y x y Hwf1 Hv1) as [Ed Et].
    rewrite decide_True in Ed, Et by done. rewrite Ed, Et, IHd, IHt.
    split; [lia|]. split.
    + clear -Hd0; split_tests; first [done | zlia].
    + intros Hne. destruct (DiggTile_cells m1 x y x' y' Hwf1 Hv1) as [Ed' Et'].
      rewrite decide_False in Ed', Et' by done. rewrite Ed', Et'. by apply IHo.
Qed.

(** A green block of density 2 at (1, 0) of the demo map. *)
Definition demo_block : WorldMap := SetTileWithCoords 1 0 (Block B_block_green) 2 demo_map.

Lemma digging_strokes_witness :
  GetIDByCoord_Terrain (Nat.iter 2 (DiggTile 1 0) demo_block) 1 0 = 101 /\
  GetIDByCoord_Terrain (Nat.iter 3 (DiggTile 1 0) demo_block) 1 0 = 0.
Proof.
  assert (wf demo_block) as Hwf by (apply wf_SetTileWithCoords; [apply Block_byte | apply demo_wf]).
  destruct (digging_strokes demo_block 1 0 2 0 0 Hwf eq_refl) as (_ & -> & _).
  destruct (digging_strokes demo_block 1 0 3 0 0 Hwf eq_refl) as (_ & -> & _).
  vm_compute. split; reflexivity.
Defined.

Lemma terrain_layer_eq m m1 m2 x y :
  same_shape m m1 -> same_shape m m2 -> terrain m1 = terrain m2 ->
  GetIDByCoord_Terrain m1 x y = GetIDByCoord_Terrain m2 x y.
Proof.
  intros S1 S2 E. unfold GetIDByCoord_Terrain.
  by rewrite (same_shape_valid _ _ _ _ S1), (same_shape_valid _ _ _ _ S2),
    (same_shape_idx _ _ _ _ S1), (same_shape_idx _ _ _ _ S2), E.
Qed.

(** [ClearTile] has no bounds test: just left of the map it empties the last
    cell of the row above instead of doing nothing. *)
Theorem ClearTile_wraps m y b :
  wf m -> 0 < y <= height m -> 0 < width m ->
  ValidCoords m (-1) y = false /\
  GetIDByCoord_Terrain (ClearTile (-1) y b m) (width m - 1) (y - 1) = 0.
Proof.
  intros Hwf Hy Hw.
  assert (ValidCoords m (width m - 1) (y - 1) = true) as Hv by (unfold ValidCoords; lia).
  split; [unfold ValidCoords; lia|].
  assert (terrain (ClearTile (-1) y b m) = terrain (ClearTile (width m - 1) (y - 1) b m)) as E.
  { assert (idx m (-1) y = idx m (width m - 1) (y - 1)) as Ei by (unfold idx; lia).
    unfold ClearTile. rewrite Ei. by destruct b. }
  pose proof (terrain_ClearTile m _ _ b (width m - 1) (y - 1) Hwf Hv) as H.
  rewrite decide_True in H by done. rewrite <- H.
  apply (terrain_layer_eq m); [apply ClearTile_shape.. | exact E].
Qed.

Lemma ClearTile_wraps_witness :
  GetIDByCoord_Terrain
    (ClearTile (-1) 1 false (SetTileWithCoords 2 0 (Block B_block_red) 0 demo_map)) 2 0 = 0.
Proof.
  apply (ClearTile_wraps (SetTileWithCoords 2 0 (Block B_block_red) 0 demo_map) 1 false);
    [apply wf_SetTileWithCoords; [apply Block_byte | apply demo_wf] | vm_compute; split; congruence
    | reflexivity].
Defined.
