(* ===== verification/MapCodec.v ===== *)
(** * Loading a world

    Models [WorldMap.LoadWorld] of [scripts/wmap.js]: a world is a string of
    hexadecimal byte pairs, run-length encoded as [val][00][count] triples,
    a byte not followed by 00 standing for itself. *)

From S2P Require Import Prelude JsNum JsSet Blocks Host PacksContainer WMap.

(** ** Definitions *)

(** [wrld]: the data are the character codes of the string. *)
Record WorldData := mkWorldData { wd_width : Z; wd_height : Z; wd_data : list Z }.

(** *** [parseInt(s, 16)] on character codes; [None] is NaN *)

Definition hexval (c : Z) : option Z :=
  if (48 <=? c) && (c <=? 57) then Some (c - 48)
  else if (65 <=? c) && (c <=? 70) then Some (c - 55)
  else if (97 <=? c) && (c <=? 102) then Some (c - 87)
  else None.

Definition is_space (c : Z) : bool :=
  ((9 <=? c) && (c <=? 13)) || (c =? 32) || (c =? 160) || (c =? 5760) ||
  ((8192 <=? c) && (c <=? 8202)) || (c =? 8232) || (c =? 8233) || (c =? 8239) ||
  (c =? 8287) || (c =? 12288) || (c =? 65279).

Fixpoint skip_spaces (s : list Z) : list Z :=
  match s with
  | c :: s' => if is_space c then skip_spaces s' else s
  | [] => []
  end.

(** The value of the longest prefix of hexadecimal digits. *)
Fixpoint hex_digits (s : list Z) (acc : option Z) : option Z :=
  match s with
  | c :: s' =>
      match hexval c with
      | Some v => hex_digits s' (Some (default 0 acc * 16 + v))
      | None => acc
      end
  | [] => acc
  end.

Definition strip_0x (s : list Z) : list Z :=
  match s with
  | 48 :: c :: s' => if (c =? 120) || (c =? 88) then s' else s
  | _ => s
  end.

Definition parseInt16 (s : list Z) : option Z :=
  match skip_spaces s with
  | 45 :: s' => Z.opp <$> hex_digits (strip_0x s') None
  | 43 :: s' => hex_digits (strip_0x s') None
  | s' => hex_digits (strip_0x s') None
  end.

(** The bytes: one per pair of characters, NaN stored as 0. *)
Fixpoint uintData (data : list Z) : list Z :=
  match data with
  | a :: b :: rest => u8 (default 0 (parseInt16 [a; b])) :: uintData rest
  | _ => []
  end.

(** One write of the loading loop: [SetTileWithIndex(wi, cur, RandInt(0, 10)); wi++]. *)
Definition load_write (cur : Z) (st : WorldMap * Host * Z) : WorldMap * Host * Z :=
  let '(m, h, wi) := st in
  let '(d, h) := RandInt 0 10 h in
  (SetTileWithIndex wi cur d m, h, wi + 1).

(** The loading loop on the bytes still to read: a triple is looked for while
    two more bytes follow the current one. *)
Fixpoint load_cells (l : list Z) (st : WorldMap * Host * Z) : WorldMap * Host * Z :=
  match l with
  | cur :: ((z :: n :: rest) as tl) =>
      if z =? 0 then load_cells rest (Nat.iter (Z.to_nat n) (load_write cur) st)
      else load_cells tl (load_write cur st)
  | cur :: tl => load_cells tl (load_write cur st)
  | [] => st
  end.

Definition LoadWorld (wrld : WorldData) (m : WorldMap) (h : Host) : WorldMap * Host :=
  let m := Resyze (wd_width wrld) (wd_height wrld) m in
  (load_cells (uintData (wd_data wrld)) (m, h, 0)).1.

(** *** The run-length format, as a specification *)

(** A token: a run of n copies of v, or a byte that stands for itself. *)
Inductive Token := Run (v n : Z) | Lit (v : Z).

Definition token_bytes (t : Token) : list Z :=
  match t with Run v n => [v; 0; n] | Lit v => [v] end.
Definition token_cells (t : Token) : list Z :=
  match t with Run v n => replicate (Z.to_nat n) v | Lit v => [v] end.

Definition encode (ts : list Token) : list Z := concat (token_bytes <$> ts).
Definition expand (ts : list Token) : list Z := concat (token_cells <$> ts).

(** A literal is not followed by 00, except so close to the end that no count
    could follow. *)
Fixpoint tokens_ok (ts : list Token) : Prop :=
  match ts with
  | Lit v :: ts' =>
      match encode ts' with
      | z :: _ :: _ => z <> 0
      | _ => True
      end /\ tokens_ok ts'
  | Run v n :: ts' => tokens_ok ts'
  | [] => True
  end.

(** Lower-case hexadecimal digits of a byte. *)
Definition hex_char (v : Z) : Z := if v <? 10 then 48 + v else 87 + v.
Definition hex_of_byte (v : Z) : list Z := [hex_char (v / 16); hex_char (v mod 16)].
Definition hex_encode (l : list Z) : list Z := concat (hex_of_byte <$> l).

(** Writing a list of cells one after the other. *)
Definition write_cells (l : list Z) (st : WorldMap * Host * Z) : WorldMap * Host * Z :=
  foldl (λ st v, load_write v st) st l.

(** ** Lemmas *)

Lemma parseInt16_byte v : is_byte v -> parseInt16 (hex_of_byte v) = Some v.
Proof.
  intros Hv.
  assert (match parseInt16 (hex_of_byte v) with Some w => w =? v | None => false end = true) as H.
  { apply (range_check (λ v, match parseInt16 (hex_of_byte v) with
      Some w => w =? v | None => false end) 0 256); [vm_compute; reflexivity | done]. }
  destruct (parseInt16 _); [|done]. f_equal. lia.
Qed.

(** The hexadecimal text of a list of bytes reads back as those bytes. *)
Lemma uintData_hex_encode l : all_bytes l -> uintData (hex_encode l) = l.
Proof.
  induction l as [|v l IH]; intros H; [done|].
  apply all_bytes_cons in H as [Hv Hl].
  change (hex_encode (v :: l)) with (hex_of_byte v ++ hex_encode l).
  unfold hex_of_byte at 1. cbn [app uintData].
  change [hex_char (v / 16); hex_char (v mod 16)] with (hex_of_byte v).
  rewrite parseInt16_byte by done. cbn [default]. rewrite u8_small by done. by rewrite IH.
Qed.

Lemma write_replicate n v st : write_cells (replicate n v) st = Nat.iter n (load_write v) st.
Proof.
  revert st. induction n as [|n IH]; intros st; [done|].
  rewrite Nat.iter_succ_r. cbn. apply IH.
Qed.

Lemma write_app l1 l2 st : write_cells (l1 ++ l2) st = write_cells l2 (write_cells l1 st).
Proof. apply foldl_app. Qed.

Lemma load_cells_encode ts st :
  tokens_ok ts -> load_cells (encode ts) st = write_cells (expand ts) st.
Proof.
  revert st. induction ts as [|[v n|v] ts IH]; intros st Hok; [done|..].
  - change (encode (Run v n :: ts)) with (v :: 0 :: n :: encode ts).
    change (expand (Run v n :: ts)) with (replicate (Z.to_nat n) v ++ expand ts).
    rewrite write_app, write_replicate, <- IH by done. done.
  - change (encode (Lit v :: ts)) with (v :: encode ts).
    change (expand (Lit v :: ts)) with ([v] ++ expand ts).
    destruct Hok as [Hz Hok]. rewrite write_app. cbn [write_cells foldl].
    rewrite <- IH by done.
    destruct (encode ts) as [|z [|z' rest]]; [done|done|].
    cbn [load_cells]. by destruct (Z.eqb_spec z 0).
Qed.

(** ** Properties *)

(** C25: Run-length decoding inverts encoding: for any token sequence of the
    [val][00][count] format in which a literal is not followed by a 00 byte,
    loading its hexadecimal text writes exactly the expanded cells, one after
    the other from index 0, into the resized map. *)
Theorem LoadWorld_encode w h ts m host :
  tokens_ok ts -> all_bytes (encode ts) ->
  LoadWorld (mkWorldData w h (hex_encode (encode ts))) m host =
  (write_cells (expand ts) (Resyze w h m, host, 0)).1.
Proof.
  intros Hok Hb. unfold LoadWorld. cbn [wd_width wd_height wd_data].
  by rewrite uintData_hex_encode, load_cells_encode.
Qed.

Definition demo_tokens : list Token :=
  [Run (Block B_block_red) 2; Lit (Block B_road); Run (Block B_sand_white0) 3].

Lemma LoadWorld_encode_witness :
  terrain (LoadWorld (mkWorldData 3 2 (hex_encode (encode demo_tokens))) WorldMap_fields
             (const_host 0 0)).1
  = [105; 105; 0; 60; 60; 60].
Proof.
  rewrite (LoadWorld_encode 3 2 demo_tokens WorldMap_fields (const_host 0 0)).
  - vm_compute. reflexivity.
  - cbn. repeat split; lia.
  - vm_compute. repeat constructor; congruence.
Defined.

Lemma load_write_wf v st :
  is_byte v -> wf st.1.1 -> wf (load_write v st).1.1.
Proof.
  destruct st as [[m h] wi]. intros Hv Hm. cbn. auto with mines.
Qed.

(** What every write keeps, the loader keeps; by well-founded induction on the
    remaining bytes, as a triple consumes three. *)
Lemma load_cells_inv (P : WorldMap * Host * Z -> Prop) l st :
  (forall v st, is_byte v -> P st -> P (load_write v st)) -> all_bytes l -> P st -> P (load_cells l st).
Proof.
  intros Hw. remember (length l) as k eqn:Hk. revert l st Hk.
  induction k as [k IH] using lt_wf_ind. intros l st -> Hl Hst.
  destruct l as [|cur tl]; [done|]. apply all_bytes_cons in Hl as [Hc Htl].
  assert (P (load_cells tl (load_write cur st))) as Hlit.
  { eapply IH; [|done|done|by apply Hw]. cbn. lia. }
  destruct tl as [|z [|n rest]]; [done|done|].
  cbn [load_cells]. destruct (z =? 0); [|done].
  apply all_bytes_cons in Htl as [_ Htl]. apply all_bytes_cons in Htl as [_ Hrest].
  eapply IH; [|done|done|]; [cbn; lia|]. apply Nat.iter_invariant; [|done]. intros st'. by apply Hw.
Qed.

Lemma load_cells_wf l st : all_bytes l -> wf st.1.1 -> wf (load_cells l st).1.1.
Proof. intros Hl. apply (load_cells_inv (λ st, wf st.1.1)); [|done]. intros v st'. by apply load_write_wf. Qed.

Lemma all_bytes_uintData l : all_bytes (uintData l).
Proof.
  remember (length l) as k eqn:Hk. revert l Hk.
  induction k as [k IH] using lt_wf_ind. intros l ->.
  destruct l as [|a [|b l]]; cbn [uintData]; [constructor..|].
  constructor; [apply u8_byte|]. eapply IH; [|done]. cbn. lia.
Qed.

Lemma wf_LoadWorld wrld m h :
  0 <= wd_width wrld -> 0 <= wd_height wrld -> wf (LoadWorld wrld m h).1.
Proof.
  intros. unfold LoadWorld. apply load_cells_wf; [apply all_bytes_uintData|].
  cbn. by apply wf_Resyze.
Qed.

(** The loaded world has the sides it names, and only draws random numbers. *)
Lemma LoadWorld_shape wrld m h :
  same_shape (Resyze (wd_width wrld) (wd_height wrld) m) (LoadWorld wrld m h).1 /\ same_streams h (LoadWorld wrld m h).2.
Proof.
  unfold LoadWorld. apply (load_cells_inv (λ st, same_shape _ st.1.1 /\ same_streams h st.1.2)).
  - intros v [[m' h'] wi] _ [H1 H2]. cbn [load_write RandInt Math_random fst snd] in *. split.
    + etransitivity; [exact H1 | apply SetTileWithIndex_shape].
    + etransitivity; [exact H2 | apply (RandInt_streams 0 10)].
  - apply all_bytes_uintData.
  - done.
Qed.

#[export] Hint Resolve wf_LoadWorld : mines.
