(* ===== verification/Vec.v ===== *)
(** * Vectors

    Models [class Vector2d] of [scripts/usefuladitions.js] for the vectors
    that hold whole cells: the position of a bot and the programmator's view
    offset. *)

From S2P Require Import Prelude.

Record Vector2d := mkV2 { vx : Z; vy : Z }.

#[global] Instance Vector2d_eq_dec : EqDecision Vector2d.
Proof. solve_decision. Defined.

(** The constructor goes by the number of its arguments; with three or more it
    complains and leaves both coordinates undefined. *)
Inductive V2_args := Args_none | Args_vector (v : Vector2d) | Args_xy (x y : Z) | Args_more.
Definition new_V2 (a : V2_args) : option Vector2d :=
  match a with
  | Args_xy x y => Some (mkV2 x y)
  | Args_vector v => Some (mkV2 (vx v) (vy v))
  | Args_none => Some (mkV2 0 0)
  | Args_more => None
  end.

(** [Set(x, y)], [CopyV2(from)] and [Add(x, y)] return the new value. *)
Definition V2_Set (x y : Z) (_ : Vector2d) : Vector2d := mkV2 x y.
Definition V2_CopyV2 (from : Vector2d) (_ : Vector2d) : Vector2d := mkV2 (vx from) (vy from).
Definition V2_Add (x y : Z) (v : Vector2d) : Vector2d := mkV2 (vx v + x) (vy v + y).
Definition V2_Addv2 (w : Vector2d) (v : Vector2d) : Vector2d := mkV2 (vx v + vx w) (vy v + vy w).

Definition V2_IsEqually (v w : Vector2d) : bool := (vx v =? vx w) && (vy v =? vy w).

(** [Distance2(tx, ty) <= r] for whole coordinates and radius: the square root
    of an exact integer is compared with an integer. *)
Definition V2_within (v : Vector2d) (tx ty r : Z) : bool :=
  (0 <=? r) && ((tx - vx v) ^ 2 + (ty - vy v) ^ 2 <=? r ^ 2).

Lemma V2_IsEqually_spec v w : V2_IsEqually v w = true <-> v = w.
Proof.
  destruct v, w. unfold V2_IsEqually. cbn. split; [intros; f_equal; lia|].
  intros [= -> ->]. lia.
Qed.

(** A point within the radius is within it on each axis. *)
Lemma V2_within_box v tx ty r :
  V2_within v tx ty r = true -> Z.abs (tx - vx v) <= r /\ Z.abs (ty - vy v) <= r.
Proof. unfold V2_within. intros [H1 H2]%andb_prop. zprop. nia. Qed.
