(* ===== verification/Geo.v ===== *)
(** * Geophysics

    Models [class GeoPhisics] and [AliveProductHardness] of
    [scripts/geophys.js]: sand and boulders fall, living blocks grow
    crystals.  The timers are the two tick functions at the end. *)

From S2P Require Import Prelude JsNum JsSet Blocks Host PacksContainer WMap Vec.

(** ** Activation of chunks *)

(** The box of chunks a bot keeps active: wide around the current bot, and a
    random choice of two narrow ones around the others. *)
Definition active_box (is_cur : bool) (h : Host) : Z * Z * Z * Z * Host :=
  if is_cur then (2, 4, 2, 3, h)
  else
    let '(r, h) := RandInt 0 3 h in
    if r =? 0 then (1, 1, 1, 0, h) else (0, 1, 0, 0, h).

Definition mark_chunk (m : WorldMap) (x y : Z) : WorldMap :=
  if (0 <=? x) && (0 <=? y) && (x <? chunkWidth m) && (y <? chunkHeight m)
  then with_activeChunks (aset (activeChunks m) (x + y * chunkWidth m) 1) m
  else m.

(** The chunks around one bot. *)
Definition activate_bot (cpos : Vector2d) (is_cur : bool) (m : WorldMap) (h : Host)
  : WorldMap * Host :=
  let '(ax1, ay1, ax2, ay2, h) := active_box is_cur h in
  let bx := js_shr (vx cpos) 5 in
  let by' := js_shr (vy cpos) 5 in
  (foldl (λ m y, foldl (λ m x, mark_chunk m x y) m (up_to (bx - ax1) (bx + ax2 + 1)))
     m (up_to (by' - ay1) (by' + ay2 + 1)), h).

(** [SetActiveChunks()]: the positions of the bots, and the index of the
    current one. *)
Definition SetActiveChunks (bots : list Vector2d) (curbot : option nat) (m : WorldMap) (h : Host)
  : WorldMap * Host :=
  foldl (λ '(m, h) '(i, cpos), activate_bot cpos (bool_decide (curbot = Some i)) m h)
    (m, h) (zip (seq 0 (length bots)) bots).

(** ** Falling *)

(** [DownFree(x, y)]: 1 when the block below is free, 2 when the block waits,
    0 when it may slide. *)
Definition DownFree (m : WorldMap) (x y : Z) : Z :=
  if negb (solid (stats (GetIDByCoord m x (y + 1)))) then
    match falltype (stats (GetIDByCoord m x (y + 2))) with
    | Some _ => if solid (stats (GetIDByCoord m x (y + 3))) then 1 else 2
    | None => 1
    end
  else
    match falltype (stats (GetIDByCoord m x (y + 1))) with
    | Some _ => 0
    | None => 2
    end.

(** [wmap.ClearTile(x, y); wmap.SetTileWithCoords(x2, y2, cblock);] *)
Definition move_block (x y x2 y2 cblock : Z) (m : WorldMap) : WorldMap :=
  SetTileWithCoords x2 y2 cblock 0 (ClearTile x y false m).

(** Whether the block at (x, y) may slide to column x + dx: sand needs the
    cell below that side free, a boulder the cell beside it too. *)
Definition side_free (m : WorldMap) (bt : FallType) (x y dx : Z) : bool :=
  match bt with
  | bolder =>
      negb (solid (stats (GetIDByCoord_Terrain m (x + dx) (y + 1)))) &&
      negb (solid (stats (GetIDByCoord_Terrain m (x + dx) y)))
  | sand => negb (solid (stats (GetIDByCoord_Terrain m (x + dx) (y + 1))))
  end.

(** Try the side dx first, then the other. *)
Definition slide (bt : FallType) (x y dx cblock : Z) (m : WorldMap) : WorldMap :=
  if side_free m bt x y dx then move_block x y (x + dx) (y + 1) cblock m
  else if side_free m bt x y (- dx) then move_block x y (x + - dx) (y + 1) cblock m
  else m.

(** The body of the innermost loop of [FallingCycle]. *)
Definition FallCell (x y : Z) (m : WorldMap) (h : Host) : WorldMap * Host :=
  let cblock := GetIDByCoord_Terrain m x y in
  match falltype (stats cblock) with
  | None => (m, h)
  | Some bt =>
      let df := DownFree m x y in
      if negb (df =? 0) then
        (if df =? 1 then move_block x y x (y + 1) cblock m else m, h)
      else
        let '(r, h) := RandInt 0 1 h in
        (slide bt x y (if r =? 0 then 1 else -1) cblock m, h)
  end.

(** The cells of a chunk, bottom row first. *)
Definition FallChunk (dx dy : Z) (m : WorldMap) (h : Host) : WorldMap * Host :=
  foldl (λ '(m, h) y,
    foldl (λ '(m, h) x, FallCell x y m h) (m, h)
      (up_to (js_shl dx 5) (Z.min (js_shl dx 5 + 32) (width m))))
    (m, h) (down_to (js_shl dy 5 + 31) (js_shl dy 5)).

(** One chunk of the scan: run it when it is active, then clear its flag. *)
Definition FallStep (dx dy : Z) (m : WorldMap) (h : Host) : WorldMap * Host :=
  let i := dx + dy * chunkWidth m in
  if cell (activeChunks m) i =? 0 then (m, h)
  else
    let '(m, h) := FallChunk dx dy m h in
    (with_activeChunks (aset (activeChunks m) i 0) m, h).

(** The chunks of one row, left to right. *)
Definition FallRow (cwidth dy : Z) (st : WorldMap * Host) : WorldMap * Host :=
  foldl (λ '(m, h) dx, FallStep dx dy m h) st (up_to 0 cwidth).

(** [FallingCycle()]: the chunks from the bottom row up; the flag [inProcess]
    guards against a nested run and is false at the end. *)
Definition FallingCycle (inProcess : bool) (m : WorldMap) (h : Host) : bool * (WorldMap * Host) :=
  (false,
   if inProcess then (m, h)
   else
     foldl (λ st dy, FallRow (chunkWidth m) dy st) (m, h) (down_to (chunkHeight m - 1) 0)).

(** ** Growth of living blocks *)

Definition AliveProductHardness (block : Z) : option Z :=
  match block with
  | 50 => Some 1 | 51 => Some 2 | 52 => Some 1 | 53 => Some 1
  | 54 => Some 8 | 55 => Some 1 | 116 => Some 20
  | _ => None
  end.

Definition hypno_at (m : WorldMap) (x y : Z) : Z :=
  if GetIDByCoord_Terrain m x y =? Block B_rock_hypno then 1 else 0.

Definition CalculateAliveProductHardness (m : WorldMap) (x y block : Z) : Z :=
  let hardnessMul := 1 + hypno_at m (x - 1) y + hypno_at m (x + 1) y
    + hypno_at m x (y + 1) + hypno_at m x (y - 1) in
  default 0 (AliveProductHardness block) * hardnessMul.

Definition IsBlackRockNear (m : WorldMap) (x y : Z) : bool :=
  let black x y := GetIDByCoord_Terrain m x y =? Block B_rock_black in
  black (x - 1) (y - 1) || black x (y - 1) || black (x + 1) (y - 1) ||
  black (x - 1) y || black (x + 1) y ||
  black (x - 1) (y + 1) || black x (y + 1) || black (x + 1) (y + 1).

Definition SetIfFree (x y block h : Z) (m : WorldMap) : WorldMap :=
  if negb (solid (stats (GetIDByCoord_Terrain m x y))) then SetTileWithCoords x y block h m else m.

(** The four neighbours, in the order of the code. *)
Definition grow_around (x y cry h : Z) (m : WorldMap) : WorldMap :=
  let m := SetIfFree (x - 1) y cry h m in
  let m := SetIfFree (x + 1) y cry h m in
  let m := SetIfFree x (y - 1) cry h m in
  SetIfFree x (y + 1) cry h m.

(** The white species: magma above turns into crystals on both sides. *)
Definition grow_white (x y h : Z) (m : WorldMap) : WorldMap :=
  let cry := Block B_cry_white in
  let m := SetIfFree (x - 1) y cry h m in
  let m := SetIfFree (x + 1) y cry h m in
  let m := SetIfFree x (y + 1) cry h m in
  let m := SetIfFree (x + 1) (y + 1) cry h m in
  let m := SetIfFree (x + 1) (y - 1) cry h m in
  let m := SetIfFree (x + 1) (y - 1) cry h m in
  let m := SetIfFree (x - 1) (y + 1) cry h m in
  ClearTile x (y - 1) false m.

(** The blue species: it rests once, then crawls one cell in a random
    direction and leaves a crystal behind. *)
Definition grow_blue (x y block : Z) (m : WorldMap) (h : Host) : WorldMap * Host :=
  if 0 <? GetDensity m x y then (SetDensity x y 0 m, h)
  else
    let '(moveDir, h) := RandInt 0 3 h in
    let '(mx, my) :=
      match moveDir with
      | 0 => (x, y + 1) | 1 => (x, y - 1) | 2 => (x + 1, y) | 3 => (x - 1, y)
      | _ => (0, 0)
      end in
    let place := GetIDByCoord_Terrain m mx my in
    if negb (solid (stats place)) then
      let hh := CalculateAliveProductHardness m x y block in
      let m := SetTileWithCoords mx my (Block B_alive_blue) 0 m in
      let m := SetDensity mx my 1 m in
      (SetTileWithCoords x y (Block B_cry_blue) hh m, h)
    else (m, h).

(** [AliveGrowth(x, y)]: false when the cell does not hold a living block. *)
Definition AliveGrowth (x y : Z) (m : WorldMap) (h : Host) : bool * (WorldMap * Host) :=
  let block := GetIDByCoord_Terrain m x y in
  if is_alive (stats block) then
    (true,
     match AliveProductHardness block with
     | None => (m, h)
     | Some _ =>
         let hard := CalculateAliveProductHardness m x y block in
         if block =? Block B_alive_cyan then (grow_around x y (Block B_cry_cyan) hard m, h)
         else if block =? Block B_alive_red then
           (if IsBlackRockNear m x y then grow_around x y (Block B_cry_red) hard m else m, h)
         else if block =? Block B_alive_vio then
           (if IsBlackRockNear m x y then grow_around x y (Block B_cry_vio) hard m else m, h)
         else if block =? Block B_alive_black then (m, h)
         else if block =? Block B_alive_white then
           (if GetIDByCoord m x (y - 1) =? Block B_magma then grow_white x y hard m else m, h)
         else if block =? Block B_alive_reinbow then (m, h)
         else if block =? Block B_alive_blue then grow_blue x y block m h
         else (m, h)
     end)
  else (false, (m, h)).

(** ** The timers *)

(** The first timer: choose the active chunks, then let things fall. *)
Definition falling_tick (bots : list Vector2d) (curbot : option nat)
    (inProcess : bool) (m : WorldMap) (h : Host) : bool * (WorldMap * Host) :=
  let '(m, h) := SetActiveChunks bots curbot m h in
  FallingCycle inProcess m h.

(** One draw of the second timer: the next living index grows, an index
    whose block is gone is dropped, an exhausted iterator is renewed. *)
Definition growth_draw (st : WorldMap * Host * SetIter) : WorldMap * Host * SetIter :=
  let '(m, h, iter) := st in
  let '(val, iter) := set_next (alivesList m) iter in
  match val with
  | Some v =>
      let '(result, (m, h)) := AliveGrowth (Z.rem v (width m)) (wrap32 (Z.quot v (width m))) m h in
      (if result then m else with_alivesList (set_delete (alivesList m) v) m, h, iter)
  | None => (m, h, set_iter)
  end.

(** The second timer: ten draws, every other time. *)
Definition growth_tick (st : WorldMap * Host * SetIter) : WorldMap * Host * SetIter :=
  let '(m, h, iter) := st in
  if (0 <? set_size (alivesList m))%nat then
    let '(r, h) := RandInt 0 1 h in
    if r =? 0 then (m, h, iter)
    else Nat.iter 10 growth_draw (m, h, iter)
  else (m, h, iter).
