(* ===== verification/GeoFacts.v ===== *)
(** * Geophysics: what falling and growing preserve *)

From S2P Require Import Prelude JsNum JsSet Blocks Host PacksContainer WMap Vec Geo.

(** ** One fall *)

(** A fall moves one falling block to a free cell one row down and at most one
    column aside. *)
Inductive fall_move (m : WorldMap) : WorldMap -> Prop :=
  | Fall_move x y dx bt :
      -1 <= dx <= 1 ->
      ValidCoords m x y = true -> ValidCoords m (x + dx) (y + 1) = true ->
      falltype (stats (cell (terrain m) (idx m x y))) = Some bt ->
      cell (terrain m) (idx m (x + dx) (y + 1)) = 0 ->
      fall_move m (move_block x y (x + dx) (y + 1) (cell (terrain m) (idx m x y)) m).

(** Only a cell of the map can hold a falling block. *)
Lemma falling_valid m x y bt :
  falltype (stats (GetIDByCoord_Terrain m x y)) = Some bt ->
  ValidCoords m x y = true /\ GetIDByCoord_Terrain m x y = cell (terrain m) (idx m x y).
Proof.
  unfold GetIDByCoord_Terrain. destruct (ValidCoords m x y); [done|].
  change (falltype (stats 104)) with (@None FallType). done.
Qed.

Lemma DownFree_1 m x y :
  wf m -> DownFree m x y = 1 ->
  ValidCoords m x (y + 1) = true /\ cell (terrain m) (idx m x (y + 1)) = 0.
Proof.
  intros Hwf. unfold DownFree. destruct (solid (stats (GetIDByCoord m x (y + 1)))) eqn:E; cbn [negb].
  - repeat case_match; lia.
  - intros _. by apply GetID_not_solid.
Qed.

Lemma side_free_target m bt x y dx :
  wf m -> side_free m bt x y dx = true ->
  ValidCoords m (x + dx) (y + 1) = true /\ cell (terrain m) (idx m (x + dx) (y + 1)) = 0.
Proof.
  intros Hwf H. apply GetID_Terrain_not_solid; [done|].
  unfold side_free in H. destruct bt; [|apply andb_prop in H as [H _]];
    by apply negb_true_iff in H.
Qed.

(** A visit of a cell leaves the map as it is or makes one fall. *)
Lemma FallCell_spec x y m h :
  wf m -> (FallCell x y m h).1 = m \/ fall_move m (FallCell x y m h).1.
Proof.
  intros Hwf. unfold FallCell.
  destruct (falltype (stats (GetIDByCoord_Terrain m x y))) as [bt|] eqn:Ef; [|by left].
  destruct (falling_valid m x y bt Ef) as [Hv Et].
  assert (forall dx, -1 <= dx <= 1 ->
    ValidCoords m (x + dx) (y + 1) = true /\ cell (terrain m) (idx m (x + dx) (y + 1)) = 0 ->
    fall_move m (move_block x y (x + dx) (y + 1) (GetIDByCoord_Terrain m x y) m)) as Hmove.
  { intros dx Hdx [Hv' H0]. rewrite Et. apply Fall_move with bt; auto. by rewrite <- Et. }
  destruct (negb (DownFree m x y =? 0)); cbn [fst].
  - destruct (DownFree m x y =? 1) eqn:E1; [|by left]. right.
    specialize (Hmove 0 ltac:(lia)). rewrite Z.add_0_r in Hmove. apply Hmove.
    apply DownFree_1; [done|lia].
  - destruct (RandInt 0 1 h) as [r h']. cbn [fst]. unfold slide.
    assert (-1 <= (if r =? 0 then 1 else -1) <= 1) as Hd by (destruct (r =? 0); lia).
    destruct (side_free m bt x y _) eqn:E1.
    { right. apply Hmove; [done|]. by eapply side_free_target. }
    destruct (side_free m bt x y (- _)) eqn:E2; [|by left].
    right. apply Hmove; [lia|]. by eapply side_free_target.
Qed.

(** ** What a fall keeps *)

Lemma move_block_layers m x y x2 y2 b :
  wf m -> is_byte b -> solid (stats b) = true -> is_alive (stats b) = false ->
  ValidCoords m x2 y2 = true ->
  terrain (move_block x y x2 y2 b m) = aset (aset (terrain m) (idx m x y) 0) (idx m x2 y2) b /\
  background (move_block x y x2 y2 b m) = background m /\
  alivesList (move_block x y x2 y2 b m) = alivesList m /\
  activeChunks (move_block x y x2 y2 b m) = activeChunks m /\
  packContainer (move_block x y x2 y2 b m) = packContainer m.
Proof.
  intros Hwf Hb Hs Ha Hv. unfold move_block, SetTileWithCoords.
  rewrite (same_shape_valid _ _ _ _ (ClearTile_shape x y false m)), Hv.
  rewrite (same_shape_idx _ _ _ _ (ClearTile_shape x y false m)).
  unfold _SetTile. rewrite Hs, Ha. done.
Qed.

Record keeps (m m' : WorldMap) : Prop := {
  keeps_shape : same_shape m m';
  keeps_terrain : terrain m' ≡ₚ terrain m;
  keeps_background : background m' = background m;
  keeps_alives : alivesList m' = alivesList m
}.

#[global] Instance keeps_preorder : PreOrder keeps.
Proof.
  split.
  - intros m. split; done || reflexivity.
  - intros m1 m2 m3 [S1 T1 B1 A1] [S2 T2 B2 A2].
    split; [by etransitivity | by etransitivity | congruence | congruence].
Qed.

Lemma move_block_shape x y x2 y2 b m : same_shape m (move_block x y x2 y2 b m).
Proof. unfold move_block. etransitivity; [apply ClearTile_shape | apply SetTileWithCoords_shape]. Qed.

(** A falling cell of a well-formed map, as a fact of the block table. *)
Lemma fall_block_stats m i bt :
  wf m -> falltype (stats (cell (terrain m) i)) = Some bt ->
  is_byte (cell (terrain m) i) /\ solid (stats (cell (terrain m) i)) = true /\
  is_alive (stats (cell (terrain m) i)) = false.
Proof.
  intros Hwf Hf. pose proof (terrain_byte m i Hwf) as Hb.
  destruct (falling_stats _ _ Hb Hf) as (?&?&?). auto.
Qed.

Lemma aset_in a i v :
  0 <= i < Z.of_nat (length a) -> is_byte v -> aset a i v = <[Z.to_nat i := v]> a.
Proof.
  intros Hi Hv. unfold aset. replace (0 <=? i) with true by lia. by rewrite u8_small.
Qed.

(** Exchanging two cells is a permutation of the layer. *)
Lemma aset_swap a i j b :
  0 <= i < Z.of_nat (length a) -> 0 <= j < Z.of_nat (length a) -> i <> j ->
  is_byte b -> aget a i = Some b -> aget a j = Some 0 ->
  aset (aset a i 0) j b ≡ₚ a.
Proof.
  intros Hi Hj Hne Hb Ei Ej. rewrite (aset_in a i) by (done || apply byte_0).
  rewrite aset_in by (rewrite ?length_insert; done).
  unfold aget in Ei, Ej. repeat case_match; [|lia..].
  by apply Permutation_insert_swap.
Qed.

Lemma fall_move_keeps m m' : wf m -> fall_move m m' -> keeps m m' /\ wf m'.
Proof.
  intros Hwf [x y dx bt Hdx Hv Hv' Hf H0].
  destruct (fall_block_stats m _ bt Hwf Hf) as (Hb & Hs & Ha).
  destruct (move_block_layers m x y (x + dx) (y + 1) _ Hwf Hb Hs Ha Hv') as (Et & Eb & Eal & _).
  split.
  - split; [apply move_block_shape | | done | done].
    rewrite Et. apply aset_swap; try (by apply terrain_len); try done.
    + apply idx_neq; [done..|]. lia.
    + apply aget_cell. by apply terrain_len.
    + rewrite aget_cell by by apply terrain_len. by rewrite H0.
  - unfold move_block. by apply wf_SetTileWithCoords, wf_ClearTile.
Qed.

Lemma FallCell_keeps x y m h :
  wf m -> keeps m (FallCell x y m h).1 /\ wf (FallCell x y m h).1.
Proof.
  intros Hwf. destruct (FallCell_spec x y m h Hwf) as [->|Hm].
  - split; [reflexivity | done].
  - by apply fall_move_keeps.
Qed.

(** ** A whole cycle *)

Definition cycle_inv (m0 : WorldMap) (st : WorldMap * Host) : Prop := keeps m0 st.1 /\ wf st.1.

Lemma FallCell_inv m0 x y st : cycle_inv m0 st -> cycle_inv m0 (FallCell x y st.1 st.2).
Proof.
  intros [Hk Hwf]. destruct (FallCell_keeps x y st.1 st.2 Hwf) as [Hk' Hwf'].
  split; [by etransitivity | done].
Qed.

Lemma FallChunk_inv m0 dx dy st :
  cycle_inv m0 st -> cycle_inv m0 (FallChunk dx dy st.1 st.2).
Proof.
  intros H. unfold FallChunk. destruct st as [m h].
  apply (foldl_invariant (cycle_inv m0)); [done|]. intros [m1 h1] y _ H1.
  apply (foldl_invariant (cycle_inv m0)); [done|]. intros [m2 h2] x _ H2.
  by apply (FallCell_inv m0 x y (m2, h2)).
Qed.

Lemma keeps_active m i v : keeps m (with_activeChunks (aset (activeChunks m) i v) m).
Proof.
  split; try done. unfold same_shape. cbn. rewrite length_aset. auto 10.
Qed.

Lemma FallStep_inv m0 dx dy st :
  cycle_inv m0 st -> cycle_inv m0 (FallStep dx dy st.1 st.2).
Proof.
  intros H. unfold FallStep. case_match; [done|].
  pose proof (FallChunk_inv m0 dx dy st H) as [Hk Hwf].
  destruct (FallChunk dx dy st.1 st.2) as [m' h']. split; cbn in *.
  - etransitivity; [exact Hk | apply keeps_active].
  - by apply wf_set_activeChunks.
Qed.

(** Falling does not touch the activity flags. *)
Lemma FallCell_active x y m h :
  wf m -> activeChunks (FallCell x y m h).1 = activeChunks m.
Proof.
  intros Hwf. destruct (FallCell_spec x y m h Hwf) as [->|[x' y' dx bt Hdx Hv Hv' Hf H0]]; [done|].
  destruct (fall_block_stats m _ bt Hwf Hf) as (Hb & Hs & Ha).
  by destruct (move_block_layers m x' y' (x' + dx) (y' + 1) _ Hwf Hb Hs Ha Hv') as (_&_&_&?&_).
Qed.

Lemma FallChunk_active dx dy m h :
  wf m -> activeChunks (FallChunk dx dy m h).1 = activeChunks m.
Proof.
  intros Hwf. unfold FallChunk.
  enough ((λ st : WorldMap * Host, wf st.1 /\ activeChunks st.1 = activeChunks m)
    (foldl (λ '(m, h) y, foldl (λ '(m, h) x, FallCell x y m h) (m, h)
      (up_to (js_shl dx 5) (Z.min (js_shl dx 5 + 32) (width m))))
      (m, h) (down_to (js_shl dy 5 + 31) (js_shl dy 5)))) as [_ H].
  { exact H. }
  apply foldl_invariant; [done|]. intros [m1 h1] y _ H1.
  apply (foldl_invariant (λ st, wf st.1 /\ activeChunks st.1 = activeChunks m)); [done|].
  intros [m2 h2] x _ [Hwf2 Ha2]. cbn in *. split.
  - by apply FallCell_keeps.
  - by rewrite FallCell_active.
Qed.

(** The flag of a visited chunk is cleared and no flag is raised. *)
Lemma FallStep_flags dx dy m h j :
  wf m ->
  cell (activeChunks (FallStep dx dy m h).1) j =
  if j =? dx + dy * chunkWidth m then 0 else cell (activeChunks m) j.
Proof.
  intros Hwf. unfold FallStep. destruct (cell (activeChunks m) _ =? 0) eqn:E0.
  - cbn [fst]. destruct (Z.eqb_spec j (dx + dy * chunkWidth m)) as [->|]; [lia|done].
  - pose proof (FallChunk_active dx dy m h Hwf) as Ha.
    destruct (FallChunk dx dy m h) as [m' h']. cbn in *. rewrite Ha, cell_aset.
    rewrite (Z.eqb_sym j). destruct (Z.eqb_spec (dx + dy * chunkWidth m) j) as [E|]; [|done].
    subst j. cbn [andb]. case_match; [done|].
    unfold cell in *. rewrite aget_out in E0 |- *; [done|lia..].
Qed.

(** One row of chunks. *)
Lemma FallRow_inv m0 dy cw st : cycle_inv m0 st -> cycle_inv m0 (FallRow cw dy st).
Proof.
  intros H. unfold FallRow. apply (foldl_invariant (cycle_inv m0)); [done|].
  intros [m h] dx _ Hst. by apply (FallStep_inv m0 dx dy (m, h)).
Qed.

Lemma FallStep_zero dx dy st j :
  wf st.1 -> cell (activeChunks st.1) j = 0 ->
  cell (activeChunks (FallStep dx dy st.1 st.2).1) j = 0.
Proof. intros Hwf H0. rewrite FallStep_flags by done. by case_match. Qed.

Lemma FallRow_zero m0 dy cw st j :
  cycle_inv m0 st -> cell (activeChunks st.1) j = 0 ->
  cell (activeChunks (FallRow cw dy st).1) j = 0.
Proof.
  intros Hi H0. unfold FallRow.
  enough (cycle_inv m0 (FallRow cw dy st) /\ cell (activeChunks (FallRow cw dy st).1) j = 0)
    as [_ H] by done.
  apply (foldl_invariant (λ st, cycle_inv m0 st /\ cell (activeChunks st.1) j = 0)); [done|].
  intros [m h] dx _ [H1 H2]. split; [by apply (FallStep_inv m0 dx dy (m, h))|].
  apply (FallStep_zero dx dy (m, h)); [apply H1 | done].
Qed.

Lemma FallRow_clears m0 dy st dx :
  cycle_inv m0 st -> 0 <= dx < chunkWidth m0 ->
  cell (activeChunks (FallRow (chunkWidth m0) dy st).1) (dx + dy * chunkWidth m0) = 0.
Proof.
  intros Hi Hdx. unfold FallRow.
  apply (foldl_establish (cycle_inv m0)
    (λ dx st, cell (activeChunks st.1) (dx + dy * chunkWidth m0) = 0)); [done|..].
  - intros [m h] dx' H. by apply (FallStep_inv m0 dx' dy (m, h)).
  - intros [m h] dx' [Hk Hwf]. cbn in *. rewrite FallStep_flags by done.
    destruct (keeps_shape _ _ Hk) as (_&_&Ecw&_). by rewrite Ecw, Z.eqb_refl.
  - intros [m h] b c [Hk Hwf]. by apply (FallStep_zero b dy (m, h)).
  - by apply elem_of_up_to.
Qed.

(** ** Properties of falling *)

(** C8: A run of [FallingCycle] conserves matter: the solid layer afterwards is a
    permutation of the solid layer before, the background and the set of living
    blocks are unchanged, the map stays well formed, every activity flag is
    cleared and [inProcess] is released. *)
Theorem FallingCycle_conserves m h :
  wf m ->
  let '(inProcess, (m', h')) := FallingCycle false m h in
  inProcess = false /\ wf m' /\ same_shape m m' /\
  terrain m' ≡ₚ terrain m /\ background m' = background m /\ alivesList m' = alivesList m /\
  (forall cx cy, 0 <= cx < chunkWidth m -> 0 <= cy < chunkHeight m ->
     cell (activeChunks m') (cx + cy * chunkWidth m) = 0).
Proof.
  intros Hwf. unfold FallingCycle.
  set (f := λ st dy, FallRow (chunkWidth m) dy st).
  assert (cycle_inv m (m, h)) as H0 by (split; [reflexivity | done]).
  assert (cycle_inv m (foldl f (m, h) (down_to (chunkHeight m - 1) 0))) as Hend.
  { apply (foldl_invariant (cycle_inv m)); [done|]. intros st dy _ Hst.
    by apply FallRow_inv. }
  assert (forall cx cy, 0 <= cx < chunkWidth m -> 0 <= cy < chunkHeight m ->
    cell (activeChunks (foldl f (m, h) (down_to (chunkHeight m - 1) 0)).1)
      (cx + cy * chunkWidth m) = 0) as Hflags.
  { intros cx cy Hcx Hcy.
    apply (foldl_establish (cycle_inv m)
      (λ dy st, cell (activeChunks st.1) (cx + dy * chunkWidth m) = 0)); [done|..].
    - intros st dy. by apply FallRow_inv.
    - intros st dy Hst. by apply FallRow_clears.
    - intros st b c Hst. by eapply FallRow_zero.
    - apply elem_of_down_to. lia. }
  destruct (foldl f _ _) as [m' h']. destruct Hend as [[S T B A] Hwf']. auto 10.
Qed.

(** A 3x3 map with white sand in the top row, its chunk active. *)
Definition demo_sand : WorldMap :=
  mark_chunk (SetTileWithCoords 1 0 (Block B_sand_white0) 0 (new_WorldMap 3 3)) 0 0.

Lemma mark_chunk_wf m x y : wf m -> wf (mark_chunk m x y).
Proof. intros. unfold mark_chunk. case_match; [by apply wf_set_activeChunks | done]. Qed.

Lemma demo_sand_wf : wf demo_sand.
Proof.
  apply mark_chunk_wf, wf_SetTileWithCoords; [apply Block_byte|]. by apply wf_Resyze.
Qed.

Lemma FallingCycle_conserves_witness :
  let m' := (FallingCycle false demo_sand (const_host 0 0)).2.1 in
  terrain m' ≡ₚ terrain demo_sand /\ terrain m' = [0; 0; 0; 0; 60; 0; 0; 0; 0].
Proof.
  pose proof (FallingCycle_conserves demo_sand (const_host 0 0) demo_sand_wf) as H.
  destruct (FallingCycle false demo_sand (const_host 0 0)) as [p [m' h']] eqn:E.
  destruct H as (_ & _ & _ & Hp & _). split; [exact Hp|].
  vm_compute in E. injection E as <- <- <-. reflexivity.
Defined.

(** ** Depth

    The depth of a map is the sum of the rows of its falling blocks.  Every
    fall adds one, and the depth is bounded, so falling always ends. *)

Definition falls (v : Z) : bool := match falltype (stats v) with Some _ => true | None => false end.

Definition depth (m : WorldMap) : Z :=
  wsum (λ i v, if falls v then Z.of_nat i / width m else 0) (terrain m).

Lemma depth_bounds m : wf m -> 0 <= depth m <= height m * (width m * height m).
Proof.
  intros Hwf. pose proof (wf_terrain_len m Hwf) as Hl.
  pose proof (wf_width m Hwf). pose proof (wf_height m Hwf).
  unfold depth. rewrite <- Hl. apply wsum_bounds. intros i v Hi.
  case_match; [|lia]. destruct (Z.eq_dec (width m) 0) as [E|E].
  - rewrite E, Z.div_0_r. lia.
  - split; [apply Z.div_pos; lia|]. apply Z.div_le_upper_bound; lia.
Qed.

Lemma idx_div m x y : 0 <= x < width m -> idx m x y / width m = y.
Proof. intros. unfold idx. rewrite Z.div_add by lia. rewrite Z.div_small; lia. Qed.

Lemma wsum_aset f a i v old :
  is_byte v -> aget a i = Some old ->
  wsum f (aset a i v) = wsum f a - f (Z.to_nat i) old + f (Z.to_nat i) v.
Proof.
  intros Hv Ha. pose proof (aget_Some_range a i old Ha). rewrite aset_in by done.
  apply wsum_insert. unfold aget in Ha. by case_match.
Qed.

Lemma fall_move_depth m m' : wf m -> fall_move m m' -> depth m' = depth m + 1.
Proof.
  intros Hwf Hm. pose proof (fall_move_keeps m m' Hwf Hm) as [Hk _].
  destruct (keeps_shape _ _ Hk) as (Ew & _). unfold depth. rewrite Ew.
  destruct Hm as [x y dx bt Hdx Hv Hv' Hf H0].
  destruct (fall_block_stats m _ bt Hwf Hf) as (Hb & Hs & Ha).
  destruct (move_block_layers m x y (x + dx) (y + 1) _ Hwf Hb Hs Ha Hv') as (-> & _).
  set (b := cell (terrain m) (idx m x y)) in *.
  assert (idx m x y <> idx m (x + dx) (y + 1)) by (apply idx_neq; [done..|lia]).
  pose proof (terrain_len m _ _ Hwf Hv) as R1. pose proof (terrain_len m _ _ Hwf Hv') as R2.
  rewrite (wsum_aset _ _ _ _ 0) by
    (try done; rewrite aget_aset_ne by done; rewrite aget_cell by done; by rewrite H0).
  rewrite (wsum_aset _ _ _ _ b) by (apply byte_0 || by apply aget_cell).
  change (falls 0) with false. unfold falls. rewrite Hf. cbv iota.
  rewrite !Z2Nat.id by lia. unfold ValidCoords in *.
  rewrite (idx_div m x y), (idx_div m (x + dx) (y + 1)) by lia. lia.
Qed.

(** ** Activation *)

Lemma mark_chunk_shape m x y : same_shape m (mark_chunk m x y).
Proof.
  unfold mark_chunk. case_match; [|reflexivity].
  unfold same_shape. cbn. rewrite length_aset. auto 10.
Qed.

Lemma mark_chunk_inv m0 m x y :
  wf m /\ same_shape m0 m -> wf (mark_chunk m x y) /\ same_shape m0 (mark_chunk m x y).
Proof.
  intros [W S]. split; [by apply mark_chunk_wf|]. etransitivity; [exact S | apply mark_chunk_shape].
Qed.

(** Marking a chunk raises its flag and lowers none. *)
Lemma mark_chunk_flag m x y :
  wf m -> 0 <= x < chunkWidth m -> 0 <= y < chunkHeight m ->
  cell (activeChunks (mark_chunk m x y)) (x + y * chunkWidth m) = 1.
Proof.
  intros Hwf Hx Hy. unfold mark_chunk.
  replace ((0 <=? x) && (0 <=? y) && (x <? chunkWidth m) && (y <? chunkHeight m)) with true by lia.
  cbn. rewrite cell_aset_eq; [done|]. rewrite (wf_active_len m Hwf). by apply index_range.
Qed.

Lemma mark_chunk_mono m x y j :
  cell (activeChunks m) j = 1 -> cell (activeChunks (mark_chunk m x y)) j = 1.
Proof.
  intros H. unfold mark_chunk. case_match; [|done]. cbn. rewrite cell_aset. by case_match.
Qed.

(** The map during the activation: well formed, of the shape of [m0], with the
    flag of chunk [j] kept once it is up. *)
Definition act_ok (m0 m : WorldMap) : Prop := wf m /\ same_shape m0 m.
Definition flag_up (j : Z) (m : WorldMap) : Prop := cell (activeChunks m) j = 1.

Definition mark_row (x1 x2 y : Z) (m : WorldMap) : WorldMap :=
  foldl (λ m x, mark_chunk m x y) m (up_to x1 x2).
Definition mark_box (x1 x2 y1 y2 : Z) (m : WorldMap) : WorldMap :=
  foldl (λ m y, mark_row x1 x2 y m) m (up_to y1 y2).

Lemma mark_row_ok m0 x1 x2 y m : act_ok m0 m -> act_ok m0 (mark_row x1 x2 y m).
Proof. intros H. unfold mark_row. apply (foldl_invariant (act_ok m0)); [done|]. intros. by apply mark_chunk_inv. Qed.

Lemma mark_row_mono j x1 x2 y m : flag_up j m -> flag_up j (mark_row x1 x2 y m).
Proof. intros H. unfold mark_row. apply (foldl_invariant (flag_up j)); [done|]. intros. by apply mark_chunk_mono. Qed.

Lemma mark_row_flag m0 x1 x2 y m x :
  act_ok m0 m -> x1 <= x < x2 -> 0 <= x < chunkWidth m0 -> 0 <= y < chunkHeight m0 ->
  flag_up (x + y * chunkWidth m0) (mark_row x1 x2 y m).
Proof.
  intros H Hx Hxw Hyw. unfold mark_row.
  apply (foldl_establish (act_ok m0)
    (λ x m, 0 <= x < chunkWidth m0 -> flag_up (x + y * chunkWidth m0) m));
    [done|..|by apply elem_of_up_to|done].
  - intros m1 x' H1. by apply mark_chunk_inv.
  - intros m1 x' [W (_&_&Ecw&Ech&_)] Hx'. unfold flag_up. rewrite <- Ecw.
    apply mark_chunk_flag; [done|lia..].
  - intros m1 x' x'' _ H1 Hx''. by apply mark_chunk_mono, H1.
Qed.

Lemma mark_box_ok m0 x1 x2 y1 y2 m : act_ok m0 m -> act_ok m0 (mark_box x1 x2 y1 y2 m).
Proof. intros H. unfold mark_box. apply (foldl_invariant (act_ok m0)); [done|]. intros. by apply mark_row_ok. Qed.

Lemma mark_box_mono j x1 x2 y1 y2 m : flag_up j m -> flag_up j (mark_box x1 x2 y1 y2 m).
Proof. intros H. unfold mark_box. apply (foldl_invariant (flag_up j)); [done|]. intros. by apply mark_row_mono. Qed.

Lemma mark_box_flag m0 x1 x2 y1 y2 m x y :
  act_ok m0 m -> x1 <= x < x2 -> y1 <= y < y2 ->
  0 <= x < chunkWidth m0 -> 0 <= y < chunkHeight m0 ->
  flag_up (x + y * chunkWidth m0) (mark_box x1 x2 y1 y2 m).
Proof.
  intros H Hx Hy Hxw Hyw. unfold mark_box.
  apply (foldl_establish (act_ok m0)
    (λ y m, 0 <= y < chunkHeight m0 -> flag_up (x + y * chunkWidth m0) m));
    [done|..|by apply elem_of_up_to|done].
  - intros. by apply mark_row_ok.
  - intros. by apply mark_row_flag.
  - intros m1 y' y'' _ H1 Hy''. by apply mark_row_mono, H1.
Qed.

(** One bot: some box around its chunk. *)
Lemma activate_bot_box c cur m h :
  exists ax1 ay1 ax2 ay2, 0 <= ax1 /\ 0 <= ay1 /\ 0 <= ax2 /\ 0 <= ay2 /\
  (activate_bot c cur m h).1 =
    mark_box (js_shr (vx c) 5 - ax1) (js_shr (vx c) 5 + ax2 + 1)
             (js_shr (vy c) 5 - ay1) (js_shr (vy c) 5 + ay2 + 1) m.
Proof.
  unfold activate_bot, active_box. destruct cur; [by exists 2, 4, 2, 3|].
  destruct (RandInt 0 3 h) as [r h']. destruct (r =? 0); [by exists 1, 1, 1, 0 | by exists 0, 1, 0, 0].
Qed.

Lemma activate_bot_ok m0 c cur m h : act_ok m0 m -> act_ok m0 (activate_bot c cur m h).1.
Proof. destruct (activate_bot_box c cur m h) as (?&?&?&?&_&_&_&_&->). apply mark_box_ok. Qed.

Lemma activate_bot_mono j c cur m h : flag_up j m -> flag_up j (activate_bot c cur m h).1.
Proof. destruct (activate_bot_box c cur m h) as (?&?&?&?&_&_&_&_&->). apply mark_box_mono. Qed.

Lemma activate_bot_own m0 c cur m h :
  act_ok m0 m -> width m0 <= 2 ^ 31 -> height m0 <= 2 ^ 31 ->
  ValidCoords m0 (vx c) (vy c) = true -> wf m0 ->
  flag_up (js_shr (vx c) 5 + js_shr (vy c) 5 * chunkWidth m0) (activate_bot c cur m h).1.
Proof.
  intros H Hw Hh Hv Hwf. destruct (activate_bot_box c cur m h) as (?&?&?&?&?&?&?&?&->).
  unfold ValidCoords in Hv.
  apply mark_box_flag; [done|lia|lia|..].
  - rewrite (wf_cw m0 Hwf). apply chunk_in_range; lia.
  - rewrite (wf_ch m0 Hwf). apply chunk_in_range; lia.
Qed.

(** ** Falling ends

    What happens to a map sinks it: the depth does not go down, and while it stays
    the solid layer stays. *)

Record sinks (m m' : WorldMap) : Prop := {
  sk_wf : wf m';
  sk_shape : same_shape m m';
  sk_depth : depth m <= depth m';
  sk_rest : depth m' = depth m -> terrain m' = terrain m }.

Lemma sinks_refl m : wf m -> sinks m m.
Proof. by split. Qed.

Lemma sinks_trans m1 m2 m3 : sinks m1 m2 -> sinks m2 m3 -> sinks m1 m3.
Proof.
  intros [_ S1 D1 T1] [W2 S2 D2 T2]. split; [done | by etransitivity | lia |].
  intros E. rewrite T2, T1 by lia. done.
Qed.

(** The depth looks at the solid layer and the width only. *)
Lemma sinks_flags m a : wf m -> length a = length (activeChunks m) -> sinks m (with_activeChunks a m).
Proof.
  intros Hwf Hl. split; [|unfold same_shape; cbn; auto 10|done|done].
  destruct Hwf. by split; cbn; rewrite ?Hl.
Qed.

Lemma FallCell_depth x y m h : wf m ->
  let m' := (FallCell x y m h).1 in m' = m \/ (wf m' /\ same_shape m m' /\ depth m' = depth m + 1).
Proof.
  intros Hwf. cbv zeta. destruct (FallCell_spec x y m h Hwf) as [E|Hm]; [by left|]. right.
  destruct (fall_move_keeps _ _ Hwf Hm) as [Hk Hwf']. split; [done|]. split; [apply Hk | by apply fall_move_depth].
Qed.

Lemma FallCell_sinks x y m h : wf m -> sinks m (FallCell x y m h).1.
Proof. intros Hwf. destruct (FallCell_depth x y m h Hwf) as [->|(W & S & D)]; [by apply sinks_refl | split; [done|done|lia|lia]]. Qed.

(** A loop that sinks the map in each round sinks it. *)
Lemma sinks_foldl {A} (f : WorldMap * Host -> A -> WorldMap * Host) (l : list A) st :
  (forall st a, wf st.1 -> sinks st.1 (f st a).1) -> wf st.1 -> sinks st.1 (foldl f st l).1.
Proof.
  intros Hf Hwf. apply (foldl_invariant (λ st', sinks st.1 st'.1)); [by apply sinks_refl|].
  intros st' a _ H. eapply sinks_trans; [exact H | apply Hf, (sk_wf _ _ H)].
Qed.

Lemma FallStep_sinks dx dy m h : wf m -> sinks m (FallStep dx dy m h).1.
Proof.
  intros Hwf. unfold FallStep. case_match; [by apply sinks_refl|].
  assert (sinks m (FallChunk dx dy m h).1) as Hc.
  { apply (sinks_foldl _ _ (m, h)); [|done]. intros [m1 h1] y H1.
    apply (sinks_foldl _ _ (m1, h1)); [|done]. intros [m2 h2] x H2. by apply FallCell_sinks. }
  destruct (FallChunk dx dy m h) as [m1 h1]. cbn [fst] in *. eapply sinks_trans; [exact Hc|].
  apply sinks_flags; [apply Hc | apply length_aset].
Qed.

Lemma falling_tick_sinks bots cur p m h : wf m -> sinks m (falling_tick bots cur p m h).2.1.
Proof.
  intros Hwf. unfold falling_tick.
  assert (sinks m (SetActiveChunks bots cur m h).1) as Ha.
  { apply (sinks_foldl _ _ (m, h)); [|done]. intros [m1 h1] [i c] H1.
    destruct (activate_bot_box c (bool_decide (cur = Some i)) m1 h1) as (ax1&ay1&ax2&ay2&_&_&_&_&->).
    unfold mark_box, mark_row. apply (foldl_invariant (sinks m1)); [by apply sinks_refl|]. intros m2 y _ H2.
    apply (foldl_invariant (sinks m1)); [done|]. intros m3 x _ H3. eapply sinks_trans; [exact H3|].
    unfold mark_chunk. case_match; [apply sinks_flags; [apply H3 | apply length_aset] | apply sinks_refl, H3]. }
  destruct (SetActiveChunks bots cur m h) as [m1 h1]. cbn [fst] in Ha. eapply sinks_trans; [exact Ha|].
  unfold FallingCycle. cbn [fst snd]. destruct p; [apply sinks_refl, Ha|].
  apply (sinks_foldl _ _ (m1, h1)); [|apply Ha]. intros st dy H2. unfold FallRow.
  apply (sinks_foldl _ _ st); [|done]. intros [m3 h3] dx H3. by apply FallStep_sinks.
Qed.

(** How many steps of a run change the solid layer, and where the run ends. *)
Fixpoint changes {A} (step : A -> WorldMap * Host -> WorldMap * Host) (l : list A) (st : WorldMap * Host) : nat * WorldMap :=
  match l with
  | [] => (0%nat, st.1)
  | a :: l =>
      let '(n, m') := changes step l (step a st) in
      ((if bool_decide (terrain (step a st).1 = terrain st.1) then n else S n), m')
  end.

Lemma changes_sinks {A} (step : A -> WorldMap * Host -> WorldMap * Host) l : (forall a st, wf st.1 -> sinks st.1 (step a st).1) ->
  forall st, wf st.1 -> let '(n, m') := changes step l st in sinks st.1 m' /\ depth st.1 + Z.of_nat n <= depth m'.
Proof.
  intros Hstep. induction l as [|a l IH]; intros st Hwf; cbn [changes]; [split; [by apply sinks_refl | lia]|].
  pose proof (Hstep a st Hwf) as H1. specialize (IH (step a st) (sk_wf _ _ H1)).
  destruct (changes step l (step a st)) as [n m']. destruct IH as [H2 Hn]. split; [by eapply sinks_trans|].
  destruct H1 as [_ _ D1 T1]. case_bool_decide as E; [lia|]. assert (depth (step a st).1 <> depth st.1) by auto. lia.
Qed.

(** The depth has a bound that depends on the sizes of the map only. *)
Lemma sinks_bound m m' : wf m -> sinks m m' -> depth m' - depth m <= height m * (width m * height m).
Proof.
  intros Hwf [W (Ew & Eh & _) _ _]. pose proof (depth_bounds m Hwf). pose proof (depth_bounds m' W) as B. rewrite Ew, Eh in B. lia.
Qed.

Definition visit (p : Z * Z) (st : WorldMap * Host) : WorldMap * Host := FallCell p.1 p.2 st.1 st.2.
Definition tick (b : list Vector2d * option nat) (st : WorldMap * Host) : WorldMap * Host := (falling_tick b.1 b.2 false st.1 st.2).2.

Lemma changes_visits l : forall st, wf st.1 ->
  let '(n, m') := changes visit l st in depth m' = depth st.1 + Z.of_nat n.
Proof.
  induction l as [|p l IH]; intros st Hwf; cbn [changes]; [lia|].
  specialize (IH (visit p st) (sk_wf _ _ (FallCell_sinks p.1 p.2 st.1 st.2 Hwf))).
  destruct (changes visit l (visit p st)) as [n m']. unfold visit in *.
  destruct (FallCell_depth p.1 p.2 st.1 st.2 Hwf) as [E|(_ & (Ew & _) & D)].
  - rewrite E in *. by rewrite bool_decide_true.
  - case_bool_decide as E; [|lia]. exfalso. unfold depth in D. rewrite E in D.
    rewrite Ew in D. lia.
Qed.

(** C10: Falling terminates.  However many cells are visited, in whatever order and with
    whatever random numbers, each visit of [FallCell] that changes the solid layer adds one to
    the sum of the rows of the falling blocks, that is moves one of them one row down, and at most
    height * width * height visits do; and of however many ticks of the timer, with
    whatever bots around - each activates the chunks and runs [FallingCycle] -, at most so many change
    the solid layer: in any longer run of ticks there is one at which everything is at rest. *)
Theorem falling_terminates (m : WorldMap) (h : Host) (Hwf : wf m) :
  (forall cells, let '(n, m') := changes visit cells (m, h) in
     depth m' = depth m + Z.of_nat n /\ Z.of_nat n <= height m * (width m * height m)) /\
  (forall bots, Z.of_nat (changes tick bots (m, h)).1 <= height m * (width m * height m)).
Proof.
  split.
  - intros cells. pose proof (changes_visits cells (m, h) Hwf) as E.
    pose proof (changes_sinks visit cells (λ p st, FallCell_sinks p.1 p.2 st.1 st.2) (m, h) Hwf) as B.
    destruct (changes visit cells (m, h)) as [n m']. destruct B as [B _]. split; [exact E|].
    pose proof (sinks_bound m m' Hwf B). cbn in E. lia.
  - intros bots. pose proof (changes_sinks tick bots (λ b st, falling_tick_sinks b.1 b.2 false st.1 st.2) (m, h) Hwf) as B.
    destruct (changes tick bots (m, h)) as [n m']. destruct B as [B Hn]. cbn [fst] in *. pose proof (sinks_bound m m' Hwf B). lia.
Qed.

Lemma falling_terminates_witness :
  (changes visit [(1, 0); (1, 1); (1, 2)] (demo_sand, const_host 0 0)).1 = 2%nat /\
  depth (changes visit [(1, 0); (1, 1); (1, 2)] (demo_sand, const_host 0 0)).2 = depth demo_sand + 2.
Proof.
  destruct (falling_terminates demo_sand (const_host 0 0) demo_sand_wf) as [H _]. specialize (H [(1, 0); (1, 1); (1, 2)]).
  assert ((changes visit [(1, 0); (1, 1); (1, 2)] (demo_sand, const_host 0 0)).1 = 2%nat) as E by (vm_compute; reflexivity).
  destruct (changes visit [(1, 0); (1, 1); (1, 2)] (demo_sand, const_host 0 0)) as [n m']. cbn [fst snd] in *. subst n.
  split; [reflexivity | apply H].
Defined.

(** After [SetActiveChunks] the chunk of every bot that stands inside the map
    is active, whichever bot is the current one and whatever the random boxes,
    and the map itself is as it was. *)
Theorem SetActiveChunks_covers m h bots curbot (i : nat) p :
  wf m -> width m <= 2 ^ 31 -> height m <= 2 ^ 31 ->
  bots !! i = Some p -> ValidCoords m (vx p) (vy p) = true ->
  let m' := (SetActiveChunks bots curbot m h).1 in
  wf m' /\ same_shape m m' /\
  cell (activeChunks m') (js_shr (vx p) 5 + js_shr (vy p) 5 * chunkWidth m) = 1.
Proof.
  intros Hwf Hw Hh Hi Hv. cbv zeta. unfold SetActiveChunks.
  set (f := λ '(m, h) '(i, cpos), activate_bot cpos (bool_decide (curbot = Some i)) m h).
  assert (forall st b, f st b = activate_bot b.2 (bool_decide (curbot = Some b.1)) st.1 st.2) as Ef.
  { by intros [m1 h1] [i1 c1]. }
  set (l := zip (seq 0 (length bots)) bots).
  assert (act_ok m (foldl f (m, h) l).1) as [W S].
  { apply (foldl_invariant (λ st, act_ok m st.1)); [split; [done | reflexivity]|].
    intros st b _ H. rewrite Ef. by apply activate_bot_ok. }
  split; [done|]. split; [done|].
  apply (foldl_establish (λ st, act_ok m st.1)
    (λ b st, ValidCoords m (vx b.2) (vy b.2) = true ->
       flag_up (js_shr (vx b.2) 5 + js_shr (vy b.2) 5 * chunkWidth m) st.1)) with (b := (i, p)).
  - split; [done | reflexivity].
  - intros st b H. rewrite Ef. by apply activate_bot_ok.
  - intros st b H Hb. rewrite Ef. by apply activate_bot_own.
  - intros st b c _ H Hc. rewrite Ef. by apply activate_bot_mono, H.
  - unfold l. apply list_elem_of_lookup_2 with i. rewrite lookup_zip_with.
    rewrite lookup_seq_lt by (by eapply lookup_lt_Some). cbn. by rewrite Hi.
  - done.
Qed.

Lemma SetActiveChunks_covers_witness :
  cell (activeChunks (SetActiveChunks [mkV2 1 1; mkV2 40 33] (Some 0%nat) (new_WorldMap 64 64)
    (const_host 0 0)).1) 3 = 1.
Proof.
  apply (SetActiveChunks_covers (new_WorldMap 64 64) (const_host 0 0) [mkV2 1 1; mkV2 40 33]
    (Some 0%nat) 1 (mkV2 40 33)); [by apply wf_Resyze | vm_compute; discriminate.. | reflexivity | ].
  vm_compute. reflexivity.
Defined.
