(* ===== verification/Growth.v ===== *)
(** * Growth of living blocks: what the growth timer preserves *)

From S2P Require Import Prelude JsNum JsSet Blocks Host PacksContainer WMap Vec Geo.

(** A cell with no solid block on it. *)
Definition free_cell (m : WorldMap) (x y : Z) : bool :=
  negb (solid (stats (GetIDByCoord_Terrain m x y))).

Lemma free_cell_iff m x y :
  wf m -> free_cell m x y = true <->
  ValidCoords m x y = true /\ GetIDByCoord_Terrain m x y = 0.
Proof.
  intros Hwf. unfold free_cell. rewrite negb_true_iff, GetID_Terrain_not_solid by done.
  unfold GetIDByCoord_Terrain. destruct (ValidCoords m x y); intuition congruence.
Qed.

(** ** Crystals on the free neighbours *)

(** The layers after [SetIfFree] with a crystal. *)
Lemma SetIfFree_cells m x y c d x' y' :
  wf m -> is_byte c -> is_cry (stats c) = true -> is_byte d ->
  let m' := SetIfFree x y c d m in
  GetIDByCoord_Terrain m' x' y' =
    (if (x' =? x) && (y' =? y) && free_cell m x y then c else GetIDByCoord_Terrain m x' y') /\
  GetDensity m' x' y' =
    (if (x' =? x) && (y' =? y) && free_cell m x y then d else GetDensity m x' y').
Proof.
  intros Hwf Hc Hcry Hd. destruct (crystal_stats c Hc Hcry) as (Hs & Hden & _).
  cbv zeta. unfold SetIfFree. fold (free_cell m x y). destruct (free_cell m x y) eqn:Ef.
  2:{ by rewrite andb_false_r. }
  rewrite andb_true_r. apply free_cell_iff in Ef as [Hv _]; [|done].
  rewrite terrain_SetTile_solid by done. unfold GetDensity.
  rewrite (same_shape_valid m), (same_shape_idx m) by apply SetTileWithCoords_shape.
  unfold SetTileWithCoords. rewrite Hv, _SetTile_meta, Hs, Hden.
  destruct (decide (x' = x /\ y' = y)) as [[-> ->]|Hne].
  - rewrite !Z.eqb_refl, Hv. cbn [andb]. split; [done|].
    rewrite cell_aset_eq by by apply meta_len. by apply u8_small.
  - replace ((x' =? x) && (y' =? y)) with false by lia. split; [done|].
    destruct (ValidCoords m x' y') eqn:Hv'; [|done].
    rewrite cell_aset_ne; [done|]. apply idx_neq; [done..|]. intros [-> ->]. by apply Hne.
Qed.

Lemma wf_SetIfFree x y c d m : is_byte c -> wf m -> wf (SetIfFree x y c d m).
Proof. intros. unfold SetIfFree. case_match; [by apply wf_SetTileWithCoords | done]. Qed.

Lemma SetIfFree_shape x y c d m : same_shape m (SetIfFree x y c d m).
Proof. unfold SetIfFree. case_match; [auto with mines | reflexivity]. Qed.

#[export] Hint Resolve wf_SetIfFree SetIfFree_shape : mines.

(** Placing crystals of one kind on a list of cells: each cell that was free
    gets one, whatever the order and the repetitions. *)
Definition seed (c d : Z) (cells : list (Z * Z)) (m : WorldMap) : WorldMap :=
  foldl (λ m '(x, y), SetIfFree x y c d m) m cells.

Definition listed (cells : list (Z * Z)) (x y : Z) : bool :=
  existsb (λ '(a, b), (x =? a) && (y =? b)) cells.

Lemma seed_inv c d cells m : is_byte c -> wf m -> wf (seed c d cells m) /\ same_shape m (seed c d cells m).
Proof.
  intros Hc. unfold seed. revert m. induction cells as [|[x y] cells IH]; intros m Hwf; cbn [foldl].
  - split; [done | reflexivity].
  - destruct (IH (SetIfFree x y c d m)) as [H1 H2]; [by apply wf_SetIfFree|].
    split; [done|]. etransitivity; [apply SetIfFree_shape | exact H2].
Qed.

Lemma seed_cells c d cells m x y :
  wf m -> is_byte c -> is_cry (stats c) = true -> is_byte d ->
  GetIDByCoord_Terrain (seed c d cells m) x y =
    (if listed cells x y && free_cell m x y then c else GetIDByCoord_Terrain m x y) /\
  GetDensity (seed c d cells m) x y =
    (if listed cells x y && free_cell m x y then d else GetDensity m x y).
Proof.
  intros Hwf Hc Hcry Hd. unfold seed. revert m Hwf.
  induction cells as [|[a b] cells IH]; intros m Hwf; cbn [foldl listed existsb]; [done|].
  fold (listed cells x y).
  destruct (SetIfFree_cells m a b c d x y Hwf Hc Hcry Hd) as [Et Ed].
  destruct (IH (SetIfFree a b c d m)) as [-> ->]; [by apply wf_SetIfFree|].
  unfold free_cell at 1 3. rewrite Et, Ed.
  destruct (crystal_stats c Hc Hcry) as (Hs & _).
  destruct ((x =? a) && (y =? b)) eqn:E; cbn [andb orb]; [|done].
  assert (x = a /\ y = b) as [-> ->] by lia.
  destruct (free_cell m a b) eqn:Ef; cbn [negb].
  - rewrite Hs. cbn [negb]. by rewrite andb_false_r.
  - fold (free_cell m a b). by rewrite Ef, andb_false_r.
Qed.

Lemma grow_around_seed x y c d m :
  grow_around x y c d m = seed c d [(x - 1, y); (x + 1, y); (x, y - 1); (x, y + 1)] m.
Proof. reflexivity. Qed.

(** The density a living block gives to its crystals fits a byte. *)
Lemma hardness_bounds m x y b : 0 <= CalculateAliveProductHardness m x y b <= 100.
Proof.
  unfold CalculateAliveProductHardness.
  assert (forall x y, 0 <= hypno_at m x y <= 1) as Hh.
  { intros. unfold hypno_at. case_match; lia. }
  pose proof (Hh (x - 1) y). pose proof (Hh (x + 1) y).
  pose proof (Hh x (y + 1)). pose proof (Hh x (y - 1)).
  assert (0 <= default 0 (AliveProductHardness b) <= 20).
  { unfold AliveProductHardness. repeat case_match; cbn; lia. }
  nia.
Qed.

Lemma hardness_byte m x y b : is_byte (CalculateAliveProductHardness m x y b).
Proof. pose proof (hardness_bounds m x y b). unfold is_byte. lia. Qed.

#[export] Hint Resolve hardness_byte : mines.

(** ** What a growth may change *)

(** A growth keeps the invariant and the shape; a solid-layer cell it changes
    was free before, or is one of the exceptions [ex]. *)
Record grown (ex : Z -> Z -> Prop) (m m' : WorldMap) : Prop := {
  grown_wf : wf m';
  grown_shape : same_shape m m';
  grown_free x y : GetIDByCoord_Terrain m' x y <> GetIDByCoord_Terrain m x y ->
    free_cell m x y = true \/ ex x y
}.

Lemma grown_refl ex m : wf m -> grown ex m m.
Proof. intros. split; [done | reflexivity | done]. Qed.

Lemma grown_trans ex m1 m2 m3 : grown ex m1 m2 -> grown ex m2 m3 -> grown ex m1 m3.
Proof.
  intros [W1 S1 F1] [W2 S2 F2]. split; [done | by etransitivity |].
  intros x y Hne. destruct (Z.eq_dec (GetIDByCoord_Terrain m2 x y) (GetIDByCoord_Terrain m1 x y)) as [E|E].
  - rewrite <- E in Hne. destruct (F2 x y Hne) as [H|H]; [left | by right].
    unfold free_cell in *. by rewrite <- E.
  - by apply F1.
Qed.

Lemma grown_same_terrain ex m m' :
  wf m' -> same_shape m m' -> terrain m' = terrain m -> grown ex m m'.
Proof.
  intros W S E. split; [done..|]. intros x y []. symmetry.
  by apply (terrain_layer_eq m m m'); [reflexivity | |].
Qed.

Lemma grown_seed ex c d cells m :
  wf m -> is_byte c -> is_cry (stats c) = true -> is_byte d -> grown ex m (seed c d cells m).
Proof.
  intros Hwf Hc Hcry Hd. destruct (seed_inv c d cells m Hc Hwf) as [W S].
  split; [done..|]. intros x y. destruct (seed_cells c d cells m x y Hwf Hc Hcry Hd) as [-> _].
  destruct (listed _ x y && free_cell m x y) eqn:E; [|done].
  apply andb_prop in E as [_ ->]. by left.
Qed.

Lemma grown_set ex m x y b d :
  wf m -> is_byte b -> solid (stats b) = true -> ValidCoords m x y = true ->
  free_cell m x y = true \/ ex x y -> grown ex m (SetTileWithCoords x y b d m).
Proof.
  intros Hwf Hb Hs Hv Hex. split; [auto with mines.. |].
  intros x' y'. rewrite terrain_SetTile_solid by done.
  case_decide as H; [|done]. by destruct H as [-> ->].
Qed.

Lemma grown_clear (ex : Z -> Z -> Prop) m x y :
  wf m -> ValidCoords m x y = true -> ex x y -> grown ex m (ClearTile x y false m).
Proof.
  intros Hwf Hv Hex. split; [auto with mines.. |].
  intros x' y'. rewrite terrain_ClearTile by done.
  case_decide as H; [|done]. destruct H as [-> ->]. by right.
Qed.

(** The two exceptions: a white block turns the magma above it to nothing, a
    blue block leaves its cell. *)
Definition growth_exception (m : WorldMap) (x y x' y' : Z) : Prop :=
  (GetIDByCoord_Terrain m x y = Block B_alive_white /\ GetIDByCoord m x (y - 1) = Block B_magma /\
   x' = x /\ y' = y - 1) \/
  (GetIDByCoord_Terrain m x y = Block B_alive_blue /\ x' = x /\ y' = y).

(** A living block lies inside the map. *)
Lemma alive_valid m x y :
  is_alive (stats (GetIDByCoord_Terrain m x y)) = true -> ValidCoords m x y = true.
Proof. unfold GetIDByCoord_Terrain. by destruct (ValidCoords m x y). Qed.

Lemma magma_valid m x y : GetIDByCoord m x y = Block B_magma -> ValidCoords m x y = true.
Proof. unfold GetIDByCoord. by destruct (ValidCoords m x y). Qed.

Lemma grow_white_grown ex m x y d :
  wf m -> is_byte d -> ValidCoords m x (y - 1) = true -> ex x (y - 1) ->
  grown ex m (grow_white x y d m).
Proof.
  intros Hwf Hd Hv Hex.
  set (cells := [(x - 1, y); (x + 1, y); (x, y + 1); (x + 1, y + 1); (x + 1, y - 1);
                 (x + 1, y - 1); (x - 1, y + 1)]).
  change (grow_white x y d m) with (ClearTile x (y - 1) false (seed (Block B_cry_white) d cells m)).
  assert (grown ex m (seed (Block B_cry_white) d cells m)) as H.
  { apply grown_seed; auto with mines. }
  apply (grown_trans ex m _ _ H), grown_clear; [apply H | | done].
  by rewrite (same_shape_valid m) by apply H.
Qed.

Lemma grow_blue_grown (ex : Z -> Z -> Prop) m h x y :
  wf m -> GetIDByCoord_Terrain m x y = Block B_alive_blue -> ValidCoords m x y = true -> ex x y ->
  grown ex m (grow_blue x y (Block B_alive_blue) m h).1.
Proof.
  intros Hwf Hb Hv Hex. unfold grow_blue. destruct (0 <? GetDensity m x y); cbn [fst].
  { apply grown_same_terrain; auto with mines. unfold SetDensity. by case_match. }
  destruct (RandInt 0 3 h) as [dir h'].
  destruct (match dir with 0 => _ | _ => _ end) as [mx my].
  destruct (negb _) eqn:Ef; [|by apply grown_refl]. cbn [fst].
  fold (free_cell m mx my) in Ef. pose proof Ef as Ef'.
  apply free_cell_iff in Ef' as [Hmv _]; [|done].
  assert (grown ex m (SetTileWithCoords mx my (Block B_alive_blue) 0 m)) as H1.
  { apply grown_set; auto with mines. }
  set (m1 := SetTileWithCoords mx my _ 0 m) in *.
  assert (grown ex m (SetDensity mx my 1 m1)) as H2.
  { apply (grown_trans ex m _ _ H1), grown_same_terrain.
    - apply wf_SetDensity, H1.
    - auto with mines.
    - unfold SetDensity. by case_match. }
  apply (grown_trans ex m _ _ H2), grown_set; [apply H2 | auto with mines | done | | by right].
  by rewrite (same_shape_valid m) by apply H2.
Qed.

(** One growth, whatever the species. *)
Lemma AliveGrowth_grown m h x y :
  wf m -> grown (growth_exception m x y) m (AliveGrowth x y m h).2.1.
Proof.
  intros Hwf. unfold AliveGrowth.
  destruct (is_alive _) eqn:Ea; [|by apply grown_refl].
  pose proof (alive_valid _ _ _ Ea) as Hv.
  destruct (AliveProductHardness _); [|by apply grown_refl].
  assert (forall c, is_cry (stats (Block c)) = true ->
    grown (growth_exception m x y) m
      (grow_around x y (Block c) (CalculateAliveProductHardness m x y (GetIDByCoord_Terrain m x y)) m)) as Hg.
  { intros c Hc. rewrite grow_around_seed. apply grown_seed; auto with mines. }
  repeat (case_match; cbn [fst snd]; try (by apply grown_refl); try (by apply Hg)).
  - zprop. apply grow_white_grown; auto with mines; [by apply magma_valid | left; auto].
  - zprop. match goal with E : GetIDByCoord_Terrain m x y = _ |- _ => rewrite E end.
    apply grow_blue_grown; auto. right. auto.
Qed.

(** One growth is safe: whatever lives at (x, y) and whatever the random draw,
    the map stays well formed (every living block stays in the set the timer
    draws from) and a cell of the solid layer changes only when it was free,
    with two exceptions: the magma above a white block, and the cell the blue
    block leaves. *)
Theorem AliveGrowth_safe m h x y x' y' :
  wf m ->
  let m' := (AliveGrowth x y m h).2.1 in
  wf m' /\ same_shape m m' /\
  (GetIDByCoord_Terrain m' x' y' <> GetIDByCoord_Terrain m x' y' ->
   (ValidCoords m x' y' = true /\ GetIDByCoord_Terrain m x' y' = 0) \/
   growth_exception m x y x' y').
Proof.
  intros Hwf. pose proof (AliveGrowth_grown m h x y Hwf) as [W S F].
  split; [done|]. split; [done|]. intros Hne.
  destruct (F x' y' Hne) as [H|H]; [left; by apply free_cell_iff | by right].
Qed.

(** A 3x3 map with a living block of the given kind in the middle. *)
Definition demo_alive (b : BlockName) : WorldMap := SetTileWithCoords 1 1 (Block b) 0 (new_WorldMap 3 3).

Lemma demo_alive_wf b : wf (demo_alive b).
Proof. apply wf_SetTileWithCoords; [apply Block_byte|]. by apply wf_Resyze. Qed.

Lemma AliveGrowth_safe_witness :
  (AliveGrowth 1 1 (demo_alive B_alive_cyan) (const_host 0 0)).1 = true /\
  wf (AliveGrowth 1 1 (demo_alive B_alive_cyan) (const_host 0 0)).2.1.
Proof.
  split; [vm_compute; reflexivity|].
  apply (AliveGrowth_safe (demo_alive B_alive_cyan) (const_host 0 0) 1 1 0 0 (demo_alive_wf _)).
Defined.

(** The crystals of the three species that grow on all four sides. *)
Definition around_product (b : Z) : option Z :=
  if b =? Block B_alive_cyan then Some (Block B_cry_cyan)
  else if b =? Block B_alive_red then Some (Block B_cry_red)
  else if b =? Block B_alive_vio then Some (Block B_cry_vio) else None.

(** Which blocks those are. *)
Lemma around_product_inv b c :
  around_product b = Some c ->
  exists B C, b = Block B /\ c = Block C /\ is_cry (stats (Block C)) = true /\
    (B, C) ∈ [(B_alive_cyan, B_cry_cyan); (B_alive_red, B_cry_red); (B_alive_vio, B_cry_vio)].
Proof.
  unfold around_product. intros H.
  destruct (Z.eqb_spec b (Block B_alive_cyan)) as [->|];
    [|destruct (Z.eqb_spec b (Block B_alive_red)) as [->|];
      [|destruct (Z.eqb_spec b (Block B_alive_vio)) as [->|]; [|done]]];
    injection H as <-.
  - exists B_alive_cyan, B_cry_cyan. repeat split. set_solver.
  - exists B_alive_red, B_cry_red. repeat split. set_solver.
  - exists B_alive_vio, B_cry_vio. repeat split. set_solver.
Qed.

Lemma hardness_pos m x y b c : around_product b = Some c -> 0 < CalculateAliveProductHardness m x y b.
Proof.
  intros (B & C & -> & _ & _ & H)%around_product_inv.
  assert (AliveProductHardness (Block B) = Some 1 \/ AliveProductHardness (Block B) = Some 2) as Hb.
  { rewrite !elem_of_cons, elem_of_nil in H. by destruct H as [[= -> _]|[[= -> _]|[[= -> _]|[]]]]; auto. }
  unfold CalculateAliveProductHardness, hypno_at.
  destruct Hb as [-> | ->]; cbn [default from_option id]; repeat case_match; lia.
Qed.

(** The four neighbours. *)
Lemma grow_around_cells m x y c d x' y' :
  wf m -> is_byte c -> is_cry (stats c) = true -> is_byte d ->
  let t := (Z.abs (x' - x) + Z.abs (y' - y) =? 1) && free_cell m x' y' in
  GetIDByCoord_Terrain (grow_around x y c d m) x' y' =
    (if t then c else GetIDByCoord_Terrain m x' y') /\
  GetDensity (grow_around x y c d m) x' y' = (if t then d else GetDensity m x' y').
Proof.
  intros Hwf Hc Hcry Hd. cbv zeta. rewrite grow_around_seed.
  destruct (seed_cells c d [(x - 1, y); (x + 1, y); (x, y - 1); (x, y + 1)] m x' y') as [-> ->];
    [done..|].
  replace (listed _ x' y') with (Z.abs (x' - x) + Z.abs (y' - y) =? 1); [done|].
  unfold listed. cbn [existsb]. lia.
Qed.

(** The branch of [AliveGrowth] for those species. *)
Lemma AliveGrowth_around_eq m h x y c :
  around_product (GetIDByCoord_Terrain m x y) = Some c ->
  let b := GetIDByCoord_Terrain m x y in
  AliveGrowth x y m h =
  (true, (if (b =? Block B_alive_cyan) || IsBlackRockNear m x y
          then grow_around x y c (CalculateAliveProductHardness m x y b) m else m, h)).
Proof.
  intros Hp. cbv zeta. destruct (around_product_inv _ _ Hp) as (B & C & E & -> & _ & H).
  unfold AliveGrowth. rewrite E. clear Hp E.
  rewrite !elem_of_cons, elem_of_nil in H.
  destruct H as [[= -> ->]|[[= -> ->]|[[= -> ->]|[]]]];
    (destruct (is_alive _) eqn:Ea; [|by vm_compute in Ea]); cbn [Block AliveProductHardness];
    [done | by destruct (IsBlackRockNear m x y)..].
Qed.

(** The cyan species always, and the red and violet ones beside black rock,
    put one crystal of their colour on exactly the free ones of the four
    neighbours, each with the density the species and the hypno rocks give
    (at most 100, so it is stored as it is); nothing else changes. *)
Theorem AliveGrowth_around m h x y c x' y' :
  wf m -> around_product (GetIDByCoord_Terrain m x y) = Some c ->
  let b := GetIDByCoord_Terrain m x y in
  let fires := (b =? Block B_alive_cyan) || IsBlackRockNear m x y in
  let d := CalculateAliveProductHardness m x y b in
  let target := fires && (Z.abs (x' - x) + Z.abs (y' - y) =? 1) && free_cell m x' y' in
  let '(r, (m', h')) := AliveGrowth x y m h in
  r = true /\ h' = h /\ 0 < d <= 100 /\
  GetIDByCoord_Terrain m' x' y' = (if target then c else GetIDByCoord_Terrain m x' y') /\
  GetDensity m' x' y' = (if target then d else GetDensity m x' y').
Proof.
  intros Hwf Hp. cbv zeta. rewrite (AliveGrowth_around_eq m h x y c Hp).
  pose proof (hardness_bounds m x y (GetIDByCoord_Terrain m x y)).
  pose proof (hardness_pos m x y _ _ Hp).
  split; [done|]. split; [done|]. split; [lia|].
  destruct (_ || _); [|done]. cbn [andb].
  destruct (around_product_inv _ _ Hp) as (B & C & _ & -> & Hc & _).
  apply grow_around_cells; auto with mines.
Qed.

Lemma AliveGrowth_around_witness :
  GetIDByCoord_Terrain (AliveGrowth 1 1 (demo_alive B_alive_cyan) (const_host 0 0)).2.1 0 1
  = Block B_cry_cyan.
Proof.
  pose proof (AliveGrowth_around (demo_alive B_alive_cyan) (const_host 0 0) 1 1 (Block B_cry_cyan) 0 1
    (demo_alive_wf _) eq_refl) as H.
  destruct (AliveGrowth 1 1 (demo_alive B_alive_cyan) (const_host 0 0)) as [r [m' h']].
  destruct H as (_ & _ & _ & E & _). cbn [fst snd]. rewrite E. vm_compute. reflexivity.
Defined.

(** The white species is lopsided: its list of targets names the upper right
    neighbour twice and the upper left one never, so with magma above it a free
    upper right cell gets a crystal while the upper left cell keeps what it
    holds. *)
Theorem AliveGrowth_white_lopsided m h x y :
  wf m -> GetIDByCoord_Terrain m x y = Block B_alive_white ->
  GetIDByCoord m x (y - 1) = Block B_magma ->
  let m' := (AliveGrowth x y m h).2.1 in
  GetIDByCoord_Terrain m' (x - 1) (y - 1) = GetIDByCoord_Terrain m (x - 1) (y - 1) /\
  GetIDByCoord_Terrain m' (x + 1) (y - 1) =
    (if free_cell m (x + 1) (y - 1) then Block B_cry_white else GetIDByCoord_Terrain m (x + 1) (y - 1)) /\
  GetIDByCoord_Terrain m' x (y - 1) = 0.
Proof.
  intros Hwf Hb Hm. cbv zeta.
  set (d := CalculateAliveProductHardness m x y (Block B_alive_white)).
  set (cells := [(x - 1, y); (x + 1, y); (x, y + 1); (x + 1, y + 1); (x + 1, y - 1);
                 (x + 1, y - 1); (x - 1, y + 1)]).
  assert ((AliveGrowth x y m h).2.1 = ClearTile x (y - 1) false (seed (Block B_cry_white) d cells m)) as ->.
  { unfold AliveGrowth. rewrite Hb. destruct (is_alive _) eqn:Ea; [|by vm_compute in Ea].
    cbn [Block AliveProductHardness]. by rewrite Hm. }
  destruct (seed_inv (Block B_cry_white) d cells m (Block_byte _) Hwf) as [W S].
  assert (forall x' y', GetIDByCoord_Terrain (seed (Block B_cry_white) d cells m) x' y' =
    if listed cells x' y' && free_cell m x' y' then Block B_cry_white else GetIDByCoord_Terrain m x' y') as Hs.
  { intros. apply seed_cells; [done | apply Block_byte | done | apply hardness_byte]. }
  rewrite !terrain_ClearTile, !Hs by
    (done || rewrite (same_shape_valid _ _ _ _ S); by apply magma_valid).
  rewrite !decide_False, decide_True by lia.
  replace (listed cells (x - 1) (y - 1)) with false by (unfold listed, cells; cbn [existsb]; lia).
  replace (listed cells (x + 1) (y - 1)) with true by (unfold listed, cells; cbn [existsb]; lia).
  done.
Qed.

Definition demo_white : WorldMap :=
  SetTileWithCoords 1 0 (Block B_magma) 0 (demo_alive B_alive_white).

Lemma AliveGrowth_white_lopsided_witness :
  let m' := (AliveGrowth 1 1 demo_white (const_host 0 0)).2.1 in
  GetIDByCoord_Terrain m' (1 - 1) (1 - 1) = 0 /\
  GetIDByCoord_Terrain m' (1 + 1) (1 - 1) = Block B_cry_white.
Proof.
  destruct (AliveGrowth_white_lopsided demo_white (const_host 0 0) 1 1) as (E1 & E2 & _).
  - apply wf_SetTileWithCoords; [apply Block_byte | apply demo_alive_wf].
  - vm_compute. reflexivity.
  - vm_compute. reflexivity.
  - cbv zeta. rewrite E1, E2. vm_compute. split; reflexivity.
Defined.

(** ** The growth timer *)

Lemma wf_delete_alive m v :
  wf m -> (forall b, aget (terrain m) v = Some b -> is_alive (stats b) = false) ->
  wf (with_alivesList (set_delete (alivesList m) v) m).
Proof.
  intros [? ? ? ? ? ? ? ? Ht Hb Hm Hs Ha] Hv. split; cbn; try done; [by apply set_wf_delete|].
  intros i b Hi Hal. apply set_has_delete. split; [|by eapply Ha].
  intros ->. apply Hv in Hi. congruence.
Qed.

(** The index of a cell of the map gives back its coordinates. *)
Lemma alive_coords m v b :
  wf m -> width m * height m <= 2 ^ 31 -> aget (terrain m) v = Some b ->
  GetIDByCoord_Terrain m (Z.rem v (width m)) (wrap32 (Z.quot v (width m))) = b.
Proof.
  intros Hwf Hsz Hv. pose proof (aget_Some_range _ _ _ Hv) as Hr.
  rewrite (wf_terrain_len m Hwf) in Hr. pose proof (wf_width m Hwf). pose proof (wf_height m Hwf).
  assert (0 < width m) by nia.
  rewrite Z.rem_mod_nonneg, Z.quot_div_nonneg by lia.
  pose proof (Z.mod_pos_bound v (width m) ltac:(lia)).
  pose proof (Z.div_mod v (width m) ltac:(lia)) as Hdm.
  assert (0 <= v / width m < height m) as Hq.
  { split; [apply Z.div_pos; lia | apply Z.div_lt_upper_bound; nia]. }
  rewrite wrap32_small by nia. unfold GetIDByCoord_Terrain.
  replace (ValidCoords m _ _) with true by (unfold ValidCoords; lia).
  unfold cell. replace (idx m _ _) with v by (unfold idx; lia). by rewrite Hv.
Qed.

Lemma AliveGrowth_result m h x y :
  (AliveGrowth x y m h).1 = is_alive (stats (GetIDByCoord_Terrain m x y)).
Proof. unfold AliveGrowth. by case_match. Qed.

Definition growth_inv (m0 : WorldMap) (st : WorldMap * Host * SetIter) : Prop :=
  wf st.1.1 /\ same_shape m0 st.1.1.

Lemma growth_draw_inv m0 st :
  width m0 * height m0 <= 2 ^ 31 -> growth_inv m0 st -> growth_inv m0 (growth_draw st).
Proof.
  destruct st as [[m h] it]. intros Hsz [Hwf HS]. cbn in Hwf, HS. unfold growth_draw.
  destruct (set_next (alivesList m) it) as [[v|] it'] eqn:En; [|by split].
  set (x := Z.rem v (width m)). set (y := wrap32 (Z.quot v (width m))).
  pose proof (AliveGrowth_grown m h x y Hwf) as [W S _].
  pose proof (AliveGrowth_result m h x y) as Hr.
  assert (AliveGrowth x y m h = (false, (m, h)) \/ (AliveGrowth x y m h).1 = true) as Hf.
  { unfold AliveGrowth. case_match; [by right | by left]. }
  destruct (AliveGrowth x y m h) as [r [m' h']]. cbn in *.
  destruct Hf as [[= -> -> ->]|Hf].
  - split; cbn; [|by etransitivity]. apply wf_delete_alive; [done|]. intros b Hb.
    destruct HS as (Ew & Eh & _). rewrite <- Ew, <- Eh in Hsz.
    pose proof (alive_coords m v b Hwf Hsz Hb) as E. fold x y in E. congruence.
  - subst r. rewrite Hf. split; cbn; [done|]. by etransitivity.
Qed.

(** A tick of the growth timer keeps the map well formed: dropping the dead
    entries of the set never drops a living block (for maps whose cell count
    fits 31 bits, where [index / width | 0] is exact). *)
Theorem growth_tick_wf m h it :
  wf m -> width m * height m <= 2 ^ 31 ->
  let m' := (growth_tick (m, h, it)).1.1 in
  wf m' /\ same_shape m m' /\
  (forall i b, aget (terrain m') i = Some b -> is_alive (stats b) = true ->
     set_has (alivesList m') i = true).
Proof.
  intros Hwf Hsz. cbv zeta.
  assert (growth_inv m (growth_tick (m, h, it))) as [W S].
  { unfold growth_tick. case_match; [|by split]. destruct (RandInt 0 1 h) as [r h'].
    case_match; [by split|].
    apply Nat.iter_invariant; [|by split]. intros st. by apply growth_draw_inv. }
  split; [done|]. split; [done|]. apply (wf_alive _ W).
Qed.

Lemma growth_tick_wf_witness :
  let st := growth_tick (demo_alive B_alive_cyan, const_host 0 (1 # 2), set_iter) in
  wf st.1.1 /\ GetIDByCoord_Terrain st.1.1 0 1 = Block B_cry_cyan.
Proof.
  split; [|vm_compute; reflexivity].
  apply (growth_tick_wf (demo_alive B_alive_cyan) (const_host 0 (1 # 2)) set_iter);
    [apply demo_alive_wf | vm_compute; discriminate].
Defined.
