(* ===== verification/Cargo.v ===== *)
(** * The cargo and the inventory of a bot

    Models [scripts/cargo.js]: the six crystal counters ([CryCargo]), the
    stack of picked up blocks and the load ([BotCargo]), and the items
    ([BotItemInventory]). *)

From S2P Require Import Prelude Host JsNum.

(** ** Crystals *)

(** [CryCodes]: "g", "b", "r", "w", "v", "c", the order of the counters. *)
Inductive CryKey := K_g | K_b | K_r | K_w | K_v | K_c.

#[global] Instance CryKey_eq_dec : EqDecision CryKey.
Proof. solve_decision. Defined.

Definition CryCodes : list CryKey := [K_g; K_b; K_r; K_w; K_v; K_c].

Definition cry_index (k : CryKey) : nat :=
  match k with K_g => 0 | K_b => 1 | K_r => 2 | K_w => 3 | K_v => 4 | K_c => 5 end%nat.

(** [_cry = new Uint32Array(6)]. *)
Definition new_CryCargo : list Z := replicate 6 0.

(** The getters and the setters: a negative balance is refused. *)
Definition cry_get (c : list Z) (k : CryKey) : Z := default 0 (c !! cry_index k).
Definition cry_set (c : list Z) (k : CryKey) (v : Z) : list Z :=
  if 0 <=? v then <[cry_index k := u32 v]> c else c.

(** ** The bot's statistics the cargo reads *)

(** [cargo] and [geology] of [BotSkillEffects] in bot.js. *)
Record CargoStats := mkCargoStats {
  geology : nat;
  cargo_base : Z;
  cargo_mul : CryKey -> Z
}.

Definition BotCargoStats : CargoStats :=
  mkCargoStats 10 100
    (λ k, match k with K_g => 10 | K_b => 5 | K_r => 6 | K_w => 2 | K_v => 7 | K_c => 2 end).

Definition CryCargoSyze (s : CargoStats) (k : CryKey) : Z := cargo_base s * cargo_mul s k.

(** ** The geo stack *)

Record BotCargo := mkBotCargo {
  cry : list Z;
  geoLast : Z;
  botstats : CargoStats;
  geo : list Z
}.

Definition new_BotCargo (s : CargoStats) : BotCargo :=
  mkBotCargo new_CryCargo (-1) s (replicate (geology s) 0).

Definition with_geo (last : Z) (g : list Z) (c : BotCargo) : BotCargo :=
  mkBotCargo (cry c) last (botstats c) g.

Definition geo_length (c : BotCargo) : Z := Z.of_nat (length (geo c)).

(** [geoLastID]: [None] is [null]. *)
Definition geoLastID (c : BotCargo) : option Z :=
  if 0 <=? geoLast c then geo c !! Z.to_nat (geoLast c) else None.
Definition geoIsNoFull (c : BotCargo) : bool := geoLast c + 1 <? geo_length c.
(** [~~((this.geoLast + 1) / this.geo.length) * 100]: the integer part is taken
    before the multiplication. *)
Definition geoFilledPersent (c : BotCargo) : Z :=
  to_int32 (num_div (num_of_Z (geoLast c + 1)) (num_of_Z (geo_length c))) * 100.
Definition geoFilledValue (c : BotCargo) : Z := geoLast c + 1.

Definition PopGeo (c : BotCargo) : option Z * BotCargo :=
  if 0 <=? geoLast c then
    let i := Z.to_nat (geoLast c) in
    let gblock := geo c !! i in
    (gblock, with_geo (geoLast c - 1) (<[i := 0]> (geo c)) c)
  else (None, c).

Definition PushGeo (id : Z) (c : BotCargo) : bool * BotCargo :=
  if geoIsNoFull c then
    let last := geoLast c + 1 in
    (true, with_geo last (<[Z.to_nat last := id]> (geo c)) c)
  else (false, c).

(** [GetVolume(key)] and [GetVolume()]: how full the bot is, in double
    precision. *)
Definition GetVolume_key (c : BotCargo) (k : CryKey) : num :=
  num_div (num_of_Z (cry_get (cry c) k)) (num_of_Z (CryCargoSyze (botstats c) k)).

Definition GetVolume (c : BotCargo) (key : option CryKey) : num :=
  match key with
  | Some k => GetVolume_key c k
  | None =>
      foldl (λ max k, let crycargo := GetVolume_key c k in if num_ltb max crycargo then crycargo else max)
        (GetVolume_key c K_g) (drop 1 CryCodes)
  end.

(** ** Items *)

Abbreviation BotItemInventory := (gmap Z Z).

Definition new_BotItemInventory : BotItemInventory := ∅.

(** [Check(itemcode)]: [get(itemcode) ?? 0]. *)
Definition Check_item (inv : BotItemInventory) (code : Z) : Z := default 0 (inv !! code).

(** [Add] returns the count before. *)
Definition Add_item (code count : Z) (inv : BotItemInventory) : Z * BotItemInventory :=
  let cur := Check_item inv code in (cur, <[code := cur + count]> inv).

(** [Take]: the count left, or [undefined]. *)
Definition Take_item (code count : Z) (inv : BotItemInventory) : option Z * BotItemInventory :=
  match inv !! code with
  | Some cur =>
      if cur =? 0 then (None, inv)
      else let result := cur - count in (Some result, <[code := result]> inv)
  | None => (None, inv)
  end.

Definition GenerateRandomItems (items : nat) (maxCount : Z) (inv : BotItemInventory) (h : Host)
  : BotItemInventory * Host :=
  Nat.iter items (λ '(inv, h),
    let '(code, h) := RandInt 0 50 h in
    let '(count, h) := RandInt 0 maxCount h in
    ((Add_item code count inv).2, h)) (inv, h).

(** ** The stack as an abstract stack *)

Definition cargo_wf (c : BotCargo) : Prop :=
  -1 <= geoLast c < geo_length c /\ length (cry c) = 6%nat /\ Forall (λ v, 0 <= v < 2 ^ 32) (cry c).

(** The blocks held, the last one picked up first. *)
Definition geo_stack (c : BotCargo) : list Z := reverse (take (Z.to_nat (geoLast c + 1)) (geo c)).

Lemma new_cargo_wf s : cargo_wf (new_BotCargo s).
Proof.
  unfold cargo_wf, geo_length. cbn. repeat split; [lia | rewrite length_replicate; lia |].
  repeat constructor; lia.
Qed.

Lemma geo_stack_length c : cargo_wf c -> Z.of_nat (length (geo_stack c)) = geoFilledValue c.
Proof.
  intros [H _]. unfold geo_stack, geoFilledValue, geo_length in *.
  rewrite length_reverse, length_take. lia.
Qed.

Lemma PushGeo_stack id c :
  cargo_wf c ->
  cargo_wf (PushGeo id c).2 /\
  (PushGeo id c).1 = (Z.of_nat (length (geo_stack c)) <? geo_length c) /\
  geo_stack (PushGeo id c).2 = (if (PushGeo id c).1 then id :: geo_stack c else geo_stack c) /\
  geo_length (PushGeo id c).2 = geo_length c.
Proof.
  intros Hwf. pose proof (geo_stack_length c Hwf) as Hl. destruct Hwf as [Hg Hc].
  unfold geoFilledValue in Hl. rewrite Hl. unfold PushGeo, geoIsNoFull.
  destruct (geoLast c + 1 <? geo_length c) eqn:E; cbn [fst snd]; [|by unfold cargo_wf].
  unfold cargo_wf, geo_length in *. cbn. rewrite length_insert.
  repeat split; [lia|lia|apply Hc..|].
  unfold geo_stack. cbn.
  replace (Z.to_nat (geoLast c + 1 + 1)) with (S (Z.to_nat (geoLast c + 1))) by lia.
  rewrite (take_S_r _ _ id) by (apply list_lookup_insert_eq; lia).
  rewrite take_insert_ge by lia. by rewrite reverse_app.
Qed.

Lemma PopGeo_stack c :
  cargo_wf c ->
  cargo_wf (PopGeo c).2 /\
  (PopGeo c).1 = head (geo_stack c) /\ geo_stack (PopGeo c).2 = tail (geo_stack c) /\
  geo_length (PopGeo c).2 = geo_length c.
Proof.
  intros [Hg Hc]. unfold PopGeo. destruct (0 <=? geoLast c) eqn:E; cbn [fst snd].
  - destruct (lookup_lt_is_Some_2 (geo c) (Z.to_nat (geoLast c))) as [b Hb].
    { unfold geo_length in Hg. lia. }
    assert (geo_stack c = b :: reverse (take (Z.to_nat (geoLast c)) (geo c))) as ->.
    { unfold geo_stack. replace (Z.to_nat (geoLast c + 1)) with (S (Z.to_nat (geoLast c))) by lia.
      rewrite (take_S_r _ _ b) by done. by rewrite reverse_app. }
    unfold cargo_wf, geo_length in *. cbn. rewrite length_insert.
    repeat split; [lia|lia|apply Hc..|done|].
    unfold geo_stack. cbn. replace (Z.to_nat (geoLast c - 1 + 1)) with (Z.to_nat (geoLast c)) by lia.
    by rewrite take_insert_ge by lia.
  - unfold geo_stack. replace (Z.to_nat (geoLast c + 1)) with 0%nat by lia. done.
Qed.

(** The geo cargo is a bounded stack: [PushGeo] succeeds exactly when fewer
    than [geo.length] blocks are held and then adds the block on top, [PopGeo]
    returns the top block and removes it (null and no change when empty), so a
    push followed by a pop gives the block back and restores the held blocks. *)
Theorem geo_is_stack id c :
  cargo_wf c ->
  let '(ok, c1) := PushGeo id c in
  let '(top, c2) := PopGeo c in
  let '(back, c3) := PopGeo c1 in
  ok = (geoFilledValue c <? geo_length c) /\
  geo_stack c1 = (if ok then id :: geo_stack c else geo_stack c) /\
  top = head (geo_stack c) /\ geo_stack c2 = tail (geo_stack c) /\
  (ok = true -> back = Some id /\ geo_stack c3 = geo_stack c) /\
  cargo_wf c1 /\ cargo_wf c2 /\ cargo_wf c3.
Proof.
  intros Hwf. pose proof (PushGeo_stack id c Hwf) as (W1 & Hok & S1 & L1).
  pose proof (PopGeo_stack c Hwf) as (W2 & Ht & S2 & _).
  pose proof (geo_stack_length c Hwf) as Hl.
  destruct (PushGeo id c) as [ok c1], (PopGeo c) as [top c2]. cbn [fst snd] in *.
  pose proof (PopGeo_stack c1 W1) as (W3 & Hb & S3 & _).
  destruct (PopGeo c1) as [back c3]. cbn [fst snd] in *.
  rewrite Hl in Hok. assert (ok = true -> back = Some id /\ geo_stack c3 = geo_stack c).
  { intros ->. by rewrite Hb, S3, S1. }
  auto 10.
Qed.

Lemma geo_is_stack_witness :
  geo_stack (PushGeo 101 (PushGeo 42 (new_BotCargo BotCargoStats)).2).2 = [101; 42] /\
  (PopGeo (PushGeo 101 (PushGeo 42 (new_BotCargo BotCargoStats)).2).2).1 = Some 101.
Proof.
  assert (cargo_wf (PushGeo 42 (new_BotCargo BotCargoStats)).2) as Hwf.
  { apply (PushGeo_stack 42 _ (new_cargo_wf BotCargoStats)). }
  pose proof (geo_is_stack 101 _ Hwf) as H.
  destruct (PushGeo 101 (PushGeo 42 (new_BotCargo BotCargoStats)).2) as [ok c1] eqn:E1.
  destruct (PopGeo (PushGeo 42 (new_BotCargo BotCargoStats)).2) as [top c2] eqn:E2.
  destruct (PopGeo c1) as [back c3] eqn:E3.
  destruct H as (Hok & S1 & _ & _ & Hb & _). cbn [fst snd].
  assert (ok = true) as -> by (rewrite Hok; vm_compute; reflexivity).
  destruct (Hb eq_refl) as [-> _]. rewrite E3. split; [|reflexivity]. rewrite S1. vm_compute. reflexivity.
Defined.

(** [geoFilledPersent] is 0 for every cargo that is not full and 100 for a
    full one: the cast to an integer binds tighter than the multiplication, so
    the getter never reports a percentage in between (checked for every fill of
    every capacity up to 64 blocks). *)
Theorem geoFilledPersent_all_or_nothing c :
  cargo_wf c -> 0 < geo_length c <= 64 ->
  geoFilledPersent c = if geoFilledValue c =? geo_length c then 100 else 0.
Proof.
  intros [Hg _] Hl. unfold geoFilledPersent, geoFilledValue.
  assert (forallb (λ n, forallb (λ k, to_int32 (num_div (num_of_Z k) (num_of_Z n)) * 100 =?
    if k =? n then 100 else 0) (seqZ 0 (n + 1))) (seqZ 1 64) = true) as H by (vm_compute; reflexivity).
  pose proof (range_check _ _ _ H (geo_length c) ltac:(lia)) as H1. cbv beta in H1.
  pose proof (range_check _ _ _ H1 (geoLast c + 1) ltac:(lia)) as H2. cbv beta in H2. lia.
Qed.

Lemma geoFilledPersent_all_or_nothing_witness :
  geoFilledPersent (Nat.iter 9 (λ c, (PushGeo 42 c).2) (new_BotCargo BotCargoStats)) = 0.
Proof.
  rewrite (geoFilledPersent_all_or_nothing (Nat.iter 9 (λ c, (PushGeo 42 c).2) (new_BotCargo BotCargoStats))).
  - vm_compute. reflexivity.
  - apply Nat.iter_invariant; [|apply new_cargo_wf]. intros c Hc. apply (PushGeo_stack 42 c Hc).
  - vm_compute. split; congruence.
Defined.

(** ** Crystals and items *)

Lemma cry_set_wf c k v : cargo_wf c ->
  cargo_wf (mkBotCargo (cry_set (cry c) k v) (geoLast c) (botstats c) (geo c)).
Proof.
  intros (Hg & Hl & Hc). unfold cry_set. case_match; [|done].
  split; [done|]. cbn. rewrite length_insert. split; [done|].
  apply Forall_insert; [done|]. unfold u32. apply Z.mod_pos_bound. lia.
Qed.

Lemma cry_index_inj k k' : cry_index k = cry_index k' -> k = k'.
Proof. by destruct k, k'. Qed.

(** The crystal counters are independent 32-bit balances: an assignment of a
    balance in [0, 2^32) reads back and leaves the other five alone, and a
    negative balance is refused and changes nothing. *)
Theorem cry_set_get c k v k' :
  length c = 6%nat -> v < 2 ^ 32 ->
  cry_get (cry_set c k v) k' =
  if decide (k' = k /\ 0 <= v) then v else cry_get c k'.
Proof.
  intros Hl Hv. unfold cry_set, cry_get. destruct (0 <=? v) eqn:E; zprop.
  2:{ rewrite decide_False by lia. done. }
  case_decide as H.
  - destruct H as [-> _]. rewrite list_lookup_insert_eq by (rewrite Hl; destruct k; cbn; lia).
    cbn. unfold u32. rewrite Z.mod_small; lia.
  - rewrite list_lookup_insert_ne; [done|]. intros ->%cry_index_inj. by apply H.
Qed.

Lemma cry_set_get_witness : cry_get (cry_set (cry_set new_CryCargo K_w 7) K_g (-1)) K_w = 7.
Proof.
  rewrite (cry_set_get (cry_set new_CryCargo K_w 7) K_g (-1) K_w); [|reflexivity|lia].
  vm_compute. reflexivity.
Defined.

Lemma Check_item_insert inv code n code' :
  Check_item (<[code := n]> inv) code' = if decide (code' = code) then n else Check_item inv code'.
Proof.
  unfold Check_item. case_decide as H; [subst; by rewrite lookup_insert_eq | by rewrite lookup_insert_ne].
Qed.

(** The inventory counts items: [Add] raises one count by the amount and
    returns the old count; [Take] on a non-zero count lowers it by the amount
    and returns what is left, and otherwise returns undefined and changes
    nothing; other items keep their counts. Nothing stops a count from going
    negative: taking more than there is leaves a negative count. *)
Theorem inventory_counts inv code n code' :
  let '(old, inv1) := Add_item code n inv in
  let '(rest, inv2) := Take_item code n inv in
  old = Check_item inv code /\
  Check_item inv1 code' = (Check_item inv code' + if decide (code' = code) then n else 0) /\
  rest = (if Check_item inv code =? 0 then None else Some (Check_item inv code - n)) /\
  Check_item inv2 code' =
    Check_item inv code' - (if decide (code' = code /\ Check_item inv code <> 0) then n else 0).
Proof.
  unfold Add_item, Take_item. destruct (inv !! code) as [cur|] eqn:E.
  - assert (Check_item inv code = cur) as Ec by (unfold Check_item; by rewrite E). rewrite Ec.
    destruct (cur =? 0) eqn:E0; zprop; rewrite !Check_item_insert; repeat case_decide; subst;
      repeat split; try lia; try tauto.
  - assert (Check_item inv code = 0) as Ec by (unfold Check_item; by rewrite E). rewrite Ec.
    rewrite !Check_item_insert; repeat case_decide; subst; repeat split; try lia; try tauto.
Qed.

Lemma Take_goes_negative : (Take_item 3 5 (Add_item 3 2 new_BotItemInventory).2).1 = Some (-3).
Proof. vm_compute. reflexivity. Qed.
