(* ===== verification/Machine.v ===== *)
(** * The state a bot and its program act on

    The objects of [scripts/bot.js] ([Bot], [BotMode]) and of
    [scripts/programmator.js] ([ProgramStack], [VarCacher],
    [ProgramCondition]) as records, the context an operation of a bot reads
    and writes, and the two monads the operations are written in: [St], a
    state monad, for the operations that cannot throw, and [X] for those that
    can. *)

From S2P Require Import Prelude Host JsNum JsSet Blocks PacksContainer WMap Vec Cargo.

(** ** Values of the programmator *)

(** The first field of a program cell: a variable or command name, or the
    number of the cell a jump goes to. *)
Inductive Key := KStr (s : string) | KNum (z : Z).

#[global] Instance Key_eq_dec : EqDecision Key.
Proof. solve_decision. Defined.
#[global] Instance Key_countable : Countable Key.
Proof.
  apply (inj_countable' (λ k, match k with KStr s => inl s | KNum z => inr z end)
    (λ s, match s with inl s => KStr s | inr z => KNum z end)).
  by intros [].
Defined.

(** A value of a user variable: a number, or [undefined]. *)
Definition Val := option num.

(** [{type, id, data: [data0, data1]}]; [None] is [undefined]. *)
Record Cell := mkCell { cell_id : Z; data0 : option Key; data1 : Val }.

(** ** The state of a program *)

(** [LogicMode]. *)
Inductive LogicMode := L_off | L_none | L_and | L_or.

#[global] Instance LogicMode_eq_dec : EqDecision LogicMode.
Proof. solve_decision. Defined.

Definition LogicMode_value (m : LogicMode) : Z :=
  match m with L_off => -1 | L_none => 0 | L_and => 1 | L_or => 2 end.

Record ProgramStack := mkProgramStack {
  viewOffset : Vector2d;
  logicalValue : bool;
  mode_logic : LogicMode;
  returnIndex : Z
}.

(** The field initialisers, and the getter [reset], which restores them. *)
Definition new_ProgramStack : ProgramStack := mkProgramStack (mkV2 0 0) false L_off (-1).
Definition ProgramStack_reset (_ : ProgramStack) : ProgramStack := new_ProgramStack.

(** The last two variables; [None] before the first. *)
Record VarCacher := mkVarCacher { var0 : option Key; var1 : option Key; YoungerIs : Z }.

Definition new_VarCacher : VarCacher := mkVarCacher None None 0.
Definition Older (v : VarCacher) : option Key := if negb (YoungerIs v =? 0) then var1 v else var0 v.
Definition Younger (v : VarCacher) : option Key := if negb (YoungerIs v =? 0) then var0 v else var1 v.
Definition VarCacher_Set (variable : option Key) (v : VarCacher) : VarCacher :=
  let next := Z.rem (YoungerIs v + 1) 2 in
  if negb (YoungerIs v =? 0) then mkVarCacher (var0 v) variable next
  else mkVarCacher variable (var1 v) next.
Definition VarCacher_Reset (v : VarCacher) : VarCacher := mkVarCacher None None (YoungerIs v).

Record ProgramCondition := mkProgramCondition {
  timeStart : Z;
  program : list Cell;
  startIndex : Z;
  isExecute : bool;
  isHandModeActive : bool;
  currIndex : Z;
  prevIndex : Z;
  MACROS_rotate_cache : option Z;
  stackDepth : Z;
  mode_flip : bool;
  uservariables : gmap Key Val;
  lastVariables : VarCacher;
  stack : list ProgramStack
}.

(** [TESTPROGRAM] and the field initialisers, created at time [t]. *)
Definition TESTPROGRAM : list Cell := [mkCell 0 (Some (KStr "")) (Some (num_of_Z 0))].
Definition stackDepthMax : Z := 500.
Definition new_ProgramCondition (t : Z) : ProgramCondition :=
  mkProgramCondition t TESTPROGRAM 0 false false 0 0 None 0 false ∅ new_VarCacher [new_ProgramStack].

Definition isManualControlAlloved (p : ProgramCondition) : bool :=
  if isExecute p then isHandModeActive p else true.

Definition flipValue (p : ProgramCondition) : Z := if mode_flip p then -1 else 1.

(** Updates of single fields. *)
Definition pc_timeStart t p := mkProgramCondition t (program p) (startIndex p) (isExecute p)
  (isHandModeActive p) (currIndex p) (prevIndex p) (MACROS_rotate_cache p) (stackDepth p)
  (mode_flip p) (uservariables p) (lastVariables p) (stack p).
Definition pc_program g p := mkProgramCondition (timeStart p) g (startIndex p) (isExecute p)
  (isHandModeActive p) (currIndex p) (prevIndex p) (MACROS_rotate_cache p) (stackDepth p)
  (mode_flip p) (uservariables p) (lastVariables p) (stack p).
Definition pc_startIndex i p := mkProgramCondition (timeStart p) (program p) i (isExecute p)
  (isHandModeActive p) (currIndex p) (prevIndex p) (MACROS_rotate_cache p) (stackDepth p)
  (mode_flip p) (uservariables p) (lastVariables p) (stack p).
Definition pc_isExecute b p := mkProgramCondition (timeStart p) (program p) (startIndex p) b
  (isHandModeActive p) (currIndex p) (prevIndex p) (MACROS_rotate_cache p) (stackDepth p)
  (mode_flip p) (uservariables p) (lastVariables p) (stack p).
Definition pc_hand b p := mkProgramCondition (timeStart p) (program p) (startIndex p) (isExecute p)
  b (currIndex p) (prevIndex p) (MACROS_rotate_cache p) (stackDepth p)
  (mode_flip p) (uservariables p) (lastVariables p) (stack p).
(** Both index fields at once: [prevIndex = i0; _currIndex = i]. *)
Definition pc_indices i0 i p := mkProgramCondition (timeStart p) (program p) (startIndex p)
  (isExecute p) (isHandModeActive p) i i0 (MACROS_rotate_cache p) (stackDepth p)
  (mode_flip p) (uservariables p) (lastVariables p) (stack p).
(** The setter of [currIndex] remembers the previous one. *)
Definition pc_set_currIndex i p := pc_indices (currIndex p) i p.
Definition pc_rotate_cache r p := mkProgramCondition (timeStart p) (program p) (startIndex p)
  (isExecute p) (isHandModeActive p) (currIndex p) (prevIndex p) r (stackDepth p)
  (mode_flip p) (uservariables p) (lastVariables p) (stack p).
Definition pc_stackDepth d p := mkProgramCondition (timeStart p) (program p) (startIndex p)
  (isExecute p) (isHandModeActive p) (currIndex p) (prevIndex p) (MACROS_rotate_cache p) d
  (mode_flip p) (uservariables p) (lastVariables p) (stack p).
Definition pc_flip b p := mkProgramCondition (timeStart p) (program p) (startIndex p)
  (isExecute p) (isHandModeActive p) (currIndex p) (prevIndex p) (MACROS_rotate_cache p)
  (stackDepth p) b (uservariables p) (lastVariables p) (stack p).
Definition pc_vars v p := mkProgramCondition (timeStart p) (program p) (startIndex p)
  (isExecute p) (isHandModeActive p) (currIndex p) (prevIndex p) (MACROS_rotate_cache p)
  (stackDepth p) (mode_flip p) v (lastVariables p) (stack p).
Definition pc_last l p := mkProgramCondition (timeStart p) (program p) (startIndex p)
  (isExecute p) (isHandModeActive p) (currIndex p) (prevIndex p) (MACROS_rotate_cache p)
  (stackDepth p) (mode_flip p) (uservariables p) l (stack p).
Definition pc_stack s p := mkProgramCondition (timeStart p) (program p) (startIndex p)
  (isExecute p) (isHandModeActive p) (currIndex p) (prevIndex p) (MACROS_rotate_cache p)
  (stackDepth p) (mode_flip p) (uservariables p) (lastVariables p) s.

(** ** A bot *)

(** [BotMode]. *)
Record BotMode := mkBotMode {
  autodigg : bool; roadignore : bool; agr : bool; debug : bool; hand : bool
}.
Definition new_BotMode : BotMode := mkBotMode true false false false false.

(** The statistics of [BotSkillEffects] the modelled code reads. *)
Record BotStats := mkBotStats {
  hpNow : Z; hpMax : Z; moveSpeed : Q; moveRoadSpeedMul : Q
}.

Record Bot := mkBot {
  bot_id : Z;
  clanID : option Z;
  position : Vector2d;
  cachedPosition : Vector2d;
  rotation : Z;
  cooldown : Q;
  cdTime : Q;
  bot_stats : BotStats;
  cargo : BotCargo;
  inventory : BotItemInventory;
  mode : BotMode;
  isVisible : bool;
  cachedBlockUnder : Z;
  programCondition : ProgramCondition
}.

Definition b_position v b := mkBot (bot_id b) (clanID b) v (cachedPosition b) (rotation b) (cooldown b)
  (cdTime b) (bot_stats b) (cargo b) (inventory b) (mode b) (isVisible b) (cachedBlockUnder b) (programCondition b).
Definition b_cachedPosition v b := mkBot (bot_id b) (clanID b) (position b) v (rotation b) (cooldown b)
  (cdTime b) (bot_stats b) (cargo b) (inventory b) (mode b) (isVisible b) (cachedBlockUnder b) (programCondition b).
Definition b_rotation r b := mkBot (bot_id b) (clanID b) (position b) (cachedPosition b) r (cooldown b)
  (cdTime b) (bot_stats b) (cargo b) (inventory b) (mode b) (isVisible b) (cachedBlockUnder b) (programCondition b).
Definition b_cooldown v t b := mkBot (bot_id b) (clanID b) (position b) (cachedPosition b) (rotation b) v
  t (bot_stats b) (cargo b) (inventory b) (mode b) (isVisible b) (cachedBlockUnder b) (programCondition b).
Definition b_cargo c b := mkBot (bot_id b) (clanID b) (position b) (cachedPosition b) (rotation b) (cooldown b)
  (cdTime b) (bot_stats b) c (inventory b) (mode b) (isVisible b) (cachedBlockUnder b) (programCondition b).
Definition b_inventory i b := mkBot (bot_id b) (clanID b) (position b) (cachedPosition b) (rotation b) (cooldown b)
  (cdTime b) (bot_stats b) (cargo b) i (mode b) (isVisible b) (cachedBlockUnder b) (programCondition b).
Definition b_mode m b := mkBot (bot_id b) (clanID b) (position b) (cachedPosition b) (rotation b) (cooldown b)
  (cdTime b) (bot_stats b) (cargo b) (inventory b) m (isVisible b) (cachedBlockUnder b) (programCondition b).
Definition b_cachedBlockUnder k b := mkBot (bot_id b) (clanID b) (position b) (cachedPosition b) (rotation b)
  (cooldown b) (cdTime b) (bot_stats b) (cargo b) (inventory b) (mode b) (isVisible b) k (programCondition b).
Definition b_prog p b := mkBot (bot_id b) (clanID b) (position b) (cachedPosition b) (rotation b) (cooldown b)
  (cdTime b) (bot_stats b) (cargo b) (inventory b) (mode b) (isVisible b) (cachedBlockUnder b) p.

(** Updates of single modes. *)
Definition m_autodigg v m := mkBotMode v (roadignore m) (agr m) (debug m) (hand m).
Definition m_roadignore v m := mkBotMode (autodigg m) v (agr m) (debug m) (hand m).
Definition m_agr v m := mkBotMode (autodigg m) (roadignore m) v (debug m) (hand m).
Definition m_hand v m := mkBotMode (autodigg m) (roadignore m) (agr m) (debug m) v.

(** ** The context of an operation *)

(** What an operation shows to the rest of the program besides the state: the
    animations it starts and the calls of [_onBotMoved]. *)
Inductive Effect :=
  | A_geo (p : Vector2d) (rotation : Z)
  | A_digg (p : Vector2d) (rotation : Z)
  | A_heal (p : Vector2d) (rotation : Z)
  | A_drop (owner : Z) (p : Vector2d) (colour amount : Z)
  | BotMoved (bot : Z) (p : Vector2d).

Record Ctx := mkCtx {
  host : Host;
  wmap : WorldMap;
  ignoreBorders : bool;
  bot : Bot;
  effects : list Effect
}.

Definition c_host h c := mkCtx h (wmap c) (ignoreBorders c) (bot c) (effects c).
Definition c_wmap m c := mkCtx (host c) m (ignoreBorders c) (bot c) (effects c).
Definition c_bot b c := mkCtx (host c) (wmap c) (ignoreBorders c) b (effects c).
Definition c_effects e c := mkCtx (host c) (wmap c) (ignoreBorders c) (bot c) e.

Definition prog (c : Ctx) : ProgramCondition := programCondition (bot c).

(** ** The state monad *)

Definition St (A : Type) : Type := Ctx -> A * Ctx.
Definition ret {A} (a : A) : St A := λ c, (a, c).
Definition bind {A B} (m : St A) (k : A -> St B) : St B := λ c, let '(a, c') := m c in k a c'.
Definition gets {A} (f : Ctx -> A) : St A := λ c, (f c, c).

Declare Scope st_scope.
Delimit Scope st_scope with st.
Notation "'let*' x := m 'in' k" := (bind m (λ x, k))
  (at level 10, x name, m at level 100, k at level 200) : st_scope.
Notation "m ;; k" := (bind m (λ _, k)) (at level 100, k at level 200, right associativity) : st_scope.
#[global] Open Scope st_scope.

(** The effects an operation is made of. *)
Definition now : St Q := λ c, let '(t, h) := performance_now (host c) in (t, c_host h c).
Definition rand (lo hi : Z) : St Z := λ c, let '(r, h) := RandInt lo hi (host c) in (r, c_host h c).
Definition on_map (f : WorldMap -> WorldMap) : St unit := λ c, (tt, c_wmap (f (wmap c)) c).
Definition on_bot (f : Bot -> Bot) : St unit := λ c, (tt, c_bot (f (bot c)) c).
Definition emit (e : Effect) : St unit := λ c, (tt, c_effects (effects c ++ [e]) c).
Definition when (b : bool) (m : St unit) : St unit := if b then m else ret tt.

(** ** The error monad over it *)

Definition X (A : Type) : Type := Ctx -> (JsError + A) * Ctx.
Definition xret {A} (a : A) : X A := λ c, (inr a, c).
Definition xbind {A B} (m : X A) (k : A -> X B) : X B := λ c,
  match m c with
  | (inl e, c') => (inl e, c')
  | (inr a, c') => k a c'
  end.
Definition throw {A} (e : JsError) : X A := λ c, (inl e, c).
Definition lift {A} (m : St A) : X A := λ c, let '(a, c') := m c in (inr a, c').

Notation "'let!' x := m 'in' k" := (xbind m (λ x, k))
  (at level 10, x name, m at level 100, k at level 200) : st_scope.
Notation "m >! k" := (xbind m (λ _, k)) (at level 100, k at level 200, right associativity) : st_scope.

(** ** Rules

    [wp m Q c]: running [m] from [c] ends in a result and a context that
    satisfy [Q]; [xwp] has a second postcondition for an error. *)

Definition wp {A} (m : St A) (Q : A -> Ctx -> Prop) (c : Ctx) : Prop := Q (m c).1 (m c).2.
Definition xwp {A} (m : X A) (Q : A -> Ctx -> Prop) (E : JsError -> Ctx -> Prop) (c : Ctx) : Prop :=
  match (m c).1 with inr a => Q a (m c).2 | inl e => E e (m c).2 end.

Section rules.
Context {A B : Type}.
Implicit Types (m : St A) (Q : A -> Ctx -> Prop) (c : Ctx).

Lemma wp_ret (a : A) Q c : Q a c -> wp (ret a) Q c.
Proof. done. Qed.

Lemma wp_gets (f : Ctx -> A) Q c : Q (f c) c -> wp (gets f) Q c.
Proof. done. Qed.

Lemma wp_bind m (k : A -> St B) (Q : B -> Ctx -> Prop) c :
  wp m (λ a, wp (k a) Q) c -> wp (bind m k) Q c.
Proof. unfold wp, bind. by destruct (m c). Qed.

Lemma wp_if (b : bool) m1 m2 Q c :
  (b = true -> wp m1 Q c) -> (b = false -> wp m2 Q c) -> wp (if b then m1 else m2) Q c.
Proof. destruct b; auto. Qed.

Lemma wp_mono m Q (Q' : A -> Ctx -> Prop) c :
  wp m Q c -> (forall a c', Q a c' -> Q' a c') -> wp m Q' c.
Proof. unfold wp. auto. Qed.

Lemma wp_run m Q c : wp m Q c -> forall a c', m c = (a, c') -> Q a c'.
Proof. unfold wp. intros H a c' E. by rewrite E in H. Qed.

Implicit Types (x : X A) (E : JsError -> Ctx -> Prop).

Lemma xwp_ret (a : A) Q E c : Q a c -> xwp (xret a) Q E c.
Proof. done. Qed.

Lemma xwp_throw e Q E c : E e c -> xwp (throw e) Q E c.
Proof. done. Qed.

Lemma xwp_lift m Q E c : wp m Q c -> xwp (lift m) Q E c.
Proof. unfold wp, xwp, lift. by destruct (m c). Qed.

Lemma xwp_bind x (k : A -> X B) (Q : B -> Ctx -> Prop) E c :
  xwp x (λ a, xwp (k a) Q E) E c -> xwp (xbind x k) Q E c.
Proof. unfold xwp, xbind. by destruct (x c) as [[e|a] c']. Qed.

Lemma xwp_if (b : bool) x1 x2 Q E c :
  (b = true -> xwp x1 Q E c) -> (b = false -> xwp x2 Q E c) -> xwp (if b then x1 else x2) Q E c.
Proof. destruct b; auto. Qed.

Lemma xwp_mono x Q E (Q' : A -> Ctx -> Prop) (E' : JsError -> Ctx -> Prop) c :
  xwp x Q E c -> (forall a c', Q a c' -> Q' a c') -> (forall e c', E e c' -> E' e c') ->
  xwp x Q' E' c.
Proof. unfold xwp. intros H H1 H2. destruct (x c).1; auto. Qed.
End rules.

Section effects.
Implicit Types (Q : unit -> Ctx -> Prop) (c : Ctx).

Lemma wp_now (Q : Q -> Ctx -> Prop) c :
  Q (clock (host c) (nclock (host c))) (c_host (performance_now (host c)).2 c) -> wp now Q c.
Proof. done. Qed.

Lemma wp_rand lo hi (Q : Z -> Ctx -> Prop) c :
  Q (RandInt lo hi (host c)).1 (c_host (RandInt lo hi (host c)).2 c) -> wp (rand lo hi) Q c.
Proof. done. Qed.

Lemma wp_on_map f Q c : Q tt (c_wmap (f (wmap c)) c) -> wp (on_map f) Q c.
Proof. done. Qed.

Lemma wp_on_bot f Q c : Q tt (c_bot (f (bot c)) c) -> wp (on_bot f) Q c.
Proof. done. Qed.

Lemma wp_emit e Q c : Q tt (c_effects (effects c ++ [e]) c) -> wp (emit e) Q c.
Proof. done. Qed.

Lemma wp_when (b : bool) m Q c :
  (b = true -> wp m Q c) -> (b = false -> Q tt c) -> wp (when b m) Q c.
Proof. destruct b; [auto | intros _ H; by apply H]. Qed.
End effects.

(** Run an operation symbolically, splitting its tests. *)
Ltac wp_step :=
  lazymatch goal with
  | |- wp (bind _ _) _ _ => apply wp_bind
  | |- wp (ret _) _ _ => apply wp_ret
  | |- wp (gets _) _ _ => apply wp_gets
  | |- wp now _ _ => apply wp_now
  | |- wp (rand _ _) _ _ => apply wp_rand
  | |- wp (on_map _) _ _ => apply wp_on_map
  | |- wp (on_bot _) _ _ => apply wp_on_bot
  | |- wp (emit _) _ _ => apply wp_emit
  | |- wp (when _ _) _ _ => apply wp_when; intros ?
  | |- wp (if _ then _ else _) _ _ => apply wp_if; intros ?
  | |- xwp (xbind _ _) _ _ _ => apply xwp_bind
  | |- xwp (xret _) _ _ _ => apply xwp_ret
  | |- xwp (throw _) _ _ _ => apply xwp_throw
  | |- xwp (lift _) _ _ _ => apply xwp_lift
  | |- xwp (if _ then _ else _) _ _ _ => apply xwp_if; intros ?
  end.

Ltac wp_run := repeat (wp_step; cbv beta).

(** ** Relations an operation respects, errors included *)

Definition XKeeps {A} (R : relation Ctx) (m : X A) : Prop := forall c, R c (m c).2.

Section xkeeps.
Context (R : relation Ctx) `{!PreOrder R}.

Lemma XKeeps_ret {A} (a : A) : XKeeps R (xret a).
Proof. intros c. reflexivity. Qed.

Lemma XKeeps_throw {A} e : XKeeps R (throw (A := A) e).
Proof. intros c. reflexivity. Qed.

Lemma XKeeps_lift {A} (m : St A) : (forall c, wp m (λ _, R c) c) -> XKeeps R (lift m).
Proof. intros Hm c. unfold lift. specialize (Hm c). unfold wp in Hm. by destruct (m c). Qed.

Lemma XKeeps_gets {A} (f : Ctx -> A) : XKeeps R (lift (gets f)).
Proof. intros c. reflexivity. Qed.

Lemma XKeeps_bind {A B} (m : X A) (k : A -> X B) :
  XKeeps R m -> (forall a, XKeeps R (k a)) -> XKeeps R (xbind m k).
Proof.
  intros Hm Hk c. unfold xbind. specialize (Hm c). destruct (m c) as [[e|a] c']; [done|].
  etransitivity; [exact Hm | apply Hk].
Qed.

Lemma XKeeps_if {A} (b : bool) (m1 m2 : X A) :
  XKeeps R m1 -> XKeeps R m2 -> XKeeps R (if b then m1 else m2).
Proof. by destruct b. Qed.

Lemma XKeeps_option {A B} (o : option B) (m1 : B -> X A) (m2 : X A) :
  (forall b, XKeeps R (m1 b)) -> XKeeps R m2 ->
  XKeeps R (match o with Some b => m1 b | None => m2 end).
Proof. by destruct o. Qed.
End xkeeps.

(** Decompose an operation of the error monad down to its effects. *)
Create HintDb xkeeps.
#[export] Hint Resolve XKeeps_ret XKeeps_throw XKeeps_gets XKeeps_bind XKeeps_if XKeeps_option : xkeeps.
