(* ===== verification/BotOps.v ===== *)
(** * The operations of a bot

    Models the methods of [class Bot] in [scripts/bot.js]: moving, rotating,
    digging, building, the geo tool, healing.  Every method reads the clock
    where the code reads it; a method called on behalf of the user does
    nothing while a program has the control. *)

From S2P Require Import Prelude Host JsNum JsSet Blocks PacksContainer WMap Vec Cargo Machine.

(** ** Constants *)

(** [BotCDConstants], in milliseconds. *)
Definition CD_digging : Q := 333.
Definition CD_rotate : Q := 100.
Definition CD_heal : Q := 200.
Definition CD_setblock : Q := 200.
Definition CD_geo : Q := 200.
Definition CD_macros : Q := 50.

(** The directions of [Move] and [Rotate], by letter or by number. *)
Inductive Side := S_u | S_r | S_d | S_l | S_f.

Definition Side_of_Z (z : Z) : option Side :=
  match z with 0 => Some S_u | 1 => Some S_r | 2 => Some S_d | 3 => Some S_l | 4 => Some S_f | _ => None end.

(** ** Getters *)

Definition rotationIndex (b : Bot) : Z := Z.rem (rotation b / 90) 4.
Definition set_rotationIndex (v : Z) (b : Bot) : Bot := b_rotation (Z.rem v 4 * 90) b.

Definition bFrontX (b : Bot) : Z :=
  vx (position b) + (if rotation b =? 90 then 1 else if rotation b =? 270 then -1 else 0).
Definition bFrontY (b : Bot) : Z :=
  vy (position b) + (if rotation b =? 0 then -1 else if rotation b =? 180 then 1 else 0).
Definition front (b : Bot) : Vector2d := mkV2 (bFrontX b) (bFrontY b).

(** The block at an offset from the bot. *)
Definition block_at (c : Ctx) (dx dy : Z) : Z :=
  GetIDByCoord (wmap c) (vx (position (bot c)) + dx) (vy (position (bot c)) + dy).

Definition BlockAhead (c : Ctx) : Z := GetIDByCoord (wmap c) (bFrontX (bot c)) (bFrontY (bot c)).
(** [None]: the switch has no such case. *)
Definition BlockLeft (c : Ctx) : option Z :=
  match rotationIndex (bot c) with
  | 0 => Some (block_at c (-1) 0) | 1 => Some (block_at c 0 (-1))
  | 2 => Some (block_at c 1 0) | 3 => Some (block_at c 0 1) | _ => None
  end.
Definition BlockRight (c : Ctx) : option Z :=
  match rotationIndex (bot c) with
  | 0 => Some (block_at c 1 0) | 1 => Some (block_at c 0 1)
  | 2 => Some (block_at c (-1) 0) | 3 => Some (block_at c 0 (-1)) | _ => None
  end.

(** [inCooldown] reads the clock. *)
Definition inCooldown : St bool :=
  let* t := now in
  gets (λ c, negb (Qle_bool (cdTime (bot c) + cooldown (bot c)) t)).

(** The setter of [cooldown] remembers when it was set. *)
Definition set_cooldown (v : Q) : St unit :=
  let* t := now in on_bot (b_cooldown v t).

(** [!fromUser || this.programCondition.isManualControlAlloved] *)
Definition permitted (fromUser : bool) (c : Ctx) : bool :=
  negb fromUser || isManualControlAlloved (prog c).

(** ** Moving *)

(** [HasMoved()]: report a new position once. *)
Definition HasMoved : St unit :=
  let* b := gets bot in
  if V2_IsEqually (cachedPosition b) (position b) then ret tt
  else on_bot (b_cachedPosition (position b)) ;; emit (BotMoved (bot_id b) (position b)).

Definition Teleport (x y : Z) : St unit := on_bot (b_position (mkV2 x y)) ;; HasMoved.

(** [Trails()]: a trodden path wears out. *)
Definition Trails : St unit :=
  let* c := gets (λ c, c) in
  let p := position (bot c) in
  let underBot := GetIDByCoord (wmap c) (vx p) (vy p) in
  if underBot =? Block B_ground0 then
    let* r := rand 0 9 in
    when (r =? 0) (on_map (SetTileWithCoords (vx p) (vy p) (Block B_ground1) 0))
  else if underBot =? Block B_ground1 then
    let* r := rand 0 14 in
    when (r =? 0) (on_map (SetTileWithCoords (vx p) (vy p) (Block B_ground2) 0))
  else ret tt.

(** [Digg(fromUser)]: true when a stroke was made ([undefined] counts as false). *)
Definition Digg (fromUser : bool) : St bool :=
  let* ok := gets (permitted fromUser) in
  if ok then
    let* timeNow := now in
    let* b := gets bot in
    if negb (Qle_bool (timeNow - (cdTime b + cooldown b)) 0) then
      let dx := bFrontX b in
      let dy := bFrontY b in
      let* block := gets (λ c, GetIDByCoord (wmap c) dx dy) in
      when (0 <=? hardness (stats block)) (on_map (DiggTile dx dy)) ;;
      when (isVisible b)
        (emit (A_digg (mkV2 dx dy) (rotation b)) ;;
         let* colour := rand 0 5 in
         let* amount := rand 1 400 in
         emit (A_drop (bot_id b) (mkV2 dx dy) colour amount)) ;;
      set_cooldown CD_digging ;;
      ret true
    else ret false
  else ret false.

(** The body of a case of [Move]: step to (x, y), or dig. *)
Definition step_to (x y : Z) : St bool :=
  let* c := gets (λ c, c) in
  if negb (solid (stats (GetIDByCoord (wmap c) x y))) || ignoreBorders c then
    Trails ;; on_bot (b_position (mkV2 x y)) ;; ret true
  else
    (if autodigg (mode (bot c)) then let* _ := Digg false in ret false else ret false).

(** Turn to a side and step. *)
Definition move_case (side : Side) : St bool :=
  let turn r dx dy :=
    on_bot (b_rotation r) ;;
    let* p := gets (λ c, position (bot c)) in step_to (vx p + dx) (vy p + dy) in
  match side with
  | S_u => turn 0 0 (-1)
  | S_d => turn 180 0 1
  | S_l => turn 270 (-1) 0
  | S_r => turn 90 1 0
  | S_f => let* b := gets bot in step_to (bFrontX b) (bFrontY b)
  end.

(** How long a step takes: faster on a road, unless the user ignores roads. *)
Definition step_cd (c : Ctx) (underBot : Z) : Q :=
  let b := bot c in
  if (negb (roadignore (mode b)) || negb (isManualControlAlloved (prog c)))
     && ((underBot =? Block B_road) || (underBot =? Block B_g_road))
  then (1000 / (moveSpeed (bot_stats b) * moveRoadSpeedMul (bot_stats b)))%Q
  else (1000 / moveSpeed (bot_stats b))%Q.

(** [Move(side, fromUser)]: the cooldown, or [undefined] ([None]) when the
    user has no control. *)
Definition Move (side : Side) (fromUser : bool) : St (option Q) :=
  let* ok := gets (permitted fromUser) in
  if ok then
    let* busy := inCooldown in
    (if busy then ret tt
     else
       let* underBot := gets (λ c, block_at c 0 0) in
       let* cd := gets (λ c, step_cd c underBot) in
       let* moved := move_case side in
       on_bot (b_cachedBlockUnder underBot) ;;
       when moved (set_cooldown cd ;; HasMoved)) ;;
    gets (λ c, Some (cooldown (bot c)))
  else ret None.

(** [Rotate(side, fromUser, withCD)]; "f" is not a case of the switch. *)
Definition Rotate (side : Side) (fromUser withCD : bool) : St unit :=
  let turn r := on_bot (b_rotation r) ;; when withCD (set_cooldown CD_rotate) in
  let* ok := gets (permitted fromUser) in
  if ok then
    let* busy := inCooldown in
    if negb busy || negb withCD then
      match side with
      | S_u => turn 0 | S_d => turn 180 | S_l => turn 270 | S_r => turn 90
      | S_f => ret tt
      end
    else ret tt
  else ret tt.

(** ** Acting on the cell ahead *)

(** The frame of the tools: when permitted and rested, act on the cell ahead. *)
Definition tool (fromUser : bool) (act : Z -> Z -> Z -> St unit) : St unit :=
  let* ok := gets (permitted fromUser) in
  if ok then
    let* busy := inCooldown in
    if busy then ret tt
    else
      let* b := gets bot in
      let* block := gets BlockAhead in
      act (bFrontX b) (bFrontY b) block
  else ret tt.

(** [SetBlock(fromUser)]: green, then yellow, then red. *)
Definition SetBlock (fromUser : bool) : St unit :=
  tool fromUser (λ dx dy block,
    if block =? 101 then on_map (SetTileWithCoords dx dy 102 0) ;; set_cooldown CD_setblock
    else if block =? 102 then on_map (SetTileWithCoords dx dy 105 0) ;; set_cooldown CD_setblock
    else
      when (replesable (stats block)) (on_map (SetTileWithCoords dx dy 101 0)) ;;
      set_cooldown CD_setblock).

Definition SetRoad (fromUser : bool) : St unit :=
  tool fromUser (λ dx dy block,
    when ((Block B_ground0 <=? block) && (block <=? Block B_ground2))
      (on_map (SetTileWithCoords dx dy (Block B_road) 0) ;; set_cooldown CD_setblock)).

Definition SetWB (fromUser : bool) : St unit :=
  tool fromUser (λ dx dy block,
    when (negb (solid (stats block)))
      (on_map (SetTileWithCoords dx dy (Block B_block_war) 0) ;; set_cooldown CD_setblock)).

Definition SetQuadro (fromUser : bool) : St unit :=
  tool fromUser (λ dx dy block,
    if block =? 49 then on_map (SetTileWithCoords dx dy 48 0) ;; set_cooldown CD_setblock
    else
      when (replesable (stats block))
        (on_map (SetTileWithCoords dx dy 49 0) ;; set_cooldown CD_setblock)).

(** [UseGeo(fromUser)]: pick a block up when there is room, put one down. *)
Definition UseGeo (fromUser : bool) : St unit :=
  tool fromUser (λ dx dy block,
    if cantake (stats block) then
      let* b := gets bot in
      when (geoIsNoFull (cargo b))
        (on_bot (b_cargo (PushGeo block (cargo b)).2) ;;
         on_map (ClearTile dx dy false) ;;
         set_cooldown CD_geo ;;
         when (isVisible b) (emit (A_geo (mkV2 dx dy) (rotation b))))
    else when (negb (solid (stats block)))
      (let* b := gets bot in
       let '(gblock, cargo') := PopGeo (cargo b) in
       on_bot (b_cargo cargo') ;;
       match gblock with
       | Some g => when (negb (g =? 0)) (on_map (SetTileWithCoords dx dy g 0))
       | None => ret tt
       end ;;
       set_cooldown CD_geo)).

Definition Heal (fromUser : bool) : St unit :=
  let* ok := gets (permitted fromUser) in
  if ok then
    let* busy := inCooldown in
    if busy then ret tt
    else
      set_cooldown CD_heal ;;
      let* b := gets bot in
      when (isVisible b) (emit (A_heal (position b) (rotation b)))
  else ret tt.

(** [CheckBlockUnder()]: a solid block that came over the bot is removed. *)
Definition CheckBlockUnder : St unit :=
  let* c := gets (λ c, c) in
  let p := position (bot c) in
  let b := GetIDByCoord (wmap c) (vx p) (vy p) in
  when (negb (b =? cachedBlockUnder (bot c)) && solid (stats b))
    (on_map (ClearTile (vx p) (vy p) false) ;;
     when (isVisible (bot c)) (emit (A_geo p (rotation (bot c))))).

(** ** The calls the rest of the program makes *)

Inductive Action :=
  | Do_Move (s : Side) (fromUser : bool)
  | Do_Rotate (s : Side) (fromUser withCD : bool)
  | Do_Digg (fromUser : bool)
  | Do_SetBlock (fromUser : bool)
  | Do_SetRoad (fromUser : bool)
  | Do_SetWB (fromUser : bool)
  | Do_SetQuadro (fromUser : bool)
  | Do_UseGeo (fromUser : bool)
  | Do_Heal (fromUser : bool)
  | Do_Teleport (x y : Z)
  | Do_CheckBlockUnder.

Definition drop_result {A} (m : St A) : St unit := let* _ := m in ret tt.

Definition run_action (a : Action) : St unit :=
  match a with
  | Do_Move s u => drop_result (Move s u)
  | Do_Rotate s u w => Rotate s u w
  | Do_Digg u => drop_result (Digg u)
  | Do_SetBlock u => SetBlock u
  | Do_SetRoad u => SetRoad u
  | Do_SetWB u => SetWB u
  | Do_SetQuadro u => SetQuadro u
  | Do_UseGeo u => UseGeo u
  | Do_Heal u => Heal u
  | Do_Teleport x y => Teleport x y
  | Do_CheckBlockUnder => CheckBlockUnder
  end.

(** Whether a call is made on behalf of the user. *)
Definition by_user (a : Action) : bool :=
  match a with
  | Do_Move _ u | Do_Rotate _ u _ | Do_Digg u | Do_SetBlock u | Do_SetRoad u | Do_SetWB u
  | Do_SetQuadro u | Do_UseGeo u | Do_Heal u => u
  | Do_Teleport _ _ | Do_CheckBlockUnder => false
  end.

(** Whether a call waits for the cooldown. *)
Definition waits (a : Action) : bool :=
  match a with
  | Do_Rotate _ _ withCD => withCD
  | Do_Teleport _ _ | Do_CheckBlockUnder => false
  | _ => true
  end.
