(* ===== verification/BotFacts.v ===== *)
(** * What the operations of a bot guarantee *)

From Stdlib Require Import Lqa.
From S2P Require Import Prelude Host JsNum JsSet Blocks PacksContainer WMap Vec Cargo Machine BotOps.

(** ** The invariant of a context *)

Definition quarter (r : Z) : Prop := r = 0 \/ r = 90 \/ r = 180 \/ r = 270.

Record Inv (c : Ctx) : Prop := {
  inv_map : wf (wmap c);
  inv_cargo : cargo_wf (cargo (bot c));
  inv_geo : Forall is_byte (geo (cargo (bot c)));
  inv_rotation : quarter (rotation (bot c));
  inv_cooldown : (0 <= cooldown (bot c))%Q;
  inv_speed : (0 < moveSpeed (bot_stats (bot c)))%Q;
  inv_road : (0 < moveRoadSpeedMul (bot_stats (bot c)))%Q
}.

Section inv.
Implicit Types (c : Ctx).

Lemma Inv_host h c : Inv c -> Inv (c_host h c).
Proof. by intros []; split. Qed.
Lemma Inv_effects e c : Inv c -> Inv (c_effects e c).
Proof. by intros []; split. Qed.
Lemma Inv_wmap m c : wf m -> Inv c -> Inv (c_wmap m c).
Proof. by intros ? []; split. Qed.
Lemma Inv_position v c : Inv c -> Inv (c_bot (b_position v (bot c)) c).
Proof. by intros []; split. Qed.
Lemma Inv_cachedPosition v c : Inv c -> Inv (c_bot (b_cachedPosition v (bot c)) c).
Proof. by intros []; split. Qed.
Lemma Inv_cachedBlockUnder v c : Inv c -> Inv (c_bot (b_cachedBlockUnder v (bot c)) c).
Proof. by intros []; split. Qed.
Lemma Inv_rotation r c : quarter r -> Inv c -> Inv (c_bot (b_rotation r (bot c)) c).
Proof. by intros ? []; split. Qed.
Lemma Inv_cooldown v t c : (0 <= v)%Q -> Inv c -> Inv (c_bot (b_cooldown v t (bot c)) c).
Proof. by intros ? []; split. Qed.
Lemma Inv_mode v c : Inv c -> Inv (c_bot (b_mode v (bot c)) c).
Proof. by intros []; split. Qed.
Lemma Inv_prog v c : Inv c -> Inv (c_bot (b_prog v (bot c)) c).
Proof. by intros []; split. Qed.

Lemma Inv_PopGeo c : Inv c -> Inv (c_bot (b_cargo (PopGeo (cargo (bot c))).2 (bot c)) c).
Proof.
  intros [? Hc Hg ? ? ? ?]. split; cbn; try done; [by apply PopGeo_stack|].
  unfold PopGeo. case_match; [|done]. cbn. apply Forall_insert; [done | apply byte_0].
Qed.

Lemma Inv_PushGeo v c : is_byte v -> Inv c -> Inv (c_bot (b_cargo (PushGeo v (cargo (bot c))).2 (bot c)) c).
Proof.
  intros ? [? Hc Hg ? ? ? ?]. split; cbn; try done; [by apply PushGeo_stack|].
  unfold PushGeo. case_match; [|done]. cbn. by apply Forall_insert.
Qed.

Lemma PopGeo_byte c g : Inv c -> (PopGeo (cargo (bot c))).1 = Some g -> is_byte g.
Proof.
  intros Hi. pose proof (inv_geo c Hi) as Hg. unfold PopGeo. case_match; [|done]. cbn.
  intros Hl. by eapply Forall_lookup_1.
Qed.

Lemma step_cd_nonneg c u : Inv c -> (0 <= step_cd c u)%Q.
Proof.
  intros [? ? ? ? ? Hs Hr]. unfold step_cd.
  assert (0 < moveSpeed (bot_stats (bot c)) * moveRoadSpeedMul (bot_stats (bot c)))%Q.
  { by apply Qmult_lt_0_compat. }
  case_match; apply Qle_shift_div_l; (done || lra).
Qed.
End inv.

Create HintDb inv.
Create HintDb kinv.
#[export] Hint Resolve Inv_host Inv_effects Inv_wmap Inv_position Inv_cachedPosition
  Inv_cachedBlockUnder Inv_rotation Inv_cooldown Inv_mode Inv_prog Inv_PopGeo Inv_PushGeo : inv.
#[export] Hint Extern 1 (wf _) => apply inv_map : inv.
#[export] Hint Extern 1 (wf (SetTileWithCoords _ _ _ _ _)) => apply wf_SetTileWithCoords : inv.
#[export] Hint Extern 1 (wf (ClearTile _ _ _ _)) => apply wf_ClearTile : inv.
#[export] Hint Extern 1 (wf (DiggTile _ _ _)) => apply wf_DiggTile : inv.
#[export] Hint Extern 1 (quarter _) => unfold quarter; lia : inv.
#[export] Hint Extern 1 (is_byte _) => (apply Block_byte || (unfold is_byte; lia) || apply GetID_byte) : inv.
#[export] Hint Extern 1 (_ <= _)%Q => discriminate : inv.

(** An operation keeps the invariant. *)
Definition KeepsInv {A} (m : St A) : Prop := forall c, Inv c -> wp m (λ _, Inv) c.

(** Run symbolically; a call of an operation known to keep the invariant is one
    step. *)
Ltac inv_call :=
  lazymatch goal with
  | |- wp ?m _ ?c =>
      let K := fresh "K" in let I := fresh "I" in
      assert (KeepsInv m) as K by (auto 3 with kinv);
      assert (Inv c) as I by (eauto 12 with inv);
      apply (wp_mono m (λ _, Inv) _ c (K c I)); clear K; cbv beta; intros ? ? ?
  end.
Ltac inv_steps := repeat first [wp_step; cbv beta | inv_call].
Ltac inv_run := intros ? ?; inv_steps; eauto 12 with inv.

Lemma inv_inCooldown : KeepsInv inCooldown.
Proof. unfold inCooldown. inv_run. Qed.

Lemma inv_set_cooldown v : (0 <= v)%Q -> KeepsInv (set_cooldown v).
Proof. intros Hv. unfold set_cooldown. inv_run. Qed.

Lemma inv_HasMoved : KeepsInv HasMoved.
Proof. unfold HasMoved. inv_run. Qed.

#[export] Hint Resolve inv_inCooldown inv_set_cooldown inv_HasMoved : kinv.
#[export] Hint Extern 1 (_ <= _)%Q => discriminate : kinv.

Lemma inv_Teleport x y : KeepsInv (Teleport x y).
Proof. unfold Teleport. inv_run. Qed.

Lemma inv_Trails : KeepsInv Trails.
Proof. unfold Trails. inv_run. Qed.

Lemma inv_Digg u : KeepsInv (Digg u).
Proof. unfold Digg. inv_run. Qed.

#[export] Hint Extern 1 (0 <= step_cd _ _)%Q => apply step_cd_nonneg; eauto 8 with inv : kinv.
#[export] Hint Resolve inv_Teleport inv_Trails inv_Digg : kinv.

Lemma inv_step_to x y : KeepsInv (step_to x y).
Proof. unfold step_to. inv_run. Qed.

#[export] Hint Resolve inv_step_to : kinv.

Lemma inv_move_case s : KeepsInv (move_case s).
Proof. unfold move_case. destruct s; inv_run. Qed.

#[export] Hint Resolve inv_move_case : kinv.

Lemma inv_Move s u : KeepsInv (Move s u).
Proof. unfold Move. inv_run. Qed.

Lemma inv_Rotate s u w : KeepsInv (Rotate s u w).
Proof. unfold Rotate. destruct s; inv_run. Qed.

(** The tools: the block handed to the action is the one ahead. *)
Lemma inv_tool u act :
  (forall c, Inv c -> wp (act (bFrontX (bot c)) (bFrontY (bot c)) (BlockAhead c)) (λ _, Inv) c) ->
  KeepsInv (tool u act).
Proof. intros Ha c Hc. unfold tool. inv_steps; auto. Qed.

Lemma inv_SetBlock u : KeepsInv (SetBlock u).
Proof. apply inv_tool. inv_run. Qed.

Lemma inv_SetRoad u : KeepsInv (SetRoad u).
Proof. apply inv_tool. inv_run. Qed.

Lemma inv_SetWB u : KeepsInv (SetWB u).
Proof. apply inv_tool. inv_run. Qed.

Lemma inv_SetQuadro u : KeepsInv (SetQuadro u).
Proof. apply inv_tool. inv_run. Qed.

Lemma inv_UseGeo u : KeepsInv (UseGeo u).
Proof.
  apply inv_tool. intros c Hc. inv_steps; try (by eauto 12 with inv).
  pose proof (Inv_PopGeo c Hc) as Hi. pose proof (PopGeo_byte c) as Hb.
  destruct (PopGeo (cargo (bot c))) as [g cargo'] eqn:E. cbn [fst snd] in Hi, Hb.
  assert (forall g', g = Some g' -> is_byte g') as Hg by auto. clear E Hb.
  inv_steps. destruct g as [g|]; inv_steps; eauto 12 with inv.
Qed.

Lemma inv_Heal u : KeepsInv (Heal u).
Proof. unfold Heal. inv_run. Qed.

Lemma inv_CheckBlockUnder : KeepsInv CheckBlockUnder.
Proof. unfold CheckBlockUnder. inv_run. Qed.

#[export] Hint Resolve inv_Move inv_Rotate inv_SetBlock inv_SetRoad inv_SetWB inv_SetQuadro
  inv_UseGeo inv_Heal inv_CheckBlockUnder : kinv.

(** ** The cooldown discipline

    [quiet]: the cooldown is not touched.  [paced]: it is touched only when it
    had run out at some reading of the clock in between. *)

Definition quiet (c c' : Ctx) : Prop :=
  same_streams (host c) (host c') /\ cooldown (bot c') = cooldown (bot c) /\ cdTime (bot c') = cdTime (bot c).

Definition paced (c c' : Ctx) : Prop :=
  same_streams (host c) (host c') /\
  ((cooldown (bot c') = cooldown (bot c) /\ cdTime (bot c') = cdTime (bot c)) \/
   exists n, (nclock (host c) <= n < nclock (host c'))%nat /\
     (cdTime (bot c) + cooldown (bot c) <= clock (host c) n)%Q).

#[global] Instance quiet_preorder : PreOrder quiet.
Proof.
  split.
  - intros c. unfold quiet. split; [reflexivity | done].
  - intros c1 c2 c3 (S1 & E1 & F1) (S2 & E2 & F2). unfold quiet.
    split; [by etransitivity|]. split; congruence.
Qed.

#[global] Instance paced_preorder : PreOrder paced.
Proof.
  split.
  - intros c. split; [reflexivity | by left].
  - intros c1 c2 c3 [S1 H1] [S2 H2]. split; [by etransitivity|].
    destruct S1 as (C1 & _ & N1 & _), S2 as (C2 & _ & N2 & _).
    destruct H1 as [[E1 F1]|(n & Hn & Hle)]; [|right; exists n; split; [lia|done]].
    destruct H2 as [[E2 F2]|(n & Hn & Hle)]; [left; split; congruence|].
    right. exists n. split; [lia|]. by rewrite C1, E1, F1 in Hle.
Qed.

Lemma quiet_paced c c' : quiet c c' -> paced c c'.
Proof. intros [S E]. split; [done | by left]. Qed.

Lemma streams_refl h : same_streams h h.
Proof. reflexivity. Qed.

Ltac streams := unfold quiet, same_streams; cbn; repeat split; lia.

Definition Quiet {A} (m : St A) : Prop := forall c, wp m (λ _, quiet c) c.

Lemma Quiet_bind {A B} (m : St A) (k : A -> St B) :
  Quiet m -> (forall a, Quiet (k a)) -> Quiet (bind m k).
Proof.
  intros Hm Hk c. apply wp_bind. eapply wp_mono; [apply Hm|]. cbv beta. intros a c' H.
  eapply wp_mono; [apply Hk|]. cbv beta. intros. by etransitivity.
Qed.

Lemma quiet_inCooldown : Quiet inCooldown.
Proof. intros c. unfold inCooldown. wp_run. streams. Qed.

Lemma quiet_HasMoved : Quiet HasMoved.
Proof. intros c. unfold HasMoved. wp_run; streams. Qed.

Lemma quiet_Trails : Quiet Trails.
Proof. intros c. unfold Trails. wp_run; streams. Qed.

Lemma quiet_CheckBlockUnder : Quiet CheckBlockUnder.
Proof. intros c. unfold CheckBlockUnder. wp_run; streams. Qed.

Lemma quiet_Teleport x y : Quiet (Teleport x y).
Proof. intros c. unfold Teleport, HasMoved. wp_run; streams. Qed.

(** [rested c]: the clock has passed the end of the cooldown. *)
Definition ends (c : Ctx) : Q := (cdTime (bot c) + cooldown (bot c))%Q.
Definition tick (c : Ctx) : Q := clock (host c) (nclock (host c)).

Definition Paced {A} (m : St A) : Prop := forall c, wp m (λ _, paced c) c.

Lemma paced_if_rested c c' :
  same_streams (host c) (host c') -> (nclock (host c) < nclock (host c'))%nat ->
  (ends c <= tick c)%Q -> paced c c'.
Proof. intros S N H. split; [done|]. right. exists (nclock (host c)). split; [lia | done]. Qed.

Ltac paced_leaf :=
  first
    [ by apply quiet_paced; streams
    | apply paced_if_rested; [streams | cbn; lia |];
      unfold ends, tick; cbn in *;
      match goal with H : negb (Qle_bool _ _) = false |- _ =>
        apply negb_false_iff, Qle_bool_iff in H; exact H end ].

Lemma paced_Digg u : Paced (Digg u).
Proof.
  intros c. unfold Digg, set_cooldown. wp_run; try paced_leaf;
    (apply paced_if_rested; [streams | cbn; lia |]);
    match goal with H : negb (Qle_bool ?a ?b) = true |- _ =>
      apply negb_true_iff in H; assert (~ (a <= b)%Q) by (rewrite <- Qle_bool_iff; congruence) end;
    unfold ends, tick; cbn in *; lra.
Qed.

Lemma paced_Rotate s u : Paced (Rotate s u true).
Proof.
  intros c. unfold Rotate, inCooldown, set_cooldown.
  destruct s; wp_run; try paced_leaf;
    match goal with H : negb _ || _ = true |- _ => cbn [negb] in H; rewrite orb_false_r in H;
      apply negb_true_iff in H end; paced_leaf.
Qed.

Lemma quiet_Rotate s u : Quiet (Rotate s u false).
Proof. intros c. unfold Rotate, inCooldown. destruct s; wp_run; streams. Qed.

Lemma paced_tools u :
  Paced (SetBlock u) /\ Paced (SetRoad u) /\ Paced (SetWB u) /\ Paced (SetQuadro u) /\ Paced (Heal u).
Proof.
  split_and!; intros c; unfold SetBlock, SetRoad, SetWB, SetQuadro, Heal, tool, inCooldown, set_cooldown;
    wp_run; paced_leaf.
Qed.

Lemma paced_UseGeo u : Paced (UseGeo u).
Proof.
  intros c. unfold UseGeo, tool, inCooldown, set_cooldown. wp_run; try paced_leaf.
  all: destruct (PopGeo _) as [g cargo']; wp_run; destruct g as [g|]; wp_run; paced_leaf.
Qed.

(** Every operation only consumes the streams of the host. *)
Definition Streams {A} (m : St A) : Prop := forall c, wp m (λ _ c', same_streams (host c) (host c')) c.

Lemma Streams_bind {A B} (m : St A) (k : A -> St B) :
  Streams m -> (forall a, Streams (k a)) -> Streams (bind m k).
Proof.
  intros Hm Hk c. apply wp_bind. eapply wp_mono; [apply Hm|]. cbv beta. intros a c' H.
  eapply wp_mono; [apply Hk|]. cbv beta. intros. by etransitivity.
Qed.

Lemma Paced_Streams {A} (m : St A) : Paced m -> Streams m.
Proof. intros H c. eapply wp_mono; [apply H|]. by intros a c' [S _]. Qed.

Lemma Quiet_Paced {A} (m : St A) : Quiet m -> Paced m.
Proof. intros H c. eapply wp_mono; [apply H|]. intros a c'. apply quiet_paced. Qed.

Lemma Streams_if {A} (b : bool) (m1 m2 : St A) : Streams m1 -> Streams m2 -> Streams (if b then m1 else m2).
Proof. by destruct b. Qed.

Lemma streams_gets {A} (f : Ctx -> A) : Streams (gets f).
Proof. intros c. apply streams_refl. Qed.

Lemma streams_ret {A} (a : A) : Streams (ret a).
Proof. intros c. apply streams_refl. Qed.

Lemma streams_on_bot f : Streams (on_bot f).
Proof. intros c. apply streams_refl. Qed.

Lemma streams_set_cooldown v : Streams (set_cooldown v).
Proof. intros c. unfold set_cooldown. wp_run. streams. Qed.

Create HintDb streams.
#[export] Hint Resolve Streams_bind Streams_if streams_gets streams_ret streams_on_bot streams_set_cooldown
  Paced_Streams Quiet_Paced quiet_inCooldown quiet_HasMoved quiet_Trails paced_Digg : streams.

Lemma streams_step_to x y : Streams (step_to x y).
Proof. unfold step_to. auto 12 with streams. Qed.

#[export] Hint Resolve streams_step_to : streams.

Lemma streams_move_case s : Streams (move_case s).
Proof. unfold move_case. destruct s; auto 12 with streams. Qed.

#[export] Hint Resolve streams_move_case : streams.

(** The part of [Move] after the test of the cooldown. *)
Lemma paced_Move s u : Paced (Move s u).
Proof.
  intros c. unfold Move, inCooldown. wp_run; try paced_leaf.
  set (c1 := c_host _ c). apply (wp_mono _ (λ _ c', same_streams (host c1) (host c'))).
  { assert (Streams (move_case s)) as Hs by auto with streams. apply Hs. }
  cbv beta. intros moved c2 S2. wp_run.
  1: set (c3 := c_bot _ c2); assert (same_streams (host c1) (host c3)) as S3 by done.
  1: apply (wp_mono _ (λ _ c', same_streams (host c3) (host c')));
     [apply streams_set_cooldown|]; cbv beta; intros _ c4 S4.
  1: apply (wp_mono _ (λ _ c', same_streams (host c4) (host c')));
     [assert (Streams HasMoved) as Hs by auto with streams; apply Hs|]; cbv beta; intros _ c5 S5; wp_run.
  all: apply paced_if_rested;
    [unfold same_streams in *; cbn in *; intuition (congruence || lia)
    |unfold same_streams in *; cbn in *; lia |];
    unfold ends, tick; cbn in *;
    match goal with H : negb (Qle_bool _ _) = false |- _ =>
        apply negb_false_iff, Qle_bool_iff in H; exact H end.
Qed.

(** ** Properties *)

Lemma inv_action a : KeepsInv (run_action a).
Proof.
  assert (forall A (m : St A), KeepsInv m -> KeepsInv (drop_result m)) as Hd.
  { intros A m H c Hc. unfold drop_result. wp_step. eapply wp_mono; [by apply H|]. by cbv beta. }
  destruct a; cbn; auto with kinv.
Qed.

Lemma paced_action a : Paced (run_action a).
Proof.
  assert (forall A (m : St A), Paced m -> Paced (drop_result m)) as Hd.
  { intros A m H c. unfold drop_result. wp_step. eapply wp_mono; [apply H|]. by cbv beta. }
  destruct a as [s u|s u w|u|u|u|u|u|u|u|x y|]; cbn [run_action]; try apply Hd;
    try (destruct (paced_tools u) as (P1 & P2 & P3 & P4 & P5)).
  - apply paced_Move.
  - destruct w; [apply paced_Rotate | apply Quiet_Paced, quiet_Rotate].
  - apply paced_Digg.
  - exact P1.
  - exact P2.
  - exact P3.
  - exact P4.
  - apply paced_UseGeo.
  - exact P5.
  - apply Quiet_Paced, quiet_Teleport.
  - apply Quiet_Paced, quiet_CheckBlockUnder.
Qed.

(** While a program runs without hand mode, no call made on behalf of the user
    does anything: not the bot, the map, the clock cursor nor the effects
    change. *)
Theorem user_locked_out a c :
  isExecute (prog c) = true -> isHandModeActive (prog c) = false -> by_user a = true ->
  run_action a c = (tt, c).
Proof.
  intros He Hh Hu. assert (permitted true c = false) as Hp.
  { unfold permitted, isManualControlAlloved. by rewrite He, Hh. }
  destruct a; cbn in Hu; try done; subst; cbn [run_action];
    unfold drop_result, Move, Rotate, Digg, SetBlock, SetRoad, SetWB, SetQuadro, UseGeo, tool, Heal,
      bind, gets; rewrite Hp; done.
Qed.

(** A 3x3 map, a bot in the middle facing up, a clock at 1000 ms. *)
Definition demo_bot : Bot :=
  mkBot 1 None (mkV2 1 1) (mkV2 1 1) 0 0 0 (mkBotStats 500 500 20 (17 # 5))
    (new_BotCargo BotCargoStats) ∅ new_BotMode true 32 (new_ProgramCondition 0).
Definition demo_host : Host := mkHost (λ n, inject_Z (1000 + Z.of_nat n * 1000)) (λ _, 1 # 2) 0 0.
Definition demo_ctx : Ctx := mkCtx demo_host (new_WorldMap 3 3) false demo_bot [].
Definition demo_running : Ctx :=
  c_bot (b_prog (pc_isExecute true (new_ProgramCondition 0)) demo_bot) demo_ctx.

Lemma user_locked_out_witness :
  run_action (Do_Move S_u true) demo_running = (tt, demo_running) /\
  position (bot (run_action (Do_Move S_u true) demo_ctx).2) = mkV2 1 0.
Proof.
  split; [|vm_compute; reflexivity].
  apply (user_locked_out (Do_Move S_u true) demo_running); reflexivity.
Defined.

Lemma not_rested_Qle c t : (t < ends c)%Q -> Qle_bool (cdTime (bot c) + cooldown (bot c)) t = false.
Proof.
  intros H. destruct (Qle_bool _ _) eqn:E; [|done]. apply Qle_bool_iff in E. unfold ends in H. lra.
Qed.

(** During the cooldown nothing can be done: every action that waits for it
    leaves the context as it is, apart from having looked at the clock. *)
Theorem cooldown_blocks a c :
  waits a = true -> (tick c < ends c)%Q ->
  run_action a c = (tt, c) \/ run_action a c = (tt, c_host (performance_now (host c)).2 c).
Proof.
  intros Hw Ht. pose proof (not_rested_Qle c (tick c) Ht) as Hb. unfold tick in Hb.
  assert (Qle_bool (tick c - (cdTime (bot c) + cooldown (bot c))) 0 = true) as Hd.
  { apply Qle_bool_iff. unfold ends in Ht. lra. }
  unfold tick in Hd.
  destruct a as [s u|s u w|u|u|u|u|u|u|u|x y|]; cbn in Hw; try done; subst; cbn [run_action];
    unfold drop_result, Move, Rotate, Digg, SetBlock, SetRoad, SetWB, SetQuadro, UseGeo, tool, Heal,
      inCooldown, bind, gets, now; cbn;
    (destruct (permitted u c); cbn; [right | left; done]); cbn; rewrite ?Hb, ?Hd; cbn; done.
Qed.

Lemma cooldown_blocks_witness :
  let c := c_bot (b_cooldown 500 1000 demo_bot) demo_ctx in
  run_action (Do_Digg true) c = (tt, c) \/
  run_action (Do_Digg true) c = (tt, c_host (performance_now (host c)).2 c).
Proof.
  apply (cooldown_blocks (Do_Digg true) (c_bot (b_cooldown 500 1000 demo_bot) demo_ctx)); reflexivity.
Defined.

(** *** Building *)

Lemma tool_run u act c :
  permitted u c = true -> (ends c <= tick c)%Q ->
  tool u act c =
  act (bFrontX (bot c)) (bFrontY (bot c)) (BlockAhead c) (c_host (performance_now (host c)).2 c).
Proof.
  intros Hp Hr. unfold tool, inCooldown, bind, gets, now. rewrite Hp. cbn.
  apply Qle_bool_iff in Hr. unfold ends, tick in Hr. by rewrite Hr.
Qed.

Definition front_valid (c : Ctx) : bool := ValidCoords (wmap c) (bFrontX (bot c)) (bFrontY (bot c)).

(** What the block tool makes of the block ahead. *)
Definition build_next (b : Z) : Z :=
  if b =? Block B_block_green then Block B_block_yellow
  else if b =? Block B_block_yellow then Block B_block_red
  else if replesable (stats b) then Block B_block_green else b.

(** The block tool, used when rested and permitted, turns the cell ahead into
    the next stage (replaceable ground, then green, yellow, red; any other block
    stays), touches no other cell, leaves the bot where it is, and starts the
    building cooldown. *)
Theorem SetBlock_builds u c x y :
  wf (wmap c) -> permitted u c = true -> (ends c <= tick c)%Q -> front_valid c = true ->
  let c' := (SetBlock u c).2 in
  BlockAhead c' = build_next (BlockAhead c) /\
  (~ (x = bFrontX (bot c) /\ y = bFrontY (bot c)) ->
   GetIDByCoord (wmap c') x y = GetIDByCoord (wmap c) x y) /\
  position (bot c') = position (bot c) /\ rotation (bot c') = rotation (bot c) /\
  cooldown (bot c') = CD_setblock.
Proof.
  intros Hwf Hp Hr Hv. cbv zeta. unfold SetBlock. rewrite tool_run by done.
  unfold front_valid in Hv. unfold build_next. cbn [Block].
  assert (forall id, is_byte id -> solid (stats id) = true ->
    let m' := SetTileWithCoords (bFrontX (bot c)) (bFrontY (bot c)) id 0 (wmap c) in
    GetIDByCoord m' (bFrontX (bot c)) (bFrontY (bot c)) = id /\
    (~ (x = bFrontX (bot c) /\ y = bFrontY (bot c)) -> GetIDByCoord m' x y = GetIDByCoord (wmap c) x y))
    as Hset.
  { intros id Hid Hs. cbv zeta. rewrite !GetID_SetTileWithCoords, Hv, Hs, !Z.eqb_refl by done.
    split; [done|]. intros Hne.
    by replace (true && (x =? bFrontX (bot c)) && (y =? bFrontY (bot c)) && _) with false by lia. }
  unfold BlockAhead in *.
  destruct (GetIDByCoord (wmap c) (bFrontX (bot c)) (bFrontY (bot c)) =? 101) eqn:E1.
  { destruct (Hset 102) as [A B]; [done | done | auto]. }
  destruct (GetIDByCoord (wmap c) (bFrontX (bot c)) (bFrontY (bot c)) =? 102) eqn:E2.
  { destruct (Hset 105) as [A B]; [done | done | auto]. }
  destruct (replesable _); [|done].
  destruct (Hset 101) as [A B]; [done | done | auto].
Qed.

(** Three uses with the clock running make a red block of the ground ahead. *)
Lemma SetBlock_builds_witness :
  BlockAhead (SetBlock true demo_ctx).2 = Block B_block_green /\
  BlockAhead (SetBlock true (SetBlock true (SetBlock true demo_ctx).2).2).2 = Block B_block_red.
Proof.
  split; [|vm_compute; reflexivity].
  destruct (SetBlock_builds true demo_ctx 0 0) as [E _];
    [by apply wf_Resyze | reflexivity | discriminate | reflexivity |].
  rewrite E. vm_compute. reflexivity.
Defined.

(** *** The geo tool *)

Lemma cantake_solid b : is_byte b -> cantake (stats b) = true -> solid (stats b) = true.
Proof.
  intros Hb H. table_fact (λ (_ : Z) s, negb (cantake s) || solid s) b Hb Hf. by rewrite H in Hf.
Qed.

(** A solid block seen at a cell is its terrain. *)
Lemma GetID_solid m x y :
  wf m -> solid (stats (GetIDByCoord m x y)) = true -> ValidCoords m x y = true ->
  GetIDByCoord_Terrain m x y = GetIDByCoord m x y /\ GetIDByCoord_Terrain m x y <> 0.
Proof.
  intros Hwf Hs Hv. rewrite GetID_wf in * by done. unfold GetIDByCoord_Terrain. rewrite Hv in *.
  destruct (Z.eqb_spec (cell (terrain m) (idx m x y)) 0) as [E|E]; [|done].
  destruct (background_at m (idx m x y) Hwf) as [_ Hb]. unfold background_cell in Hb. congruence.
Qed.

Lemma GetID_ClearTile m x y :
  wf m -> ValidCoords m x y = true ->
  GetIDByCoord (ClearTile x y false m) x y = cell (background m) (idx m x y).
Proof.
  intros Hwf Hv. assert (wf (ClearTile x y false m)) as Hwf' by by apply wf_ClearTile.
  rewrite GetID_wf by done. pose proof (ClearTile_shape x y false m) as S.
  rewrite (same_shape_valid _ _ _ _ S), (same_shape_idx _ _ _ _ S), Hv. cbn.
  rewrite cell_aset_eq by by apply terrain_len. done.
Qed.

(** Picking a block up, as an equation. *)
Lemma UseGeo_pick u c :
  permitted u c = true -> (ends c <= tick c)%Q ->
  cantake (stats (BlockAhead c)) = true -> geoIsNoFull (cargo (bot c)) = true ->
  let c1 := (UseGeo u c).2 in
  wmap c1 = ClearTile (bFrontX (bot c)) (bFrontY (bot c)) false (wmap c) /\
  cargo (bot c1) = (PushGeo (BlockAhead c) (cargo (bot c))).2 /\
  front (bot c1) = front (bot c) /\ prog c1 = prog c.
Proof.
  intros Hp Hr Hc Hg. cbv zeta. unfold UseGeo. rewrite tool_run, Hc by done.
  unfold bind, gets, when. cbn. rewrite Hg. cbn. by destruct (isVisible _).
Qed.

Lemma UseGeo_place u c :
  permitted u c = true -> (ends c <= tick c)%Q -> solid (stats (BlockAhead c)) = false ->
  cantake (stats (BlockAhead c)) = false ->
  let c1 := (UseGeo u c).2 in
  wmap c1 = (match (PopGeo (cargo (bot c))).1 with
             | Some g => if negb (g =? 0) then SetTileWithCoords (bFrontX (bot c)) (bFrontY (bot c)) g 0 (wmap c)
                         else wmap c
             | None => wmap c end) /\
  cargo (bot c1) = (PopGeo (cargo (bot c))).2 /\ cooldown (bot c1) = CD_geo.
Proof.
  intros Hp Hr Hs Hc. cbv zeta. unfold UseGeo. rewrite tool_run, Hc, Hs by done.
  unfold bind, gets, when. cbn. destruct (PopGeo (cargo (bot c))) as [[g|] cargo']; cbn; [|done].
  by destruct (g =? 0).
Qed.

(** C32: Picking a block up with the geo tool and putting it down again restores
    the solid layer and the geo stack; only the density of the block is lost
    (it comes back with density 0). *)
Theorem UseGeo_roundtrip u c x y :
  Inv c -> permitted u c = true -> (ends c <= tick c)%Q -> front_valid c = true ->
  cantake (stats (BlockAhead c)) = true -> geoIsNoFull (cargo (bot c)) = true ->
  let c1 := (UseGeo u c).2 in
  (ends c1 <= tick c1)%Q ->
  let c2 := (UseGeo u c1).2 in
  GetIDByCoord_Terrain (wmap c1) (bFrontX (bot c)) (bFrontY (bot c)) = 0 /\
  head (geo_stack (cargo (bot c1))) = Some (BlockAhead c) /\
  GetIDByCoord_Terrain (wmap c2) x y = GetIDByCoord_Terrain (wmap c) x y /\
  background (wmap c2) = background (wmap c) /\
  geo_stack (cargo (bot c2)) = geo_stack (cargo (bot c)).
Proof.
  intros Hi Hp Hr Hv Hc Hg. cbv zeta. intros Hr1.
  destruct (UseGeo_pick u c Hp Hr Hc Hg) as (Em & Ec & Ef & Ep).
  set (c1 := (UseGeo u c).2) in *. pose proof (inv_map c Hi) as Hwf. unfold front_valid in Hv.
  set (fx := bFrontX (bot c)) in *. set (fy := bFrontY (bot c)) in *. set (b := BlockAhead c) in *.
  assert (is_byte b) as Hb by by apply GetID_byte.
  pose proof (cantake_solid b Hb Hc) as Hs.
  destruct (GetID_solid (wmap c) fx fy Hwf Hs Hv) as [Et Hne]. fold b in Et.
  injection Ef as Efx Efy. fold fx in Efx. fold fy in Efy.
  assert (BlockAhead c1 = cell (background (wmap c)) (idx (wmap c) fx fy)) as Eb.
  { unfold BlockAhead. rewrite Efx, Efy, Em. by apply GetID_ClearTile. }
  assert (solid (stats (BlockAhead c1)) = false) as Hs1.
  { rewrite Eb. apply background_at, Hwf. }
  assert (cantake (stats (BlockAhead c1)) = false) as Hc1.
  { destruct (cantake (stats (BlockAhead c1))) eqn:E; [|done].
    assert (is_byte (BlockAhead c1)) as Hb1 by (rewrite Eb; apply background_at, Hwf).
    pose proof (cantake_solid _ Hb1 E). congruence. }
  assert (permitted u c1 = true) as Hp1 by (unfold permitted in *; by rewrite Ep).
  destruct (UseGeo_place u c1 Hp1 Hr1 Hs1 Hc1) as (Em2 & Ec2 & _).
  pose proof (PushGeo_stack b _ (inv_cargo c Hi)) as (W1 & _ & S1 & _).
  assert ((PushGeo b (cargo (bot c))).1 = true) as Hok by (unfold PushGeo; by rewrite Hg).
  rewrite Hok in S1. rewrite <- Ec in W1, S1.
  destruct (PopGeo_stack _ W1) as (_ & Ht & S2 & _). rewrite S1 in Ht, S2. cbn [head tail] in Ht, S2.
  rewrite Et in Hne. rewrite Ht, (proj2 (Z.eqb_neq b 0) Hne) in Em2. cbn [negb] in Em2.
  rewrite Efx, Efy, Em in Em2. rewrite Em2, Ec2, S2, Em, S1.
  assert (wf (ClearTile fx fy false (wmap c))) as Hwf1 by by apply wf_ClearTile.
  assert (ValidCoords (ClearTile fx fy false (wmap c)) fx fy = true) as Hv1.
  { by rewrite (same_shape_valid _ _ _ _ (ClearTile_shape fx fy false (wmap c))). }
  rewrite terrain_SetTile_solid, !terrain_ClearTile by done.
  rewrite (decide_True (P := fx = fx /\ fy = fy)) by done. split_and!; try done.
  - case_decide as H; [|done]. by destruct H as [-> ->].
  - unfold SetTileWithCoords. by rewrite Hv1, _SetTile_background, Hs.
Qed.

Definition demo_sand_ahead : Ctx :=
  c_wmap (SetTileWithCoords 1 0 (Block B_sand_white0) 0 (new_WorldMap 3 3)) demo_ctx.

Lemma demo_Inv m : wf m -> Inv (c_wmap m demo_ctx).
Proof.
  intros Hm. split; cbn; try done.
  - apply (new_cargo_wf BotCargoStats).
  - by repeat constructor.
  - by left.
Qed.

Lemma UseGeo_roundtrip_witness :
  let c1 := (UseGeo true demo_sand_ahead).2 in
  let c2 := (UseGeo true c1).2 in
  GetIDByCoord_Terrain (wmap c1) 1 0 = 0 /\
  GetIDByCoord_Terrain (wmap c2) 1 0 = GetIDByCoord_Terrain (wmap demo_sand_ahead) 1 0.
Proof.
  destruct (UseGeo_roundtrip true demo_sand_ahead 1 0) as (E1 & _ & E2 & _); try reflexivity.
  - apply demo_Inv, wf_SetTileWithCoords; [apply Block_byte | by apply wf_Resyze].
  - discriminate.
  - vm_compute. discriminate.
  - split; [exact E1 | exact E2].
Defined.

(** *** Moving *)

(** The rotation after a move, and the cell it aims at. *)
Definition turned (s : Side) (r : Z) : Z :=
  match s with S_u => 0 | S_d => 180 | S_l => 270 | S_r => 90 | S_f => r end.
Definition target (s : Side) (b : Bot) : Vector2d := front (b_rotation (turned s (rotation b)) b).

(** What [Trails] leaves: only the background and the random stream move. *)
Definition trodden (c c' : Ctx) : Prop :=
  same_streams (host c) (host c') /\ nclock (host c') = nclock (host c) /\
  terrain (wmap c') = terrain (wmap c) /\ blocksMeta (wmap c') = blocksMeta (wmap c) /\
  same_shape (wmap c) (wmap c') /\
  ignoreBorders c' = ignoreBorders c /\ bot c' = bot c /\ effects c' = effects c.

Lemma SetTile_ground_layers x y b m :
  solid (stats (Block b)) = false ->
  terrain (SetTileWithCoords x y (Block b) 0 m) = terrain m /\
  blocksMeta (SetTileWithCoords x y (Block b) 0 m) = blocksMeta m.
Proof.
  intros Hs. unfold SetTileWithCoords. case_match; [|done].
  by rewrite _SetTile_terrain, _SetTile_meta, Hs.
Qed.

Lemma Trails_spec c : wp Trails (λ _, trodden c) c.
Proof.
  unfold Trails. wp_run; unfold trodden; cbn; split_and!; try done; try streams;
    try solve [auto with mines];
    first [by apply (SetTile_ground_layers _ _ B_ground1) | by apply (SetTile_ground_layers _ _ B_ground2)
          | reflexivity].
Qed.

(** A case of the switch: turn, then step to the target. *)
Lemma move_case_eq s c :
  move_case s c =
  step_to (vx (target s (bot c))) (vy (target s (bot c)))
    (match s with S_f => c | _ => c_bot (b_rotation (turned s (rotation (bot c))) (bot c)) c end).
Proof.
  destruct s; unfold move_case, bind, gets, on_bot, target, front, bFrontX, bFrontY; cbn;
    rewrite ?Z.add_0_r; done.
Qed.

Definition after_turn (s : Side) (c : Ctx) : Ctx :=
  match s with S_f => c | _ => c_bot (b_rotation (turned s (rotation (bot c))) (bot c)) c end.

Lemma wp_move_case s Q c :
  wp (step_to (vx (target s (bot c))) (vy (target s (bot c)))) Q (after_turn s c) -> wp (move_case s) Q c.
Proof. unfold wp. by rewrite move_case_eq. Qed.

Definition can_enter (c : Ctx) (p : Vector2d) : bool :=
  negb (solid (stats (GetIDByCoord (wmap c) (vx p) (vy p)))) || ignoreBorders c.

(** The step itself. *)
Lemma step_to_goes c x y :
  can_enter c (mkV2 x y) = true ->
  wp (step_to x y) (λ moved c', moved = true /\
    exists c1, trodden c c1 /\ c' = c_bot (b_position (mkV2 x y) (bot c1)) c1) c.
Proof.
  intros H. unfold can_enter in H. cbn in H. unfold step_to. wp_step. wp_step. rewrite H.
  wp_step. eapply wp_mono; [apply Trails_spec|]. cbv beta. intros _ c1 H1. wp_run.
  split; [done|]. by exists c1.
Qed.

Lemma step_to_stays c x y :
  can_enter c (mkV2 x y) = false -> autodigg (mode (bot c)) = false -> step_to x y c = (false, c).
Proof.
  intros H Ha. unfold can_enter in H. cbn in H. unfold step_to, bind, gets. by rewrite H, Ha.
Qed.







(** *** Walls *)

Definition same_place (c c' : Ctx) : Prop := position (bot c') = position (bot c).

Lemma Digg_place u c : wp (Digg u) (λ _, same_place c) c.
Proof. unfold Digg, set_cooldown. wp_run; done. Qed.

(** The new position is the old one, or a cell with nothing solid on it. *)
Definition walks (c c' : Ctx) : Prop :=
  same_place c c' \/
  (ValidCoords (wmap c') (vx (position (bot c'))) (vy (position (bot c'))) = true /\
   GetIDByCoord_Terrain (wmap c') (vx (position (bot c'))) (vy (position (bot c'))) = 0).

Lemma step_to_walks c x y :
  wf (wmap c) -> ignoreBorders c = false ->
  wp (step_to x y) (λ moved c', (moved = false -> same_place c c') /\
    (moved = true -> position (bot c') = mkV2 x y /\ ValidCoords (wmap c') x y = true /\
       GetIDByCoord_Terrain (wmap c') x y = 0)) c.
Proof.
  intros Hwf Hb. destruct (can_enter c (mkV2 x y)) eqn:Hc.
  - eapply wp_mono; [by apply step_to_goes|]. cbv beta.
    intros moved c' (-> & c1 & (_ & _ & T & _ & S & _) & ->). split; [done|]. intros _. cbn.
    unfold can_enter in Hc. rewrite Hb, orb_false_r, negb_true_iff in Hc.
    apply GetID_not_solid in Hc as [Hv H0]; [|done]. cbn in Hv, H0.
    rewrite (same_shape_valid _ _ _ _ S). split; [done|]. split; [done|].
    unfold GetIDByCoord_Terrain. by rewrite (same_shape_valid _ _ _ _ S), (same_shape_idx _ _ _ _ S), T, Hv.
  - unfold can_enter in Hc. cbn in Hc. unfold step_to. wp_step. wp_step. rewrite Hc. wp_step.
    + wp_step. eapply wp_mono; [apply Digg_place|]. cbv beta. intros _ c' Hp. by wp_run.
    + by wp_run.
Qed.

Lemma HasMoved_place c : wp HasMoved (λ _ c', same_place c c' /\ wmap c' = wmap c) c.
Proof. unfold HasMoved. by wp_run. Qed.

Lemma Move_walks s u c :
  wf (wmap c) -> ignoreBorders c = false -> wp (Move s u) (λ _, walks c) c.
Proof.
  intros Hwf Hb. unfold Move, inCooldown. wp_run; try (by left).
  apply wp_move_case. set (c1 := c_host _ c). set (c0 := after_turn s c1).
  assert (wmap c0 = wmap c /\ ignoreBorders c0 = false /\ position (bot c0) = position (bot c))
    as (W0 & B0 & P0) by (by destruct s).
  clearbody c0. rewrite <- W0 in Hwf.
  eapply wp_mono; [by apply step_to_walks|]. cbv beta. intros moved c2 [Hs Hm].
  unfold set_cooldown. wp_run; subst.
  - eapply wp_mono; [apply HasMoved_place|]. cbv beta. intros _ c3 [Hp Ew]. wp_run.
    destruct (Hm eq_refl) as (Ep & Hv & Ht). right. unfold same_place in Hp. cbn in Hp, Ew.
    rewrite Hp, Ew, Ep. done.
  - left. unfold same_place in *. cbn. rewrite <- P0. by apply Hs.
Qed.

(** C7: With borders in force no action walks a bot into a wall: after any call
    other than [Teleport] the bot is where it was, or on a cell of the map with
    no solid block. *)
Theorem never_walks_into_walls a c :
  wf (wmap c) -> ignoreBorders c = false -> (forall x y, a <> Do_Teleport x y) ->
  walks c (run_action a c).2.
Proof.
  intros Hwf Hb Ht. change (wp (run_action a) (λ _, walks c) c).
  destruct a as [s u|s u w|u|u|u|u|u|u|u|x y|]; cbn [run_action].
  - unfold drop_result. wp_step. eapply wp_mono; [by apply Move_walks|]. by intros.
  - unfold Rotate, inCooldown, set_cooldown. destruct s; wp_run; by left.
  - unfold drop_result. wp_step. eapply wp_mono; [apply Digg_place|]. cbv beta. intros. wp_run. by left.
  - unfold SetBlock, tool, inCooldown, set_cooldown. wp_run; by left.
  - unfold SetRoad, tool, inCooldown, set_cooldown. wp_run; by left.
  - unfold SetWB, tool, inCooldown, set_cooldown. wp_run; by left.
  - unfold SetQuadro, tool, inCooldown, set_cooldown. wp_run; by left.
  - unfold UseGeo, tool, inCooldown, set_cooldown. wp_run; try (by left).
    all: destruct (PopGeo _) as [g cargo']; wp_run; destruct g as [g|]; wp_run; by left.
  - unfold Heal, inCooldown, set_cooldown. wp_run; by left.
  - by destruct (Ht x y).
  - unfold CheckBlockUnder. wp_run; by left.
Qed.

Definition demo_wall : Ctx :=
  c_wmap (SetTileWithCoords 1 0 (Block B_block_red) 3 (new_WorldMap 3 3)) demo_ctx.

Lemma never_walks_into_walls_witness :
  walks demo_wall (run_action (Do_Move S_u true) demo_wall).2 /\
  position (bot (run_action (Do_Move S_u true) demo_wall).2) = mkV2 1 1.
Proof.
  split; [|vm_compute; reflexivity].
  apply (never_walks_into_walls (Do_Move S_u true) demo_wall); [|reflexivity|discriminate].
  apply wf_SetTileWithCoords; [apply Block_byte | by apply wf_Resyze].
Defined.
