(* ===== verification/Programmator.v ===== *)
(** * The programmator

    Models [scripts/programmator.js]: the programs the user writes for a bot.
    A program is a grid of cells, [LineLength] to a line; the executor runs
    one cell of each running bot per call.  A handler of [ExecutorList]
    returns true when it has chosen the next cell itself. *)

From S2P Require Import Prelude Host JsNum JsSet Blocks PacksContainer WMap Vec Cargo Machine BotOps.

Definition LineLength : Z := 16.

(** ** Access to the condition *)

Definition getp : X ProgramCondition := lift (gets prog).
Definition getb : X Bot := lift (gets bot).
Definition upd (f : ProgramCondition -> ProgramCondition) : X unit :=
  lift (on_bot (λ b, b_prog (f (programCondition b)) b)).
Definition updb (f : Bot -> Bot) : X unit := lift (on_bot f).

(** A property of [undefined] is read: the engine throws. *)
Definition some_or_throw {A} (o : option A) : X A :=
  match o with Some a => xret a | None => throw TypeError end.

(** [currentStack], and a write to one of its fields. *)
Definition currentStack : X ProgramStack :=
  let! p := getp in some_or_throw (at_index (stack p) (stackDepth p)).
Definition set_frame (d : Z) (s : ProgramStack) (p : ProgramCondition) : ProgramCondition :=
  pc_stack (<[Z.to_nat d := s]> (stack p)) p.
Definition on_currentStack (f : ProgramStack -> ProgramStack) : X unit :=
  let! s := currentStack in upd (λ p, set_frame (stackDepth p) (f s) p).

Definition s_view v s := mkProgramStack v (logicalValue s) (mode_logic s) (returnIndex s).
Definition s_value b s := mkProgramStack (viewOffset s) b (mode_logic s) (returnIndex s).
Definition s_mode m s := mkProgramStack (viewOffset s) (logicalValue s) m (returnIndex s).
Definition s_return i s := mkProgramStack (viewOffset s) (logicalValue s) (mode_logic s) i.

(** [program[index]], and the cell under execution. *)
Definition cell_at (index : Z) : X Cell :=
  let! p := getp in some_or_throw (at_index (program p) index).
Definition currentCell : X Cell := let! p := getp in cell_at (currIndex p).

Definition set_currIndex (i : Z) : X unit := upd (pc_set_currIndex i).

(** The setter of [isHandModeActive] writes the mode of the bot too. *)
Definition set_hand (v : bool) : X unit :=
  updb (λ b, b_mode (m_hand v (mode b)) b) >! upd (pc_hand v).

(** The cell the program looks at, and its block. *)
Definition viewSelectedBlock : X Z :=
  let! s := currentStack in
  lift (gets (λ c, block_at c (vx (viewOffset s)) (vy (viewOffset s)))).

Definition compareWithLogicValue (value : bool) : X unit :=
  on_currentStack (λ s,
    match mode_logic s with
    | L_or => s_value (logicalValue s || value) s
    | L_and => s_value (logicalValue s && value) s
    | L_none => s_value value s
    | L_off => s_value value (s_mode L_none s)
    end).

(** [Reset()]. *)
Definition Reset : X unit :=
  let! p := getp in
  let! s0 := some_or_throw (at_index (stack p) 0) in
  upd (λ p, set_frame 0 (ProgramStack_reset s0) p) >!
  upd (pc_vars ∅) >!
  upd (pc_stackDepth 0) >!
  set_currIndex 0 >!
  upd (pc_flip false) >!
  upd (pc_rotate_cache None) >!
  let! t := lift now in
  upd (pc_timeStart (wrap32 (Qtrunc t))) >!
  set_hand false.

(** ** Variables *)

Definition Readonly_ComandList : list string :=
  ["AUT"; "AGR"; "HND"; "DBG"; "STK"; "DIR"; "X"; "Y"; "CEL"; "HP"; "HPP"; "TIM"; "G"; "GP"; "C"; "CP";
   "R"; "RP"; "B"; "BP"; "V"; "VP"; "W"; "WP"; "GEO"; "GEP"; "LOA"; "RND"; "FLP"; "BOO"; "IDR";
   "AX"; "AY"; "DX"; "DY"]%string.
Definition PComands_ComandList : list string :=
  ["SET"; "ADD"; "MUL"; "DIV"; "SUB"; "AD2"; "MU2"; "DI2"; "SU2"; "MOD"]%string.

Definition is_readonly (k : Key) : bool :=
  match k with KStr s => bool_decide (s ∈ Readonly_ComandList) | KNum _ => false end.
Definition is_command (k : Key) : bool :=
  match k with KStr s => bool_decide (s ∈ PComands_ComandList) | KNum _ => false end.

(** [data ? ... : ...] on a name. *)
Definition key_truthy (k : option Key) : bool :=
  match k with
  | Some (KStr s) => negb (String.eqb s "")
  | Some (KNum z) => negb (z =? 0)
  | None => false
  end.

Definition isVariable (k : option Key) : bool :=
  key_truthy k && match k with Some k => is_readonly k || negb (is_command k) | None => false end.
Definition isWriteble (k : option Key) : bool :=
  key_truthy k && match k with Some k => negb (is_readonly k) && negb (is_command k) | None => false end.

(** What reading a property of [readonlyVariables] gives: a number, an object
    (the [botOwner] field, or an inherited member), or [undefined]. *)
Inductive Prop_value := P_num (n : num) | P_obj | P_undefined.

(** The members an object inherits from [Object.prototype]. *)
Definition inherited : list string :=
  ["constructor"; "toString"; "toLocaleString"; "valueOf"; "hasOwnProperty"; "isPrototypeOf";
   "propertyIsEnumerable"; "__proto__"; "__defineGetter__"; "__defineSetter__";
   "__lookupGetter__"; "__lookupSetter__"]%string.

Definition Z_of_bool (b : bool) : Z := if b then 1 else 0.
Definition xint (z : Z) : X Prop_value := xret (P_num (num_of_Z z)).

(** [~~(GetVolume(key) * 100)] *)
Definition percent (c : BotCargo) (k : option CryKey) : Z :=
  to_int32 (num_mul (GetVolume c k) (num_of_Z 100)).

(** The getters of [ReadonlyVariables]. *)
Definition readonly_get (name : string) : X Prop_value :=
  let! b := getb in
  let! p := getp in
  let cry k := xint (cry_get (Cargo.cry (cargo b)) k) in
  let pct k := xint (percent (cargo b) k) in
  if String.eqb name "AUT" then xint (Z_of_bool (autodigg (mode b)))
  else if String.eqb name "AGR" then xint (Z_of_bool (agr (mode b)))
  else if String.eqb name "HND" then xint (Z_of_bool (hand (mode b)))
  else if String.eqb name "DBG" then xint (Z_of_bool (debug (mode b)))
  else if String.eqb name "STK" then xint (stackDepth p)
  else if String.eqb name "DIR" then
    let dir := rotationIndex b in xint (if dir =? 1 then 3 else if dir =? 3 then 1 else dir)
  else if String.eqb name "X" then xint (vx (position b))
  else if String.eqb name "Y" then xint (vy (position b))
  else if String.eqb name "CEL" then let! v := viewSelectedBlock in xint v
  else if String.eqb name "HP" then xint (hpNow (bot_stats b))
  else if String.eqb name "HPP" then
    xint (to_int32 (num_div (num_of_Z (hpNow (bot_stats b))) (num_of_Z (hpMax (bot_stats b)))) * 100)
  else if String.eqb name "TIM" then
    let! t := lift now in xint (wrap32 (Qtrunc ((t - inject_Z (timeStart p)) / 1000)%Q))
  else if String.eqb name "G" then cry K_g else if String.eqb name "GP" then pct (Some K_g)
  else if String.eqb name "C" then cry K_c else if String.eqb name "CP" then pct (Some K_c)
  else if String.eqb name "R" then cry K_r else if String.eqb name "RP" then pct (Some K_r)
  else if String.eqb name "B" then cry K_b else if String.eqb name "BP" then pct (Some K_b)
  else if String.eqb name "V" then cry K_v else if String.eqb name "VP" then pct (Some K_v)
  else if String.eqb name "W" then cry K_w else if String.eqb name "WP" then pct (Some K_w)
  else if String.eqb name "GEO" then xint (geoFilledValue (cargo b))
  else if String.eqb name "GEP" then xint (wrap32 (geoFilledPersent (cargo b)))
  else if String.eqb name "LOA" then pct None
  else if String.eqb name "RND" then let! r := lift (rand 0 999) in xint r
  else if String.eqb name "FLP" then xint (Z_of_bool (mode_flip p))
  else if String.eqb name "BOO" then
    let! s := currentStack in
    let logic := LogicMode_value (mode_logic s) in xint (if logic <=? 0 then 0 else logic)
  else if String.eqb name "AX" then let! s := currentStack in xint (Z.abs (vx (viewOffset s)))
  else if String.eqb name "AY" then let! s := currentStack in xint (Z.abs (vy (viewOffset s)))
  else if String.eqb name "DX" then let! s := currentStack in xint (100 + vx (viewOffset s))
  else if String.eqb name "DY" then let! s := currentStack in xint (100 + vy (viewOffset s))
  else if String.eqb name "botOwner" || bool_decide (name ∈ inherited) then xret P_obj
  else xret P_undefined.

(** [readonlyVariables[key]] *)
Definition readonly_prop (k : Key) : X Prop_value :=
  match k with KStr s => readonly_get s | KNum _ => xret P_undefined end.

(** [GetValueOfVariable(varname)] *)
Definition GetValueOfVariable (k : Key) : X Val :=
  if is_readonly k then
    let! v := readonly_prop k in
    xret (match v with P_num n => Some n | _ => None end)
  else
    let! p := getp in
    xret (match uservariables p !! k with Some v => v | None => None end).

(** [SetValueToVariable(varname, value)]: only an existing variable. *)
Definition SetValueToVariable (k : Key) (v : Val) : X bool :=
  let! p := getp in
  match uservariables p !! k with
  | Some _ => upd (λ p, pc_vars (<[k := v]> (uservariables p)) p) >! xret true
  | None => xret false
  end.

(** An operand of an arithmetic operator: [undefined] counts as NaN. *)
Definition to_num (v : Val) : num := match v with Some n => n | None => S754_nan end.
Definition num_int (z : Z) : num := num_of_Z z.

(** [~~(a / (b ? b : 1))] *)
Definition div_op (a b : num) : num :=
  num_int (to_int32 (num_div a (if num_truthy b then b else num_of_Z 1))).

(** The commands of [PComands] that combine the younger variable with the
    cell's number. *)
Definition command1 (op : Val -> Val -> Val) (d1 : Val) : X unit :=
  let! p := getp in
  let y := Younger (lastVariables p) in
  match y with
  | Some k =>
      if isWriteble y then
        let! a := GetValueOfVariable k in
        let! _ := SetValueToVariable k (op a d1) in xret tt
      else xret tt
  | None => xret tt
  end.

(** The commands that combine the older variable with the younger one. *)
Definition command2 (op : num -> num -> num) : X unit :=
  let! p := getp in
  let y := Younger (lastVariables p) in
  let o := Older (lastVariables p) in
  match y, o with
  | Some ky, Some ko =>
      if isVariable y && isWriteble o then
        let! s1 := GetValueOfVariable ky in
        let! s2 := GetValueOfVariable ko in
        let! _ := SetValueToVariable ko (Some (op (to_num s2) (to_num s1))) in xret tt
      else xret tt
  | _, _ => xret tt
  end.

Definition arith (op : num -> num -> num) (a b : Val) : Val := Some (op (to_num a) (to_num b)).

Definition PComands (name : string) (d1 : Val) : X unit :=
  if String.eqb name "SET" then command1 (λ _ v, v) d1
  else if String.eqb name "ADD" then command1 (arith num_add) d1
  else if String.eqb name "MUL" then command1 (arith num_mul) d1
  else if String.eqb name "DIV" then command1 (arith div_op) d1
  else if String.eqb name "SUB" then command1 (arith num_sub) d1
  else if String.eqb name "MOD" then command1 (arith num_rem) d1
  else if String.eqb name "AD2" then command2 num_add
  else if String.eqb name "MU2" then command2 num_mul
  else if String.eqb name "DI2" then command2 div_op
  else if String.eqb name "SU2" then command2 num_sub
  else xret tt.

(** [result == v], [result > v], [result < v]; an object and [undefined] are
    neither equal to a number nor comparable with one. *)
Definition val_eqb (r : num) (v : Val) : bool := match v with Some n => num_eqb r n | None => false end.
Definition val_gtb (r : num) (v : Val) : bool := match v with Some n => num_ltb n r | None => false end.
Definition val_ltb (r : num) (v : Val) : bool := match v with Some n => num_ltb r n | None => false end.

Definition remember (k : Key) : X unit :=
  upd (λ p, pc_last (VarCacher_Set (Some k) (lastVariables p)) p).

Definition VAR_EQUAL : X bool :=
  let! d := currentCell in
  match data0 d with
  | Some k =>
      if key_truthy (Some k) then
        let! result := readonly_prop k in
        match result with
        | P_num n => compareWithLogicValue (val_eqb n (data1 d)) >! remember k >! xret false
        | P_obj => compareWithLogicValue false >! remember k >! xret false
        | P_undefined =>
            if is_command k then
              PComands (match k with KStr s => s | KNum _ => ""%string end) (data1 d) >! xret false
            else
              let! p := getp in
              match uservariables p !! k with
              | Some (Some n) => compareWithLogicValue (val_eqb n (data1 d))
              | _ => upd (λ p, pc_vars (<[k := data1 d]> (uservariables p)) p)
              end >! remember k >! xret false
        end
      else xret false
  | None => xret false
  end.

(** The common body of [VAR_MORE] and [VAR_LESS]. *)
Definition var_compare (cmp : num -> Val -> bool) : X bool :=
  let! d := currentCell in
  match data0 d with
  | Some k =>
      if key_truthy (Some k) then
        let! result := readonly_prop k in
        match result with
        | P_num n => compareWithLogicValue (cmp n (data1 d))
        | P_obj => compareWithLogicValue false
        | P_undefined =>
            let! p := getp in
            compareWithLogicValue
              (match uservariables p !! k with Some (Some n) => cmp n (data1 d) | _ => false end)
        end >! remember k >! xret false
      else xret false
  | None => xret false
  end.

Definition VAR_MORE : X bool := var_compare val_gtb.
Definition VAR_LESS : X bool := var_compare val_ltb.

(** ** Control flow *)

(** [data[0] >= 0 ? data[0] : startIndex].  A name that starts with a letter
    converts to NaN, so it leads to the start; a name that may convert to a
    number becomes the index itself ([None]); following such an index is
    outside the model ([StringIndex]). *)
Definition plain_name (s : string) : bool :=
  match s with
  | String a _ =>
      let n := Z.of_N (Ascii.N_of_ascii a) in
      ((65 <=? n) && (n <=? 90) && negb (n =? 73)) || ((97 <=? n) && (n <=? 122))
  | EmptyString => false
  end.

Definition jump_target (d : Cell) : X (option Z) :=
  let! p := getp in
  xret (match data0 d with
        | None => Some (startIndex p)
        | Some (KNum z) => Some (if 0 <=? z then z else startIndex p)
        | Some (KStr s) => if plain_name s then Some (startIndex p) else None
        end).

Definition follow (toindex : option Z) : X unit :=
  match toindex with Some i => set_currIndex i | None => throw StringIndex end.

(** The jump at the end of the call and goto handlers. *)
Definition jump : X bool :=
  let! d := currentCell in
  let! toindex := jump_target d in
  follow toindex >! xret true.

(** Enter a new stack level: a fresh frame, or the old one reset. *)
Definition push_frame : X unit :=
  upd (λ p, pc_stackDepth (stackDepth p + 1) p) >!
  let! p := getp in
  (match at_index (stack p) (stackDepth p) with
   | None => upd (λ p, pc_stack (stack p ++ [new_ProgramStack]) p)
   | Some s => upd (set_frame (stackDepth p) (ProgramStack_reset s))
   end).

Definition remember_return : X unit :=
  let! p := getp in on_currentStack (s_return (currIndex p)).

(** The frame below the current one. *)
Definition prevStack : X ProgramStack :=
  let! p := getp in some_or_throw (at_index (stack p) (stackDepth p - 1)).

Definition GO_SUB : X bool := push_frame >! remember_return >! jump.

Definition GO_STATE : X bool :=
  push_frame >!
  let! prev := prevStack in
  remember_return >!
  on_currentStack (s_value (logicalValue prev)) >!
  on_currentStack (s_mode (mode_logic prev)) >!
  on_currentStack (s_view (viewOffset prev)) >!
  jump.

Definition GO_FUNC : X bool :=
  push_frame >!
  let! prev := prevStack in
  remember_return >!
  (if 0 <=? LogicMode_value (mode_logic prev) then
     on_currentStack (s_value (logicalValue prev)) >! on_currentStack (s_mode L_none)
   else xret tt) >!
  on_currentStack (s_view (viewOffset prev)) >!
  jump.

(** [GO_TO]: the jump, then the logic and the view of the frame are reset. *)
Definition GO_TO : X bool :=
  let! d := currentCell in
  let! toindex := jump_target d in
  follow toindex >!
  on_currentStack (s_mode L_off) >!
  on_currentStack (s_view (mkV2 0 0)) >!
  xret true.

Definition IF_TRUE : X bool :=
  let! d := currentCell in
  let! toindex := jump_target d in
  let! s := currentStack in
  if negb (logicalValue s) || bool_decide (mode_logic s = L_off) then
    follow toindex >! on_currentStack (s_mode L_off) >! xret true
  else on_currentStack (s_mode L_off) >! xret false.

Definition IF_FALSE : X bool :=
  let! d := currentCell in
  let! toindex := jump_target d in
  let! s := currentStack in
  if logicalValue s && negb (bool_decide (mode_logic s = L_off)) then
    follow toindex >! on_currentStack (s_mode L_off) >! xret true
  else on_currentStack (s_mode L_off) >! xret false.

(** The frame of the three returns: go back to the cell of the call; the
    executor then steps to the one after it. *)
Definition returning (after : ProgramStack -> X unit) : X bool :=
  let! p := getp in
  if 0 <? stackDepth p then
    let! old := currentStack in
    set_currIndex (returnIndex old) >!
    upd (λ p, pc_stackDepth (stackDepth p - 1) p) >!
    after old >! xret false
  else xret false.

Definition RETURN : X bool :=
  returning (λ _, on_currentStack (s_mode L_off) >! on_currentStack (s_view (mkV2 0 0))).

Definition RETURN_FUNK : X bool :=
  returning (λ old,
    if bool_decide (mode_logic old = L_off) then xret tt
    else on_currentStack (s_mode L_none) >! on_currentStack (s_value (logicalValue old))).

Definition RETURN_STATE : X bool :=
  returning (λ old,
    on_currentStack (s_mode (mode_logic old)) >! on_currentStack (s_value (logicalValue old)) >!
    on_currentStack (s_view (viewOffset old))).

(** The empty cell: skip to the next cell of the line that is not empty; at
    the end of the line or of the program go to the start.  A line has
    [LineLength] cells, so that much fuel is enough. *)
Fixpoint empty_scan (fuel : nat) (index : Z) : X bool :=
  match fuel with
  | O => throw RangeError
  | S fuel =>
      let! d := cell_at index in
      if cell_id d =? 0 then
        if Z.rem index LineLength =? LineLength - 1 then
          upd (λ p, pc_indices (startIndex p) (startIndex p) p) >! xret true
        else
          let! p := getp in
          if Z.of_nat (length (program p)) <=? index + 1 then
            set_currIndex (startIndex p) >! xret true
          else empty_scan fuel (index + 1)
      else upd (pc_indices index index) >! xret true
  end.

Definition empty_cell : X bool := let! p := getp in empty_scan 16 (currIndex p).

Definition new_line : X bool :=
  let! p := getp in set_currIndex ((currIndex p / LineLength + 1) * LineLength) >! xret true.

Definition start : X bool :=
  let! t := lift now in
  upd (pc_timeStart (wrap32 (Qtrunc t))) >!
  upd (λ p, pc_startIndex (currIndex p) p) >! xret false.

Definition stop : X bool := upd (pc_isExecute false) >! Reset >! xret false.

(** ** Looking around *)

Definition view_set (f : Z -> Vector2d) : X bool :=
  let! p := getp in on_currentStack (s_view (f (flipValue p))) >! xret false.
Definition view_add (f : Z -> Vector2d) : X bool :=
  let! p := getp in
  on_currentStack (λ s, s_view (V2_Addv2 (f (flipValue p)) (viewOffset s)) s) >! xret false.

(** The offsets of the four directions, clockwise from up. *)
Definition dir_offset (i : Z) : option Vector2d :=
  match i with
  | 0 => Some (mkV2 0 (-1)) | 1 => Some (mkV2 1 0) | 2 => Some (mkV2 0 1) | 3 => Some (mkV2 (-1) 0)
  | _ => None
  end.

(** Look relative to the rotation of the bot: [k] quarters clockwise. *)
Definition view_turn (add : bool) (k : Z) : X bool :=
  let! b := getb in
  match dir_offset (rotationIndex b) with
  | Some _ =>
      match dir_offset ((rotationIndex b + k) mod 4) with
      | Some v => if add then view_add (λ _, v) else view_set (λ _, v)
      | None => xret false
      end
  | None => xret false
  end.

Definition look_reset : X unit := on_currentStack (s_view (mkV2 0 0)).

(** A test of the block the program looks at. *)
Definition is_op (f : Z -> bool) : X bool :=
  let! v := viewSelectedBlock in compareWithLogicValue (f v) >! xret false.

(** ** Acting *)

(** [if (inCooldown) return true; act(); return;] *)
Definition when_rested (act : X unit) : X bool :=
  let! busy := lift inCooldown in
  if busy then xret true else act >! xret false.

Definition do_move (s : Side) : X unit := lift (drop_result (Move s false)) >! look_reset.
Definition do_rotate (s : Side) : X unit := lift (Rotate s false true) >! look_reset.

(** A side that the flip mode mirrors. *)
Definition flipped (s s' : Side) (k : Side -> X unit) : X unit :=
  let! p := getp in if mode_flip p then k s' else k s.

(** [Rotate(n)] with a number: one that is no side matches no case. *)
Definition rotate_num (n : Z) : X unit := lift (Rotate (default S_f (Side_of_Z n)) false true).
Definition rotate_by (k k' : Z) : X unit :=
  let! p := getp in
  let! b := getb in
  rotate_num (Z.rem (rotationIndex b + (if mode_flip p then k' else k)) 4).

Definition MACROS_DIGG : X bool :=
  let! busy := lift inCooldown in
  if busy then xret true
  else
    let! block := lift (gets BlockAhead) in
    if solid (stats block) && (0 <=? hardness (stats block)) then
      lift (drop_result (Digg false)) >! xret true
    else lift (set_cooldown CD_macros) >! xret false.

Definition MACROS_BLOCK : X bool :=
  let! busy := lift inCooldown in
  if busy then xret true
  else
    let! block := lift (gets BlockAhead) in
    if (0 <=? hardness (stats block)) || replesable (stats block) then
      if replesable (stats block) || (block =? Block B_block_green) || (block =? Block B_block_yellow) then
        lift (SetBlock false) >!
        let! after := lift (gets BlockAhead) in
        if after =? Block B_block_red then lift (set_cooldown CD_macros) >! xret false
        else xret true
      else lift (drop_result (Digg false)) >! xret true
    else lift (set_cooldown CD_macros) >! xret false.

Definition MACROS_HEAL : X bool :=
  let! busy := lift inCooldown in
  if busy then xret true
  else
    let! b := getb in
    if hpNow (bot_stats b) <? hpMax (bot_stats b) then lift (Heal false) >! xret true
    else lift (set_cooldown CD_macros) >! xret false.

(** [BlockStats[undefined].is_cry] throws. *)
Definition is_cry_of (o : option Z) : X bool :=
  let! b := some_or_throw o in xret (is_cry (stats b)).

Definition MACROS_DIGG_AROUND : X bool :=
  let! busy := lift inCooldown in
  if busy then xret true
  else
    let! b := getb in
    upd (λ p, match MACROS_rotate_cache p with
              | None => pc_rotate_cache (Some (rotationIndex b)) p
              | Some _ => p
              end) >!
    let! p := getp in
    updb (set_rotationIndex (default 0 (MACROS_rotate_cache p))) >!
    let! l := lift (gets BlockLeft) in
    let! left_cry := is_cry_of l in
    if left_cry then
      updb (λ b, set_rotationIndex (rotationIndex b + 3) b) >!
      lift (drop_result (Digg false)) >! xret true
    else
      let! r := lift (gets BlockRight) in
      let! right_cry := is_cry_of r in
      if right_cry then
        updb (λ b, set_rotationIndex (rotationIndex b + 1) b) >!
        lift (drop_result (Digg false)) >! xret true
      else
        let! a := lift (gets BlockAhead) in
        if is_cry (stats a) then lift (drop_result (Digg false)) >! xret true
        else
          upd (pc_rotate_cache None) >!
          lift (set_cooldown CD_macros) >! xret false.

(** ** The handlers, in the order of their codes *)

Definition skip : X bool := xret false.
Definition mode_op (f : BotMode -> BotMode) : X bool := updb (λ b, b_mode (f (mode b)) b) >! xret false.

(** The table by parts. *)
Definition handlers_0_15 : list (X bool) :=
  [ (* 0 empty *) empty_cell;
    (* 1 new_line *) new_line;
    (* 2 mark *) skip;
    (* 3 GO_SUB *) GO_SUB;
    (* 4 look_WA *) view_set (λ f, mkV2 (- f) (-1));
    (* 5 look_W *) view_set (λ _, mkV2 0 (-1));
    (* 6 look_DW *) view_set (λ f, mkV2 f (-1));
    (* 7 look_A *) view_set (λ f, mkV2 (- f) 0);
    (* 8 *) skip;
    (* 9 look_D *) view_set (λ f, mkV2 f 0);
    (* 10 look_AS *) view_set (λ f, mkV2 (- f) 1);
    (* 11 look_S *) view_set (λ _, mkV2 0 1);
    (* 12 look_l *) view_turn true 3;
    (* 13 look_r *) view_turn true 1;
    (* 14 start *) start;
    (* 15 stop *) stop ].

Definition handlers_16_26 : list (X bool) :=
  [ (* 16 GO_STATE *) GO_STATE;
    (* 17 GO_FUNC *) GO_FUNC;
    (* 18 look_SD *) view_set (λ f, mkV2 f 1);
    (* 19 look_w *) view_add (λ _, mkV2 0 (-1));
    (* 20 look_a *) view_add (λ f, mkV2 (- f) 0);
    (* 21 look_s *) view_add (λ _, mkV2 0 1);
    (* 22 look_d *) view_add (λ f, mkV2 f 0);
    (* 23 look_F *) view_turn false 0;
    (* 24 look_f *) view_turn true 0;
    (* 25 look_L *) view_turn false 3;
    (* 26 look_R *) view_turn false 1 ].

Definition handlers_27_39 : list (X bool) :=
  [ (* 27 GO_TO *) GO_TO;
    (* 28 DBG_MSG *) skip;
    (* 29 DBG_PAUSE *) skip;
    (* 30 HAND_MODE_ON *) set_hand true >! xret false;
    (* 31 HAND_MODE_OFF *) set_hand false >! xret false;
    (* 32 IF_RESP *) skip;
    (* 33 IF_TRUE *) IF_TRUE;
    (* 34 IF_FALSE *) IF_FALSE;
    (* 35 MACROS_GUN *) skip;
    (* 36 MACROS_DIGG *) MACROS_DIGG;
    (* 37 MACROS_BLOCK *) MACROS_BLOCK;
    (* 38 MACROS_HEAL *) MACROS_HEAL;
    (* 39 MACROS_DIGG_AROUND *) MACROS_DIGG_AROUND ].

Definition handlers_40_61 : list (X bool) :=
  [ (* 40 OR *) on_currentStack (s_mode L_or) >! xret false;
    (* 41 AND *) on_currentStack (s_mode L_and) >! xret false;
    (* 42 FLIP *) upd (λ p, pc_flip (negb (mode_flip p)) p) >! xret false;
    (* 43 AUTODIGG_ON *) mode_op (m_autodigg true);
    (* 44 AUTODIGG_OF *) mode_op (m_autodigg false);
    (* 45 RETURN *) RETURN;
    (* 46 RETURN_FUNK *) RETURN_FUNK;
    (* 47 RETURN_STATE *) RETURN_STATE;
    (* 48 VAR_EQUAL *) VAR_EQUAL;
    (* 49 VAR_MORE *) VAR_MORE;
    (* 50 VAR_LESS *) VAR_LESS;
    (* 51 ONLINE_BOOM *) skip;
    (* 52 *) skip;
    (* 53 *) skip;
    (* 54 *) skip;
    (* 55 *) skip;
    (* 56 *) skip;
    (* 57 *) skip;
    (* 58 *) skip;
    (* 59 *) skip;
    (* 60 *) skip;
    (* 61 ONLINE_REM *) skip ].

Definition handlers_62_86 : list (X bool) :=
  [ (* 62 move_W *) when_rested (do_move S_u);
    (* 63 move_A *) when_rested (flipped S_l S_r do_move);
    (* 64 move_S *) when_rested (do_move S_d);
    (* 65 move_D *) when_rested (flipped S_r S_l do_move);
    (* 66 digg *) when_rested (lift (drop_result (Digg false)));
    (* 67 rotate_w *) when_rested (do_rotate S_u);
    (* 68 rotate_a *) when_rested (flipped S_l S_r do_rotate);
    (* 69 rotate_s *) when_rested (do_rotate S_d);
    (* 70 rotate_d *) when_rested (flipped S_r S_l do_rotate);
    (* 71 *) skip;
    (* 72 move_F *) when_rested (do_move S_f);
    (* 73 rotate_CCW *) when_rested (rotate_by 3 1);
    (* 74 rotate_CW *) when_rested (rotate_by 1 3);
    (* 75 set_block *) when_rested (lift (SetBlock false));
    (* 76 set_geo *) when_rested (lift (UseGeo false));
    (* 77 beep *) skip;
    (* 78 set_WB *) when_rested (lift (SetWB false));
    (* 79 set_road *) when_rested (lift (SetRoad false));
    (* 80 heal *) when_rested (lift (Heal false));
    (* 81 set_quadro *) when_rested (lift (SetQuadro false));
    (* 82 rotate_random *) when_rested (let! r := lift (rand 0 3) in rotate_num r);
    (* 83 INVENTORY_w *) skip;
    (* 84 INVENTORY_a *) skip;
    (* 85 INVENTORY_s *) skip;
    (* 86 INVENTORY_d *) skip ].

Definition handlers_87_110 : list (X bool) :=
  [ (* 87 is_no_empty *) is_op (λ b, solid (stats b));
    (* 88 is_empty *) is_op (λ b, negb (solid (stats b)));
    (* 89 is_falls *) is_op (λ b, bool_decide (is_Some (falltype (stats b))));
    (* 90 is_crys *) is_op (λ b, is_cry (stats b));
    (* 91 is_alive *) is_op (λ b, is_alive (stats b));
    (* 92 is_bolder *) is_op (λ b, match falltype (stats b) with Some bolder => true | _ => false end);
    (* 93 is_sand *) is_op (λ b, match falltype (stats b) with Some sand => true | _ => false end);
    (* 94 is_diggable *) is_op (λ b, diggablerock (stats b));
    (* 95 is_non_diggable *) is_op (λ b, solid (stats b) && (hardness (stats b) <? 0));
    (* 96 is_red_rock *) is_op (λ b, b =? Block B_rock_red);
    (* 97 is_black_rock *) is_op (λ b, b =? Block B_rock_black);
    (* 98 is_slime *) is_op (λ b, is_slime (stats b));
    (* 99 is_box *) is_op (λ b, b =? Block B_box);
    (* 100 is_quadro *) is_op (λ b, b =? Block B_block_quadro);
    (* 101 is_road *) is_op (λ b, b =? Block B_road);
    (* 102 is_red_block *) is_op (λ b, b =? Block B_block_red);
    (* 103 is_yellow_block *) is_op (λ b, b =? Block B_block_yellow);
    (* 104 is_green_block *) is_op (λ b, b =? Block B_block_green);
    (* 105 is_support_block *) is_op (λ b, b =? Block B_block_support);
    (* 106 is_in_gun *) compareWithLogicValue false >! xret false;
    (* 107 AGR_ON *) mode_op (m_agr true);
    (* 108 AGR_OFF *) mode_op (m_agr false);
    (* 109 HP_half *) (let! b := getb in
         compareWithLogicValue (2 * hpNow (bot_stats b) <? hpMax (bot_stats b)) >! xret false);
    (* 110 HP_less100 *) (let! b := getb in
         compareWithLogicValue (hpNow (bot_stats b) <? hpMax (bot_stats b)) >! xret false) ].

Definition ExecutorList : list (X bool) := Eval cbv [app handlers_0_15 handlers_16_26 handlers_27_39 handlers_40_61 handlers_62_86 handlers_87_110] in
  handlers_0_15 ++ handlers_16_26 ++ handlers_27_39 ++ handlers_40_61 ++ handlers_62_86 ++ handlers_87_110.

(** [IsOperationFast]: the codes that take no game time. *)
Definition slow_ranges : list (Z * Z) :=
  [(28, 29); (35, 39); (51, 70); (72, 86); (106, 106)].
Definition IsOperationFast (code : Z) : bool :=
  negb (existsb (λ '(a, b), (a <=? code) && (code <=? b)) slow_ranges).

(** ** One call of the executor for one bot *)

Definition advance : X unit :=
  let! p := getp in
  if Z.rem (currIndex p) LineLength =? LineLength - 1
  then set_currIndex (currIndex p - (LineLength - 1))
  else set_currIndex (currIndex p + 1).

Definition Execute_bot : X unit :=
  let! p := getp in
  if isExecute p then
    let! d := cell_at (currIndex p) in
    let! handler := some_or_throw (at_index ExecutorList (cell_id d)) in
    let! noIterateIndex := handler in
    if noIterateIndex then xret tt else advance
  else xret tt.
