(* ===== verification/ProgFacts.v ===== *)
(** * What the programmator guarantees *)

From Stdlib Require Import Lqa.
From S2P Require Import Prelude Host JsNum JsSet Blocks PacksContainer WMap Vec Cargo Machine BotOps BotFacts Programmator.

(** ** Decomposition of the handlers *)

Section decompose.
Context (R : relation Ctx) `{!PreOrder R}.
Context (R_upd : forall f c, R c (c_bot (b_prog (f (programCondition (bot c))) (bot c)) c)).
Context (R_mode : forall f c, R c (c_bot (b_mode (f (mode (bot c))) (bot c)) c)).
Context (R_host : forall h c, same_streams (host c) h -> R c (c_host h c)).

Lemma xk_upd f : XKeeps R (upd f).
Proof using R_upd. intros c. apply R_upd. Qed.

Lemma xk_mode (f : BotMode -> BotMode) : XKeeps R (updb (λ b, b_mode (f (mode b)) b)).
Proof using R_mode. intros c. apply R_mode. Qed.

Lemma xk_now : XKeeps R (lift now).
Proof using R_host. intros c. apply R_host, performance_now_streams. Qed.

Lemma xk_rand lo hi : XKeeps R (lift (rand lo hi)).
Proof using R_host. intros c. apply R_host. unfold same_streams. cbn. auto. Qed.

Lemma xk_getp : XKeeps R getp.
Proof. intros c. reflexivity. Qed.
Lemma xk_getb : XKeeps R getb.
Proof. intros c. reflexivity. Qed.
Lemma xk_some {A} (o : option A) : XKeeps R (some_or_throw o).
Proof. destruct o; intros c; reflexivity. Qed.

#[local] Hint Resolve xk_upd xk_mode xk_now xk_rand xk_getp xk_getb xk_some : xkeeps.
Ltac xk := auto 30 with xkeeps.

Lemma xk_currentStack : XKeeps R currentStack.
Proof using All. unfold currentStack. xk. Qed.
#[local] Hint Resolve xk_currentStack : xkeeps.
Lemma xk_on_currentStack f : XKeeps R (on_currentStack f).
Proof using All. unfold on_currentStack. xk. Qed.
Lemma xk_cell_at i : XKeeps R (cell_at i).
Proof using All. unfold cell_at. xk. Qed.
Lemma xk_set_currIndex i : XKeeps R (set_currIndex i).
Proof using All. unfold set_currIndex. xk. Qed.
#[local] Hint Resolve xk_on_currentStack xk_cell_at xk_set_currIndex : xkeeps.
Lemma xk_currentCell : XKeeps R currentCell.
Proof using All. unfold currentCell. xk. Qed.
Lemma xk_set_hand v : XKeeps R (set_hand v).
Proof using All.
  unfold set_hand. apply XKeeps_bind; [done | apply (xk_mode (m_hand v)) | xk].
Qed.
Lemma xk_view : XKeeps R viewSelectedBlock.
Proof using All. unfold viewSelectedBlock. xk. Qed.
Lemma xk_compare v : XKeeps R (compareWithLogicValue v).
Proof using All. unfold compareWithLogicValue. xk. Qed.
#[local] Hint Resolve xk_currentCell xk_set_hand xk_view xk_compare : xkeeps.
Lemma xk_Reset : XKeeps R Reset.
Proof using All. unfold Reset. xk. Qed.
Lemma xk_xint z : XKeeps R (xint z).
Proof using All. unfold xint. xk. Qed.
#[local] Hint Resolve xk_Reset xk_xint : xkeeps.
Lemma xk_readonly_get s : XKeeps R (readonly_get s).
Proof using All.
  unfold readonly_get. apply XKeeps_bind; [done | xk | intros b]. apply XKeeps_bind; [done | xk | intros p].
  repeat (apply XKeeps_if; [xk|]); xk.
Qed.
#[local] Hint Resolve xk_readonly_get : xkeeps.
Lemma xk_readonly_prop k : XKeeps R (readonly_prop k).
Proof using All. destruct k; cbn; xk. Qed.
#[local] Hint Resolve xk_readonly_prop : xkeeps.
Lemma xk_GetValue k : XKeeps R (GetValueOfVariable k).
Proof using All. unfold GetValueOfVariable. xk. Qed.
Lemma xk_SetValue k v : XKeeps R (SetValueToVariable k v).
Proof using All. unfold SetValueToVariable. xk. Qed.
#[local] Hint Resolve xk_GetValue xk_SetValue : xkeeps.
Lemma xk_command1 op d : XKeeps R (command1 op d).
Proof using All. unfold command1. xk. Qed.
Lemma xk_command2 op : XKeeps R (command2 op).
Proof using All. unfold command2. xk. Qed.
#[local] Hint Resolve xk_command1 xk_command2 : xkeeps.
Lemma xk_PComands s d : XKeeps R (PComands s d).
Proof using All. unfold PComands. repeat (apply XKeeps_if; [xk|]); xk. Qed.
Lemma xk_remember k : XKeeps R (remember k).
Proof using All. unfold remember. xk. Qed.
#[local] Hint Resolve xk_PComands xk_remember : xkeeps.
Lemma xk_VAR_EQUAL : XKeeps R VAR_EQUAL.
Proof using All.
  unfold VAR_EQUAL. apply XKeeps_bind; [done | xk | intros d].
  destruct (data0 d) as [k|]; [|xk]. apply XKeeps_if; [|xk].
  apply XKeeps_bind; [done | xk | intros [n| |]]; [xk..|].
  apply XKeeps_if; [xk|]. apply XKeeps_bind; [done | xk | intros p].
  destruct (uservariables p !! k) as [[n|]|]; xk.
Qed.
Lemma xk_var_compare cmp : XKeeps R (var_compare cmp).
Proof using All.
  unfold var_compare. apply XKeeps_bind; [done | xk | intros d].
  destruct (data0 d) as [k|]; [|xk]. apply XKeeps_if; [|xk].
  apply XKeeps_bind; [done | xk | intros [n| |]]; xk.
Qed.
#[local] Hint Resolve xk_VAR_EQUAL xk_var_compare : xkeeps.
Lemma xk_jump_target d : XKeeps R (jump_target d).
Proof using All. unfold jump_target. xk. Qed.
Lemma xk_follow i : XKeeps R (follow i).
Proof using All. unfold follow. xk. Qed.
#[local] Hint Resolve xk_jump_target xk_follow : xkeeps.
Lemma xk_jump : XKeeps R jump.
Proof using All. unfold jump. xk. Qed.
Lemma xk_push_frame : XKeeps R push_frame.
Proof using All. unfold push_frame. xk. Qed.
Lemma xk_remember_return : XKeeps R remember_return.
Proof using All. unfold remember_return. xk. Qed.
Lemma xk_prevStack : XKeeps R prevStack.
Proof using All. unfold prevStack. xk. Qed.
#[local] Hint Resolve xk_jump xk_push_frame xk_remember_return xk_prevStack : xkeeps.
Lemma xk_empty_scan n i : XKeeps R (empty_scan n i).
Proof using All. revert i. induction n as [|n IH]; intros i; cbn [empty_scan]; xk. Qed.
Lemma xk_returning f : (forall s, XKeeps R (f s)) -> XKeeps R (returning f).
Proof using All. intros Hf. unfold returning. xk. Qed.
#[local] Hint Resolve xk_empty_scan xk_returning : xkeeps.
Lemma xk_view_set f : XKeeps R (view_set f).
Proof using All. unfold view_set. xk. Qed.
Lemma xk_view_add f : XKeeps R (view_add f).
Proof using All. unfold view_add. xk. Qed.
#[local] Hint Resolve xk_view_set xk_view_add : xkeeps.
Lemma xk_view_turn b k : XKeeps R (view_turn b k).
Proof using All.
  unfold view_turn. apply XKeeps_bind; [done | xk | intros b0].
  destruct (dir_offset (rotationIndex b0)); [|xk]. destruct (dir_offset _); xk.
Qed.
Lemma xk_is_op f : XKeeps R (is_op f).
Proof using All. unfold is_op. xk. Qed.
Lemma xk_mode_op f : XKeeps R (mode_op f).
Proof using All. unfold mode_op. xk. Qed.

#[local] Hint Resolve xk_view_turn xk_is_op xk_mode_op : xkeeps.

Lemma xk_skip : XKeeps R skip.
Proof using All. unfold skip. xk. Qed.
Lemma xk_empty_cell : XKeeps R empty_cell.
Proof using All. unfold empty_cell. xk. Qed.
Lemma xk_new_line : XKeeps R new_line.
Proof using All. unfold new_line. xk. Qed.
Lemma xk_start : XKeeps R start.
Proof using All. unfold start. xk. Qed.
Lemma xk_stop : XKeeps R stop.
Proof using All. unfold stop. xk. Qed.
Lemma xk_calls : XKeeps R GO_SUB /\ XKeeps R GO_STATE /\ XKeeps R GO_FUNC /\ XKeeps R GO_TO.
Proof using All. unfold GO_SUB, GO_STATE, GO_FUNC, GO_TO. split_and!; xk. Qed.
Lemma xk_ifs : XKeeps R IF_TRUE /\ XKeeps R IF_FALSE.
Proof using All. unfold IF_TRUE, IF_FALSE. split_and!; xk. Qed.
Lemma xk_returns : XKeeps R RETURN /\ XKeeps R RETURN_FUNK /\ XKeeps R RETURN_STATE.
Proof using All. unfold RETURN, RETURN_FUNK, RETURN_STATE. split_and!; xk. Qed.
#[local] Hint Resolve xk_skip xk_empty_cell xk_new_line xk_start xk_stop : xkeeps.

(** Every fast handler is made of these steps alone. *)
Lemma xk_fast n h :
  ExecutorList !! n = Some h -> IsOperationFast (Z.of_nat n) = true -> XKeeps R h.
Proof using All.
  intros Hn Hf. destruct xk_calls as (?&?&?&?), xk_ifs as [??], xk_returns as (?&?&?).
  unfold ExecutorList in Hn.
  do 111 (destruct n as [|n];
    [injection Hn as <-; first [discriminate Hf | clear Hf; unfold VAR_MORE, VAR_LESS; xk] |]).
  discriminate Hn.
Qed.
End decompose.

(** ** Fast operations *)

(** What a fast operation must not touch: the map, the place and the state of
    the body of the bot, its cooldown, its load. *)
Definition still (c c' : Ctx) : Prop :=
  same_streams (host c) (host c') /\
  wmap c' = wmap c /\ ignoreBorders c' = ignoreBorders c /\ effects c' = effects c /\
  position (bot c') = position (bot c) /\ cachedPosition (bot c') = cachedPosition (bot c) /\
  rotation (bot c') = rotation (bot c) /\ cooldown (bot c') = cooldown (bot c) /\
  cdTime (bot c') = cdTime (bot c) /\ cargo (bot c') = cargo (bot c) /\
  inventory (bot c') = inventory (bot c) /\ bot_stats (bot c') = bot_stats (bot c).

#[global] Instance still_preorder : PreOrder still.
Proof.
  split.
  - intros c. unfold still. split; [reflexivity | done].
  - intros c1 c2 c3 [S1 H1] [S2 H2]. split; [by etransitivity|].
    intuition congruence.
Qed.

Lemma still_quiet c c' : still c c' -> quiet c c'.
Proof. unfold still, quiet. tauto. Qed.

Lemma fast_still n h :
  ExecutorList !! n = Some h -> IsOperationFast (Z.of_nat n) = true -> XKeeps still h.
Proof.
  apply xk_fast; [apply _|..].
  - intros f c. split; [reflexivity | done].
  - intros f c. split; [reflexivity | done].
  - intros h' c S. by split.
Qed.

Lemma advance_still : XKeeps still advance.
Proof.
  unfold advance. apply XKeeps_bind; [apply _ | intros c; reflexivity | intros p].
  apply XKeeps_if; intros c; split; done || reflexivity.
Qed.

(** The code of the cell a running bot executes next. *)
Definition next_code (c : Ctx) : option Z := cell_id <$> at_index (program (prog c)) (currIndex (prog c)).

(** The executor is the current handler followed by the step to the next cell,
    for any relation both respect. *)
Lemma Execute_bot_keeps R `{!PreOrder R} c :
  (forall h d, at_index (program (prog c)) (currIndex (prog c)) = Some d ->
     at_index ExecutorList (cell_id d) = Some h -> XKeeps R h) ->
  XKeeps R advance ->
  R c (Execute_bot c).2.
Proof.
  intros Hh Ha. unfold Execute_bot.
  change ((getp c)) with (@inr JsError _ (prog c), c).
  unfold xbind at 1. change (getp c) with (@inr JsError _ (prog c), c). cbv beta iota.
  destruct (isExecute (prog c)); [|reflexivity].
  unfold xbind at 1, cell_at, xbind at 1. change (getp c) with (@inr JsError _ (prog c), c). cbv beta iota.
  destruct (at_index (program (prog c)) (currIndex (prog c))) as [d|] eqn:Ed; [|reflexivity].
  cbn [some_or_throw xret]. unfold xret. unfold xbind at 1.
  destruct (at_index ExecutorList (cell_id d)) as [h|] eqn:Eh; [|reflexivity].
  cbn [some_or_throw]. unfold xret.
  apply (XKeeps_bind R h); [by eapply Hh|]. intros b. apply XKeeps_if; [|done].
  intros c'. reflexivity.
Qed.

(** An operation marked fast takes no game time and acts on nothing but the
    program: one call of the executor on a fast cell leaves the map, the bot's
    place, rotation, cooldown, cargo and items and all effects as they were,
    whatever the program and even when it throws. *)
Theorem fast_step_still c code :
  next_code c = Some code -> IsOperationFast code = true -> still c (Execute_bot c).2.
Proof.
  intros Hc Hf. apply Execute_bot_keeps; [apply _ | | apply advance_still].
  intros h d Hd Hh. unfold next_code in Hc. rewrite Hd in Hc. injection Hc as <-.
  apply at_index_nat in Hh as (n & En & Hh). rewrite En in Hf. by eapply fast_still.
Qed.

(** A bot of the demo map that runs the given cells. *)
Definition demo_prog (cells : list Cell) : Ctx :=
  c_bot (b_prog (pc_isExecute true (pc_program cells (new_ProgramCondition 0))) demo_bot) demo_ctx.
Definition op (code : Z) : Cell := mkCell code None None.
(** A full line that starts with the given cells. *)
Definition line (cells : list Cell) : list Cell := cells ++ replicate (16 - length cells) (op 0).

Lemma fast_step_still_witness :
  still (demo_prog (line [op 42])) (Execute_bot (demo_prog (line [op 42]))).2 /\
  mode_flip (prog (Execute_bot (demo_prog (line [op 42]))).2) = true.
Proof.
  split; [|vm_compute; reflexivity].
  apply (fast_step_still (demo_prog (line [op 42])) 42); reflexivity.
Defined.

(** ** Slow operations keep to the cooldown *)

Definition streamed (c c' : Ctx) : Prop := same_streams (host c) (host c').

#[global] Instance streamed_preorder : PreOrder streamed.
Proof.
  split; [intros c; unfold streamed; reflexivity|]. intros c1 c2 c3. unfold streamed. apply transitivity.
Qed.

Lemma XKeeps_impl {A} (R R' : relation Ctx) (m : X A) :
  (forall c c', R c c' -> R' c c') -> XKeeps R m -> XKeeps R' m.
Proof. intros H Hm c. by apply H. Qed.

Lemma still_paced c c' : still c c' -> paced c c'.
Proof. intros H. by apply quiet_paced, still_quiet. Qed.

Lemma Paced_lift {A} (m : St A) : Paced m -> XKeeps paced (lift m).
Proof. apply XKeeps_lift. Qed.

Lemma Paced_drop {A} (m : St A) : Paced m -> Paced (drop_result m).
Proof. intros H c. unfold drop_result. wp_step. eapply wp_mono; [apply H|]. by cbv beta. Qed.

(** After the test of the cooldown anything that respects the streams may
    follow in the branch of a rested bot. *)
Lemma paced_busy {A} (m1 m2 : X A) :
  XKeeps paced m1 -> XKeeps streamed m2 ->
  XKeeps paced (let! busy := lift inCooldown in if busy then m1 else m2).
Proof.
  intros H1 H2 c. unfold xbind, lift.
  assert (inCooldown c = (negb (Qle_bool (ends c) (tick c)), c_host (performance_now (host c)).2 c)) as -> by done.
  set (c1 := c_host _ c). assert (paced c c1) as Hq by (apply quiet_paced; streams).
  destruct (negb (Qle_bool (ends c) (tick c))) eqn:E.
  - etransitivity; [exact Hq | apply H1].
  - specialize (H2 c1). apply negb_false_iff, Qle_bool_iff in E.
    unfold streamed, same_streams in H2. cbn in H2.
    apply paced_if_rested; [unfold same_streams; intuition lia | lia | done].
Qed.

Lemma paced_when_rested act : XKeeps paced act -> XKeeps paced (when_rested act).
Proof.
  intros H. unfold when_rested. apply paced_busy; [apply XKeeps_ret, _|].
  apply (XKeeps_impl paced); [by intros c c' []|].
  apply XKeeps_bind; [apply _ | done | intros _; apply XKeeps_ret, _].
Qed.

Lemma paced_upd f : XKeeps paced (upd f).
Proof. intros c. apply quiet_paced. streams. Qed.

Lemma paced_updb f : (forall b, cooldown (f b) = cooldown b /\ cdTime (f b) = cdTime b) -> XKeeps paced (updb f).
Proof.
  intros Hf c. apply quiet_paced. destruct (Hf (bot c)) as [E1 E2].
  unfold quiet. cbn. rewrite E1, E2. split; [reflexivity | done].
Qed.

Lemma paced_look_reset : XKeeps paced look_reset.
Proof.
  apply (xk_on_currentStack paced); intros; apply quiet_paced; try streams.
  by unfold quiet.
Qed.

#[export] Hint Extern 1 (PreOrder _) => typeclasses eauto : xkeeps.
#[export] Hint Resolve paced_upd paced_look_reset Paced_lift Paced_drop paced_when_rested
  paced_Move paced_Rotate paced_Digg paced_UseGeo : xkeeps.

Lemma paced_streamed {A} (m : X A) : XKeeps paced m -> XKeeps streamed m.
Proof. apply XKeeps_impl. by intros c c' []. Qed.

Lemma streamed_lift {A} (m : St A) : Streams m -> XKeeps streamed (lift m).
Proof. apply XKeeps_lift. Qed.

Lemma streamed_upd f : XKeeps streamed (upd f).
Proof. apply paced_streamed, paced_upd. Qed.

Lemma streamed_updb f : XKeeps streamed (updb f).
Proof. intros c. unfold streamed. reflexivity. Qed.

Lemma streamed_is_cry o : XKeeps streamed (is_cry_of o).
Proof. destruct o; intros c; unfold streamed; reflexivity. Qed.

Lemma streamed_getp : XKeeps streamed getp.
Proof. intros c. unfold streamed. reflexivity. Qed.

Lemma streamed_getb : XKeeps streamed getb.
Proof. intros c. unfold streamed. reflexivity. Qed.

Lemma streams_drop_Digg u : Streams (drop_result (Digg u)).
Proof. apply Paced_Streams, Paced_drop, paced_Digg. Qed.

Lemma streams_SetBlock u : Streams (SetBlock u).
Proof. apply Paced_Streams, paced_tools. Qed.

Lemma streams_Heal u : Streams (Heal u).
Proof. apply Paced_Streams, paced_tools. Qed.

#[export] Hint Resolve streamed_lift streamed_upd streamed_updb streamed_is_cry streamed_getp streamed_getb
  streams_drop_Digg streams_SetBlock streams_Heal streams_set_cooldown : xkeeps.

Lemma paced_macros :
  XKeeps paced MACROS_DIGG /\ XKeeps paced MACROS_BLOCK /\ XKeeps paced MACROS_HEAL /\
  XKeeps paced MACROS_DIGG_AROUND.
Proof.
  unfold MACROS_DIGG, MACROS_BLOCK, MACROS_HEAL, MACROS_DIGG_AROUND.
  split_and!; apply paced_busy; auto 30 with xkeeps.
Qed.

Lemma paced_do_move s : XKeeps paced (do_move s).
Proof. unfold do_move. auto with xkeeps. Qed.

Lemma paced_do_rotate s : XKeeps paced (do_rotate s).
Proof. unfold do_rotate. auto with xkeeps. Qed.

Lemma paced_getp : XKeeps paced getp.
Proof. intros c. reflexivity. Qed.

Lemma paced_getb : XKeeps paced getb.
Proof. intros c. reflexivity. Qed.

Lemma paced_flipped s s' k : (forall s, XKeeps paced (k s)) -> XKeeps paced (flipped s s' k).
Proof. intros H. unfold flipped. apply XKeeps_bind; [apply _ | apply paced_getp | intros p]. by case_match. Qed.

Lemma paced_rotate_num n : XKeeps paced (rotate_num n).
Proof. unfold rotate_num. auto with xkeeps. Qed.

Lemma paced_rand lo hi : XKeeps paced (lift (rand lo hi)).
Proof. intros c. apply quiet_paced. streams. Qed.

#[export] Hint Resolve paced_do_move paced_do_rotate paced_getp paced_getb paced_flipped paced_rotate_num
  paced_rand : xkeeps.

Lemma paced_rotate_by k k' : XKeeps paced (rotate_by k k').
Proof. unfold rotate_by. auto with xkeeps. Qed.

#[export] Hint Resolve paced_rotate_by : xkeeps.

Lemma paced_compare v : XKeeps paced (compareWithLogicValue v).
Proof. apply (xk_compare paced); intros; apply quiet_paced; by unfold quiet. Qed.

#[export] Hint Resolve paced_compare : xkeeps.

Lemma paced_handler n h : ExecutorList !! n = Some h -> XKeeps paced h.
Proof.
  intros Hn. destruct (IsOperationFast (Z.of_nat n)) eqn:Hf.
  { apply (XKeeps_impl still); [apply still_paced|]. by eapply fast_still. }
  destruct (paced_tools false) as (P1 & P2 & P3 & P4 & P5), paced_macros as (M1 & M2 & M3 & M4).
  unfold ExecutorList in Hn.
  do 111 (destruct n as [|n];
    [injection Hn as <-; first [discriminate Hf | clear Hf; unfold skip; solve [auto 20 with xkeeps]] |]).
  discriminate Hn.
Qed.

Lemma paced_Execute c : paced c (Execute_bot c).2.
Proof.
  apply Execute_bot_keeps; [apply _ | |].
  - intros h d _ Hh. apply at_index_nat in Hh as (n & _ & Hh). by eapply paced_handler.
  - apply (XKeeps_impl still); [apply still_paced | apply advance_still].
Qed.

(** ** Sequences of steps *)

(** Whatever happens to a bot: an action of the user or of the game, a call of
    the executor, or time passing in the rest of the program, which may use the
    clock and the random numbers and change the map. *)
Inductive bot_step : Ctx -> Ctx -> Prop :=
  | Step_action a c : bot_step c (run_action a c).2
  | Step_program c : bot_step c (Execute_bot c).2
  | Step_world h m c : same_streams (host c) h -> bot_step c (c_wmap m (c_host h c)).

Lemma paced_steps c c' : rtc bot_step c c' -> paced c c'.
Proof.
  induction 1 as [c|c1 c2 c3 [a c|c|h m c S] _ IH]; [reflexivity|..]; (etransitivity; [|exact IH]).
  - apply paced_action.
  - apply paced_Execute.
  - apply quiet_paced. split; [exact S | done].
Qed.

Lemma clock_mono_le h n m : Host_ok h -> (n <= m)%nat -> (clock h n <= clock h m)%Q.
Proof.
  intros Hh. induction 1 as [|m _ IH]; [apply Qle_refl|].
  eapply Qle_trans; [exact IH | apply (clock_mono h Hh)].
Qed.

(** A stroke: made when the cooldown was over at a reading of the clock, it
    starts a cooldown of [CD_digging] at a later one. *)
Lemma Digg_true u c :
  (Digg u c).1 = true ->
  let c' := (Digg u c).2 in
  cooldown (bot c') = CD_digging /\ (ends c < tick c)%Q /\
  exists n, cdTime (bot c') = clock (host c) n /\ (nclock (host c) < n < nclock (host c'))%nat.
Proof.
  enough (wp (Digg u) (λ r c', r = true -> cooldown (bot c') = CD_digging /\ (ends c < tick c)%Q /\
    exists n, cdTime (bot c') = clock (host c) n /\ (nclock (host c) < n < nclock (host c'))%nat) c) as H
    by exact H.
  unfold Digg, set_cooldown. wp_run; try done; intros _;
    (split; [done|]; split;
      [ match goal with H : negb (Qle_bool ?a ?b) = true |- _ =>
          apply negb_true_iff in H; assert (~ (a <= b)%Q) by (rewrite <- Qle_bool_iff; congruence) end;
        unfold ends, tick; cbn in *; lra
      | cbn; eexists; split; [reflexivity | lia] ]).
Qed.

(** C26: The dig rate is bounded: between two strokes of a bot at least 333 ms
    pass, whatever actions, program steps and other events come in between, as
    long as the clock does not run backwards. *)
Theorem dig_rate u u' c1 c3 :
  Host_ok (host c1) ->
  (Digg u c1).1 = true -> rtc bot_step (Digg u c1).2 c3 -> (Digg u' c3).1 = true ->
  (cdTime (bot (Digg u c1).2) + 333 <= cdTime (bot (Digg u' c3).2))%Q.
Proof.
  intros Hh H1 Hs H3.
  destruct (Digg_true u c1 H1) as (K1 & _ & n1 & T1 & N1).
  destruct (Digg_true u' c3 H3) as (_ & R3 & n3 & T3 & N3).
  assert (same_streams (host c1) (host (Digg u c1).2)) as S1 by apply (paced_Digg u c1).
  destruct (paced_steps _ _ Hs) as [S2 Hp]. set (c2 := (Digg u c1).2) in *.
  assert (same_streams (host c1) (host c3)) as S by by etransitivity.
  destruct S1 as (C1 & _), S as (C & _ & _ & _). destruct S2 as (C2 & _).
  assert (forall n m, (n <= m)%nat -> (clock (host c1) n <= clock (host c1) m)%Q) as Hm.
  { intros. by apply clock_mono_le. }
  change 333%Q with CD_digging. rewrite <- K1, T3, C. unfold ends, tick in R3. rewrite C in R3.
  destruct Hp as [[E1 E2]|(n & Hn & Hle)].
  - rewrite E1, E2 in R3. pose proof (Hm (nclock (host c3)) n3 ltac:(lia)). lra.
  - rewrite C1 in Hle. pose proof (Hm n n3 ltac:(lia)). lra.
Qed.

Lemma dig_rate_witness :
  (cdTime (bot (Digg true demo_ctx).2) + 333 <=
   cdTime (bot (Digg true (run_action (Do_Rotate S_r true true) (Digg true demo_ctx).2).2).2))%Q.
Proof.
  apply (dig_rate true true demo_ctx (run_action (Do_Rotate S_r true true) (Digg true demo_ctx).2).2).
  - split; intros n; cbn; [rewrite <- Zle_Qle; lia | split; [discriminate | reflexivity]].
  - reflexivity.
  - eapply rtc_l; [apply Step_action | reflexivity].
  - reflexivity.
Defined.
