(* ===== verification/ProgSafety.v ===== *)
(** * The executor never gets stuck on a well-formed program *)

From S2P Require Import Prelude Host JsNum JsSet Blocks PacksContainer WMap Vec Cargo Machine BotOps BotFacts Programmator ProgFacts.

(** ** Well-formed programs and states *)

(** The codes of the cells that jump. *)
Definition is_jump (code : Z) : bool := existsb (Z.eqb code) [3; 16; 17; 27; 33; 34].

Definition jump_ok (len : Z) (k : option Key) : bool :=
  match k with
  | None => true
  | Some (KNum z) => z <? len
  | Some (KStr s) => plain_name s
  end.

(** The cell at an index: a code with a handler; no line feed on the last
    line; a jump leads into the program. *)
Definition cell_ok (len i : Z) (d : Cell) : bool :=
  (0 <=? cell_id d) && (cell_id d <? 111) &&
  (negb (cell_id d =? 1) || ((i / LineLength + 1) * LineLength <? len)) &&
  (negb (is_jump (cell_id d)) || jump_ok len (data0 d)).

Definition prog_len (g : list Cell) : Z := Z.of_nat (length g).

Definition prog_ok (g : list Cell) : bool :=
  (0 <? prog_len g) && (prog_len g mod LineLength =? 0) &&
  forallb (λ '(i, d), cell_ok (prog_len g) (Z.of_nat i) d) (zip (seq 0 (length g)) g).

Lemma prog_ok_cell g i d :
  prog_ok g = true -> at_index g i = Some d -> cell_ok (prog_len g) i d = true.
Proof.
  unfold prog_ok, at_index. intros [_ H]%andb_prop Hd. destruct (0 <=? i) eqn:E; [|done].
  rewrite forallb_forall in H. specialize (H (Z.to_nat i, d)). cbn in H.
  rewrite Z2Nat.id in H by lia. apply H. apply list_elem_of_In, list_elem_of_lookup_2 with (Z.to_nat i).
  rewrite lookup_zip_with. rewrite lookup_seq_lt by (by eapply lookup_lt_Some). cbn. by rewrite Hd.
Qed.

Definition in_prog (p : ProgramCondition) (i : Z) : Prop := 0 <= i < prog_len (program p).

(** The stack levels 1..k hold the index of a call in the program. *)
Definition frames_ok (p : ProgramCondition) (k : Z) : Prop :=
  forall i, 1 <= i <= k -> exists s, at_index (stack p) i = Some s /\ in_prog p (returnIndex s).

(** [PInv k p]: the state is well formed, and the levels up to k return into
    the program. *)
Record PInv (k : Z) (p : ProgramCondition) : Prop := {
  pi_prog : prog_ok (program p) = true;
  pi_curr : in_prog p (currIndex p);
  pi_start : in_prog p (startIndex p);
  pi_depth : 0 <= stackDepth p < Z.of_nat (length (stack p));
  pi_frames : frames_ok p k;
  pi_cache : match MACROS_rotate_cache p with Some r => 0 <= r < 4 | None => True end
}.

(** A predicate of the program state, with the invariant of the bot. *)
Definition holds (P : ProgramCondition -> Prop) (c : Ctx) : Prop := Inv c /\ P (prog c).

Definition good (p : ProgramCondition) : Prop := PInv (stackDepth p) p.

(** Well formed, executing the cell [d]. *)
Definition good_at (d : Cell) (p : ProgramCondition) : Prop :=
  good p /\ at_index (program p) (currIndex p) = Some d.

(** Right after entering a level: the return index of the top is not set. *)
Definition half_at (d : Cell) (p : ProgramCondition) : Prop :=
  PInv (stackDepth p - 1) p /\ 0 < stackDepth p /\ at_index (program p) (currIndex p) = Some d.

(** ** Triples without errors *)

Definition NoErr (_ : JsError) (_ : Ctx) : Prop := False.

(** [Safe P m Q]: from P, [m] does not throw and leads to Q. *)
Definition Safe {A} (P : Ctx -> Prop) (m : X A) (Q : A -> Ctx -> Prop) : Prop :=
  forall c, P c -> xwp m Q NoErr c.

Lemma Safe_bind {A B} P (m : X A) (k : A -> X B) Q Q' :
  Safe P m Q -> (forall a, Safe (Q a) (k a) Q') -> Safe P (xbind m k) Q'.
Proof.
  intros Hm Hk c Hc. apply xwp_bind. eapply xwp_mono; [by apply Hm | | done].
  intros a c'. apply Hk.
Qed.

Lemma Safe_ret {A} (P : Ctx -> Prop) (a : A) : Safe P (xret a) (λ _, P).
Proof. intros c Hc. by apply xwp_ret. Qed.

Lemma Safe_if {A} P (b : bool) (m1 m2 : X A) Q : Safe P m1 Q -> Safe P m2 Q -> Safe P (if b then m1 else m2) Q.
Proof. by destruct b. Qed.

Lemma Safe_weaken {A} (P P' : Ctx -> Prop) (m : X A) (Q Q' : A -> Ctx -> Prop) :
  Safe P' m Q' -> (forall c, P c -> P' c) -> (forall a c, Q' a c -> Q a c) -> Safe P m Q.
Proof. intros H Hp Hq c Hc. eapply xwp_mono; [by apply H, Hp | apply Hq | done]. Qed.

(** Keeping a predicate, whatever the result. *)
Definition Keep {A} (P : Ctx -> Prop) (m : X A) : Prop := Safe P m (λ _, P).

Lemma Keep_bind {A B} P (m : X A) (k : A -> X B) : Keep P m -> (forall a, Keep P (k a)) -> Keep P (xbind m k).
Proof. apply Safe_bind. Qed.

Lemma Keep_if {A} P (b : bool) (m1 m2 : X A) : Keep P m1 -> Keep P m2 -> Keep P (if b then m1 else m2).
Proof. apply Safe_if. Qed.

Lemma Keep_ret {A} P (a : A) : Keep P (xret a).
Proof. apply Safe_ret. Qed.

Lemma Keep_option {A B} P (o : option B) (m1 : B -> X A) (m2 : X A) :
  (forall b, Keep P (m1 b)) -> Keep P m2 -> Keep P (match o with Some b => m1 b | None => m2 end).
Proof. by destruct o. Qed.

Lemma Keep_gets {A} P (f : Ctx -> A) : Keep P (lift (gets f)).
Proof. by intros c Hc. Qed.

Lemma Keep_getp P : Keep P getp.
Proof. by intros c Hc. Qed.

Lemma Keep_getb P : Keep P getb.
Proof. by intros c Hc. Qed.

Create HintDb keep.
#[export] Hint Resolve Keep_bind Keep_if Keep_ret Keep_option Keep_gets Keep_getp Keep_getb : keep.

(** An update of the program state. *)
Lemma Safe_upd (P Q : ProgramCondition -> Prop) f :
  (forall p, P p -> Q (f p)) -> Safe (holds P) (upd f) (λ _, holds Q).
Proof. intros H c [Hi Hc]. split; [by apply Inv_prog | by apply H]. Qed.

(** A test of the program state gives its facts to the continuation. *)
Lemma Safe_getp {A} P (k : ProgramCondition -> X A) Q :
  (forall p, P p -> Safe (λ c, holds P c /\ prog c = p) (k p) Q) -> Safe (holds P) (xbind getp k) Q.
Proof. intros H c Hc. apply (H (prog c)); [apply Hc | done]. Qed.

Lemma Safe_pre {A} (P P' : Ctx -> Prop) (m : X A) Q : Safe P' m Q -> (forall c, P c -> P' c) -> Safe P m Q.
Proof. intros H HP c Hc. by apply H, HP. Qed.

(** An operation of the bot leaves the program state alone. *)
Definition Tame {A} (m : St A) : Prop :=
  KeepsInv m /\ forall c, wp m (λ _ c', prog c' = prog c) c.

Lemma Keep_tame {A} (P : ProgramCondition -> Prop) (m : St A) :
  Tame m -> Keep (holds P) (lift m).
Proof.
  intros [Hi Hp] c [Hc Pc]. apply xwp_lift. unfold wp in *. split; [by apply Hi | by rewrite Hp].
Qed.

(** ** The operations of the bot are tame *)

Lemma Tame_intro {A} (m : St A) : KeepsInv m -> (forall c, wp m (λ _ c', prog c' = prog c) c) -> Tame m.
Proof. by split. Qed.

Lemma tame_inCooldown : Tame inCooldown.
Proof. apply Tame_intro; [auto with kinv|]. intros c. unfold inCooldown. by wp_run. Qed.

Lemma tame_set_cooldown v : (0 <= v)%Q -> Tame (set_cooldown v).
Proof. intros. apply Tame_intro; [auto with kinv|]. intros c. unfold set_cooldown. by wp_run. Qed.

Lemma tame_now : Tame now.
Proof. apply Tame_intro; [intros c Hc; wp_run; auto with inv|]. intros c. by wp_run. Qed.

Lemma tame_rand lo hi : Tame (rand lo hi).
Proof. apply Tame_intro; [intros c Hc; wp_run; auto with inv|]. intros c. by wp_run. Qed.

Lemma tame_HasMoved : Tame HasMoved.
Proof. apply Tame_intro; [auto with kinv|]. intros c. unfold HasMoved. by wp_run. Qed.

Lemma tame_Trails : Tame Trails.
Proof. apply Tame_intro; [auto with kinv|]. intros c. unfold Trails. by wp_run. Qed.

Lemma tame_Digg u : Tame (Digg u).
Proof. apply Tame_intro; [auto with kinv|]. intros c. unfold Digg, set_cooldown. by wp_run. Qed.

Lemma tame_bind {A B} (m : St A) (k : A -> St B) : Tame m -> (forall a, Tame (k a)) -> Tame (bind m k).
Proof.
  intros [I1 P1] Hk. apply Tame_intro.
  - intros c Hc. apply wp_bind. eapply wp_mono; [by apply I1|]. intros a c'. apply Hk.
  - intros c. apply wp_bind. eapply wp_mono; [apply P1|]. cbv beta. intros a c' E.
    destruct (Hk a) as [_ P2]. eapply wp_mono; [apply P2|]. cbv beta. congruence.
Qed.

Lemma tame_drop {A} (m : St A) : Tame m -> Tame (drop_result m).
Proof. intros H. apply tame_bind; [done|]. intros _. by apply Tame_intro; [intros c Hc|intros c]. Qed.

Lemma prog_step_to x y c : wp (step_to x y) (λ _ c', prog c' = prog c) c.
Proof.
  unfold step_to. wp_run; try done.
  - eapply wp_mono; [apply (proj2 tame_Trails)|]. cbv beta. intros _ c' E. by wp_run.
  - eapply wp_mono; [apply (proj2 (tame_Digg false))|]. cbv beta. intros _ c' E. by wp_run.
Qed.

Lemma tame_Move s u : Tame (Move s u).
Proof.
  apply Tame_intro; [auto with kinv|]. intros c. unfold Move, inCooldown. wp_run; try done.
  apply wp_move_case. eapply wp_mono; [apply prog_step_to|]. cbv beta. intros moved c' E.
  assert (prog c' = prog c) as E' by (rewrite E; by destruct s).
  unfold set_cooldown, HasMoved. by wp_run.
Qed.

Lemma tame_Rotate s u w : Tame (Rotate s u w).
Proof.
  apply Tame_intro; [auto with kinv|]. intros c. unfold Rotate, inCooldown, set_cooldown.
  destruct s; by wp_run.
Qed.

Lemma tame_tools u : Tame (SetBlock u) /\ Tame (SetRoad u) /\ Tame (SetWB u) /\ Tame (SetQuadro u) /\ Tame (Heal u).
Proof.
  split_and!; (apply Tame_intro; [auto with kinv|]); intros c;
    unfold SetBlock, SetRoad, SetWB, SetQuadro, Heal, tool, inCooldown, set_cooldown; by wp_run.
Qed.

Lemma tame_UseGeo u : Tame (UseGeo u).
Proof.
  apply Tame_intro; [auto with kinv|]. intros c. unfold UseGeo, tool, inCooldown, set_cooldown.
  wp_run; try done. all: destruct (PopGeo _) as [g cargo']; wp_run; destruct g as [g|]; by wp_run.
Qed.

#[export] Hint Resolve Keep_tame tame_inCooldown tame_now tame_rand tame_Digg tame_drop tame_Move tame_Rotate
  tame_UseGeo tame_set_cooldown : keep.

(** ** The state of the program *)

Section pinv.
Implicit Types (p : ProgramCondition).

(** Updates that touch nothing the invariant speaks of. *)
Definition harmless (f : ProgramCondition -> ProgramCondition) : Prop :=
  forall p, program (f p) = program p /\ currIndex (f p) = currIndex p /\ startIndex (f p) = startIndex p /\
    stackDepth (f p) = stackDepth p /\ stack (f p) = stack p /\ MACROS_rotate_cache (f p) = MACROS_rotate_cache p.

Lemma PInv_harmless f k p : harmless f -> PInv k p -> PInv k (f p).
Proof.
  intros Hf [H1 H2 H3 H4 H5 H6]. destruct (Hf p) as (E1 & E2 & E3 & E4 & E5 & E6).
  split; unfold frames_ok, in_prog in *; rewrite ?E1, ?E2, ?E3, ?E4, ?E5, ?E6; try done.
Qed.

Lemma PInv_currIndex i k p : in_prog p i -> PInv k p -> PInv k (pc_set_currIndex i p).
Proof. intros Hi []. by split. Qed.

Lemma at_index_insert_ne {A} (l : list A) i j a :
  0 <= j -> i <> j -> at_index (<[Z.to_nat j := a]> l) i = at_index l i.
Proof.
  intros Hj Hne. unfold at_index. destruct (0 <=? i) eqn:E; [|done]. apply list_lookup_insert_ne. lia.
Qed.

Lemma at_index_insert_eq {A} (l : list A) j a :
  0 <= j < Z.of_nat (length l) -> at_index (<[Z.to_nat j := a]> l) j = Some a.
Proof.
  intros Hj. unfold at_index. replace (0 <=? j) with true by lia. apply list_lookup_insert_eq. lia.
Qed.

(** A frame replaced by one that returns to the same cell. *)
Lemma PInv_set_frame d s s' k p :
  at_index (stack p) d = Some s -> returnIndex s' = returnIndex s -> PInv k p -> PInv k (set_frame d s' p).
Proof.
  intros Hs Hr [H1 H2 H3 H4 H5 H6].
  assert (0 <= d < Z.of_nat (length (stack p))) as Hd.
  { unfold at_index in Hs. destruct (0 <=? d) eqn:E; [|done]. apply lookup_lt_Some in Hs. lia. }
  split; try done; [cbn; rewrite length_insert; done|].
  intros i Hi. cbn. destruct (Z.eq_dec i d) as [->|Hne].
  - rewrite at_index_insert_eq by done. exists s'. split; [done|]. rewrite Hr.
    destruct (H5 d Hi) as (s0 & Es0 & ?). rewrite Hs in Es0. by injection Es0 as <-.
  - rewrite at_index_insert_ne by lia. by apply H5.
Qed.

(** The top frame may be replaced by any frame when it is not covered. *)
Lemma PInv_set_top s' p :
  PInv (stackDepth p - 1) p -> PInv (stackDepth p - 1) (set_frame (stackDepth p) s' p).
Proof.
  intros [H1 H2 H3 H4 H5 H6]. split; try done; [cbn; rewrite length_insert; done|].
  intros i Hi. cbn. rewrite at_index_insert_ne by lia. by apply H5.
Qed.

Lemma good_top p : good p -> exists s, at_index (stack p) (stackDepth p) = Some s.
Proof. intros H. apply at_index_Some, H. Qed.
End pinv.

(** ** Steps of the handlers *)

(** A predicate the small steps of the handlers keep. *)
Record stable (P : ProgramCondition -> Prop) : Prop := {
  st_top p : P p -> exists s, at_index (stack p) (stackDepth p) = Some s;
  st_frame p s s' : P p -> at_index (stack p) (stackDepth p) = Some s -> returnIndex s' = returnIndex s ->
    P (set_frame (stackDepth p) s' p);
  st_harmless p f : harmless f -> P p -> P (f p)
}.

Lemma stable_good : stable good.
Proof.
  split.
  - apply good_top.
  - intros p s s' Hp Hs Hr. unfold good. cbn. by eapply PInv_set_frame.
  - intros p f Hf Hp. unfold good. destruct (Hf p) as (_&_&_&E&_). rewrite E. by apply PInv_harmless.
Qed.

Lemma stable_good_at d : stable (good_at d).
Proof.
  split.
  - intros p [Hp _]. by apply good_top.
  - intros p s s' [Hp Hd] Hs Hr. split; [by eapply stable_good | done].
  - intros p f Hf [Hp Hd]. split; [by apply stable_good|].
    destruct (Hf p) as (E1&E2&_). by rewrite E1, E2.
Qed.

Section stable.
Context (P : ProgramCondition -> Prop) (HP : stable P).

Lemma keep_upd f : harmless f -> Keep (holds P) (upd f).
Proof using HP. intros Hf. apply Safe_upd. intros p. by apply (st_harmless P HP). Qed.

Lemma currentStack_spec :
  Safe (holds P) currentStack (λ s c, holds P c /\ at_index (stack (prog c)) (stackDepth (prog c)) = Some s).
Proof using HP.
  intros c [Hi Hc]. destruct (st_top P HP _ Hc) as [s Hs].
  unfold currentStack, xwp, xbind, getp, lift, gets. cbn. rewrite Hs. cbn. by split.
Qed.

Lemma keep_currentStack : Keep (holds P) currentStack.
Proof using HP. eapply Safe_weaken; [apply currentStack_spec | done | by intros s c []]. Qed.

Lemma keep_on_currentStack f :
  (forall s, returnIndex (f s) = returnIndex s) -> Keep (holds P) (on_currentStack f).
Proof using HP.
  intros Hf. unfold on_currentStack. eapply Safe_bind; [apply currentStack_spec|].
  intros s c [[Hi Hc] Hs]. split; [by apply Inv_prog|]. cbn. by eapply (st_frame P HP).
Qed.

Lemma keep_compare v : Keep (holds P) (compareWithLogicValue v).
Proof using HP. unfold compareWithLogicValue. apply keep_on_currentStack. intros s. by destruct (mode_logic s). Qed.

Lemma keep_view : Keep (holds P) viewSelectedBlock.
Proof using HP. unfold viewSelectedBlock. apply Keep_bind; [apply keep_currentStack | auto with keep]. Qed.

Lemma keep_xint z : Keep (holds P) (xint z).
Proof. apply Keep_ret. Qed.
End stable.

#[export] Hint Resolve stable_good stable_good_at keep_currentStack keep_on_currentStack keep_compare keep_view keep_xint
  keep_upd : keep.
#[export] Hint Extern 1 (harmless _) => (intros ?; done) : keep.

(** ** The handlers *)

(** What a handler for the cell [d] must do: not throw, leave a good state. *)
Definition handles (d : Cell) (h : X bool) : Prop := Safe (holds (good_at d)) h (λ _, holds good).

Lemma handles_keep d h : Keep (holds (good_at d)) h -> handles d h.
Proof. intros H. eapply Safe_weaken; [exact H | done |]. intros a c [Hi [Hg _]]. by split. Qed.

Lemma keep_set_index i : Safe (λ c, holds good c /\ in_prog (prog c) i) (set_currIndex i) (λ _, holds good).
Proof.
  intros c [[Hi Hg] Hr]. split; [by apply Inv_prog|]. unfold good. cbn. by apply PInv_currIndex.
Qed.

Lemma cell_at_spec d P :
  Safe (λ c, holds P c /\ at_index (program (prog c)) (currIndex (prog c)) = Some d) currentCell
    (λ d' c, d' = d /\ holds P c).
Proof.
  intros c [Hc Hd]. unfold currentCell, cell_at, xwp, xbind, getp, lift, gets. cbn. rewrite Hd. by cbn.
Qed.

Lemma good_currentCell d :
  Safe (holds (good_at d)) currentCell (λ d' c, d' = d /\ holds (good_at d) c).
Proof. eapply Safe_pre; [apply cell_at_spec|]. intros c [Hi [Hg Hd]]. by split. Qed.

(** The target of a jump of a well-formed program is in the program. *)
Lemma jump_target_spec d :
  is_jump (cell_id d) = true ->
  Safe (holds (good_at d)) (jump_target d)
    (λ t c, holds (good_at d) c /\ exists i, t = Some i /\ in_prog (prog c) i).
Proof.
  intros Hj c [Hi [Hg Hd]]. unfold jump_target. change (xwp (xret _) _ NoErr c) with
    (xwp (xbind getp (λ p, xret (match data0 d with
        | None => Some (startIndex p)
        | Some (KNum z) => Some (if 0 <=? z then z else startIndex p)
        | Some (KStr s) => if plain_name s then Some (startIndex p) else None
        end))) (λ t c, holds (good_at d) c /\ exists i, t = Some i /\ in_prog (prog c) i) NoErr c).
  pose proof (prog_ok_cell _ _ _ (pi_prog _ _ Hg) Hd) as Hok. unfold cell_ok in Hok.
  rewrite Hj in Hok. cbn [negb orb] in Hok. apply andb_prop in Hok as [_ Hok].
  split; [by split|]. cbn. pose proof (pi_start _ _ Hg) as Hs.
  destruct (data0 d) as [[s|z]|]; cbn in Hok.
  - rewrite Hok. by exists (startIndex (prog c)).
  - destruct (0 <=? z) eqn:E; [|by exists (startIndex (prog c))].
    exists z. split; [done|]. unfold in_prog. zprop. lia.
  - by exists (startIndex (prog c)).
Qed.

Lemma handles_jump d : is_jump (cell_id d) = true -> Safe (holds (good_at d)) jump (λ _, holds good).
Proof.
  intros Hj. unfold jump. eapply Safe_bind; [apply good_currentCell|]. intros d'.
  eapply Safe_bind with (Q := λ t c, holds (good_at d) c /\ exists i, t = Some i /\ in_prog (prog c) i).
  - intros c [-> Hc]. by apply jump_target_spec.
  - intros t. eapply Safe_bind with (Q := λ _, holds good); [|intros; apply Safe_ret].
    intros c [[Hi [Hg _]] (i & -> & Hr)]. by apply keep_set_index.
Qed.

(** Entering a level. *)
Definition pushed (p : ProgramCondition) : ProgramCondition :=
  let p := pc_stackDepth (stackDepth p + 1) p in
  match at_index (stack p) (stackDepth p) with
  | None => pc_stack (stack p ++ [new_ProgramStack]) p
  | Some s => set_frame (stackDepth p) (ProgramStack_reset s) p
  end.

Lemma push_frame_eq c : push_frame c = (inr tt, c_bot (b_prog (pushed (prog c)) (bot c)) c).
Proof.
  unfold push_frame, pushed, xbind, upd, lift, on_bot, getp, gets. cbn.
  unfold prog. by destruct (at_index (stack (programCondition (bot c))) _).
Qed.

Lemma push_frame_spec d : Safe (holds (good_at d)) push_frame (λ _, holds (half_at d)).
Proof.
  intros c [Hi [[H1 H2 H3 H4 H5 H6] Hd]]. unfold xwp. rewrite push_frame_eq.
  split; [by apply Inv_prog|]. cbn. unfold pushed. set (p := prog c) in *. cbn [stack stackDepth pc_stackDepth].
  destruct (at_index (stack p) (stackDepth p + 1)) as [s|] eqn:E.
  - assert (0 <= stackDepth p + 1 < Z.of_nat (length (stack p))) as Hl.
    { unfold at_index in E. destruct (0 <=? _) eqn:E0; [|done]. apply lookup_lt_Some in E. zprop. lia. }
    split; [|cbn; split; [lia | done]]. cbn.
    split; cbn; try done; [rewrite length_insert; lia|].
    intros i Hr. cbn. rewrite at_index_insert_ne by lia. apply H5. lia.
  - assert (Z.of_nat (length (stack p)) = stackDepth p + 1) as Hl.
    { unfold at_index in E. destruct (0 <=? _) eqn:E0; zprop; [|lia].
      apply lookup_ge_None in E. lia. }
    split; [|cbn; split; [lia | done]]. cbn.
    split; cbn; try done; [rewrite length_app; cbn; lia|].
    intros i Hr. cbn. unfold at_index. replace (0 <=? i) with true by lia.
    rewrite lookup_app_l by lia. destruct (H5 i) as (s & Es & Hs); [lia|].
    unfold at_index in Es. replace (0 <=? i) with true in Es by lia. by exists s.
Qed.

Lemma prevStack_spec d : Keep (holds (half_at d)) prevStack.
Proof.
  intros c [Hi (Hp & Hd & Hc)]. unfold prevStack, xwp, xbind, getp, lift, gets. cbn.
  destruct (at_index_Some (stack (prog c)) (stackDepth (prog c) - 1)) as [s Es].
  { pose proof (pi_depth _ _ Hp). lia. }
  rewrite Es. by cbn.
Qed.

Lemma remember_return_spec d : Safe (holds (half_at d)) remember_return (λ _, holds (good_at d)).
Proof.
  intros c [Hi (Hp & Hd & Hc)]. unfold remember_return, on_currentStack, currentStack, xwp.
  unfold xbind, getp, lift, gets. cbn [fst snd].
  destruct (at_index_Some (stack (prog c)) (stackDepth (prog c))) as [s Es]; [apply Hp|].
  rewrite Es. cbn. split; [by apply Inv_prog|]. split; [|done].
  pose proof (PInv_set_top (s_return (currIndex (prog c)) s) _ Hp) as [H1 H2 H3 H4 H5 H6].
  unfold good. cbn in *. split; try done. intros i Hr. cbn in Hr. fold (prog c) in Hr.
  destruct (Z.eq_dec i (stackDepth (prog c))) as [->|Hne]; [|apply H5; lia].
  cbn. rewrite at_index_insert_eq by apply Hp. eexists. split; [done|]. apply Hp.
Qed.

(** The calls: enter a level, fill its frame, jump. *)
Lemma handles_GO_SUB d : is_jump (cell_id d) = true -> handles d GO_SUB.
Proof.
  intros Hj. unfold handles, GO_SUB. eapply Safe_bind; [apply push_frame_spec|]. intros ?.
  eapply Safe_bind; [apply remember_return_spec|]. intros ?. by apply handles_jump.
Qed.

Lemma handles_frame d (m : ProgramStack -> X unit) :
  is_jump (cell_id d) = true -> (forall s, Keep (holds (good_at d)) (m s)) ->
  Safe (holds (good_at d)) (push_frame >! let! prev := prevStack in remember_return >! m prev >! jump)
    (λ _, holds good).
Proof.
  intros Hj Hm. eapply Safe_bind; [apply push_frame_spec|]. intros ?.
  eapply Safe_bind; [apply prevStack_spec|]. intros s.
  eapply Safe_bind; [apply remember_return_spec|]. intros ?.
  eapply Safe_bind; [apply Hm|]. intros ?. by apply handles_jump.
Qed.

(** Sequencing associates. *)
Lemma Safe_assoc {A B C} P (m : X A) (k : X B) (l : X C) Q :
  Safe P ((m >! k) >! l) Q -> Safe P (m >! k >! l) Q.
Proof.
  intros H c Hc. specialize (H c Hc). unfold xwp, xbind in *.
  destruct (m c) as [[e|a] c1]; [done|]. by destruct (k c1) as [[e|b] c2].
Qed.

Lemma handles_GO_STATE d : is_jump (cell_id d) = true -> handles d GO_STATE.
Proof.
  intros Hj. unfold handles, GO_STATE.
  eapply Safe_bind; [apply push_frame_spec|]. intros ?.
  eapply Safe_bind; [apply prevStack_spec|]. intros s.
  eapply Safe_bind; [apply remember_return_spec|]. intros ?.
  do 3 (eapply Safe_bind; [apply keep_on_currentStack; [apply stable_good_at | done]|]; intros ?).
  by apply handles_jump.
Qed.

Lemma handles_GO_FUNC d : is_jump (cell_id d) = true -> handles d GO_FUNC.
Proof.
  intros Hj. unfold handles, GO_FUNC.
  eapply Safe_bind; [apply push_frame_spec|]. intros ?.
  eapply Safe_bind; [apply prevStack_spec|]. intros s.
  eapply Safe_bind; [apply remember_return_spec|]. intros ?.
  eapply Safe_bind with (Q := λ _, holds (good_at d)).
  { apply Safe_if; [|apply Safe_ret].
    apply Keep_bind; [|intros ?]; apply keep_on_currentStack; done || apply stable_good_at. }
  intros ?. eapply Safe_bind; [apply keep_on_currentStack; [apply stable_good_at | done]|]. intros ?.
  by apply handles_jump.
Qed.

(** Read the cell and its target, then go on. *)
Lemma handles_target d (k : option Z -> X bool) :
  is_jump (cell_id d) = true ->
  (forall i, Safe (λ c, holds good c /\ in_prog (prog c) i) (k (Some i)) (λ _, holds good)) ->
  handles d (let! d := currentCell in let! t := jump_target d in k t).
Proof.
  intros Hj Hk. unfold handles. eapply Safe_bind; [apply good_currentCell|]. intros d'.
  eapply Safe_bind with (Q := λ t c, holds (good_at d) c /\ exists i, t = Some i /\ in_prog (prog c) i).
  - intros c [-> Hc]. by apply jump_target_spec.
  - intros t c [[Hi [Hg _]] (i & -> & Hr)]. by apply Hk.
Qed.

Lemma handles_GO_TO d : is_jump (cell_id d) = true -> handles d GO_TO.
Proof.
  intros Hj. apply handles_target; [done|]. intros i.
  eapply Safe_bind; [apply keep_set_index|]. intros ?.
  do 2 (eapply Safe_bind; [apply keep_on_currentStack; [apply stable_good | done]|]; intros ?).
  apply Safe_ret.
Qed.

Lemma frame_off : Keep (holds good) (on_currentStack (s_mode L_off)).
Proof. by apply keep_on_currentStack; [apply stable_good|]. Qed.

Lemma handles_IFs d : is_jump (cell_id d) = true -> handles d IF_TRUE /\ handles d IF_FALSE.
Proof.
  intros Hj.
  assert (forall i (b : ProgramStack -> bool), Safe (λ c, holds good c /\ in_prog (prog c) i)
    (let! s := currentStack in
     if b s then follow (Some i) >! on_currentStack (s_mode L_off) >! xret true
     else on_currentStack (s_mode L_off) >! xret false) (λ _, holds good)) as H.
  { intros i b. eapply Safe_bind with (Q := λ _ c, holds good c /\ in_prog (prog c) i).
    - intros c [[Hi Hc] Hr]. unfold currentStack, xwp, xbind, getp, lift, gets. cbn.
      destruct (good_top _ Hc) as [s Hs]. rewrite Hs. by cbn.
    - intros s. apply Safe_if.
      + eapply Safe_bind; [apply keep_set_index|]. intros ?.
        eapply Safe_bind; [apply frame_off | intros ?; apply Safe_ret].
      + eapply Safe_pre with (P' := holds good); [|by intros c []].
        eapply Safe_bind; [apply frame_off | intros ?; apply Safe_ret]. }
  split; (apply handles_target; [done|]; intros i).
  - apply (H i (λ s, negb (logicalValue s) || bool_decide (mode_logic s = L_off))).
  - apply (H i (λ s, logicalValue s && negb (bool_decide (mode_logic s = L_off)))).
Qed.

Lemma xwp_getp (Q : ProgramCondition -> Ctx -> Prop) E c : Q (prog c) c -> xwp getp Q E c.
Proof. done. Qed.

Lemma xwp_upd f (Q : unit -> Ctx -> Prop) E c : Q tt (c_bot (b_prog (f (prog c)) (bot c)) c) -> xwp (upd f) Q E c.
Proof. done. Qed.

(** The returns. *)
Lemma handles_returning d f :
  (forall s, Keep (holds good) (f s)) -> handles d (returning f).
Proof.
  intros Hf c [Hi [Hg Hd]]. unfold returning. apply xwp_bind, xwp_getp.
  apply xwp_if; intros E; [|by apply xwp_ret].
  apply xwp_bind. destruct (good_top _ Hg) as [s Es].
  apply (xwp_mono _ (λ s' c', s' = s /\ c' = c) NoErr); [|intros s' c' [-> ->] | done].
  { unfold currentStack, xwp, xbind, getp, lift, gets. cbn. by rewrite Es. }
  zprop. destruct (pi_frames _ _ Hg (stackDepth (prog c))) as (s0 & Es0 & Hr); [lia|].
  rewrite Es in Es0. injection Es0 as <-.
  unfold set_currIndex. apply xwp_bind, xwp_upd, xwp_bind. set (c1 := c_bot _ c).
  apply xwp_upd. set (c2 := c_bot _ c1).
  assert (holds good c2) as H2.
  { split; [by apply Inv_prog, Inv_prog|]. destruct Hg as [H1 H2 H3 H4 H5 H6].
    subst c2 c1. unfold good. cbn. split; cbn; try done; [lia|].
    intros i Hir. apply H5. cbn in Hir. fold (prog c) in Hir. lia. }
  apply xwp_bind. eapply xwp_mono; [by apply Hf | | done]. intros ? c3 H3. by apply xwp_ret.
Qed.

Lemma handles_returns d : handles d RETURN /\ handles d RETURN_FUNK /\ handles d RETURN_STATE.
Proof.
  unfold RETURN, RETURN_FUNK, RETURN_STATE.
  split_and!; apply handles_returning; intros s; auto 10 with keep.
Qed.

(** The empty cell: the scan stays inside the program. *)
Lemma xwp_cell_at i d Q c :
  at_index (program (prog c)) i = Some d -> Q d c -> xwp (cell_at i) Q NoErr c.
Proof. intros Hd HQ. unfold cell_at, xwp, xbind, getp, lift, gets. cbn. by rewrite Hd. Qed.

Lemma good_indices i p : in_prog p i -> good p -> forall j, good (pc_indices j i p).
Proof. intros Hi [] j. by split. Qed.

Lemma empty_scan_spec n i :
  LineLength - i mod LineLength <= Z.of_nat n ->
  Safe (λ c, holds good c /\ in_prog (prog c) i) (empty_scan n i) (λ _, holds good).
Proof.
  revert i. induction n as [|n IH]; intros i Hn c [[Hi Hg] Hr].
  { pose proof (Z.mod_pos_bound i LineLength ltac:(done)). unfold LineLength in *. lia. }
  destruct (at_index_Some (program (prog c)) i) as [d Hd]; [exact Hr|].
  cbn [empty_scan]. apply xwp_bind, (xwp_cell_at i d); [done|].
  apply xwp_if; intros E.
  2:{ apply xwp_bind, xwp_upd, xwp_ret. split; [by apply Inv_prog | by apply good_indices]. }
  apply xwp_if; intros E1.
  { apply xwp_bind, xwp_upd, xwp_ret. split; [by apply Inv_prog|]. apply good_indices; [apply Hg | done]. }
  apply xwp_bind, xwp_getp, xwp_if; intros E2.
  { apply xwp_bind, xwp_upd, xwp_ret. split; [by apply Inv_prog|]. apply good_indices; [apply Hg | done]. }
  apply IH.
  - unfold in_prog in Hr. rewrite Z.rem_mod_nonneg in E1 by (unfold LineLength; lia).
    unfold LineLength in *. zprop. pose proof (Z.mod_pos_bound i 16). pose proof (Z.div_mod i 16).
    assert ((i + 1) mod 16 = i mod 16 + 1) as ->; [|lia].
    symmetry. apply (Z.mod_unique _ _ (i / 16)); lia.
  - split; [by split|]. unfold in_prog, prog_len in *. zprop. lia.
Qed.

Lemma handles_empty d : handles d empty_cell.
Proof.
  intros c [Hi [Hg Hd]]. unfold empty_cell. apply xwp_bind, xwp_getp, empty_scan_spec.
  - pose proof (Z.mod_pos_bound (currIndex (prog c)) LineLength ltac:(done)). unfold LineLength in *. lia.
  - split; [by split | apply Hg].
Qed.

Lemma handles_new_line d : cell_id d = 1 -> handles d new_line.
Proof.
  intros H1 c [Hi [Hg Hd]]. unfold new_line. apply xwp_bind, xwp_getp, xwp_bind, xwp_upd, xwp_ret.
  split; [by apply Inv_prog|]. cbn. apply good_indices; [|done].
  pose proof (prog_ok_cell _ _ _ (pi_prog _ _ Hg) Hd) as Hok. unfold cell_ok in Hok.
  rewrite H1 in Hok. pose proof (pi_curr _ _ Hg) as Hc. unfold in_prog in *.
  change (prog_len (program (prog c))) with (prog_len (program (prog c))) in Hok.
  assert (0 <= currIndex (prog c) / LineLength) by (apply Z.div_pos; [lia | done]).
  assert ((currIndex (prog c) / LineLength + 1) * LineLength < prog_len (program (prog c))); [|unfold LineLength in *; lia].
  destruct ((currIndex (prog c) / LineLength + 1) * LineLength <? prog_len (program (prog c))) eqn:E; [lia|].
  cbn in Hok. done.
Qed.

Lemma handles_start d : handles d start.
Proof.
  unfold handles, start. eapply Safe_bind; [apply Keep_tame, tame_now|]. intros t.
  eapply Safe_bind; [apply keep_upd; [apply stable_good_at | by intros p]|]. intros ?.
  eapply Safe_bind with (Q := λ _, holds good); [|intros; apply Safe_ret].
  apply Safe_upd. intros p [Hg Hd]. destruct Hg. by split.
Qed.

Lemma keep_set_hand P v : stable P -> Keep (holds P) (set_hand v).
Proof.
  intros HP. unfold set_hand. apply Keep_bind; [|intros; apply keep_upd; [done | by intros p]].
  intros c [Hi Hc]. split; [by apply Inv_mode | done].
Qed.

(** [Reset] needs only a frame 0, and leaves a good state. *)
Lemma keep_Reset : Keep (holds good) Reset.
Proof.
  intros c [Hi Hg]. unfold Reset. apply xwp_bind, xwp_getp.
  destruct (at_index_Some (stack (prog c)) 0) as [s0 Es]; [pose proof (pi_depth _ _ Hg); lia|].
  rewrite Es. apply xwp_bind, xwp_ret.
  do 6 apply xwp_bind, xwp_upd.
  apply xwp_bind, xwp_lift, wp_now, xwp_bind, xwp_upd.
  apply keep_set_hand; [apply stable_good|]. split; [eauto 12 with inv|].
  destruct Hg as [H1 H2 H3 H4 H5 H6]. unfold good. cbn. split; try done.
  - unfold in_prog in *. cbn. lia.
  - cbn. rewrite length_insert. lia.
  - intros i Hir. cbn in Hir. lia.
Qed.

Lemma handles_stop d : handles d stop.
Proof.
  unfold handles, stop. eapply Safe_bind with (Q := λ _, holds good).
  - apply Safe_upd. intros p [Hg Hd]. by apply (st_harmless _ stable_good).
  - intros ?. eapply Safe_bind; [apply keep_Reset | intros; apply Safe_ret].
Qed.

(** ** Acting *)

Section act.
Context (P : ProgramCondition -> Prop) (HP : stable P).

Lemma keep_look_reset : Keep (holds P) look_reset.
Proof using HP. unfold look_reset. by apply keep_on_currentStack. Qed.

Lemma keep_do_move s : Keep (holds P) (do_move s).
Proof using HP. unfold do_move. apply Keep_bind; [|intros; apply keep_look_reset]. auto with keep. Qed.

Lemma keep_do_rotate s : Keep (holds P) (do_rotate s).
Proof using HP. unfold do_rotate. apply Keep_bind; [|intros; apply keep_look_reset]. auto with keep. Qed.

Lemma keep_flipped s s' k : (forall s, Keep (holds P) (k s)) -> Keep (holds P) (flipped s s' k).
Proof. intros H. unfold flipped. auto with keep. Qed.

Lemma keep_when_rested act : Keep (holds P) act -> Keep (holds P) (when_rested act).
Proof. intros H. unfold when_rested. auto with keep. Qed.

Lemma keep_rotate_num n : Keep (holds P) (rotate_num n).
Proof. unfold rotate_num. auto with keep. Qed.

Lemma keep_rotate_by k k' : Keep (holds P) (rotate_by k k').
Proof. unfold rotate_by. pose proof keep_rotate_num. auto with keep. Qed.

Lemma keep_view_set f : Keep (holds P) (view_set f).
Proof using HP. unfold view_set. pose proof keep_on_currentStack. auto with keep. Qed.

Lemma keep_view_add f : Keep (holds P) (view_add f).
Proof using HP.
  unfold view_add. apply Keep_bind; [apply Keep_getp | intros p].
  apply Keep_bind; [by apply keep_on_currentStack | intros; apply Keep_ret].
Qed.

Lemma keep_view_turn b k : Keep (holds P) (view_turn b k).
Proof using HP.
  unfold view_turn. apply Keep_bind; [apply Keep_getb | intros b0].
  destruct (dir_offset (rotationIndex b0)); [|apply Keep_ret].
  destruct (dir_offset _); [|apply Keep_ret]. destruct b; [apply keep_view_add | apply keep_view_set].
Qed.

Lemma keep_is_op f : Keep (holds P) (is_op f).
Proof using HP. unfold is_op. auto with keep. Qed.

Lemma keep_mode_op f : Keep (holds P) (mode_op f).
Proof.
  unfold mode_op. apply Keep_bind; [|intros; apply Keep_ret].
  intros c [Hi Hc]. split; [by apply Inv_mode | done].
Qed.
End act.

#[export] Hint Resolve keep_look_reset keep_do_move keep_do_rotate keep_flipped keep_when_rested keep_rotate_num
  keep_rotate_by keep_view_set keep_view_add keep_view_turn keep_is_op keep_mode_op keep_set_hand : keep.
#[export] Hint Extern 1 (forall s, returnIndex _ = returnIndex _) => (intros ?; reflexivity) : keep.

(** ** Variables *)

Section vars.
Context (P : ProgramCondition -> Prop) (HP : stable P).

#[local] Hint Extern 1 (stable _) => exact HP : keep.

Lemma keep_readonly_get s : Keep (holds P) (readonly_get s).
Proof using HP.
  unfold readonly_get. apply Keep_bind; [apply Keep_getb | intros b].
  apply Keep_bind; [apply Keep_getp | intros p].
  repeat (apply Keep_if; [solve [auto 10 with keep]|]); auto 10 with keep.
Qed.

Lemma keep_readonly_prop k : Keep (holds P) (readonly_prop k).
Proof using HP. destruct k; cbn; [apply keep_readonly_get | apply Keep_ret]. Qed.

#[local] Hint Resolve keep_readonly_prop : keep.

Lemma keep_GetValue k : Keep (holds P) (GetValueOfVariable k).
Proof using HP. unfold GetValueOfVariable. auto 10 with keep. Qed.

Lemma keep_vars (f : ProgramCondition -> gmap Key Val) : Keep (holds P) (upd (λ p, pc_vars (f p) p)).
Proof using HP. apply keep_upd; [done|]. by intros p. Qed.

#[local] Hint Resolve keep_GetValue keep_vars : keep.

Lemma keep_SetValue k v : Keep (holds P) (SetValueToVariable k v).
Proof using HP. unfold SetValueToVariable. auto 10 with keep. Qed.

#[local] Hint Resolve keep_SetValue : keep.

Lemma keep_command1 op d : Keep (holds P) (command1 op d).
Proof using HP. unfold command1. auto 20 with keep. Qed.

Lemma keep_command2 op : Keep (holds P) (command2 op).
Proof using HP. unfold command2. auto 20 with keep. Qed.

#[local] Hint Resolve keep_command1 keep_command2 : keep.

Lemma keep_PComands s d : Keep (holds P) (PComands s d).
Proof using HP. unfold PComands. repeat (apply Keep_if; [solve [auto with keep]|]); auto with keep. Qed.

Lemma keep_remember k : Keep (holds P) (remember k).
Proof using HP. unfold remember. apply keep_upd; [done|]. by intros p. Qed.
End vars.

#[export] Hint Resolve keep_readonly_prop keep_vars keep_PComands keep_remember : keep.

Lemma handles_VAR_EQUAL d : handles d VAR_EQUAL.
Proof.
  unfold handles, VAR_EQUAL. eapply Safe_bind; [apply good_currentCell|]. intros d'.
  apply (Safe_pre _ (holds (good_at d))); [|by intros c []]. apply handles_keep.
  destruct (data0 d') as [k|]; [|apply Keep_ret]. apply Keep_if; [|apply Keep_ret].
  apply Keep_bind; [auto with keep|]. intros [n| |]; [auto 10 with keep..|].
  apply Keep_if; [auto 10 with keep|]. apply Keep_bind; [auto with keep|]. intros p.
  destruct (uservariables p !! k) as [[n|]|]; auto 10 with keep.
Qed.

Lemma handles_var_compare d cmp : handles d (var_compare cmp).
Proof.
  unfold handles, var_compare. eapply Safe_bind; [apply good_currentCell|]. intros d'.
  apply (Safe_pre _ (holds (good_at d))); [|by intros c []]. apply handles_keep.
  destruct (data0 d') as [k|]; [|apply Keep_ret]. apply Keep_if; [|apply Keep_ret].
  apply Keep_bind; [auto with keep|]. intros [n| |]; auto 10 with keep.
Qed.

(** ** Macros *)

Lemma rotationIndex_range c : Inv c -> 0 <= rotationIndex (bot c) < 4.
Proof.
  intros Hi. destruct (inv_rotation c Hi) as [E|[E|[E|E]]]; unfold rotationIndex; rewrite E; vm_compute; split; congruence.
Qed.

Lemma Inv_set_rotationIndex v c : 0 <= v -> Inv c -> Inv (c_bot (set_rotationIndex v (bot c)) c).
Proof.
  intros Hv Hi. unfold set_rotationIndex. apply Inv_rotation; [|done].
  rewrite Z.rem_mod_nonneg by lia. pose proof (Z.mod_pos_bound v 4 ltac:(lia)).
  unfold quarter. lia.
Qed.

Lemma BlockLeft_Some c : Inv c -> is_Some (BlockLeft c).
Proof.
  intros Hi. pose proof (rotationIndex_range c Hi). unfold BlockLeft.
  assert (rotationIndex (bot c) = 0 \/ rotationIndex (bot c) = 1 \/ rotationIndex (bot c) = 2 \/
    rotationIndex (bot c) = 3) as [-> | [-> | [-> | ->]]] by lia; eauto.
Qed.

Lemma BlockRight_Some c : Inv c -> is_Some (BlockRight c).
Proof.
  intros Hi. pose proof (rotationIndex_range c Hi). unfold BlockRight.
  assert (rotationIndex (bot c) = 0 \/ rotationIndex (bot c) = 1 \/ rotationIndex (bot c) = 2 \/
    rotationIndex (bot c) = 3) as [-> | [-> | [-> | ->]]] by lia; eauto.
Qed.

(** Reading a neighbour: it is there. *)
Lemma side_cry_spec P (f : Ctx -> option Z) :
  (forall c, Inv c -> is_Some (f c)) ->
  Keep (holds P) (let! l := lift (gets f) in is_cry_of l).
Proof. intros Hf c [Hi Hc]. destruct (Hf c Hi) as [b Hb]. unfold xwp, xbind, lift, gets. cbn. rewrite Hb. by cbn. Qed.

Lemma keep_turn P (k : Z) :
  0 <= k -> Keep (holds P) (updb (λ b, set_rotationIndex (rotationIndex b + k) b)).
Proof.
  intros Hk c [Hi Hc]. split; [|done]. cbn. pose proof (rotationIndex_range c Hi).
  apply (Inv_set_rotationIndex (rotationIndex (bot c) + k) c); [lia | done].
Qed.

Lemma Safe_assoc_k {A B C} P (m : X A) (k : A -> X B) (l : B -> X C) Q :
  Safe P (xbind (xbind m k) l) Q -> Safe P (xbind m (λ a, xbind (k a) l)) Q.
Proof.
  intros H c Hc. specialize (H c Hc). unfold xwp, xbind in *.
  by destruct (m c) as [[e|a] c1].
Qed.

Lemma pinv_cache r p k : match r with Some r => 0 <= r < 4 | None => True end -> PInv k p -> PInv k (pc_rotate_cache r p).
Proof. intros Hr []. by split. Qed.

Lemma handles_DIGG_AROUND d : handles d MACROS_DIGG_AROUND.
Proof.
  apply handles_keep. unfold MACROS_DIGG_AROUND.
  apply Keep_bind; [auto with keep | intros busy]. apply Keep_if; [apply Keep_ret|].
  intros c [Hi [Hg Hd]]. pose proof (rotationIndex_range c Hi) as Hr.
  apply xwp_bind. unfold getb at 1. apply xwp_lift, wp_gets, xwp_bind, xwp_upd.
  set (p1 := match MACROS_rotate_cache (prog c) with None => _ | Some _ => _ end).
  assert (good_at d p1 /\ exists r, MACROS_rotate_cache p1 = Some r /\ 0 <= r) as [Hp1 (r & Er & Hr0)].
  { subst p1. destruct (MACROS_rotate_cache (prog c)) as [r|] eqn:E.
    - split; [done|]. exists r. pose proof (pi_cache _ _ Hg) as Hc. rewrite E in Hc. split; [done | lia].
    - split; [|exists (rotationIndex (bot c)); split; [done | lia]].
      split; [|done]. by apply pinv_cache. }
  apply xwp_bind, xwp_getp. change (prog (c_bot (b_prog p1 (bot c)) c)) with p1. rewrite Er. cbn [default from_option id].
  apply xwp_bind. set (c2 := c_bot (set_rotationIndex r (b_prog p1 (bot c))) c).
  assert (holds (good_at d) c2) as Hc2.
  { split; [|done]. apply (Inv_set_rotationIndex r (c_bot (b_prog p1 (bot c)) c)); [done | by apply Inv_prog]. }
  change (xwp (updb (set_rotationIndex r)) ?Q NoErr (c_bot (b_prog p1 (bot c)) c)) with (Q tt c2). cbv beta.
  clearbody c2. revert c2 Hc2.
  assert (Keep (holds (good_at d)) (lift (drop_result (Digg false)))) as Kd by auto with keep.
  apply (Safe_assoc_k (holds (good_at d))), Keep_bind; [by apply side_cry_spec, BlockLeft_Some|].
  intros l. apply Keep_if.
  { apply Keep_bind; [by apply keep_turn | intros; apply Keep_bind; [done | intros; apply Keep_ret]]. }
  apply (Safe_assoc_k (holds (good_at d))), Keep_bind; [by apply side_cry_spec, BlockRight_Some|].
  intros r'. apply Keep_if.
  { apply Keep_bind; [by apply keep_turn | intros; apply Keep_bind; [done | intros; apply Keep_ret]]. }
  apply Keep_bind; [apply Keep_gets | intros a]. apply Keep_if.
  { apply Keep_bind; [done | intros; apply Keep_ret]. }
  apply Keep_bind; [|intros; apply Keep_bind; [|intros; apply Keep_ret]].
  - apply Safe_upd. intros p [Hp Hpd]. split; [by apply pinv_cache | done].
  - apply Keep_tame, tame_set_cooldown. discriminate.
Qed.

Lemma handles_macros d : handles d MACROS_DIGG /\ handles d MACROS_BLOCK /\ handles d MACROS_HEAL.
Proof.
  destruct (tame_tools false) as (T1 & _ & _ & _ & T5).
  assert (Tame (set_cooldown CD_macros)) as Tc by (apply tame_set_cooldown; discriminate).
  unfold MACROS_DIGG, MACROS_BLOCK, MACROS_HEAL.
  split_and!; apply handles_keep; auto 20 with keep.
Qed.

(** ** The executor *)

(** Every handler of the table. *)
Lemma handler_ok n h d :
  ExecutorList !! n = Some h -> cell_id d = Z.of_nat n -> handles d h.
Proof.
  intros Hn Hd. destruct (tame_tools false) as (T1 & T2 & T3 & T4 & T5).
  destruct (handles_macros d) as (M1 & M2 & M3), (handles_returns d) as (R1 & R2 & R3).
  assert (stable (good_at d)) as St by apply stable_good_at.
  assert (forall n, is_jump (Z.of_nat n) = true -> cell_id d = Z.of_nat n -> is_jump (cell_id d) = true) as Hj.
  { intros m Hm E. by rewrite E. }
  unfold ExecutorList in Hn.
  do 111 (destruct n as [|n];
    [injection Hn as <-;
     first
       [ assumption
       | solve [apply handles_empty] | solve [by apply handles_new_line]
       | solve [apply handles_start] | solve [apply handles_stop]
       | solve [apply handles_DIGG_AROUND] | solve [apply handles_VAR_EQUAL] | solve [apply handles_var_compare]
       | solve [apply handles_GO_SUB; eapply Hj; [|exact Hd]; reflexivity]
       | solve [apply handles_GO_STATE; eapply Hj; [|exact Hd]; reflexivity]
       | solve [apply handles_GO_FUNC; eapply Hj; [|exact Hd]; reflexivity]
       | solve [apply handles_GO_TO; eapply Hj; [|exact Hd]; reflexivity]
       | solve [apply handles_IFs; eapply Hj; [|exact Hd]; reflexivity]
       | solve [apply handles_keep; unfold skip; auto 12 with keep]
       ] |]).
  discriminate Hn.
Qed.

Lemma advance_ok : Keep (holds good) advance.
Proof.
  intros c [Hi Hg]. unfold advance. apply xwp_bind, xwp_getp.
  pose proof (pi_curr _ _ Hg) as Hc. unfold in_prog in Hc.
  pose proof (pi_prog _ _ Hg) as Hp. unfold prog_ok in Hp. apply andb_prop in Hp as [Hp _].
  apply andb_prop in Hp as [_ Hm]. unfold LineLength in *.
  set (i := currIndex (prog c)) in *. set (l := prog_len (program (prog c))) in *.
  pose proof (Z.div_mod i 16). pose proof (Z.mod_pos_bound i 16). pose proof (Z.div_mod l 16).
  apply xwp_if; rewrite Z.rem_mod_nonneg by lia; intros E; zprop; apply xwp_upd;
    (split; [by apply Inv_prog|]); apply PInv_currIndex; try done; unfold in_prog; fold l; lia.
Qed.

(** One call of the executor, as a triple. *)
Lemma Execute_bot_safe : Keep (holds good) Execute_bot.
Proof.
  intros c [Hi Hg].
  unfold Execute_bot. apply xwp_bind, xwp_getp, xwp_if; intros He; [|by apply xwp_ret].
  destruct (at_index_Some (program (prog c)) (currIndex (prog c))) as [d Hd]; [apply Hg|].
  apply xwp_bind, (xwp_cell_at _ d); [done|].
  pose proof (prog_ok_cell _ _ _ (pi_prog _ _ Hg) Hd) as Hok. unfold cell_ok in Hok.
  assert (0 <= cell_id d < 111) as Hid.
  { destruct (0 <=? cell_id d) eqn:E1, (cell_id d <? 111) eqn:E2; try done. lia. }
  destruct (at_index_Some ExecutorList (cell_id d)) as [h Hh]; [exact Hid|].
  apply xwp_bind. rewrite Hh. apply xwp_ret, xwp_bind.
  apply at_index_nat in Hh as (n & En & Hh).
  assert (holds (good_at d) c) as Hat by (split; [done | by split]).
  eapply xwp_mono; [exact (handler_ok n h d Hh En c Hat) | | done].
  intros [] c1 H1; [by apply xwp_ret | by apply advance_ok].
Qed.

(** C2: The executor is type safe: on a well-formed program, from a well-formed
    state, one call of the executor never throws, and leaves the bot, the map
    and the program in a well-formed state again: the current cell and every
    return address lie in the program, the stack pointer lies in the stack. *)
Theorem Execute_safe c :
  Inv c -> good (prog c) ->
  exists c', Execute_bot c = (inr tt, c') /\ Inv c' /\ good (prog c').
Proof.
  intros Hi Hg. pose proof (Execute_bot_safe c (conj Hi Hg)) as H.
  unfold xwp in H. destruct (Execute_bot c) as [[e|[]] c']; [done|]. by exists c'.
Qed.

(** A program that counts to three and calls a subroutine. *)
Definition demo_program : list Cell :=
  line [op 14; mkCell 48 (Some (KStr "n")) (Some (num_of_Z 0)); mkCell 3 (Some (KNum 16)) None; op 15] ++
  line [op 62; op 45].

Lemma Execute_safe_witness :
  exists c', Execute_bot (demo_prog demo_program) = (inr tt, c') /\ Inv c' /\ good (prog c').
Proof.
  apply (Execute_safe (demo_prog demo_program)).
  - apply (Inv_prog _ demo_ctx), (demo_Inv (new_WorldMap 3 3)). by apply wf_Resyze.
  - split; [vm_compute; reflexivity | by vm_compute | by vm_compute | by vm_compute | | done].
    intros i Hi. cbn in Hi. lia.
Defined.
