(* ===== verification/ProgSem.v ===== *)
(** * What single programs do: calls, jumps, variables, and corner cases *)

From S2P Require Import Prelude Host JsNum JsSet Blocks PacksContainer WMap Vec Cargo Machine BotOps BotFacts Programmator ProgFacts ProgSafety.

(** The context with the program state replaced. *)
Definition with_prog (p : ProgramCondition) (c : Ctx) : Ctx := c_bot (b_prog p (bot c)) c.

Lemma with_prog_prog p c : prog (with_prog p c) = p.
Proof. done. Qed.

Lemma with_prog_prog' p c : prog (c_bot (b_prog p (bot c)) c) = p.
Proof. done. Qed.

(** One call of the executor on a known cell. *)
Lemma Execute_bot_eq c d h :
  isExecute (prog c) = true -> at_index (program (prog c)) (currIndex (prog c)) = Some d ->
  at_index ExecutorList (cell_id d) = Some h ->
  Execute_bot c = (let! b := h in if b then xret tt else advance) c.
Proof.
  intros He Hd Hh. unfold Execute_bot, xbind at 1. change (getp c) with (@inr JsError _ (prog c), c).
  cbv beta iota. rewrite He. unfold cell_at, xbind at 1 2.
  change (getp c) with (@inr JsError _ (prog c), c). cbv beta iota.
  rewrite Hd. cbn [some_or_throw]. unfold xret at 1. unfold xbind at 1. by rewrite Hh.
Qed.

(** The index after a handler that leaves the choice to the executor. *)
Definition next_index (i : Z) : Z :=
  if Z.rem i LineLength =? LineLength - 1 then i - (LineLength - 1) else i + 1.

Lemma advance_eq c : advance c = (inr tt, with_prog (pc_set_currIndex (next_index (currIndex (prog c))) (prog c)) c).
Proof.
  unfold advance, next_index, xbind, set_currIndex, upd, lift, on_bot, getp, gets. cbn. unfold prog.
  by destruct (Z.rem _ _ =? _).
Qed.

(** ** Calls *)

#[local] Arguments pushed : simpl never.

(** The state after [GO_SUB] to cell [i]. *)
Definition called (i : Z) (p : ProgramCondition) : ProgramCondition :=
  let p1 := pushed p in
  pc_set_currIndex i (set_frame (stackDepth p1) (s_return (currIndex p) new_ProgramStack) p1).

Lemma pushed_fields p :
  program (pushed p) = program p /\ currIndex (pushed p) = currIndex p /\ startIndex (pushed p) = startIndex p /\
  stackDepth (pushed p) = stackDepth p + 1 /\ isExecute (pushed p) = isExecute p /\
  uservariables (pushed p) = uservariables p.
Proof. unfold pushed. cbv zeta. case_match; done. Qed.

Lemma pushed_top p :
  0 <= stackDepth p < Z.of_nat (length (stack p)) ->
  at_index (stack (pushed p)) (stackDepth p + 1) = Some new_ProgramStack /\
  (forall i, 0 <= i <= stackDepth p -> at_index (stack (pushed p)) i = at_index (stack p) i).
Proof.
  intros Hd. unfold pushed. cbv zeta. cbn [stack stackDepth pc_stackDepth].
  destruct (at_index (stack p) (stackDepth p + 1)) as [s|] eqn:E.
  - assert (stackDepth p + 1 < Z.of_nat (length (stack p))) as Hl.
    { unfold at_index in E. destruct (0 <=? _) eqn:E0; [|done]. apply lookup_lt_Some in E. zprop. lia. }
    cbn. split; [apply at_index_insert_eq; lia|]. intros i Hi. apply at_index_insert_ne; lia.
  - assert (Z.of_nat (length (stack p)) = stackDepth p + 1) as Hl.
    { unfold at_index in E. destruct (0 <=? _) eqn:E0; zprop; [|lia]. apply lookup_ge_None in E. lia. }
    cbn. unfold at_index. split.
    + replace (0 <=? stackDepth p + 1) with true by lia.
      rewrite lookup_app_r by lia. by replace (Z.to_nat (stackDepth p + 1) - length (stack p))%nat with 0%nat by lia.
    + intros i Hi. replace (0 <=? i) with true by lia. apply lookup_app_l. lia.
Qed.

Lemma GO_SUB_eq c d i :
  0 <= stackDepth (prog c) < Z.of_nat (length (stack (prog c))) ->
  at_index (program (prog c)) (currIndex (prog c)) = Some d ->
  data0 d = Some (KNum i) -> 0 <= i ->
  GO_SUB c = (inr true, with_prog (called i (prog c)) c).
Proof.
  intros Hd Hc Hk Hi. unfold GO_SUB, xbind at 1. rewrite push_frame_eq.
  destruct (pushed_top _ Hd) as [Ht _]. destruct (pushed_fields (prog c)) as (Ep & Ec & _ & Es & _).
  unfold remember_return, on_currentStack, currentStack, jump, currentCell, cell_at, jump_target, follow, set_currIndex.
  unfold upd, lift, xbind, getp, gets, on_bot. cbn. rewrite Es, Ht, Ec. cbn. rewrite Ep, Ec, Hc. cbn.
  rewrite Hk. replace (0 <=? i) with true by lia. cbn. unfold called. cbv zeta. by rewrite Es.
Qed.

Lemma Execute_GO_SUB c d i :
  0 <= stackDepth (prog c) < Z.of_nat (length (stack (prog c))) -> isExecute (prog c) = true ->
  at_index (program (prog c)) (currIndex (prog c)) = Some d ->
  cell_id d = 3 -> data0 d = Some (KNum i) -> 0 <= i ->
  (Execute_bot c).2 = with_prog (called i (prog c)) c.
Proof.
  intros Hs He Hd H3 Hk Hi. rewrite (Execute_bot_eq c d GO_SUB He Hd) by by rewrite H3.
  unfold xbind at 1. by rewrite (GO_SUB_eq c d i).
Qed.

(** The state after [RETURN]. *)
Definition returned (s : ProgramStack) (p : ProgramCondition) : ProgramCondition :=
  let p1 := pc_stackDepth (stackDepth p - 1) (pc_set_currIndex (returnIndex s) p) in
  match at_index (stack p1) (stackDepth p1) with
  | Some f => set_frame (stackDepth p1) (s_view (mkV2 0 0) (s_mode L_off f)) p1
  | None => p1
  end.

Lemma RETURN_eq c s f :
  0 < stackDepth (prog c) -> at_index (stack (prog c)) (stackDepth (prog c)) = Some s ->
  at_index (stack (prog c)) (stackDepth (prog c) - 1) = Some f ->
  exists p', RETURN c = (inr false, with_prog p' c) /\ program p' = program (prog c) /\
    isExecute p' = isExecute (prog c) /\ currIndex p' = returnIndex s /\
    stackDepth p' = stackDepth (prog c) - 1 /\ uservariables p' = uservariables (prog c) /\
    at_index (stack p') (stackDepth p') = Some (s_view (mkV2 0 0) (s_mode L_off f)).
Proof.
  intros Hd Hs Hf.
  assert (0 <= stackDepth (prog c) - 1 < Z.of_nat (length (stack (prog c)))) as Hl.
  { unfold at_index in Hf. destruct (0 <=? _) eqn:E0; [|done]. apply lookup_lt_Some in Hf. zprop. lia. }
  unfold RETURN, returning, on_currentStack, currentStack, set_currIndex.
  unfold upd, lift, xbind, getp, gets, on_bot. cbn. replace (0 <? stackDepth (prog c)) with true by lia.
  cbn. rewrite Hs. cbn. fold (prog c). rewrite Hf. cbn. fold (prog c).
  rewrite at_index_insert_eq by done. cbn. fold (prog c).
  eexists. split; [reflexivity|]. cbn. split_and!; try done.
  rewrite at_index_insert_eq; [done|]. by rewrite length_insert.
Qed.

(** A running program at a cell. *)
Definition at_cell (c : Ctx) (d : Cell) : Prop :=
  isExecute (prog c) = true /\ at_index (program (prog c)) (currIndex (prog c)) = Some d.

(** C18: A call and the return right after it come back: executing [GO_SUB] and
    then a [RETURN] at its target resumes at the cell after the call, at the
    same stack depth, with the variables untouched and the frame of the caller
    back, its logic mode off and its view reset. *)
Theorem call_return c d d' i s :
  good (prog c) -> at_cell c d -> cell_id d = 3 -> data0 d = Some (KNum i) -> 0 <= i ->
  at_index (program (prog c)) i = Some d' -> cell_id d' = 45 ->
  at_index (stack (prog c)) (stackDepth (prog c)) = Some s ->
  let c1 := (Execute_bot c).2 in
  let c2 := (Execute_bot c1).2 in
  currIndex (prog c1) = i /\ stackDepth (prog c1) = stackDepth (prog c) + 1 /\
  currIndex (prog c2) = next_index (currIndex (prog c)) /\
  stackDepth (prog c2) = stackDepth (prog c) /\
  uservariables (prog c2) = uservariables (prog c) /\
  at_index (stack (prog c2)) (stackDepth (prog c2)) = Some (s_view (mkV2 0 0) (s_mode L_off s)).
Proof.
  intros Hg [He Hd] Hi3 Hk Hi Hd' H45 Hs. cbv zeta.
  pose proof (pi_depth _ _ Hg) as Hdep.
  destruct (pushed_fields (prog c)) as (Ep & Ec & _ & Es & Ee & Ev).
  destruct (pushed_top _ Hdep) as [Ht Hb].
  set (c1 := with_prog (called i (prog c)) c).
  rewrite (Execute_GO_SUB c d i Hdep He Hd Hi3 Hk Hi). fold c1.
  assert (Hc1 : stackDepth (prog c1) = stackDepth (prog c) + 1 /\ currIndex (prog c1) = i /\
    program (prog c1) = program (prog c) /\ isExecute (prog c1) = true /\
    uservariables (prog c1) = uservariables (prog c)).
  { unfold c1. rewrite with_prog_prog. cbn. rewrite Es, Ep, Ee, Ev. done. }
  destruct Hc1 as (E1 & E2 & E3 & E4 & E5).
  assert (0 <= stackDepth (prog c) + 1 < Z.of_nat (length (stack (pushed (prog c))))) as Hl.
  { unfold at_index in Ht. destruct (0 <=? _) eqn:E0; [|done]. apply lookup_lt_Some in Ht. zprop. lia. }
  destruct (RETURN_eq c1 (s_return (currIndex (prog c)) new_ProgramStack) s) as (p' & Er & F1 & F2 & F3 & F4 & F5 & F6).
  - lia.
  - rewrite E1. unfold c1. rewrite with_prog_prog. cbn. rewrite Es. by apply at_index_insert_eq.
  - rewrite E1. unfold c1. rewrite with_prog_prog. cbn. rewrite Es, at_index_insert_ne by lia.
    rewrite Hb by lia. by replace (stackDepth (prog c) + 1 - 1) with (stackDepth (prog c)) by lia.
  - rewrite (Execute_bot_eq c1 d' RETURN); [|done|by rewrite E2, E3|by rewrite H45].
    unfold xbind. rewrite Er, advance_eq. rewrite !with_prog_prog. cbn [snd].
    assert (stackDepth p' = stackDepth (prog c)) as F4' by lia. rewrite F4' in F6.
    split_and!; [exact E2 | exact E1 | ..]; rewrite with_prog_prog; cbn.
    + by rewrite F3.
    + done.
    + by rewrite F5, E5.
    + by rewrite F4'.
Qed.

Definition demo_call : list Cell := line [mkCell 3 (Some (KNum 16)) None] ++ line [op 45].

Lemma demo_good cells : prog_ok cells = true -> good (prog (demo_prog cells)).
Proof.
  intros H. assert (0 < prog_len cells).
  { unfold prog_ok in H. destruct (0 <? prog_len cells) eqn:E; [lia | done]. }
  split; try done; unfold in_prog; cbn; try lia. intros i Hi. cbn in Hi. lia.
Qed.

Lemma call_return_witness :
  currIndex (prog (Execute_bot (Execute_bot (demo_prog demo_call)).2).2) = 1.
Proof.
  apply (call_return (demo_prog demo_call) (mkCell 3 (Some (KNum 16)) None) (op 45) 16 new_ProgramStack);
    [by apply demo_good | done..].
Defined.

(** *** The stack has no limit *)

(** A call of itself. *)
Definition recursive : list Cell := line [mkCell 3 (Some (KNum 0)) None].

(** [stackDepthMax] is not a limit: no part of the program looks at it, and a
    cell that calls itself makes the stack as deep as one likes, one level per
    call of the executor. *)
Theorem stack_unbounded n :
  stackDepth (prog (Nat.iter n (λ c, (Execute_bot c).2) (demo_prog recursive))) = Z.of_nat n.
Proof.
  enough (let c := Nat.iter n (λ c, (Execute_bot c).2) (demo_prog recursive) in
    stackDepth (prog c) = Z.of_nat n /\ program (prog c) = recursive /\ currIndex (prog c) = 0 /\
    isExecute (prog c) = true /\ 0 <= stackDepth (prog c) < Z.of_nat (length (stack (prog c)))) as H by apply H.
  induction n as [|n IH]; [by cbn|]. rewrite Nat.iter_succ.
  set (c := Nat.iter n _ _) in *. destruct IH as (E1 & E2 & E3 & E4 & E5). cbv zeta.
  assert (at_index (program (prog c)) (currIndex (prog c)) = Some (mkCell 3 (Some (KNum 0)) None)) as Hd.
  { by rewrite E2, E3. }
  rewrite (Execute_GO_SUB c _ 0 E5 E4 Hd) by done. rewrite with_prog_prog.
  destruct (pushed_fields (prog c)) as (Ep & Ec & _ & Es & Ee & Ev). destruct (pushed_top _ E5) as [Ht _].
  cbn. rewrite Ep, Es, Ee, length_insert.
  unfold at_index in Ht. destruct (0 <=? _) eqn:E0; [|done]. apply lookup_lt_Some in Ht. zprop.
  split_and!; try done; lia.
Qed.

(** *** Cells that lead out of the program *)

(** A line feed on the last line leads to the cell after the end: the next
    call of the executor throws a TypeError. *)
Theorem newline_last_line_throws c d :
  at_cell c d -> cell_id d = 1 -> 0 <= currIndex (prog c) < prog_len (program (prog c)) ->
  prog_len (program (prog c)) <= (currIndex (prog c) / LineLength + 1) * LineLength ->
  (Execute_bot c).1 = inr tt /\ (Execute_bot (Execute_bot c).2).1 = inl TypeError.
Proof.
  intros [He Hd] H1 Hr Hl. rewrite (Execute_bot_eq c d new_line He Hd) by by rewrite H1.
  unfold xbind at 1. unfold new_line, xbind, set_currIndex, upd, lift, on_bot, getp, gets. cbn [fst snd xret].
  split; [done|]. unfold Execute_bot, xbind, getp, lift, gets, cell_at. cbn. fold (prog c).
  rewrite He. cbn. unfold at_index.
  replace (0 <=? (currIndex (prog c) / LineLength + 1) * LineLength) with true by (unfold prog_len in *; lia).
  rewrite lookup_ge_None_2; [done|]. unfold prog_len in *. lia.
Qed.

Lemma newline_last_line_throws_witness :
  (Execute_bot (Execute_bot (demo_prog (line [op 1]))).2).1 = inl TypeError.
Proof. apply (newline_last_line_throws (demo_prog (line [op 1])) (op 1)); done. Defined.

(** An update of the program state, all else forgotten. *)
Lemma xwp_upd_prog f (Q : unit -> Ctx -> Prop) E c :
  (forall c', prog c' = f (prog c) -> Q tt c') -> xwp (upd f) Q E c.
Proof. intros H. apply xwp_upd, H. done. Qed.

(** [Reset] as a function of the program state. *)
Definition reset_state (s0 : ProgramStack) (t : Z) (p : ProgramCondition) : ProgramCondition :=
  pc_hand false (pc_timeStart t (pc_rotate_cache None (pc_flip false (pc_set_currIndex 0
    (pc_stackDepth 0 (pc_vars ∅ (set_frame 0 (ProgramStack_reset s0) p))))))).

Lemma Reset_spec c s0 :
  at_index (stack (prog c)) 0 = Some s0 ->
  xwp Reset (λ _ c', exists t, prog c' = reset_state s0 t (prog c)) NoErr c.
Proof.
  intros Hs. unfold Reset. apply xwp_bind, xwp_getp. rewrite Hs. apply xwp_bind, xwp_ret.
  apply xwp_bind, xwp_upd_prog. intros c1 E1. apply xwp_bind, xwp_upd_prog. intros c2 E2.
  apply xwp_bind, xwp_upd_prog. intros c3 E3. apply xwp_bind, xwp_upd_prog. intros c4 E4.
  apply xwp_bind, xwp_upd_prog. intros c5 E5. apply xwp_bind, xwp_upd_prog. intros c6 E6.
  apply xwp_bind, xwp_lift, wp_now, xwp_bind, xwp_upd_prog. intros c7 E7.
  apply xwp_bind. change (xwp (upd (pc_hand false)) (λ _ c', exists t, prog c' = reset_state s0 t (prog c)) NoErr
    (c_bot (b_mode (m_hand false (mode (bot c7))) (bot c7)) c7)).
  apply xwp_upd_prog. intros c8 E8. eexists. rewrite E8.
  change (prog (c_bot (b_mode (m_hand false (mode (bot c7))) (bot c7)) c7)) with (prog c7).
  rewrite E7. change (prog (c_host ?h c6)) with (prog c6). rewrite E6, E5, E4, E3, E2, E1. reflexivity.
Qed.

(** [stop] leaves the program at cell 1, not at its beginning: it resets the
    index to 0, but the executor steps on afterwards, so a program started
    again by the switch key skips its first cell. *)
Theorem stop_leaves_index_one c d s0 :
  at_cell c d -> cell_id d = 15 -> at_index (stack (prog c)) 0 = Some s0 ->
  let c' := (Execute_bot c).2 in
  isExecute (prog c') = false /\ currIndex (prog c') = 1 /\ stackDepth (prog c') = 0 /\
  uservariables (prog c') = ∅ /\ isHandModeActive (prog c') = false.
Proof.
  intros [He Hd] H1 Hs. cbv zeta. rewrite (Execute_bot_eq c d stop He Hd) by by rewrite H1.
  enough (xwp stop (λ b c', b = false /\ isExecute (prog c') = false /\ currIndex (prog c') = 0 /\
    stackDepth (prog c') = 0 /\ uservariables (prog c') = ∅ /\ isHandModeActive (prog c') = false) NoErr c) as H.
  { unfold xwp in H. destruct (stop c) as [[e|b] c1] eqn:Es; [done|].
    cbn [fst snd] in H. destruct H as (-> & E1 & E2 & E3 & E4 & E5).
    assert (((let! b := stop in if b then xret tt else advance) c).2 =
      with_prog (pc_set_currIndex (next_index (currIndex (prog c1))) (prog c1)) c1) as ->.
    { unfold xbind. by rewrite Es, advance_eq. }
    rewrite with_prog_prog. cbn. by rewrite E2. }
  unfold stop. apply xwp_bind, xwp_upd_prog. intros c1 Ep. apply xwp_bind.
  eapply xwp_mono; [apply (Reset_spec c1 s0); by rewrite Ep | | done].
  intros _ c2 [t Et]. apply xwp_ret. rewrite Et, Ep. done.
Qed.

Lemma stop_leaves_index_one_witness : currIndex (prog (Execute_bot (demo_prog (line [op 15]))).2) = 1.
Proof.
  apply (stop_leaves_index_one (demo_prog (line [op 15])) (op 15) new_ProgramStack); done.
Defined.

(** ** Variables *)

(** The variable cache holds the last two names used: after two uses the
    younger is the last and the older the one before, whatever was cached. *)
Theorem VarCacher_last_two v k1 k2 :
  0 <= YoungerIs v <= 1 ->
  let v2 := VarCacher_Set (Some k2) (VarCacher_Set (Some k1) v) in
  Younger v2 = Some k2 /\ Older v2 = Some k1 /\ 0 <= YoungerIs v2 <= 1.
Proof.
  intros Hy. assert (YoungerIs v = 0 \/ YoungerIs v = 1) as [E|E] by lia;
    unfold VarCacher_Set, Younger, Older; rewrite E; cbn; (split; [done|]); (split; [done | by vm_compute]).
Qed.

Lemma VarCacher_last_two_witness :
  Younger (VarCacher_Set (Some (KStr "b")) (VarCacher_Set (Some (KStr "a")) new_VarCacher)) = Some (KStr "b").
Proof. apply (VarCacher_last_two new_VarCacher (KStr "a") (KStr "b")). cbn. lia. Defined.

(** ** Skipping empty cells *)

(** The first cell from [i] on, within [n] cells, that is not empty. *)
Fixpoint first_full (g : list Cell) (n : nat) (i : Z) : option Z :=
  match n with
  | O => None
  | S n =>
      match at_index g i with
      | Some d => if cell_id d =? 0 then first_full g n (i + 1) else Some i
      | None => None
      end
  end.

(** The cells left on the line of [i], itself included. *)
Definition rest_of_line (i : Z) : nat := Z.to_nat (LineLength - i mod LineLength).

Lemma rest_of_line_step i :
  0 <= i -> Z.rem i LineLength <> LineLength - 1 -> rest_of_line i = S (rest_of_line (i + 1)).
Proof.
  intros Hi Hr. rewrite Z.rem_mod_nonneg in Hr by (unfold LineLength; lia).
  unfold rest_of_line, LineLength in *. pose proof (Z.mod_pos_bound i 16). pose proof (Z.div_mod i 16).
  assert ((i + 1) mod 16 = i mod 16 + 1) as ->; [|lia].
  symmetry. apply (Z.mod_unique _ _ (i / 16)); lia.
Qed.

Lemma rest_of_line_last i : 0 <= i -> Z.rem i LineLength = LineLength - 1 -> rest_of_line i = 1%nat.
Proof.
  intros Hi Hr. rewrite Z.rem_mod_nonneg in Hr by (unfold LineLength; lia).
  unfold rest_of_line, LineLength in *. lia.
Qed.

Lemma first_full_beyond g n i : Z.of_nat (length g) <= i -> first_full g n i = None.
Proof.
  intros Hi. destruct n as [|n]; [done|]. cbn. unfold at_index.
  destruct (0 <=? i); [|done]. by rewrite lookup_ge_None_2 by lia.
Qed.

Lemma empty_scan_first n c i :
  (rest_of_line i <= n)%nat -> 0 <= i < prog_len (program (prog c)) ->
  xwp (empty_scan n i) (λ b c', b = true /\
    currIndex (prog c') = default (startIndex (prog c)) (first_full (program (prog c)) (rest_of_line i) i))
    NoErr c.
Proof.
  revert i. induction n as [|n IH]; intros i Hn Hi.
  { unfold rest_of_line in Hn. pose proof (Z.mod_pos_bound i LineLength ltac:(done)).
    unfold LineLength in *. lia. }
  destruct (at_index_Some (program (prog c)) i) as [d Hd]; [exact Hi|].
  cbn [empty_scan]. apply xwp_bind, (xwp_cell_at i d); [done|]. apply xwp_if; intros E0.
  2:{ apply xwp_bind, xwp_upd, xwp_ret. split; [done|]. rewrite with_prog_prog'. cbn [currIndex pc_indices].
      destruct (rest_of_line i) as [|k] eqn:Ek; cbn.
      - unfold rest_of_line in Ek. pose proof (Z.mod_pos_bound i LineLength ltac:(done)).
        unfold LineLength in *. lia.
      - by rewrite Hd, E0. }
  apply xwp_if; intros E1; zprop.
  { apply xwp_bind, xwp_upd, xwp_ret. split; [done|]. rewrite with_prog_prog'. cbn [currIndex pc_indices].
    rewrite rest_of_line_last by lia. cbn. rewrite Hd. by replace (cell_id d =? 0) with true by lia. }
  rewrite (rest_of_line_step i) in * by lia. cbn [first_full]. rewrite Hd.
  replace (cell_id d =? 0) with true by lia.
  apply xwp_bind, xwp_getp, xwp_if; intros E2; zprop.
  - apply xwp_bind, xwp_upd, xwp_ret. split; [done|]. rewrite with_prog_prog'. cbn [currIndex pc_indices].
    by rewrite first_full_beyond.
  - apply IH; [lia|]. unfold prog_len. lia.
Qed.

(** An empty cell sends the program, in one call, to the first cell further on
    the same line that is not empty, and to the start cell when the rest of the
    line (or of the program) is empty; a line has 16 cells, so the search ends
    within 16 steps. *)
Theorem empty_cell_skips c d :
  at_cell c d -> cell_id d = 0 -> 0 <= currIndex (prog c) ->
  (Execute_bot c).1 = inr tt /\
  currIndex (prog (Execute_bot c).2) =
    default (startIndex (prog c))
      (first_full (program (prog c)) (rest_of_line (currIndex (prog c))) (currIndex (prog c))).
Proof.
  intros [He Hd] H0 Hc. rewrite (Execute_bot_eq c d empty_cell He Hd) by by rewrite H0.
  enough (xwp empty_cell (λ b c', b = true /\ currIndex (prog c') = default (startIndex (prog c))
    (first_full (program (prog c)) (rest_of_line (currIndex (prog c))) (currIndex (prog c)))) NoErr c) as H.
  { unfold xwp in H. unfold xbind. destruct (empty_cell c) as [[e|b] c1]; [done|].
    cbn [fst snd] in H. by destruct H as [-> H]. }
  unfold empty_cell. apply xwp_bind, xwp_getp, empty_scan_first.
  - unfold rest_of_line, LineLength. pose proof (Z.mod_pos_bound (currIndex (prog c)) 16). lia.
  - unfold at_index in Hd. destruct (0 <=? _); [|done]. apply lookup_lt_Some in Hd. unfold prog_len. lia.
Qed.

Lemma empty_cell_skips_witness :
  currIndex (prog (Execute_bot (demo_prog (line [op 0; op 0; op 2]))).2) = 2.
Proof.
  destruct (empty_cell_skips (demo_prog (line [op 0; op 0; op 2])) (op 0)) as [_ E]; [done | done | done |].
  rewrite E. vm_compute. reflexivity.
Defined.

(** ** Comparing variables *)

Lemma isWriteble_user k : isWriteble (Some k) = true ->
  key_truthy (Some k) = true /\ is_readonly k = false /\ is_command k = false.
Proof. unfold isWriteble. by destruct (key_truthy (Some k)), (is_readonly k), (is_command k). Qed.

(** A name of the user that is no member of the object of read-only variables. *)
Definition user_name (k : Key) : bool :=
  isWriteble (Some k) &&
  match k with KStr s => negb (bool_decide (s ∈ ("botOwner"%string :: inherited))) | KNum _ => true end.

Lemma readonly_get_other s c :
  s ∉ Readonly_ComandList -> s ∉ ("botOwner"%string :: inherited) -> readonly_get s c = (inr P_undefined, c).
Proof.
  intros H1 H2. unfold readonly_get, xbind. change (getb c) with (@inr JsError _ (bot c), c).
  change (getp c) with (@inr JsError _ (prog c), c). cbv beta iota.
  assert (forall t, t ∈ Readonly_ComandList -> String.eqb s t = false) as Hne.
  { intros t Ht. apply String.eqb_neq. intros ->. done. }
  rewrite !Hne by (apply (bool_decide_unpack _); vm_compute; exact I).
  rewrite not_elem_of_cons in H2. destruct H2 as [H2 H3].
  rewrite (proj2 (String.eqb_neq s "botOwner")) by done. rewrite bool_decide_false by done. done.
Qed.

Lemma readonly_prop_user k c : user_name k = true -> readonly_prop k c = (inr P_undefined, c).
Proof.
  unfold user_name. intros [Hw Hn]%andb_prop. apply isWriteble_user in Hw as (_ & Hr & _).
  destruct k as [s|z]; [|done]. cbn in *. apply negb_true_iff, bool_decide_eq_false in Hn.
  apply bool_decide_eq_false in Hr. by apply readonly_get_other.
Qed.

(** The comparison of [VAR_EQUAL] and [VAR_MORE], as functions of integers. *)
Definition logic_after (s : ProgramStack) (v : bool) : bool :=
  match mode_logic s with
  | L_or => logicalValue s || v
  | L_and => logicalValue s && v
  | _ => v
  end.

(** On a user variable that holds a whole number below 2^53 the comparison
    cells compare exactly, as integers, and combine the result with the logic
    value of the frame by its mode; the compared variable becomes the younger
    one of the cache. *)
Theorem var_compare_exact c d k a b s :
  at_cell c d -> cell_id d = 49 \/ cell_id d = 50 -> data0 d = Some k -> user_name k = true ->
  data1 d = Some (num_of_Z b) -> uservariables (prog c) !! k = Some (Some (num_of_Z a)) ->
  Z.abs a < 2 ^ 53 -> Z.abs b < 2 ^ 53 ->
  0 <= stackDepth (prog c) -> at_index (stack (prog c)) (stackDepth (prog c)) = Some s ->
  0 <= YoungerIs (lastVariables (prog c)) <= 1 ->
  let c' := (Execute_bot c).2 in
  let v := if cell_id d =? 49 then b <? a else a <? b in
  (exists s', at_index (stack (prog c')) (stackDepth (prog c')) = Some s' /\
     logicalValue s' = logic_after s v /\ mode_logic s' <> L_off) /\
  Younger (lastVariables (prog c')) = Some k.
Proof.
  intros [He Hd] Hid Hk Hu Hb Ha Hra Hrb Hdep Hs Hy. cbv zeta.
  set (cmp := if cell_id d =? 49 then val_gtb else val_ltb).
  set (v := if cell_id d =? 49 then b <? a else a <? b).
  assert (Hv : cmp (num_of_Z a) (data1 d) = v).
  { unfold cmp, v. rewrite Hb. destruct (cell_id d =? 49); cbn; by apply num_ltb_of_Z. }
  rewrite (Execute_bot_eq c d (var_compare cmp) He Hd).
  2:{ unfold cmp. by destruct Hid as [-> | ->]. }
  pose proof Hu as Hu'. unfold user_name in Hu'. apply andb_prop in Hu' as [Hw _].
  apply isWriteble_user in Hw as (Ht & _ & _).
  set (s' := match mode_logic s with L_or => s_value (logicalValue s || v) s | L_and => s_value (logicalValue s && v) s
    | L_none => s_value v s | L_off => s_value v (s_mode L_none s) end).
  set (p1 := set_frame (stackDepth (prog c)) s' (prog c)).
  set (p2 := pc_last (VarCacher_Set (Some k) (lastVariables p1)) p1).
  assert (var_compare cmp c = (inr false, with_prog p2 c)) as Hrun.
  { unfold var_compare, xbind at 1. unfold currentCell, cell_at, xbind at 1 2.
    change (getp c) with (@inr JsError _ (prog c), c). cbv beta iota.
    change (getp c) with (@inr JsError _ (prog c), c). cbv beta iota. rewrite Hd.
    cbn [some_or_throw xret]. unfold xret at 1. rewrite Hk, Ht. unfold xbind at 1.
    rewrite readonly_prop_user by done. unfold xbind at 1 2.
    change (getp c) with (@inr JsError _ (prog c), c). cbv beta iota. rewrite Ha, Hv.
    unfold compareWithLogicValue, on_currentStack, currentStack, xbind, getp, lift, gets.
    cbn [fst snd]. rewrite Hs. done. }
  unfold xbind. rewrite Hrun, advance_eq. cbn [snd]. rewrite !with_prog_prog. cbn. split.
  - exists s'. rewrite at_index_insert_eq.
    + split; [done|]. unfold s', logic_after. destruct (mode_logic s) eqn:Em; cbn; by rewrite ?Em.
    + unfold at_index in Hs. destruct (0 <=? _); [|done]. apply lookup_lt_Some in Hs. lia.
  - unfold VarCacher_Set, Younger.
    assert (YoungerIs (lastVariables (prog c)) = 0 \/ YoungerIs (lastVariables (prog c)) = 1) as [-> | ->] by lia; done.
Qed.

Definition demo_var : Ctx :=
  (Execute_bot (demo_prog (line [mkCell 48 (Some (KStr "n")) (Some (num_of_Z 7));
                                 mkCell 49 (Some (KStr "n")) (Some (num_of_Z 3))]))).2.

Lemma var_compare_exact_witness :
  Younger (lastVariables (prog (Execute_bot demo_var).2)) = Some (KStr "n").
Proof.
  apply (var_compare_exact demo_var (mkCell 49 (Some (KStr "n")) (Some (num_of_Z 3))) (KStr "n") 7 3 new_ProgramStack);
    try done. by left.
Defined.
