(* ===== verification/Bots.v ===== *)
(** * The container of bots

    Models [class BotsContainer] of [scripts/bot.js]: an index of the bots by
    chunks of 32x32 cells.  A bot is an object the container shares with the
    rest of the program; here it is its identity, and where the bots stand is
    a function of the identity, read when the code reads [bot.position]. *)

From S2P Require Import Prelude JsNum Vec.

Record BotsContainer := mkBotsContainer {
  bc_width : Z;
  bc_height : Z;
  chunk_width : Z;
  chunk_height : Z;
  (** [chunks]: an array of [Map<Number, Bot>], the missing ones undefined. *)
  chunks : gmap Z (gset Z);
  (** [botlist]: the [lastCindex] of every registered bot. *)
  botlist : gmap Z Z;
  (** the bots whose [onBotMoved] calls the container *)
  listening : gset Z
}.

(** [constructor(width, height)]. *)
Definition new_BotsContainer (w h : Z) : BotsContainer :=
  mkBotsContainer w h (ceil32 w) (ceil32 h) ∅ ∅ ∅.

Definition with_index (cs : gmap Z (gset Z)) (l : gmap Z Z) (ls : gset Z) (c : BotsContainer) : BotsContainer :=
  mkBotsContainer (bc_width c) (bc_height c) (chunk_width c) (chunk_height c) cs l ls.

Definition ChunkIndex2 (c : BotsContainer) (x y : Z) : Z := js_shr x 5 + js_shr y 5 * chunk_width c.
Definition ChunkIndex (c : BotsContainer) (pos : Vector2d) : Z := ChunkIndex2 c (vx pos) (vy pos).

(** [GetChunk(cx, cy)]: [None] is [undefined]. *)
Definition GetChunk (c : BotsContainer) (cx cy : Z) : option (gset Z) :=
  if (0 <=? cx) && (0 <=? cy) && (cx <? chunk_width c) && (cy <? chunk_height c)
  then chunks c !! (cx + cy * chunk_width c) else None.

(** Add a bot to a chunk, creating the chunk when it is missing. *)
Definition chunk_add (ci id : Z) (cs : gmap Z (gset Z)) : gmap Z (gset Z) :=
  <[ci := {[id]} ∪ default ∅ (cs !! ci)]> cs.
Definition chunk_delete (ci id : Z) (cs : gmap Z (gset Z)) : gmap Z (gset Z) :=
  match cs !! ci with Some s => <[ci := s ∖ {[id]}]> cs | None => cs end.

Section positions.
Context (pos : Z -> Vector2d).

(** [_Set(bot)]: a registered bot is left alone. *)
Definition _Set (id : Z) (c : BotsContainer) : BotsContainer :=
  match botlist c !! id with
  | Some _ => c
  | None =>
      let ci := ChunkIndex c (pos id) in
      with_index (chunk_add ci id (chunks c)) (<[id := ci]> (botlist c)) ({[id]} ∪ listening c) c
  end.

(** [Set(bots)] with an array. *)
Definition Set_all (ids : list Z) (c : BotsContainer) : BotsContainer := foldl (λ c id, _Set id c) c ids.

(** [_BotMoved(bot)]: move a bot that left its chunk; reading the data of a
    bot that is not registered, or a missing chunk, throws. *)
Definition _BotMoved (id : Z) (c : BotsContainer) : JsError + BotsContainer :=
  let ci := ChunkIndex c (pos id) in
  let bothere := match chunks c !! ci with Some s => bool_decide (id ∈ s) | None => false end in
  if bothere then inr c
  else
    match botlist c !! id with
    | None => inl TypeError
    | Some last =>
        match chunks c !! last with
        | None => inl TypeError
        | Some _ =>
            inr (with_index (chunk_add ci id (chunk_delete last id (chunks c)))
                   (<[id := ci]> (botlist c)) (listening c) c)
        end
    end.

(** [Delete(bot)]: the bot, or null. *)
Definition Delete (id : Z) (c : BotsContainer) : JsError + (option Z * BotsContainer) :=
  match botlist c !! id with
  | None => inr (None, c)
  | Some last =>
      match chunks c !! last with
      | None => inl TypeError
      | Some _ =>
          inr (Some id, with_index (chunk_delete last id (chunks c)) (delete id (botlist c))
                          (listening c ∖ {[id]}) c)
      end
  end.

(** The bots of a chunk within the radius. *)
Definition within_chunk (x y radius : Z) (o : option (gset Z)) : gset Z :=
  match o with
  | Some s => filter (λ id, V2_within (pos id) x y radius = true) s
  | None => ∅
  end.

(** [GetFromRad(x, y, radius)]. *)
Definition GetFromRad (c : BotsContainer) (x y radius : Z) : gset Z :=
  if radius =? 0 then within_chunk x y radius (GetChunk c (js_shr x 5) (js_shr y 5))
  else
    foldl (λ acc cy,
      foldl (λ acc cx, acc ∪ within_chunk x y radius (GetChunk c cx cy)) acc
        (up_to (js_shr (x - radius) 5) (js_shr (x + radius) 5 + 1)))
      ∅ (up_to (js_shr (y - radius) 5) (js_shr (y + radius) 5 + 1)).

(** ** The invariant: a bot is in exactly one chunk, the one on record *)

Definition indexed (c : BotsContainer) : Prop :=
  forall id ci, botlist c !! id = Some ci <-> exists s, chunks c !! ci = Some s /\ id ∈ s.

(** The record is up to date. *)
Definition synced (c : BotsContainer) : Prop :=
  forall id ci, botlist c !! id = Some ci -> ci = ChunkIndex c (pos id).

Lemma chunk_add_spec ci id cs cj jd :
  (exists s, chunk_add ci id cs !! cj = Some s /\ jd ∈ s) <->
  (cj = ci /\ jd = id) \/ (exists s, cs !! cj = Some s /\ jd ∈ s).
Proof.
  unfold chunk_add. destruct (decide (cj = ci)) as [->|Hne].
  - rewrite lookup_insert_eq. split.
    + intros (s & [= <-] & [H%elem_of_singleton|H]%elem_of_union); [by left|]. right.
      destruct (cs !! ci) as [s'|]; cbn in H; [by exists s' | by apply elem_of_empty in H].
    + intros [[_ ->]|(s & Hs & Hj)]; eexists; (split; [done|]).
      * apply elem_of_union_l, elem_of_singleton. done.
      * rewrite Hs. by apply elem_of_union_r.
  - rewrite lookup_insert_ne by done. split; [by right|]. intros [[? _]|?]; done.
Qed.

Lemma chunk_delete_spec ci id cs cj jd :
  (exists s, chunk_delete ci id cs !! cj = Some s /\ jd ∈ s) <->
  ~ (cj = ci /\ jd = id) /\ (exists s, cs !! cj = Some s /\ jd ∈ s).
Proof.
  unfold chunk_delete. destruct (cs !! ci) as [s0|] eqn:E0.
  - destruct (decide (cj = ci)) as [->|Hne].
    + rewrite lookup_insert_eq, E0. split.
      * intros (s & [= <-] & [H1 H2]%elem_of_difference).
        split; [intros [_ ->]; apply H2; by apply elem_of_singleton | by exists s0].
      * intros (Hn & s & [= <-] & Hj). eexists. split; [done|]. apply elem_of_difference. split; [done|].
        intros ->%elem_of_singleton. by apply Hn.
    + rewrite lookup_insert_ne by done. split; [|by intros [_ ?]]. intros H. split; [by intros []|done].
  - split; [|by intros [_ ?]]. intros (s & Hs & Hj). split; [|by exists s]. intros [-> _]. congruence.
Qed.

Lemma indexed_new w h : indexed (new_BotsContainer w h).
Proof.
  intros id ci. cbn. rewrite lookup_empty. split; [done|]. intros (s & Hs & _). by rewrite lookup_empty in Hs.
Qed.

Lemma indexed_Set id c : indexed c -> indexed (_Set id c).
Proof.
  intros Hi. unfold _Set. destruct (botlist c !! id) as [last|] eqn:E; [done|].
  unfold indexed in Hi. intros jd cj. cbn [chunks botlist with_index]. rewrite chunk_add_spec, <- Hi.
  destruct (decide (jd = id)) as [->|Hne].
  - rewrite lookup_insert_eq, E. split; [intros [= <-]; by left|]. intros [[-> _]|?]; done.
  - rewrite lookup_insert_ne by done. split; [by right|]. intros [[_ ?]|?]; done.
Qed.

Lemma chunk_of_indexed c id last : indexed c -> botlist c !! id = Some last -> is_Some (chunks c !! last).
Proof. intros Hi Hl. apply Hi in Hl as (s & -> & _). done. Qed.

Lemma indexed_move id last ci c :
  indexed c -> botlist c !! id = Some last ->
  indexed (with_index (chunk_add ci id (chunk_delete last id (chunks c))) (<[id := ci]> (botlist c)) (listening c) c).
Proof.
  intros Hi Hl. unfold indexed in Hi. intros jd cj. cbn [chunks botlist with_index]. rewrite chunk_add_spec, chunk_delete_spec, <- Hi.
  destruct (decide (jd = id)) as [->|Hne].
  - rewrite lookup_insert_eq. split; [intros [= <-]; by left|].
    intros [[-> _]|[Hn Hc]]; [done|]. rewrite Hl in Hc. injection Hc as <-. by destruct Hn.
  - rewrite lookup_insert_ne by done. split; [|intros [[_ ?]|[_ ?]]; done].
    intros H. right. split; [by intros []|done].
Qed.

Lemma indexed_Delete id last c :
  indexed c -> botlist c !! id = Some last ->
  indexed (with_index (chunk_delete last id (chunks c)) (delete id (botlist c)) (listening c ∖ {[id]}) c).
Proof.
  intros Hi Hl. unfold indexed in Hi. intros jd cj. cbn [chunks botlist with_index]. rewrite chunk_delete_spec, <- Hi.
  destruct (decide (jd = id)) as [->|Hne].
  - rewrite lookup_delete_eq. split; [done|]. intros [Hn Hc]. rewrite Hl in Hc. injection Hc as <-. by destruct Hn.
  - rewrite lookup_delete_ne by done. split; [|by intros [_ ?]]. intros H. split; [by intros []|done].
Qed.

(** A bot that moved is where its position says. *)
Lemma BotMoved_spec id c :
  indexed c -> is_Some (botlist c !! id) ->
  exists c', _BotMoved id c = inr c' /\ indexed c' /\
    botlist c' = <[id := ChunkIndex c (pos id)]> (botlist c) /\
    chunk_width c' = chunk_width c /\ chunk_height c' = chunk_height c.
Proof.
  intros Hi [last Hl]. unfold _BotMoved.
  destruct (match chunks c !! ChunkIndex c (pos id) with Some s => bool_decide (id ∈ s) | None => false end) eqn:E.
  - exists c. split; [done|]. split; [done|]. split; [|done].
    destruct (chunks c !! ChunkIndex c (pos id)) as [s|] eqn:Es; [|done].
    apply bool_decide_eq_true in E. symmetry. apply insert_id. apply Hi. by exists s.
  - rewrite Hl. destruct (chunk_of_indexed c id last Hi Hl) as [s0 ->].
    eexists. split; [done|]. split; [by apply indexed_move | done].
Qed.
End positions.

(** ** Properties *)

(** Operations of the program on the container; a move changes where a
    registered bot stands and calls the callback. *)
Inductive bots_step : (Z -> Vector2d) * BotsContainer -> (Z -> Vector2d) * BotsContainer -> Prop :=
  | Bots_Set pos c id : bots_step (pos, c) (pos, _Set pos id c)
  | Bots_Move pos c id p c' :
      is_Some (botlist c !! id) ->
      _BotMoved (λ j, if decide (j = id) then p else pos j) id c = inr c' ->
      bots_step (pos, c) (λ j, if decide (j = id) then p else pos j, c')
  | Bots_Delete pos c id o c' :
      Delete id c = inr (o, c') -> bots_step (pos, c) (pos, c').

Definition bots_inv (st : (Z -> Vector2d) * BotsContainer) : Prop := indexed st.2 /\ synced st.1 st.2.

Lemma bots_step_inv st st' : bots_step st st' -> bots_inv st -> bots_inv st'.
Proof.
  intros [pos c id|pos c id p c' Hr Hm|pos c id o c' Hd] [Hi Hs]; cbn in *.
  - split; cbn; [by apply indexed_Set|]. unfold _Set. destruct (botlist c !! id) as [l|] eqn:E; [done|].
    intros jd cj. cbn. destruct (decide (jd = id)) as [->|Hne].
    + rewrite lookup_insert_eq. by intros [= <-].
    + rewrite lookup_insert_ne by done. apply Hs.
  - destruct (BotMoved_spec (λ j, if decide (j = id) then p else pos j) id c Hi Hr) as (c1 & E & Hi1 & Hl & Hw & _). rewrite Hm in E. injection E as <-.
    split; cbn; [done|]. intros jd cj. rewrite Hl. unfold ChunkIndex, ChunkIndex2. rewrite Hw.
    destruct (decide (jd = id)) as [->|Hne].
    + rewrite lookup_insert_eq. intros [= <-]. by rewrite decide_True by done.
    + rewrite lookup_insert_ne by done. intros H%Hs. done.
  - unfold Delete in Hd. destruct (botlist c !! id) as [last|] eqn:E; [|by injection Hd as _ <-].
    destruct (chunks c !! last); [|done]. injection Hd as _ <-. split; cbn; [by apply indexed_Delete|].
    intros jd cj. cbn. intros [_ H]%lookup_delete_Some. by apply Hs.
Qed.

Lemma bots_steps_inv st st' : rtc bots_step st st' -> bots_inv st -> bots_inv st'.
Proof. induction 1 as [|x y z Hxy _ IH]; [done|]. intros Hx. by apply IH, (bots_step_inv x). Qed.

(** C13: However bots are registered, moved and deleted, every registered bot is in
    exactly one chunk, the one its position says, and no other bot is in any
    chunk; and the callback of a registered bot never throws. *)
Theorem bots_index_correct w h pos0 st :
  rtc bots_step (pos0, new_BotsContainer w h) st ->
  let '(pos, c) := st in
  (forall id ci, (exists s, chunks c !! ci = Some s /\ id ∈ s) <->
     is_Some (botlist c !! id) /\ ci = ChunkIndex c (pos id)) /\
  (forall id p, is_Some (botlist c !! id) ->
     exists c', _BotMoved (λ j, if decide (j = id) then p else pos j) id c = inr c').
Proof.
  intros Hst. assert (bots_inv st) as [Hi Hs].
  { apply (bots_steps_inv _ _ Hst). split; [apply indexed_new|]. intros id ci. cbn. by rewrite lookup_empty. }
  destruct st as [pos c]. cbn in *. split.
  - unfold indexed in Hi. intros id ci. rewrite <- Hi. split.
    + intros Hl. split; [by eexists | by apply Hs].
    + intros [[cj Hl] ->]. by rewrite <- (Hs _ _ Hl).
  - intros id p Hl. destruct (BotMoved_spec (λ j, if decide (j = id) then p else pos j) id c Hi Hl) as (c' & -> & _).
    by exists c'.
Qed.

Definition demo_pos (id : Z) : Vector2d := if id =? 7 then mkV2 40 33 else mkV2 1 1.

Lemma bots_index_correct_witness :
  is_Some (botlist (_Set demo_pos 7 (new_BotsContainer 64 64)) !! 7) /\
  exists s, chunks (_Set demo_pos 7 (new_BotsContainer 64 64)) !! 3 = Some s /\ 7 ∈ s.
Proof.
  split; [vm_compute; by eexists|].
  apply (bots_index_correct 64 64 demo_pos (demo_pos, _Set demo_pos 7 (new_BotsContainer 64 64))).
  - eapply rtc_l; [apply Bots_Set | reflexivity].
  - split; [vm_compute; by eexists | vm_compute; reflexivity].
Defined.

(** ** Search *)

Section search.
Context (pos : Z -> Vector2d) (c : BotsContainer).

(** A union over a rectangle of chunks. *)
Lemma scan_rows (f : Z -> Z -> gset Z) xs ys (acc : gset Z) id :
  id ∈ foldl (λ acc cy, foldl (λ acc cx, acc ∪ f cx cy) acc xs) acc ys <->
  id ∈ acc \/ exists cx cy, cx ∈ xs /\ cy ∈ ys /\ id ∈ f cx cy.
Proof.
  assert (forall cy (acc : gset Z), id ∈ foldl (λ acc cx, acc ∪ f cx cy) acc xs <->
    id ∈ acc \/ exists cx, cx ∈ xs /\ id ∈ f cx cy) as Hrow.
  { intros cy. induction xs as [|a xs' IH]; intros acc'; cbn [foldl]; [set_solver|].
    rewrite IH. set_solver. }
  revert acc. induction ys as [|b ys IH]; intros acc; cbn [foldl]; [set_solver|].
  rewrite IH, Hrow. set_solver.
Qed.

Lemma within_chunk_spec x y r o id :
  id ∈ within_chunk pos x y r o <-> exists s, o = Some s /\ id ∈ s /\ V2_within (pos id) x y r = true.
Proof.
  unfold within_chunk. destruct o as [s|]; [|set_solver].
  rewrite elem_of_filter. split; [intros []; by exists s | by intros (s' & [= <-] & ? & ?)].
Qed.

Lemma GetFromRad_spec x y r id :
  id ∈ GetFromRad pos c x y r <->
  exists cx cy s, js_shr (x - r) 5 <= cx <= js_shr (x + r) 5 /\ js_shr (y - r) 5 <= cy <= js_shr (y + r) 5 /\
    GetChunk c cx cy = Some s /\ id ∈ s /\ V2_within (pos id) x y r = true.
Proof.
  unfold GetFromRad. destruct (Z.eqb_spec r 0) as [->|Hr].
  - rewrite within_chunk_spec, !Z.sub_0_r, !Z.add_0_r. split.
    + intros (s & H). exists (js_shr x 5), (js_shr y 5), s. split; [lia|]. by split; [lia|].
    + intros (cx & cy & s & Hx & Hy & H). exists s.
      by replace (js_shr x 5) with cx by lia; replace (js_shr y 5) with cy by lia.
  - rewrite scan_rows. split.
    + intros [H|(cx & cy & Hx & Hy & H)]; [set_solver|]. rewrite elem_of_up_to in Hx, Hy.
      apply within_chunk_spec in H as (s & Hs). exists cx, cy, s. split; [lia|]. by split; [lia|].
    + intros (cx & cy & s & Hx & Hy & H). right. exists cx, cy. rewrite !elem_of_up_to.
      split; [lia|]. split; [lia|]. apply within_chunk_spec. by exists s.
Qed.
End search.

Lemma GetChunk_chunks c cx cy s : GetChunk c cx cy = Some s -> chunks c !! (cx + cy * chunk_width c) = Some s.
Proof. unfold GetChunk. by case_match. Qed.

(** C17: The search by radius, in a container whose index is correct (worlds and radii
    below 2^30 cells): whatever it returns is registered and stands within the radius;
    and of the bots that stand inside the world it returns all that are registered and within
    the radius.  Of the bots outside it may miss some ([GetFromRad_outside]). *)
Theorem GetFromRad_exact pos c x y r id
    (Hi : indexed c) (Hs : synced pos c) (Hcw : chunk_width c = ceil32 (bc_width c)) (Hch : chunk_height c = ceil32 (bc_height c))
    (Hr : 0 <= r < 2 ^ 30) (Hx : 0 <= x < 2 ^ 30) (Hy : 0 <= y < 2 ^ 30) (Hw : bc_width c < 2 ^ 30) (Hh : bc_height c < 2 ^ 30) :
  (id ∈ GetFromRad pos c x y r -> is_Some (botlist c !! id) /\ V2_within (pos id) x y r = true) /\
  (0 <= vx (pos id) < bc_width c -> 0 <= vy (pos id) < bc_height c ->
   id ∈ GetFromRad pos c x y r <-> is_Some (botlist c !! id) /\ V2_within (pos id) x y r = true).
Proof.
  assert (id ∈ GetFromRad pos c x y r -> is_Some (botlist c !! id) /\ V2_within (pos id) x y r = true) as Hsound.
  { intros (cx & cy & s & _ & _ & Hc & Hin & Hd)%GetFromRad_spec. split; [|done].
    eexists. apply Hi. exists s. split; [by apply GetChunk_chunks | done]. }
  split; [done|]. intros Hpx Hpy. split; [done|]. intros [[ci Hl] Hd]. rewrite GetFromRad_spec.
  destruct (V2_within_box _ _ _ _ Hd) as [Bx By].
  pose proof (Hs _ _ Hl) as Hci. apply Hi in Hl as (s & Hc & Hin).
  exists (js_shr (vx (pos id)) 5), (js_shr (vy (pos id)) 5), s.
  rewrite !js_shr_5 by lia.
  split; [split; apply Z.div_le_mono; lia|]. split; [split; apply Z.div_le_mono; lia|].
  split; [|done].
  pose proof (chunk_in_range (vx (pos id)) (bc_width c) Hpx ltac:(lia)) as Rx.
  pose proof (chunk_in_range (vy (pos id)) (bc_height c) Hpy ltac:(lia)) as Ry.
  rewrite js_shr_5 in Rx, Ry by lia. unfold GetChunk. rewrite Hcw, Hch.
  replace (_ && _ && _ && _) with true by lia. rewrite <- Hc, Hci.
  unfold ChunkIndex, ChunkIndex2. by rewrite !js_shr_5, Hcw by lia.
Qed.

(** A bot left of the world is registered in a chunk that the search does not visit. *)
Lemma GetFromRad_outside :
  let pos (_ : Z) := mkV2 (-1) 5 in let c := _Set pos 7 (new_BotsContainer 64 64) in
  is_Some (botlist c !! 7) /\ V2_within (pos 7) 0 5 3 = true /\ GetFromRad pos c 0 5 3 = ∅.
Proof. vm_compute. split; [by eexists | done]. Qed.

Lemma GetFromRad_exact_witness :
  7 ∈ GetFromRad demo_pos (_Set demo_pos 7 (new_BotsContainer 64 64)) 38 33 5.
Proof.
  apply (GetFromRad_exact demo_pos (_Set demo_pos 7 (new_BotsContainer 64 64)) 38 33 5 7).
  - apply indexed_Set, indexed_new.
  - intros id ci H. change (botlist (_Set demo_pos 7 (new_BotsContainer 64 64))) with (<[7 := 3]> ∅ : gmap Z Z) in H.
    apply lookup_insert_Some in H as [[<- <-]|[_ H]]; [reflexivity|].
    by rewrite lookup_empty in H.
  - reflexivity.
  - reflexivity.
  - lia.
  - lia.
  - lia.
  - reflexivity.
  - reflexivity.
  - vm_compute. split; congruence.
  - vm_compute. split; congruence.
  - split; [vm_compute; by eexists | vm_compute; reflexivity].
Defined.
