(* ===== verification/Packs.v ===== *)
(** * Buildings

    Models [scripts/entitys/entity.js] and the classes of
    [scripts/entitys/packs.js]: the plans of the buildings, their translation
    into grids of blocks, the check of a place and the construction on it. *)

From Stdlib Require Import Ascii.
From S2P Require Import Prelude JsNum JsSet Blocks Host PacksContainer WMap Vec.

(** ** Plans *)

(** [PackConstruction.dictionary]; [None] is undefined. *)
Definition dictionary (c : Ascii.ascii) : option Z :=
  match c with
  | "-" => Some (Block B_empty)
  | "f" => Some (Block B_build_frame)
  | "c" => Some (Block B_build_corner)
  | "e" => Some (Block B_build_entry)
  | "r" => Some (Block B_road)
  | "g" => Some (Block B_g_road)
  | _ => None
  end%char.

(** [parseInt] of one character; [None] is NaN. *)
Definition parseInt_char (c : Ascii.ascii) : option Z :=
  let n := Z.of_nat (Ascii.nat_of_ascii c) in
  if (48 <=? n) && (n <=? 57) then Some (n - 48) else None.

Record Point := mkPoint { pt_x : Z; pt_y : Z; pt_id : option Z }.

(** A construction: [grid] is indexed by column first. *)
Record Construction := mkConstruction {
  grid : list (list Z); c_width : Z; c_height : Z; interactivePoints : list Point }.

(** [plan[x][y]]: row x, character y; [None] is undefined. *)
Definition plan_at (plan : list string) (x y : nat) : option Ascii.ascii :=
  plan !! x ≫= λ row, String.get y row.

(** The block of one cell of the plan.  The test [num != NaN] is true of every
    number, so whatever the dictionary lacks is an interactive point. *)
Definition plan_block (replasenum : Z) (c : option Ascii.ascii) : Z :=
  match c ≫= dictionary with Some b => b | None => replasenum end.
Definition plan_point (x y : nat) (c : option Ascii.ascii) : list Point :=
  match c ≫= dictionary with
  | Some _ => []
  | None => [mkPoint (Z.of_nat x) (Z.of_nat y) (c ≫= parseInt_char)]
  end.

(** [GetBlockGrid(plan, replasenum)]; the first row gives the width. *)
Definition GetBlockGrid (plan : list string) (replasenum : Z) : JsError + Construction :=
  match plan with
  | [] => inl TypeError
  | row :: _ =>
      let w := String.length row in
      let h := length plan in
      inr (mkConstruction
        ((λ y, (λ x, u8 (plan_block replasenum (plan_at plan x y))) <$> seq 0 h) <$> seq 0 w)
        (Z.of_nat w) (Z.of_nat h)
        (concat ((λ y, concat ((λ x, plan_point x y (plan_at plan x y)) <$> seq 0 h)) <$> seq 0 w)))
  end.

(** ** The classes *)

Inductive PackKind :=
  | K_Pack | K_Resp | K_Stock | K_Craft | K_Gun | K_Gate | K_Market | K_UP | K_TP | K_Clans | K_Science.

#[global] Instance PackKind_eq_dec : EqDecision PackKind.
Proof. solve_decision. Defined.

Definition Resp_plan : list string := ["-----"; "-fff-"; "-f1e-"; "-fff-"; "-f2f-"; "-----"]%string.
Definition Stock_plan : list string := ["-----"; "-fff-"; "-f1f-"; "-----"]%string.
Definition Craft_plan : list string := ["-----"; "-cfc-"; "-f1f-"; "-fef-"; "-----"]%string.
Definition Gun_plan : list string := ["-----"; "-f-f-"; "--1--"; "-f-f-"; "-----"]%string.
Definition Market_plan : list string :=
  ["-------"; "-cfefc-"; "-ffeff-"; "-ee1ee-"; "-ffeff-"; "-cfefc-"; "-------"]%string.
Definition UP_plan : list string := ["-----"; "-cfc-"; "-fff-"; "-f1f-"; "-fef-"; "-----"]%string.
Definition TP_plan : list string := ["-----"; "-fff-"; "-f1f-"; "-fef-"; "-----"]%string.
Definition Clans_plan : list string :=
  ["-------"; "-cfffc-"; "-ff1ff-"; "-ffeff-"; "-cfefc-"; "-------"]%string.
Definition Science_plan : list string :=
  ["---fffff---"; "--fff1fff--"; "-cfffefffc-"; "-fff---fff-"; "-cfc---cfc-"; "-----------"]%string.

(** The plan of a class, and what its digits become; the base class and the
    gate have none. *)
Definition plan_of (k : PackKind) : option (list string * Z) :=
  let e := Block B_build_entry in
  match k with
  | K_Pack | K_Gate => None
  | K_Resp => Some (Resp_plan, e)
  | K_Stock => Some (Stock_plan, e)
  | K_Craft => Some (Craft_plan, e)
  | K_Gun => Some (Gun_plan, Block B_empty)
  | K_Market => Some (Market_plan, e)
  | K_UP => Some (UP_plan, e)
  | K_TP => Some (TP_plan, e)
  | K_Clans => Some (Clans_plan, e)
  | K_Science => Some (Science_plan, e)
  end.

(** [construction]: [None] is undefined. *)
Definition construction (k : PackKind) : option Construction :=
  match plan_of k with
  | Some (plan, r) => match GetBlockGrid plan r with inr c => Some c | inl _ => None end
  | None => None
  end.

(** The other static attributes. *)
Definition consumeCry (k : PackKind) : option string :=
  match k with K_Resp => Some "b" | K_Gun => Some "c" | _ => None end%string.
Definition onlyClanpack (k : PackKind) : bool := match k with K_Gun => true | _ => false end.
Definition onlyNoClanPack (k : PackKind) : bool := match k with K_Market | K_UP => true | _ => false end.
Definition interactive (k : PackKind) : bool := match k with K_Gate => false | _ => true end.

Record Pack := mkPack {
  kind : PackKind; owner : Z; clan : Z; createTime : Z; hp : Z; hpmax : Z;
  pack_position : option Vector2d }.

(** [new Pack(bot, position)] and its subclasses: of the bot its id and its
    clan are used, [now] is [Date.now()].  The clan of the pack is the id of the
    bot.  Their empty cargos are left out: nothing is ever put in them. *)
Definition new_Pack (k : PackKind) (bot : option (Z * option Z)) (position : option Vector2d)
    (now : Z) : Pack :=
  mkPack k
    (match bot with Some (id, _) => id | None => -1 end)
    (match bot with Some (id, Some _) => id | _ => -1 end)
    now 1000 1000 position.

(** ** Construction *)

(** The cells of the loops: [for (y = cy - dy, by = 0; y <= cy + dy; ..)] around
    [for (x = cx - dx, bx = 0; x <= cx + dx; ..)]. *)
Definition half (n : Z) : Z := Z.quot n 2.
Definition footprint (c : Construction) (cx cy : Z) : list (Z * Z * (nat * nat)) :=
  let dx := half (c_width c) in
  let dy := half (c_height c) in
  concat ((λ j, (λ i, (cx - dx + Z.of_nat i, cy - dy + Z.of_nat j, (i, j)))
                  <$> seq 0 (Z.to_nat (2 * dx + 1)))
            <$> seq 0 (Z.to_nat (2 * dy + 1))).

(** [constr.grid[bx][by]]: a missing column throws, a missing cell is falsy. *)
Definition grid_at (c : Construction) (b : nat * nat) : option Z :=
  (λ line, default 0 (line !! b.2)) <$> grid c !! b.1.

Fixpoint stamp (c : Construction) (cells : list (Z * Z * (nat * nat))) (m : WorldMap)
    : option JsError * WorldMap :=
  match cells with
  | [] => (None, m)
  | (x, y, b) :: cells =>
      match grid_at c b with
      | None => (Some TypeError, m)
      | Some id => stamp c cells (if id =? 0 then m else SetTileWithCoords x y id 0 m)
      end
  end.

(** [Construct(cx, cy, wmap)]: what was thrown, and the map. *)
Definition Construct (k : PackKind) (cx cy : Z) (m : WorldMap) : option JsError * WorldMap :=
  match construction k with
  | None => (Some TypeError, m)
  | Some c => stamp c (footprint c cx cy) m
  end.

(** [BeforeInstalationChack(cx, cy, wmap)]: the blocks in the way.  Its loops
    stop one cell short of those of [Construct]; the gate has its own, empty one. *)
Definition checked (c : Construction) (cx cy : Z) : list (Z * Z) :=
  let dx := half (c_width c) in
  let dy := half (c_height c) in
  concat ((λ y, (λ x, (x, y)) <$> up_to (cx - dx) (cx + dx)) <$> up_to (cy - dy) (cy + dy)).

Definition BeforeInstalationChack (k : PackKind) (cx cy : Z) (m : WorldMap)
    : JsError + option (list (Z * Z * Z)) :=
  match k with
  | K_Gate => inr None
  | _ =>
      match construction k with
      | None => inl TypeError
      | Some c =>
          inr (Some (filter (λ '(_, _, b), solid (stats b) = true)
                       ((λ '(x, y), (x, y, GetIDByCoord m x y)) <$> checked c cx cy)))
      end
  end.

(** ** Facts *)

(** The block a construction has for a place of the world; 0 is none. *)
Definition planned (c : Construction) (cx cy x y : Z) : Z :=
  let i := x - (cx - half (c_width c)) in
  let j := y - (cy - half (c_height c)) in
  if (0 <=? i) && (i <? c_width c) && (0 <=? j) && (j <? c_height c)
  then default 0 (grid_at c (Z.to_nat i, Z.to_nat j)) else 0.

(** A construction whose loops stay inside its grid: as many columns as it is
    wide, an odd number of them, and bytes in them. *)
Definition sound (c : Construction) : bool :=
  (c_width c =? Z.of_nat (length (grid c))) && Z.odd (c_width c) && (0 <=? c_height c) &&
  forallb (λ line, (Z.of_nat (length line) =? c_height c) &&
                   forallb (λ b, (0 <=? b) && (b <? 256)) line) (grid c).

Lemma elem_of_footprint c cx cy x y i j :
  (x, y, (i, j)) ∈ footprint c cx cy <->
  x = cx - half (c_width c) + Z.of_nat i /\ y = cy - half (c_height c) + Z.of_nat j /\
  (i < Z.to_nat (2 * half (c_width c) + 1))%nat /\ (j < Z.to_nat (2 * half (c_height c) + 1))%nat.
Proof.
  unfold footprint. rewrite list_elem_of_In, in_concat. split.
  - intros (l & Hl & Hx). apply list_elem_of_In, list_elem_of_fmap in Hl as (j' & -> & Hj).
    apply list_elem_of_In, list_elem_of_fmap in Hx as (i' & [= -> -> -> ->] & Hi).
    apply elem_of_seq in Hi, Hj. lia.
  - intros (-> & -> & Hi & Hj). eexists. split.
    + apply list_elem_of_In, list_elem_of_fmap. exists j. split; [done|]. apply elem_of_seq. lia.
    + apply list_elem_of_In, list_elem_of_fmap. exists i. split; [done|]. apply elem_of_seq. lia.
Qed.

Lemma sound_facts c : sound c = true ->
  c_width c = Z.of_nat (length (grid c)) /\ 2 * half (c_width c) + 1 = c_width c /\ 0 <= c_height c /\
  c_height c <= 2 * half (c_height c) + 1 /\
  forall line, line ∈ grid c -> Z.of_nat (length line) = c_height c /\ all_bytes line.
Proof.
  unfold sound. intros [[[Hw Ho]%andb_prop Hh]%andb_prop Hl]%andb_prop. zprop.
  rewrite forallb_forall in Hl.
  assert (2 * half (c_width c) + 1 = c_width c).
  { unfold half. apply Z.odd_spec in Ho as [k Hk]. rewrite Z.quot_div_nonneg by lia.
    rewrite Hk at 1. replace (2 * k + 1) with (1 + k * 2) by lia. rewrite Z.div_add by lia.
    change (1 / 2) with 0. lia. }
  split_and!; auto.
  - unfold half. rewrite Z.quot_div_nonneg by lia. pose proof (Z.div_mod (c_height c) 2 ltac:(lia)).
    pose proof (Z.mod_pos_bound (c_height c) 2 ltac:(lia)). lia.
  - intros line Hin. apply list_elem_of_In, Hl, andb_prop in Hin as [H1 H2]. split; [lia|].
    rewrite forallb_forall in H2. apply list.Forall_forall. intros b Hb%list_elem_of_In.
    apply H2 in Hb. unfold is_byte. lia.
Qed.

(** Every cell of the loops has the planned block, a byte. *)
Lemma footprint_planned c cx cy x y b : sound c = true ->
  (x, y, b) ∈ footprint c cx cy ->
  grid_at c b = Some (planned c cx cy x y) /\ is_byte (planned c cx cy x y).
Proof.
  intros Hs. destruct (sound_facts c Hs) as (Hw & Ho & Hh & Hhh & Hl).
  destruct b as [i j]. intros (-> & -> & Hi & Hj)%elem_of_footprint.
  destruct (lookup_lt_is_Some_2 (grid c) i ltac:(lia)) as [line Hline].
  destruct (Hl line) as [Hlen Hb]; [by eapply list_elem_of_lookup_2|].
  unfold planned.
  replace (cx - half (c_width c) + Z.of_nat i - (cx - half (c_width c))) with (Z.of_nat i) by lia.
  replace (cy - half (c_height c) + Z.of_nat j - (cy - half (c_height c))) with (Z.of_nat j) by lia.
  rewrite !Nat2Z.id. unfold grid_at. cbn [fst snd]. rewrite Hline. cbn [fmap option_fmap option_map default].
  destruct (line !! j) as [v|] eqn:Ej.
  - pose proof (lookup_lt_Some _ _ _ Ej).
    replace (_ && _) with true by lia. cbn. split; [done|]. by eapply Forall_lookup_1.
  - apply lookup_ge_None in Ej. replace (_ && _) with false by lia. split; [done | apply byte_0].
Qed.

(** Where a block is planned, it is in the loops. *)
Lemma planned_footprint c cx cy x y : sound c = true ->
  planned c cx cy x y <> 0 -> exists b, (x, y, b) ∈ footprint c cx cy.
Proof.
  intros Hs. destruct (sound_facts c Hs) as (Hw & Ho & Hh & Hhh & Hl).
  unfold planned. destruct (_ && _) eqn:E; [|done]. intros _.
  exists (Z.to_nat (x - (cx - half (c_width c))), Z.to_nat (y - (cy - half (c_height c)))).
  apply elem_of_footprint. lia.
Qed.

Lemma cons_other {A} (x y : A) l : y <> x -> y ∈ l <-> y ∈ x :: l.
Proof. intros H. rewrite elem_of_cons. naive_solver. Qed.

Section stamp.
Context (c : Construction) (f : Z -> Z -> Z).

(** What the loops need of their cells, and of the places a block goes to. *)
Definition gridded (cells : list (Z * Z * (nat * nat))) : Prop :=
  forall x y b, (x, y, b) ∈ cells -> grid_at c b = Some (f x y) /\ is_byte (f x y).
Definition free_places (cells : list (Z * Z * (nat * nat))) (m : WorldMap) : Prop :=
  forall x y, (x, y) ∈ cells.*1 -> f x y <> 0 ->
    ValidCoords m x y = true /\ (solid (stats (f x y)) = true \/ solid (stats (GetIDByCoord m x y)) = false).

Lemma GetID_put m x y x' y' : wf m -> is_byte (f x y) -> ValidCoords m x y = true ->
  solid (stats (f x y)) = true \/ solid (stats (GetIDByCoord m x y)) = false ->
  GetIDByCoord (SetTileWithCoords x y (f x y) 0 m) x' y' =
  if decide ((x', y') = (x, y)) then f x y else GetIDByCoord m x' y'.
Proof.
  intros Hwf Hb Hv Hd. rewrite GetID_SetTileWithCoords by done. rewrite Hv. cbn [andb].
  assert (solid (stats (f x y)) || (cell (terrain m) (idx m x y) =? 0) = true) as ->.
  { destruct Hd as [->|Hd]; [done|]. apply GetID_not_solid in Hd as [_ ->]; [|done]. by rewrite orb_true_r. }
  rewrite andb_true_r. case_decide as E.
  - injection E as -> ->. by rewrite !Z.eqb_refl.
  - destruct (Z.eqb_spec x' x), (Z.eqb_spec y' y); try done. by subst.
Qed.

Lemma stamp_spec cells m : wf m -> gridded cells -> free_places cells m ->
  let r := stamp c cells m in
  r.1 = None /\ wf r.2 /\ same_shape m r.2 /\
  forall x y, GetIDByCoord r.2 x y =
    if decide ((x, y) ∈ cells.*1) then (if f x y =? 0 then GetIDByCoord m x y else f x y)
    else GetIDByCoord m x y.
Proof.
  revert m. induction cells as [|[[x y] b] cells IH]; intros m Hwf Hg Hp.
  { cbn. split_and!; done. }
  destruct (Hg x y b) as [Hgr Hby]; [left|].
  cbn [stamp]. rewrite Hgr.
  assert (Hg' : gridded cells) by (intros ? ? ? ?; apply Hg; by right).
  destruct (Z.eqb_spec (f x y) 0) as [E0|E0].
  - destruct (IH m) as (H1 & H2 & H3 & H4); [done|done|intros ? ? ?; apply Hp; by right|].
    split_and!; try done. intros x' y'. rewrite H4. cbn [fmap list_fmap fst].
    destruct (decide ((x', y') = (x, y))) as [E|E].
    + injection E as -> ->. rewrite E0. cbn. by repeat case_decide.
    + by rewrite (decide_ext _ _ _ _ (cons_other _ _ _ E)).
  - destruct (Hp x y) as [Hv Hd]; [left|done|].
    pose proof (fun x' y' => GetID_put m x y x' y' Hwf Hby Hv Hd) as Hput.
    set (m1 := SetTileWithCoords x y (f x y) 0 m) in *.
    assert (Hsh : same_shape m m1) by apply SetTileWithCoords_shape.
    destruct (IH m1) as (H1 & H2 & H3 & H4).
    + by apply wf_SetTileWithCoords.
    + done.
    + intros x' y' Hin Hf. destruct (Hp x' y') as [Hv' Hd']; [by right|done|].
      split; [by rewrite (same_shape_valid m)|]. rewrite Hput. case_decide as E; [|done].
      injection E as -> ->. destruct (solid (stats (f x y))) eqn:Es; [by left | by right].
    + split_and!; [done|done|by transitivity m1|]. intros x' y'. rewrite H4, !Hput. cbn [fmap list_fmap fst].
      destruct (decide ((x', y') = (x, y))) as [E|E].
      * injection E as -> ->. rewrite (decide_True _ _ (list_elem_of_here _ _)).
        destruct (Z.eqb_spec (f x y) 0); [done|]. by case_decide.
      * by rewrite (decide_ext _ _ _ _ (cons_other _ _ _ E)).
Qed.
End stamp.

(** Every block of every plan lies where the check looks, and is a known byte. *)
Definition covered (c : Construction) : bool :=
  forallb (λ i, forallb (λ j,
      (default 0 (grid_at c (i, j)) =? 0) ||
      ((Z.of_nat i <? 2 * half (c_width c)) && (Z.of_nat j <? 2 * half (c_height c))))
    (seq 0 (Z.to_nat (c_height c)))) (seq 0 (Z.to_nat (c_width c))).

Definition all_kinds : list PackKind :=
  [K_Pack; K_Resp; K_Stock; K_Craft; K_Gun; K_Gate; K_Market; K_UP; K_TP; K_Clans; K_Science].

Lemma plans_ok : forallb (λ k, match construction k with Some c => sound c && covered c | None => true end)
  all_kinds = true.
Proof. vm_compute. reflexivity. Qed.

Lemma construction_ok k c : construction k = Some c -> sound c = true /\ covered c = true.
Proof.
  intros Hc. pose proof plans_ok as H. rewrite forallb_forall in H.
  specialize (H k ltac:(destruct k; cbn; tauto)). cbn beta in H. rewrite Hc in H. by apply andb_prop in H.
Qed.

Lemma planned_checked c cx cy x y : sound c = true -> covered c = true ->
  planned c cx cy x y <> 0 -> (x, y) ∈ checked c cx cy.
Proof.
  intros Hs Hc Hp. destruct (sound_facts c Hs) as (Hw & Ho & Hh & Hhh & Hl).
  unfold planned in Hp. destruct (_ && _) eqn:E; [|done].
  apply andb_prop in E as [[[E1 E2]%andb_prop E3]%andb_prop E4]. zprop.
  unfold covered in Hc. rewrite forallb_forall in Hc.
  specialize (Hc (Z.to_nat (x - (cx - half (c_width c)))) ltac:(apply in_seq; lia)).
  rewrite forallb_forall in Hc.
  specialize (Hc (Z.to_nat (y - (cy - half (c_height c)))) ltac:(apply in_seq; lia)).
  apply orb_prop in Hc as [Hc|[Hc1 Hc2]%andb_prop]; zprop; [by rewrite Hc in Hp|].
  unfold checked. rewrite list_elem_of_In, in_concat. eexists. split.
  - apply list_elem_of_In, list_elem_of_fmap. exists y. split; [done|]. apply elem_of_up_to. lia.
  - apply list_elem_of_In, list_elem_of_fmap. exists x. split; [done|]. apply elem_of_up_to. lia.
Qed.

(** C34: The check protects the construction although its loops are one cell
    shorter: when a building with a plan finds nothing in its way, building it
    raises no error, puts every block of the plan in its place, changes no other
    cell, and no solid block was where a block was put; in particular all of it is
    inside the world. *)
Theorem checked_construction (k : PackKind) (c : Construction) (cx cy : Z) (m : WorldMap)
    (Hwf : wf m) (Hc : construction k = Some c)
    (Hfree : BeforeInstalationChack k cx cy m = inr (Some [])) :
  let r := Construct k cx cy m in
  r.1 = None /\ wf r.2 /\
  (forall x y, GetIDByCoord r.2 x y =
     if planned c cx cy x y =? 0 then GetIDByCoord m x y else planned c cx cy x y) /\
  (forall x y, planned c cx cy x y <> 0 ->
     ValidCoords m x y = true /\ solid (stats (GetIDByCoord m x y)) = false).
Proof.
  destruct (construction_ok k c Hc) as [Hs Hcov].
  assert (Hin : forall x y, (x, y) ∈ checked c cx cy -> solid (stats (GetIDByCoord m x y)) = false).
  { intros x y Hxy. apply not_true_iff_false. intros Hsol.
    assert (Hb : (x, y, GetIDByCoord m x y) ∈ filter (λ '(_, _, b), solid (stats b) = true)
      ((λ '(x, y), (x, y, GetIDByCoord m x y)) <$> checked c cx cy)).
    { apply list_elem_of_filter. split; [done|]. apply list_elem_of_fmap. by exists (x, y). }
    unfold BeforeInstalationChack in Hfree. rewrite Hc in Hfree.
    destruct k; try done; injection Hfree as Hfree; rewrite Hfree in Hb; by apply not_elem_of_nil in Hb. }
  assert (Hfr : forall x y, planned c cx cy x y <> 0 ->
    ValidCoords m x y = true /\ solid (stats (GetIDByCoord m x y)) = false).
  { intros x y Hp. pose proof (Hin x y (planned_checked c cx cy x y Hs Hcov Hp)) as Hn.
    split; [|done]. by apply GetID_not_solid in Hn as [? _]. }
  unfold Construct. rewrite Hc.
  destruct (stamp_spec c (planned c cx cy) (footprint c cx cy) m) as (H1 & H2 & _ & H4); [done| | |].
  - intros x y b. by apply footprint_planned.
  - intros x y _ Hp. destruct (Hfr x y Hp). auto.
  - split_and!; [done|done| |done]. intros x y. rewrite H4.
    destruct (Z.eqb_spec (planned c cx cy x y) 0); [by case_decide|].
    rewrite decide_True; [done|]. destruct (planned_footprint c cx cy x y) as [b Hb]; [done|done|].
    apply list_elem_of_fmap. by exists (x, y, b).
Qed.

Definition demo_site : WorldMap := new_WorldMap 10 10.

Lemma checked_construction_witness :
  BeforeInstalationChack K_TP 5 5 demo_site = inr (Some []) /\
  GetIDByCoord (Construct K_TP 5 5 demo_site).2 4 4 = Block B_build_frame.
Proof.
  split; [vm_compute; reflexivity|].
  destruct (checked_construction K_TP (mkConstruction
     [[0; 0; 0; 0; 0]; [0; 106; 106; 106; 0]; [0; 106; 37; 37; 0]; [0; 106; 106; 106; 0]; [0; 0; 0; 0; 0]]
     5 5 [mkPoint 2 2 (Some 1)]) 5 5 demo_site) as (_ & _ & H & _).
  - apply wf_Resyze; lia.
  - vm_compute. reflexivity.
  - vm_compute. reflexivity.
  - rewrite H. vm_compute. reflexivity.
Defined.

(** A pack belongs to the clan whose number is the id of the bot that built it,
    whatever the clan of the bot. *)
Lemma Pack_clan_is_id k id c pos now : clan (new_Pack k (Some (id, Some c)) pos now) = id.
Proof. done. Qed.
