(* ===== verification/World.v ===== *)
(** * The page: everything that happens to the world of the client

    Models the main program ([scripts/main.js], [scripts/controls.js], the
    messages of [scripts/userGUI/guiControls.js], [ProgramExecutor.Execute] of
    [scripts/programmator.js], [MouseSetBlock] and [Update] of
    [scripts/wrenderer.js]): one map shared by all bots, the keys that are held
    down, and the timers and listeners that act on them.  An [Event] is one run of
    a listener or of a timer, to its end, as the browser runs them. *)

From Stdlib Require Import QArith Qround.
From S2P Require Import Prelude Host JsNum JsSet Blocks PacksContainer WMap Vec Cargo Machine BotOps Geo Programmator.

(** ** State *)

(** [KeyFlags]; a [delta] of [None] is NaN.  [mouse] lists the buttons that were
    pressed or released; a button never touched is falsy. *)
Record KeyFlags := mkKeyFlags {
  kw : bool; ka : bool; ks : bool; kd : bool; kz : bool;
  delta : option Q; shift : bool; ctrl : bool; timePrev : Q; mouse : gmap Z bool; mousepos : Z * Z }.

Definition new_KeyFlags : KeyFlags := mkKeyFlags false false false false false (Some 0%Q) false false 0 ∅ (0, 0).

(** [KeyFlags.Reset()]. *)
Definition KeyFlags_Reset (k : KeyFlags) : KeyFlags :=
  mkKeyFlags false false false false false (Some 0%Q) false false (timePrev k) (mouse k) (mousepos k).

Definition pressed (k : KeyFlags) (button : Z) : bool := default false (mouse k !! button).

(** The world of the page.  [CurrentBot] is a place in [Bots]; [ticking] says
    whether the timer of [ProgTicker] is pending; [inProcess] and [iter] are the
    fields of [GeoPhisics]; a [progTicks] of [None] is not a number. *)
Record World := mkWorld {
  w_host : Host;
  w_map : WorldMap;
  w_ignoreBorders : bool;
  progTicks : option Q;
  Bots : list Bot;
  CurrentBot : option nat;
  keys : KeyFlags;
  windows_map : bool;
  ticking : bool;
  inProcess : bool;
  iter : SetIter;
  w_effects : list Effect }.

Definition w_set_host h w := mkWorld h (w_map w) (w_ignoreBorders w) (progTicks w) (Bots w)
  (CurrentBot w) (keys w) (windows_map w) (ticking w) (inProcess w) (iter w) (w_effects w).
Definition w_set_map m w := mkWorld (w_host w) m (w_ignoreBorders w) (progTicks w) (Bots w)
  (CurrentBot w) (keys w) (windows_map w) (ticking w) (inProcess w) (iter w) (w_effects w).
Definition w_set_ignoreBorders b w := mkWorld (w_host w) (w_map w) b (progTicks w) (Bots w)
  (CurrentBot w) (keys w) (windows_map w) (ticking w) (inProcess w) (iter w) (w_effects w).
Definition w_set_progTicks t w := mkWorld (w_host w) (w_map w) (w_ignoreBorders w) t (Bots w)
  (CurrentBot w) (keys w) (windows_map w) (ticking w) (inProcess w) (iter w) (w_effects w).
Definition w_set_CurrentBot c w := mkWorld (w_host w) (w_map w) (w_ignoreBorders w) (progTicks w) (Bots w)
  c (keys w) (windows_map w) (ticking w) (inProcess w) (iter w) (w_effects w).
Definition w_set_Bots bs w := mkWorld (w_host w) (w_map w) (w_ignoreBorders w) (progTicks w) bs
  (CurrentBot w) (keys w) (windows_map w) (ticking w) (inProcess w) (iter w) (w_effects w).
Definition w_set_keys k w := mkWorld (w_host w) (w_map w) (w_ignoreBorders w) (progTicks w) (Bots w)
  (CurrentBot w) k (windows_map w) (ticking w) (inProcess w) (iter w) (w_effects w).
Definition w_set_windows_map b w := mkWorld (w_host w) (w_map w) (w_ignoreBorders w) (progTicks w) (Bots w)
  (CurrentBot w) (keys w) b (ticking w) (inProcess w) (iter w) (w_effects w).
Definition w_set_ticking b w := mkWorld (w_host w) (w_map w) (w_ignoreBorders w) (progTicks w) (Bots w)
  (CurrentBot w) (keys w) (windows_map w) b (inProcess w) (iter w) (w_effects w).
Definition w_set_geo p i w := mkWorld (w_host w) (w_map w) (w_ignoreBorders w) (progTicks w) (Bots w)
  (CurrentBot w) (keys w) (windows_map w) (ticking w) p i (w_effects w).

Definition current (w : World) : option Bot := CurrentBot w ≫= λ i, Bots w !! i.

(** ** The monad of the listeners *)

Definition W (A : Type) : Type := World -> (JsError + A) * World.
Definition wret {A} (a : A) : W A := λ w, (inr a, w).
Definition wthrow {A} (e : JsError) : W A := λ w, (inl e, w).
Definition wbind {A B} (m : W A) (k : A -> W B) : W B := λ w,
  match m w with (inl e, w') => (inl e, w') | (inr a, w') => k a w' end.
Definition wget {A} (f : World -> A) : W A := λ w, (inr (f w), w).
Definition wupd (f : World -> World) : W unit := λ w, (inr tt, f w).
Definition wwhen (b : bool) (m : W unit) : W unit := if b then m else wret tt.

Declare Scope world_scope.
Delimit Scope world_scope with world.
Notation "'let?' x := m 'in' k" := (wbind m (λ x, k))
  (at level 10, x name, m at level 100, k at level 200) : world_scope.
Notation "m ?; k" := (wbind m (λ _, k)) (at level 100, k at level 200, right associativity) : world_scope.
#[local] Open Scope world_scope.

(** [for (const x of l) f(x)]: a throw ends the loop. *)
Fixpoint wfor {A} (l : list A) (f : A -> W unit) : W unit :=
  match l with [] => wret tt | x :: l => f x ?; wfor l f end.

Definition wnow : W Q := λ w, let '(t, h) := performance_now (w_host w) in (inr t, w_set_host h w).
Definition wrand (lo hi : Z) : W Z := λ w, let '(r, h) := RandInt lo hi (w_host w) in (inr r, w_set_host h w).
(** [Math.random()]. *)
Definition wrandom : W Q := λ w, let '(r, h) := Math_random (w_host w) in (inr r, w_set_host h w).
Definition wkeys (f : KeyFlags -> KeyFlags) : W unit := wupd (λ w, w_set_keys (f (keys w)) w).
Definition wmapf (f : WorldMap -> WorldMap) : W unit := wupd (λ w, w_set_map (f (w_map w)) w).

(** What an operation of bot [b] sees of the world, and the world after it. *)
Definition enter (w : World) (b : Bot) : Ctx :=
  mkCtx (w_host w) (w_map w) (w_ignoreBorders w) b (w_effects w).
Definition leave (i : nat) (c : Ctx) (w : World) : World :=
  mkWorld (host c) (wmap c) (w_ignoreBorders w) (progTicks w) (<[i := bot c]> (Bots w))
    (CurrentBot w) (keys w) (windows_map w) (ticking w) (inProcess w) (iter w) (effects c).

(** An operation of the i-th bot; of no bot, a property of undefined is read. *)
Definition in_bot {A} (i : nat) (m : X A) : W A := λ w,
  match Bots w !! i with
  | Some b => let '(r, c) := m (enter w b) in (r, leave i c w)
  | None => (inl TypeError, w)
  end.
Definition in_current {A} (m : X A) : W A :=
  let? c := wget CurrentBot in
  match c with Some i => in_bot i m | None => wthrow TypeError end.
Definition all_bots (f : nat -> W unit) : W unit :=
  let? n := wget (λ w, length (Bots w)) in wfor (seq 0 n) f.

(** ** Programs *)

(** [ProgramExecutor.Execute()]. *)
Definition Execute : W unit := all_bots (λ i, in_bot i Execute_bot).

(** [1000 / WOptions.progTicks < 30]; a division by zero is infinite. *)
Definition many_ticks (t : option Q) : bool :=
  match t with
  | Some t => negb (Qeq_bool t 0) && negb (Qle_bool 30 (1000 / t))
  | None => false
  end.

(** The callback of [ProgTicker]: only at its end the next one is asked for.
    The status sent to the frame of the programmator reads the world only. *)
Definition prog_timer : W unit :=
  let? on := wget ticking in
  if on then
    wupd (w_set_ticking false) ?;
    let? t := wget progTicks in
    wwhen (many_ticks t) (wfor (seq 0 50) (λ _, Execute)) ?;
    Execute ?;
    wupd (w_set_ticking true)
  else wret tt.

(** The R key: start or stop, and reset what was stopped. *)
Definition toggle_program : X unit :=
  upd (λ p, pc_isExecute (negb (isExecute p)) p) >!
  let! p := getp in
  if isExecute p then xret tt else Reset.

Inductive Message :=
  | M_setprogram (g : list Cell) (forAll : bool)
  | M_stop_prog
  | M_start_prog
  | M_other.

Definition set_program (g : list Cell) : X unit := upd (pc_program g) >! Reset.

(** [window.onmessage], the program already parsed. *)
Definition onmessage (m : Message) : W unit :=
  match m with
  | M_setprogram g true => all_bots (λ i, in_bot i (set_program g))
  | M_setprogram g false => in_current (set_program g)
  | M_stop_prog => in_current (Reset >! upd (pc_isExecute false))
  | M_start_prog => in_current (Reset >! upd (pc_isExecute true))
  | M_other => wret tt
  end.

(** ** The keyboard *)

Inductive KeyCode :=
  | K_up | K_right | K_down | K_left | K_Shift | K_Control | K_F | K_V | K_Space | K_J | K_H | K_Z
  | K_Y | K_G | K_M | K_E | K_R | K_C | K_other.

(** [event.code]. *)
Definition KeyCode_of (code : string) : KeyCode :=
  if (code =? "KeyW")%string || (code =? "ArrowUp")%string then K_up
  else if (code =? "KeyD")%string || (code =? "ArrowRight")%string then K_right
  else if (code =? "KeyS")%string || (code =? "ArrowDown")%string then K_down
  else if (code =? "KeyA")%string || (code =? "ArrowLeft")%string then K_left
  else if (code =? "ShiftLeft")%string || (code =? "ShiftRight")%string then K_Shift
  else if (code =? "ControlLeft")%string || (code =? "ControlRight")%string then K_Control
  else if (code =? "KeyF")%string then K_F
  else if (code =? "KeyV")%string then K_V
  else if (code =? "Space")%string then K_Space
  else if (code =? "KeyJ")%string then K_J
  else if (code =? "KeyH")%string then K_H
  else if (code =? "KeyZ")%string then K_Z
  else if (code =? "KeyY")%string then K_Y
  else if (code =? "KeyG")%string then K_G
  else if (code =? "KeyM")%string then K_M
  else if (code =? "KeyE")%string then K_E
  else if (code =? "KeyR")%string then K_R
  else if (code =? "KeyC")%string then K_C
  else K_other.

Definition held (k : KeyFlags) (c : KeyCode) : bool :=
  match c with
  | K_up => kw k | K_right => kd k | K_down => ks k | K_left => ka k | K_Shift => shift k
  | K_Control => ctrl k | K_Z => kz k | _ => false
  end.
Definition set_held (c : KeyCode) (v : bool) (k : KeyFlags) : KeyFlags :=
  let '(mkKeyFlags w a s d z dt sh ct tp mo mp) := k in
  match c with
  | K_up => mkKeyFlags v a s d z dt sh ct tp mo mp
  | K_left => mkKeyFlags w v s d z dt sh ct tp mo mp
  | K_down => mkKeyFlags w a v d z dt sh ct tp mo mp
  | K_right => mkKeyFlags w a s v z dt sh ct tp mo mp
  | K_Z => mkKeyFlags w a s d v dt sh ct tp mo mp
  | K_Shift => mkKeyFlags w a s d z dt v ct tp mo mp
  | K_Control => mkKeyFlags w a s d z dt sh v tp mo mp
  | _ => k
  end.
Definition k_delta (d : option Q) (k : KeyFlags) : KeyFlags :=
  mkKeyFlags (kw k) (ka k) (ks k) (kd k) (kz k) d (shift k) (ctrl k) (timePrev k) (mouse k) (mousepos k).
Definition k_timePrev (t : Q) (k : KeyFlags) : KeyFlags :=
  mkKeyFlags (kw k) (ka k) (ks k) (kd k) (kz k) (delta k) (shift k) (ctrl k) t (mouse k) (mousepos k).
Definition k_mouse (m : gmap Z bool) (k : KeyFlags) : KeyFlags :=
  mkKeyFlags (kw k) (ka k) (ks k) (kd k) (kz k) (delta k) (shift k) (ctrl k) (timePrev k) m (mousepos k).
Definition k_mousepos (p : Z * Z) (k : KeyFlags) : KeyFlags :=
  mkKeyFlags (kw k) (ka k) (ks k) (kd k) (kz k) (delta k) (shift k) (ctrl k) (timePrev k) (mouse k) p.

(** A movement key goes down: from the first report on, its time counts. *)
Definition direction_down (c : KeyCode) : W unit :=
  let? k := wget keys in
  wwhen (negb (held k c))
    (wkeys (k_delta (Some 0%Q)) ?;
     let? t := wnow in
     wkeys (k_timePrev t) ?; wkeys (set_held c true)).

(** The operations of the tool keys, on behalf of the user. *)
Definition user_tool (c : KeyCode) : option (St unit) :=
  match c with
  | K_F => Some (SetBlock true) | K_V => Some (Heal true) | K_J => Some (SetQuadro true)
  | K_H => Some (SetRoad true) | K_Y => Some (SetWB true) | K_G => Some (UseGeo true)
  | _ => None
  end.

Definition flip_roadignore : X unit :=
  updb (λ b, b_mode (m_roadignore (negb (roadignore (mode b))) (mode b)) b).
Definition flip_autodigg : X unit :=
  updb (λ b, b_mode (m_autodigg (negb (autodigg (mode b))) (mode b)) b).

(** [Math.floor(Math.random() * Bots.length)]; of no bots, undefined. *)
Definition pick_bot : W unit :=
  let? r := wrandom in
  wupd (λ w,
    let i := Z.to_nat (Qfloor (r * inject_Z (Z.of_nat (length (Bots w))))) in
    w_set_CurrentBot (if decide (i < length (Bots w))%nat then Some i else None) w).

(** [Math.round((Math.random() - 0.5) * 10)]. *)
Definition spread : W Z :=
  let? r := wrandom in wret (Qfloor ((r - (1 # 2)) * 10 + (1 # 2))).

(** The C key gathers the other bots at the current one. *)
Definition gather (i : nat) : W unit :=
  let? w := wget (λ w, w) in
  match Bots w !! i with
  | None => wthrow TypeError
  | Some b =>
      match current w with
      | None => wthrow TypeError
      | Some cur =>
          wwhen (negb (bot_id b =? bot_id cur))
            ((if ctrl (keys w) then
                let? dx := spread in
                let? dy := spread in
                in_bot i (lift (Teleport (vx (position cur) + dx) (vy (position cur) + dy)))
              else in_bot i (lift (Teleport (vx (position cur)) (vy (position cur))))) ?;
             if shift (keys w) then
               let? r := wrand 0 3 in in_bot i (updb (b_rotation (r * 90)))
             else in_bot i (updb (b_rotation (rotation cur))))
      end
  end.

(** The listener of [keydown]; [text_input]: the target is a text field. *)
Definition keydown (text_input : bool) (c : KeyCode) : W unit :=
  if text_input then wret tt
  else match c with
  | K_up | K_right | K_down | K_left => direction_down c
  | K_Shift | K_Z => wkeys (set_held c true)
  | K_Control =>
      wkeys (set_held K_Control true) ?;
      let? cur := wget CurrentBot in
      (match cur with Some i => in_bot i flip_roadignore | None => wret tt end)
  | K_F | K_V | K_J | K_H | K_Y | K_G =>
      match user_tool c with Some m => in_current (lift m) | None => wret tt end
  | K_Space => pick_bot
  | K_M => wupd (λ w, w_set_windows_map (negb (windows_map w)) w)
  | K_E => in_current flip_autodigg
  | K_R =>
      let? k := wget keys in
      if shift k then all_bots (λ i, in_bot i toggle_program) else in_current toggle_program
  | K_C => all_bots gather
  | K_other => wret tt
  end.

(** The listener of [keyup]. *)
Definition keyup (c : KeyCode) : W unit :=
  match c with
  | K_up | K_right | K_down | K_left =>
      let? t := wnow in wkeys (k_timePrev t) ?; wkeys (set_held c false)
  | K_Z | K_Shift | K_Control => wkeys (set_held c false)
  | _ => wret tt
  end.

(** [while (KeyFlags.delta > 0) KeyFlags.delta -= CurrentBot.Move(side, true)]:
    an undefined cooldown makes the difference NaN and ends the loop.  [None]
    means that the fuel ran out: the loop may have no end. *)
Fixpoint hold_loop (fuel : nat) (side : Side) (w : World) : option ((JsError + unit) * World) :=
  match delta (keys w) with
  | None => Some (inr tt, w)
  | Some d =>
      if Qle_bool d 0 then Some (inr tt, w)
      else match fuel with
      | O => None
      | S fuel =>
          match in_current (lift (Move side true)) w with
          | (inl e, w) => Some (inl e, w)
          | (inr cd, w) =>
              hold_loop fuel side
                (w_set_keys (k_delta (match cd with Some cd => Some (d - cd)%Q | None => None end) (keys w)) w)
          end
      end
  end.

(** The movement key that counts: up, right, down, left. *)
Definition held_side (k : KeyFlags) : option Side :=
  if kw k then Some S_u else if kd k then Some S_r else if ks k then Some S_d
  else if ka k then Some S_l else None.

(** The interval of one millisecond. *)
Definition hold_timer (fuel : nat) (w : World) : option ((JsError + unit) * World) :=
  let '(t, h) := performance_now (w_host w) in
  let w := w_set_keys (k_delta (Some (t - timePrev (keys w))%Q) (keys w)) (w_set_host h w) in
  match held_side (keys w) with
  | Some side =>
      if shift (keys w) then Some (in_current (lift (Rotate side true true)) w)
      else hold_loop fuel side w
  | None =>
      if kz (keys w) then Some (in_current (lift (drop_result (Digg true))) w) else Some (inr tt, w)
  end.

(** ** The mouse *)

(** [MouseSetBlock(_x, _y, id, radius)] with the camera at [cam]: a missing or
    null id clears. *)
Definition MouseSetBlock (cam : Q * Q) (x y : Z) (id : option Z) (radius : Z) : W unit :=
  let dx1 := Qfloor ((x # 16) + cam.1) in
  let dy1 := Qfloor ((y # 16) + cam.2) in
  wfor (up_to (dy1 - radius) (dy1 + radius + 1)) (λ y,
    wfor (up_to (dx1 - radius) (dx1 + radius + 1)) (λ x,
      wmapf (match id with
             | Some id => SetTileWithCoords x y id 0
             | None => ClearTile x y false
             end))).

Definition mousedown (cam : Q * Q) (button x y : Z) : W unit :=
  wkeys (λ k, k_mouse (<[button := true]> (mouse k)) k) ?;
  let? k := wget keys in
  wwhen (pressed k 0) (MouseSetBlock cam x y (Some 48) 0) ?;
  wwhen (pressed k 1) (MouseSetBlock cam x y None 0).

Definition mousemove (cam : Q * Q) (x y : Z) : W unit :=
  let? k := wget keys in
  wwhen (pressed k 0) (MouseSetBlock cam x y (Some 48) 0) ?;
  wwhen (pressed k 1) (MouseSetBlock cam x y None 5) ?;
  wkeys (k_mousepos (x, y)).

Definition mouseleave : W unit :=
  wkeys (λ k, k_mouse (<[0 := false]> (<[1 := false]> (<[2 := false]> (mouse k)))) k).
Definition mouseup (button : Z) : W unit :=
  wkeys (λ k, k_mouse (<[button := false]> (mouse k)) k).

(** ** The frames and the physics *)

(** One of the two random tiles of a frame. *)
Definition random_tile : W unit :=
  let? x := wrand 35 75 in
  let? y := wrand 70 81 in
  let? r := wrand 0 1 in
  let? id := (if negb (r =? 0) then wrand 60 68 else wrand 40 45) in
  wmapf (SetTileWithCoords x y id 0).

Definition b_isVisible (v : bool) (b : Bot) : Bot :=
  mkBot (bot_id b) (clanID b) (position b) (cachedPosition b) (rotation b) (cooldown b) (cdTime b)
    (bot_stats b) (cargo b) (inventory b) (mode b) v (cachedBlockUnder b) (programCondition b).

(** [Update()], the drawing left out: [visible] tells which bots [DrawBots] found
    on the screen. *)
Definition Update (visible : nat -> bool) : W unit :=
  random_tile ?; random_tile ?;
  let? ib := wget w_ignoreBorders in
  wwhen (negb ib) (all_bots (λ i,
    let? r := wrand 0 10 in wwhen (r =? 0) (in_bot i (lift CheckBlockUnder)))) ?;
  (* GotoCurrentBot *)
  wupd (λ w, match Bots w, CurrentBot w with
             | _ :: _, None => w_set_CurrentBot (Some 0%nat) w
             | _, _ => w
             end) ?;
  (* DrawBots *)
  wupd (λ w, w_set_Bots (imap (λ i, b_isVisible (visible i)) (Bots w)) w).

Definition falling : W unit := wupd (λ w,
  let '(p, (m, h)) := falling_tick (position <$> Bots w) (CurrentBot w) (inProcess w) (w_map w) (w_host w) in
  w_set_geo p (iter w) (w_set_map m (w_set_host h w))).

Definition growing : W unit := wupd (λ w,
  let '(m, h, i) := growth_tick (w_map w, w_host w, iter w) in
  w_set_geo (inProcess w) i (w_set_map m (w_set_host h w))).

(** ** Events *)

Inductive Event :=
  | E_keydown (text_input : bool) (c : KeyCode)
  | E_keyup (c : KeyCode)
  | E_hold
  | E_blur
  | E_mousedown (cam : Q * Q) (button x y : Z)
  | E_mousemove (cam : Q * Q) (x y : Z)
  | E_mouseleave
  | E_mouseup (button : Z)
  | E_message (m : Message)
  | E_ignoreBorders (b : bool)
  | E_progTicks (t : option Q)
  | E_prog_timer
  | E_frame (visible : nat -> bool)
  | E_falling
  | E_growing.

(** One event; [None] when the fuel of a loop ran out. *)
Definition handle (fuel : nat) (e : Event) (w : World) : option ((JsError + unit) * World) :=
  match e with
  | E_keydown t c => Some (keydown t c w)
  | E_keyup c => Some (keyup c w)
  | E_hold => hold_timer fuel w
  | E_blur => Some (wkeys KeyFlags_Reset w)
  | E_mousedown cam b x y => Some (mousedown cam b x y w)
  | E_mousemove cam x y => Some (mousemove cam x y w)
  | E_mouseleave => Some (mouseleave w)
  | E_mouseup b => Some (mouseup b w)
  | E_message m => Some (onmessage m w)
  | E_ignoreBorders b => Some (wupd (w_set_ignoreBorders b) w)
  | E_progTicks t => Some (wupd (w_set_progTicks t) w)
  | E_prog_timer => Some (prog_timer w)
  | E_frame v => Some (Update v w)
  | E_falling => Some (falling w)
  | E_growing => Some (growing w)
  end.

(** The events the page goes through, with what each threw. *)
Inductive page_step (w : World) : Event -> (JsError + unit) -> World -> Prop :=
  | page_step_intro fuel e r w' : handle fuel e w = Some (r, w') -> page_step w e r w'.

Lemma page_step_handle w e r w' : page_step w e r w' <-> exists fuel, handle fuel e w = Some (r, w').
Proof. split; [intros [fuel e' r' w'' H]; by exists fuel | intros [fuel H]; by apply (page_step_intro _ fuel)]. Qed.
