(* ===== verification/Shape.v ===== *)
(** * What the world keeps: the size of the map, the streams of the host

    No operation of a bot, no program and no timer resizes the map or rewinds the
    clock. *)

From Stdlib Require Import QArith Qround.
From S2P Require Import Prelude Host JsNum JsSet Blocks PacksContainer WMap Vec Cargo Machine BotOps BotFacts Geo GeoFacts Growth Programmator ProgFacts ProgSafety ProgSem.


(** ** The size of the map

    No operation of a bot and no program resizes the map. *)

Definition shaped (c c' : Ctx) : Prop := same_shape (wmap c) (wmap c').

#[global] Instance shaped_preorder : PreOrder shaped.
Proof. split; [intros c; unfold shaped; reflexivity | intros c1 c2 c3; unfold shaped; apply transitivity]. Qed.

Definition Shaped {A} (m : St A) : Prop := forall c, wp m (λ _, shaped c) c.

Lemma Shaped_bind {A B} (m : St A) (k : A -> St B) : Shaped m -> (forall a, Shaped (k a)) -> Shaped (bind m k).
Proof.
  intros Hm Hk c. apply wp_bind. eapply wp_mono; [apply Hm|]. cbv beta. intros a c' H.
  eapply wp_mono; [apply Hk|]. cbv beta. intros. by etransitivity.
Qed.
Lemma Shaped_if {A} (b : bool) (m1 m2 : St A) : Shaped m1 -> Shaped m2 -> Shaped (if b then m1 else m2).
Proof. by destruct b. Qed.
Lemma Shaped_when b m : Shaped m -> Shaped (when b m).
Proof. intros H. destruct b; [done | intros c; unfold shaped, wp; reflexivity]. Qed.
Lemma Shaped_ret {A} (a : A) : Shaped (ret a).
Proof. intros c. unfold shaped, wp. reflexivity. Qed.
Lemma Shaped_gets {A} (f : Ctx -> A) : Shaped (gets f).
Proof. intros c. unfold shaped, wp. reflexivity. Qed.
Lemma Shaped_now : Shaped now.
Proof. intros c. unfold shaped, wp. reflexivity. Qed.
Lemma Shaped_rand lo hi : Shaped (rand lo hi).
Proof. intros c. unfold shaped, wp. reflexivity. Qed.
Lemma Shaped_on_bot f : Shaped (on_bot f).
Proof. intros c. unfold shaped, wp. reflexivity. Qed.
Lemma Shaped_emit e : Shaped (emit e).
Proof. intros c. unfold shaped, wp. reflexivity. Qed.
Lemma Shaped_SetTile x y b d : Shaped (on_map (SetTileWithCoords x y b d)).
Proof. intros c. apply SetTileWithCoords_shape. Qed.
Lemma Shaped_ClearTile x y d : Shaped (on_map (ClearTile x y d)).
Proof. intros c. apply ClearTile_shape. Qed.
Lemma Shaped_DiggTile x y : Shaped (on_map (DiggTile x y)).
Proof. intros c. apply DiggTile_shape. Qed.

Create HintDb shaped.
#[export] Hint Resolve Shaped_bind Shaped_if Shaped_when Shaped_ret Shaped_gets Shaped_now Shaped_rand
  Shaped_on_bot Shaped_emit Shaped_SetTile Shaped_ClearTile Shaped_DiggTile : shaped.

Ltac shaped_op := intros; cbv beta zeta; eauto 30 with shaped.

Lemma Shaped_inCooldown : Shaped inCooldown.
Proof. unfold inCooldown. shaped_op. Qed.
Lemma Shaped_set_cooldown v : Shaped (set_cooldown v).
Proof. unfold set_cooldown. shaped_op. Qed.
Lemma Shaped_HasMoved : Shaped HasMoved.
Proof. unfold HasMoved. shaped_op. Qed.
#[export] Hint Resolve Shaped_inCooldown Shaped_set_cooldown Shaped_HasMoved : shaped.
Lemma Shaped_Trails : Shaped Trails.
Proof. unfold Trails. shaped_op. Qed.
Lemma Shaped_Digg u : Shaped (Digg u).
Proof. unfold Digg. shaped_op. Qed.
#[export] Hint Resolve Shaped_Trails Shaped_Digg : shaped.
Lemma Shaped_step_to x y : Shaped (step_to x y).
Proof. unfold step_to. shaped_op. Qed.
#[export] Hint Resolve Shaped_step_to : shaped.
Lemma Shaped_move_case s : Shaped (move_case s).
Proof. unfold move_case. destruct s; shaped_op. Qed.
#[export] Hint Resolve Shaped_move_case : shaped.
Lemma Shaped_Move s u : Shaped (Move s u).
Proof. unfold Move. shaped_op. Qed.
Lemma Shaped_Rotate s u w : Shaped (Rotate s u w).
Proof. unfold Rotate. destruct s; shaped_op. Qed.
Lemma Shaped_Heal u : Shaped (Heal u).
Proof. unfold Heal. shaped_op. Qed.
Lemma Shaped_Teleport x y : Shaped (Teleport x y).
Proof. unfold Teleport. shaped_op. Qed.
Lemma Shaped_CheckBlockUnder : Shaped CheckBlockUnder.
Proof. unfold CheckBlockUnder. shaped_op. Qed.
Lemma Shaped_tool u act : (forall x y b, Shaped (act x y b)) -> Shaped (tool u act).
Proof. unfold tool. shaped_op. Qed.
#[export] Hint Resolve Shaped_Move Shaped_Rotate Shaped_Heal Shaped_Teleport Shaped_CheckBlockUnder
  Shaped_tool : shaped.
Lemma Shaped_SetBlock u : Shaped (SetBlock u).
Proof. unfold SetBlock. shaped_op. Qed.
Lemma Shaped_SetRoad u : Shaped (SetRoad u).
Proof. unfold SetRoad. shaped_op. Qed.
Lemma Shaped_SetWB u : Shaped (SetWB u).
Proof. unfold SetWB. shaped_op. Qed.
Lemma Shaped_SetQuadro u : Shaped (SetQuadro u).
Proof. unfold SetQuadro. shaped_op. Qed.
Lemma Shaped_UseGeo u : Shaped (UseGeo u).
Proof.
  unfold UseGeo. apply Shaped_tool. intros x y b. apply Shaped_if; [shaped_op|]. apply Shaped_when.
  apply Shaped_bind; [shaped_op|]. intros b0. destruct (PopGeo _) as [[g|] c']; shaped_op.
Qed.
#[export] Hint Resolve Shaped_SetBlock Shaped_SetRoad Shaped_SetWB Shaped_SetQuadro Shaped_UseGeo : shaped.
Lemma Shaped_drop {A} (m : St A) : Shaped m -> Shaped (drop_result m).
Proof. unfold drop_result. shaped_op. Qed.

Lemma shaped_lift {A} (m : St A) : Shaped m -> XKeeps shaped (lift m).
Proof. apply XKeeps_lift. Qed.
Lemma shaped_upd f : XKeeps shaped (upd f).
Proof. intros c. unfold shaped. reflexivity. Qed.
Lemma shaped_updb f : XKeeps shaped (updb f).
Proof. intros c. unfold shaped. reflexivity. Qed.
Lemma still_shaped c c' : still c c' -> shaped c c'.
Proof. intros (_ & E & _). unfold shaped. by rewrite E. Qed.
#[export] Hint Resolve Shaped_drop : shaped.
#[export] Hint Resolve shaped_lift shaped_upd shaped_updb : xkeeps.
#[export] Hint Extern 2 (Shaped _) => eauto with shaped : xkeeps.

(** ** Programs *)

Lemma shaped_some {A} (o : option A) : XKeeps shaped (some_or_throw o).
Proof. destruct o; intros c; unfold shaped; reflexivity. Qed.
Lemma shaped_getp : XKeeps shaped getp.
Proof. intros c. unfold shaped. reflexivity. Qed.
Lemma shaped_getb : XKeeps shaped getb.
Proof. intros c. unfold shaped. reflexivity. Qed.
#[export] Hint Resolve shaped_some shaped_getp shaped_getb : xkeeps.

Lemma shaped_is_cry o : XKeeps shaped (is_cry_of o).
Proof. unfold is_cry_of. auto with xkeeps. Qed.
Lemma shaped_look_reset : XKeeps shaped look_reset.
Proof. apply (xk_on_currentStack shaped); intros; unfold shaped; reflexivity. Qed.
Lemma shaped_compare v : XKeeps shaped (compareWithLogicValue v).
Proof. apply (xk_compare shaped); intros; unfold shaped; reflexivity. Qed.
#[export] Hint Resolve shaped_is_cry shaped_look_reset shaped_compare : xkeeps.
Lemma shaped_when_rested act : XKeeps shaped act -> XKeeps shaped (when_rested act).
Proof. unfold when_rested. auto with xkeeps. Qed.
Lemma shaped_do_move s : XKeeps shaped (do_move s).
Proof. unfold do_move. auto with xkeeps. Qed.
Lemma shaped_do_rotate s : XKeeps shaped (do_rotate s).
Proof. unfold do_rotate. auto with xkeeps. Qed.
Lemma shaped_flipped s s' k : (forall s, XKeeps shaped (k s)) -> XKeeps shaped (flipped s s' k).
Proof. unfold flipped. auto with xkeeps. Qed.
Lemma shaped_rotate_num n : XKeeps shaped (rotate_num n).
Proof. unfold rotate_num. auto with xkeeps. Qed.
#[export] Hint Resolve shaped_when_rested shaped_do_move shaped_do_rotate shaped_flipped shaped_rotate_num : xkeeps.
Lemma shaped_rotate_by k k' : XKeeps shaped (rotate_by k k').
Proof. unfold rotate_by. auto with xkeeps. Qed.
Lemma shaped_macros :
  XKeeps shaped MACROS_DIGG /\ XKeeps shaped MACROS_BLOCK /\ XKeeps shaped MACROS_HEAL /\
  XKeeps shaped MACROS_DIGG_AROUND.
Proof.
  unfold MACROS_DIGG, MACROS_BLOCK, MACROS_HEAL, MACROS_DIGG_AROUND.
  split_and!; auto 40 with xkeeps.
Qed.
#[export] Hint Resolve shaped_rotate_by : xkeeps.

Lemma shaped_handler n h : ExecutorList !! n = Some h -> XKeeps shaped h.
Proof.
  intros Hn. destruct (IsOperationFast (Z.of_nat n)) eqn:Hf.
  { apply (XKeeps_impl still); [apply still_shaped|]. by eapply fast_still. }
  destruct shaped_macros as (M1 & M2 & M3 & M4).
  unfold ExecutorList in Hn.
  do 111 (destruct n as [|n];
    [injection Hn as <-; first [discriminate Hf | clear Hf; unfold skip; solve [auto 20 with xkeeps]] |]).
  discriminate Hn.
Qed.

Lemma shaped_Execute c : shaped c (Execute_bot c).2.
Proof.
  apply Execute_bot_keeps; [apply _ | |].
  - intros h d _ Hh. apply at_index_nat in Hh as (n & _ & Hh). by eapply shaped_handler.
  - apply (XKeeps_impl still); [apply still_shaped | apply advance_still].
Qed.

(** ** The physics and the host *)

Lemma FallCell_streams x y m h : same_streams h (FallCell x y m h).2.
Proof.
  unfold FallCell. case_match; [|reflexivity]. case_match; [reflexivity|].
  pose proof (RandInt_streams 0 1 h) as Hs. by destruct (RandInt 0 1 h).
Qed.

(** A fold over the state of the physics that respects the host at every step. *)
Lemma foldl_streams {B} (f : WorldMap * Host -> B -> WorldMap * Host) l st :
  (forall st b, same_streams st.2 (f st b).2) -> same_streams st.2 (foldl f st l).2.
Proof.
  intros Hf. apply (foldl_invariant (λ st', same_streams st.2 st'.2)); [reflexivity|].
  intros st' b _ H. by etransitivity.
Qed.

Lemma FallingCycle_streams b m h : same_streams h (FallingCycle b m h).2.2.
Proof.
  unfold FallingCycle. cbn [snd]. destruct b; [reflexivity|].
  apply (foldl_streams _ _ (m, h)). intros [m1 h1] dy. unfold FallRow.
  apply (foldl_streams _ _ (m1, h1)). intros [m2 h2] dx. unfold FallStep. case_match; [reflexivity|].
  enough (same_streams h2 (FallChunk dx dy m2 h2).2) by by destruct (FallChunk dx dy m2 h2).
  unfold FallChunk. apply (foldl_streams _ _ (m2, h2)). intros [m3 h3] y.
  apply (foldl_streams _ _ (m3, h3)). intros [m4 h4] x. apply FallCell_streams.
Qed.

Lemma SetActiveChunks_streams bots cur m h : same_streams h (SetActiveChunks bots cur m h).2.
Proof.
  unfold SetActiveChunks. apply (foldl_streams _ _ (m, h)). intros [m1 h1] [i p].
  unfold activate_bot, active_box. case_bool_decide; [reflexivity|].
  pose proof (RandInt_streams 0 3 h1) as Hs. destruct (RandInt 0 3 h1) as [r h2].
  by destruct (r =? 0).
Qed.

Lemma SetActiveChunks_ok bots cur m h : wf m -> act_ok m (SetActiveChunks bots cur m h).1.
Proof.
  intros Hwf. unfold SetActiveChunks.
  apply (foldl_invariant (λ st : WorldMap * Host, act_ok m st.1)); [by split|].
  intros [m1 h1] [i p] _ H1. by apply activate_bot_ok.
Qed.

Lemma FallingCycle_ok b m h : wf m -> wf (FallingCycle b m h).2.1 /\ same_shape m (FallingCycle b m h).2.1.
Proof.
  intros Hwf. unfold FallingCycle. cbn [snd]. destruct b; [by split|].
  enough (cycle_inv m (foldl (λ st dy, FallRow (chunkWidth m) dy st) (m, h)
    (down_to (chunkHeight m - 1) 0))) as [K W] by (split; [done | apply K]).
  apply (foldl_invariant (cycle_inv m)); [by split|]. intros st dy _. apply FallRow_inv.
Qed.

Lemma falling_tick_ok bots cur b m h : wf m ->
  let r := (falling_tick bots cur b m h).2 in
  wf r.1 /\ same_shape m r.1 /\ same_streams h r.2.
Proof.
  intros Hwf. unfold falling_tick.
  pose proof (SetActiveChunks_ok bots cur m h Hwf) as [W1 S1].
  pose proof (SetActiveChunks_streams bots cur m h) as T1.
  destruct (SetActiveChunks bots cur m h) as [m1 h1]. cbn [fst snd] in *.
  destruct (FallingCycle_ok b m1 h1 W1) as [W2 S2]. pose proof (FallingCycle_streams b m1 h1) as T2.
  split_and!; [done | by etransitivity..].
Qed.

Lemma AliveGrowth_streams x y m h : same_streams h (AliveGrowth x y m h).2.2.
Proof.
  unfold AliveGrowth. case_match; [|reflexivity]. cbn [snd].
  destruct (AliveProductHardness _); [|reflexivity].
  repeat (case_match; try reflexivity). unfold grow_blue. case_match; [reflexivity|].
  pose proof (RandInt_streams 0 3 h) as Hs. destruct (RandInt 0 3 h) as [r h2]. cbn [snd] in Hs.
  cbn [fst snd]. repeat (case_match; try done).
Qed.

Lemma growth_draw_streams st : same_streams st.1.2 (growth_draw st).1.2.
Proof.
  destruct st as [[m h] it]. unfold growth_draw.
  destruct (set_next _ _) as [[v|] it']; [|reflexivity].
  pose proof (AliveGrowth_streams (Z.rem v (width m)) (wrap32 (Z.quot v (width m))) m h) as Hs.
  by destruct (AliveGrowth _ _ m h) as [r [m' h']].
Qed.

Lemma growth_tick_ok m h it : wf m -> width m * height m <= 2 ^ 31 ->
  let r := growth_tick (m, h, it) in wf r.1.1 /\ same_shape m r.1.1 /\ same_streams h r.1.2.
Proof.
  intros Hwf Hsz. unfold growth_tick. case_match; [|by split_and!].
  pose proof (RandInt_streams 0 1 h) as Hs. destruct (RandInt 0 1 h) as [r h'].
  case_match; [by split_and!|]. cbv zeta.
  enough (growth_inv m (Nat.iter 10 growth_draw (m, h', it)) /\
    same_streams h (Nat.iter 10 growth_draw (m, h', it)).1.2) as [[? ?] ?] by done.
  apply (Nat.iter_invariant _ _ _ (λ st, growth_inv m st /\ same_streams h st.1.2)); [|done].
  intros st [H1 H2]. split; [by apply growth_draw_inv|]. etransitivity; [exact H2 | apply growth_draw_streams].
Qed.
