(* ===== verification/WorldFacts.v ===== *)
(** * The page keeps the world well formed

    The invariant of [World.World] and its preservation by every event. *)

From Stdlib Require Import QArith Qround.
From S2P Require Import Prelude Host JsNum JsSet Blocks PacksContainer WMap Vec Cargo Machine BotOps BotFacts Geo GeoFacts Growth Programmator ProgFacts ProgSafety ProgSem World Shape.

#[local] Open Scope world_scope.

(** ** Bots *)

(** The part of [Inv] that is about the bot. *)
Record bot_ok (b : Bot) : Prop := {
  ok_cargo : cargo_wf (cargo b);
  ok_geo : Forall is_byte (geo (cargo b));
  ok_rotation : quarter (rotation b);
  ok_cooldown : (0 <= cooldown b)%Q;
  ok_speed : (0 < moveSpeed (bot_stats b))%Q;
  ok_road : (0 < moveRoadSpeedMul (bot_stats b))%Q }.

Lemma Inv_bot c : Inv c <-> wf (wmap c) /\ bot_ok (bot c).
Proof. split; [intros []; split; [done | by split] | intros [? []]; by split]. Qed.

(** A bot that was never given a program: it idles on [TESTPROGRAM], which is
    shorter than a line. *)
Definition idle (p : ProgramCondition) : Prop :=
  program p = TESTPROGRAM /\ currIndex p = 0 /\ startIndex p = 0 /\ stackDepth p = 0 /\
  (0 < length (stack p))%nat.

Definition fine (p : ProgramCondition) : Prop := good p \/ idle p.

Lemma fine_new t : fine (new_ProgramCondition t).
Proof. right. repeat split. cbn. lia. Qed.

Lemma fine_stack p : fine p -> exists s0, at_index (stack p) 0 = Some s0.
Proof.
  intros [Hg|(_ & _ & _ & _ & H)]; apply at_index_Some; [|lia].
  pose proof (pi_depth _ _ Hg). lia.
Qed.

Lemma fine_isExecute v p : fine p -> fine (pc_isExecute v p).
Proof. intros [[H1 H2 H3 H4 H5 H6]|H]; [left; by split | by right]. Qed.

(** What [Reset] leaves is fine again. *)
Lemma fine_reset s0 t p : fine p -> fine (reset_state s0 t p).
Proof.
  intros [[H1 H2 H3 H4 H5 H6]|(H1 & H2 & H3 & H4 & H5)]; [left|right].
  - split; try done.
    + unfold in_prog in *. cbn. lia.
    + cbn. rewrite length_insert. lia.
    + intros i Hi. cbn in Hi. lia.
  - repeat split; try done. cbn. by rewrite length_insert.
Qed.

(** A new program, loaded where the old start still lies in it. *)
Lemma fine_set_program s0 t g p : fine p -> prog_ok g = true -> startIndex p < prog_len g ->
  fine (reset_state s0 t (pc_program g p)).
Proof.
  intros Hf Hg Hs. left.
  assert (0 <= startIndex p /\ (0 < length (stack p))%nat) as [Hst Hlen].
  { destruct Hf as [[_ _ H3 H4 _ _]|(_ & _ & -> & _ & H5)]; [unfold in_prog in H3|]; lia. }
  split; cbn; try done.
  - unfold in_prog, prog_ok in *. cbn. apply andb_prop in Hg as [[Hg _]%andb_prop _]. lia.
  - rewrite length_insert. lia.
  - intros i Hi. lia.
Qed.

(** [Reset] does nothing else to a bot. *)
Lemma Reset_keeps (P : ProgramCondition -> Prop) c s0 :
  Inv c -> at_index (stack (prog c)) 0 = Some s0 -> (forall t, P (reset_state s0 t (prog c))) ->
  xwp Reset (λ _ c', Inv c' /\ P (prog c')) NoErr c.
Proof.
  intros Hi Hs HP. unfold Reset. apply xwp_bind, xwp_getp. rewrite Hs. apply xwp_bind, xwp_ret.
  do 6 apply xwp_bind, xwp_upd.
  apply xwp_bind, xwp_lift, wp_now, xwp_bind, xwp_upd.
  unfold set_hand, updb. apply xwp_bind, xwp_lift, wp_on_bot, xwp_upd.
  split; [eauto 14 with inv | apply HP].
Qed.

Lemma xwp_and {A} (m : X A) Q1 Q2 c :
  xwp m Q1 NoErr c -> Q2 (m c).2 -> xwp m (λ a c', Q1 a c' /\ Q2 c') NoErr c.
Proof. unfold xwp. destruct (m c) as [[e|a] c']; cbn; tauto. Qed.

(** What the page needs of an operation of a bot. *)
Definition BSafe (P : Ctx -> Prop) {A} (m : X A) : Prop :=
  forall c, holds fine c -> P c ->
  xwp m (λ _ c', holds fine c' /\ (shaped c c' /\ streamed c c')) NoErr c.

Definition always {A} (_ : A) : Prop := True.

Lemma BSafe_intro (P : Ctx -> Prop) {A} (m : X A) :
  Safe (λ c, holds fine c /\ P c) m (λ _, holds fine) -> XKeeps shaped m -> XKeeps streamed m -> BSafe P m.
Proof.
  intros H1 H2 H3 c Hc HP. specialize (H1 c (conj Hc HP)). specialize (H2 c). specialize (H3 c).
  by apply (xwp_and m (λ _, holds fine) (λ c', shaped c c' /\ streamed c c')).
Qed.

Lemma BSafe_tame {A} (m : St A) : Tame m -> Shaped m -> Streams m -> BSafe always (lift m).
Proof.
  intros Ht Hs Hh. apply BSafe_intro; [|by apply shaped_lift | by apply streamed_lift].
  intros c [Hc _]. by apply (Keep_tame fine m Ht).
Qed.

Lemma idle_Execute c : Inv c -> idle (prog c) -> xwp Execute_bot (λ _, holds fine) NoErr c.
Proof.
  intros Hi (Hp & Hc & Hs & Hd & Hl). unfold Execute_bot.
  apply xwp_bind, xwp_getp, xwp_if; intros He; [|apply xwp_ret; split; [done | by right]].
  assert (at_index (program (prog c)) (currIndex (prog c)) = Some (mkCell 0 (Some (KStr "")) (Some (num_of_Z 0))))
    as Hcell by by rewrite Hp, Hc.
  apply xwp_bind, (xwp_cell_at _ _ _ _ Hcell), xwp_bind, xwp_ret, xwp_bind.
  unfold empty_cell. apply xwp_bind, xwp_getp. cbn [empty_scan].
  apply xwp_bind, (xwp_cell_at _ _ _ _ Hcell). cbn [cell_id]. rewrite Z.eqb_refl, Hc. cbn [Z.rem].
  apply xwp_bind, xwp_getp. rewrite Hp. cbn [length TESTPROGRAM].
  apply xwp_bind. unfold set_currIndex. apply xwp_upd, xwp_ret, xwp_ret.
  split; [eauto with inv|]. right. unfold idle. by rewrite Hs.
Qed.

Lemma BSafe_Execute : BSafe always Execute_bot.
Proof.
  apply BSafe_intro.
  - intros c [[Hi [Hg|Hn]] _]; [|by apply idle_Execute].
    eapply xwp_mono; [by apply (Execute_bot_safe c) | | done]. intros _ c' [? ?]. split; [done | by left].
  - intros c. apply shaped_Execute.
  - intros c. apply paced_Execute.
Qed.

Lemma keeps_Reset R `{!PreOrder R} :
  (forall f c, R c (c_bot (b_prog (f (programCondition (bot c))) (bot c)) c)) ->
  (forall f c, R c (c_bot (b_mode (f (mode (bot c))) (bot c)) c)) ->
  (forall h c, same_streams (host c) h -> R c (c_host h c)) -> XKeeps R Reset.
Proof. intros. by apply xk_Reset. Qed.

Lemma shaped_Reset : XKeeps shaped Reset.
Proof. apply keeps_Reset; [apply _|..]; intros; unfold shaped; reflexivity. Qed.
Lemma streamed_Reset : XKeeps streamed Reset.
Proof. apply keeps_Reset; [apply _|..]; intros; unfold streamed; try reflexivity. done. Qed.
#[export] Hint Resolve shaped_Reset streamed_Reset : xkeeps.

Lemma BSafe_toggle : BSafe always toggle_program.
Proof.
  apply BSafe_intro; [|unfold toggle_program; auto 12 with xkeeps..].
  intros c [[Hi Hf] _]. unfold toggle_program.
  pose proof (fine_isExecute (negb (isExecute (prog c))) _ Hf) as Hf'.
  apply xwp_bind, xwp_upd, xwp_bind, xwp_getp, xwp_if; intros _.
  - apply xwp_ret. split; [eauto with inv | done].
  - destruct (fine_stack _ Hf') as [s0 Es]. apply (Reset_keeps fine _ s0); [eauto with inv | done |].
    intros t. by apply fine_reset.
Qed.

Lemma BSafe_reset_then f : (forall p, fine p -> fine (f p)) -> BSafe always (Reset >! upd f).
Proof.
  intros Hp. apply BSafe_intro; [|auto with xkeeps..].
  intros c [[Hi Hf] _]. destruct (fine_stack _ Hf) as [s0 Es]. apply xwp_bind.
  eapply xwp_mono; [apply (Reset_keeps fine _ s0 Hi Es); intros t; by apply fine_reset | | done].
  intros _ c' [Hi' Hf']. apply xwp_upd. split; [eauto with inv | by apply Hp].
Qed.

Definition starts_in (g : list Cell) (c : Ctx) : Prop := startIndex (prog c) < prog_len g.

Lemma BSafe_set_program g : prog_ok g = true -> BSafe (starts_in g) (set_program g).
Proof.
  intros Hg. apply BSafe_intro; [|unfold set_program; auto with xkeeps..].
  intros c [[Hi Hf] Hs]. unfold set_program. apply xwp_bind, xwp_upd.
  destruct (fine_stack _ Hf) as [s0 Es]. apply (Reset_keeps fine _ s0); [eauto with inv | done |].
  intros t. by apply fine_set_program.
Qed.

Lemma BSafe_mode (f : Bot -> BotMode) : BSafe always (updb (λ b, b_mode (f b) b)).
Proof.
  apply BSafe_intro; [|apply shaped_updb | apply streamed_updb].
  intros c [[Hi Hf] _]. unfold updb. apply xwp_lift, wp_on_bot. split; [eauto with inv | done].
Qed.

Lemma BSafe_rotation r : quarter r -> BSafe always (updb (b_rotation r)).
Proof.
  intros Hr. apply BSafe_intro; [|apply shaped_updb | apply streamed_updb].
  intros c [[Hi Hf] _]. unfold updb. apply xwp_lift, wp_on_bot. split; [eauto with inv | done].
Qed.

Lemma tame_Teleport x y : Tame (Teleport x y).
Proof. apply Tame_intro; [auto with kinv|]. intros c. unfold Teleport, HasMoved. by wp_run. Qed.
Lemma tame_CheckBlockUnder : Tame CheckBlockUnder.
Proof. apply Tame_intro; [auto with kinv|]. intros c. unfold CheckBlockUnder. by wp_run. Qed.

(** ** The world *)

(** The map and its size, the host, every bot and its program, and the current
    bot is a bot.  A map of at most 2^31 cells has cell numbers the growth timer
    can divide with 32-bit operators. *)
Record WInv (w : World) : Prop := {
  wi_map : wf (w_map w);
  wi_size : width (w_map w) * height (w_map w) <= 2 ^ 31;
  wi_host : Host_ok (w_host w);
  wi_bots : forall i b, Bots w !! i = Some b -> bot_ok b /\ fine (programCondition b);
  wi_cur : forall i, CurrentBot w = Some i -> (i < length (Bots w))%nat }.

Lemma WInv_enter w i b : WInv w -> Bots w !! i = Some b -> holds fine (enter w b).
Proof. intros Hw Hb. destruct (wi_bots w Hw i b Hb). split; [|done]. apply Inv_bot. split; [apply Hw | done]. Qed.

Lemma same_size m m' : same_shape m m' -> width m * height m <= 2 ^ 31 -> width m' * height m' <= 2 ^ 31.
Proof. by intros (-> & -> & _). Qed.

Lemma WInv_leave w i c : WInv w -> holds fine c -> same_shape (w_map w) (wmap c) -> same_streams (w_host w) (host c) ->
  WInv (leave i c w).
Proof.
  intros [H1 H2 H3 H4 H5] [Hi Hf] Hs Hh. apply Inv_bot in Hi as [Hm Hb]. split; cbn.
  - done.
  - by eapply same_size.
  - by eapply same_streams_ok.
  - intros j b Hj. destruct (decide (i = j)) as [->|Hne].
    + apply list_lookup_insert_Some in Hj as [(_ & <- & _)|[? _]]; done.
    + rewrite list_lookup_insert_ne in Hj by done. by eapply H4.
  - intros j Hj. rewrite length_insert. by apply H5.
Qed.

(** What every listener keeps: no bot comes or goes, the current bot stays
    chosen, the timer of the programs stays as it is. *)
Definition kept (w w' : World) : Prop :=
  ticking w' = ticking w /\ length (Bots w') = length (Bots w) /\
  (is_Some (CurrentBot w) -> is_Some (CurrentBot w')).

#[global] Instance kept_preorder : PreOrder kept.
Proof.
  split; [by intros w|]. intros w1 w2 w3 (E1 & E2 & E3) (F1 & F2 & F3).
  split_and!; [congruence|congruence|auto].
Qed.

Definition bots_of (i : nat) (w : World) : Prop := (i < length (Bots w))%nat.
Definition chosen (w : World) : Prop := is_Some (CurrentBot w).

Definition stable_w (P : World -> Prop) : Prop := forall w w', kept w w' -> P w -> P w'.

Lemma stable_bots i : stable_w (bots_of i).
Proof. intros w w' (_ & E & _). unfold bots_of. by rewrite E. Qed.
Lemma stable_chosen : stable_w chosen.
Proof. intros w w' (_ & _ & H). exact H. Qed.
Lemma stable_always : stable_w always.
Proof. done. Qed.
Lemma stable_and P Q : stable_w P -> stable_w Q -> stable_w (λ w, P w /\ Q w).
Proof. intros HP HQ w w' Hk [? ?]. split; [by eapply HP | by eapply HQ]. Qed.

Create HintDb wsafe.
#[export] Hint Resolve stable_bots stable_chosen stable_always stable_and : wsafe.

(** [WSafe J P m]: [m] keeps the invariant J, and does not throw where P holds. *)
Definition WSafe (J P : World -> Prop) {A} (m : W A) : Prop :=
  forall w, J w -> J (m w).2 /\ kept w (m w).2 /\ (P w -> exists a, (m w).1 = inr a).

Section wsafe.
Context (J : World -> Prop).

Lemma WSafe_ret P {A} (a : A) : WSafe J P (wret a).
Proof. intros w Hw. split; [done|]. split; [reflexivity | by exists a]. Qed.

Lemma WSafe_get P {A} (f : World -> A) : WSafe J P (wget f).
Proof. intros w Hw. split; [done|]. split; [reflexivity | by eexists]. Qed.

Lemma WSafe_bind P {A B} (m : W A) (k : A -> W B) : stable_w P ->
  WSafe J P m -> (forall a, WSafe J P (k a)) -> WSafe J P (wbind m k).
Proof.
  intros HP Hm Hk w Hw. destruct (Hm w Hw) as (J1 & K1 & E1). unfold wbind.
  destruct (m w) as [[e|a] w1]; cbn in *.
  - split_and!; [done|done|]. intros HPw. destruct (E1 HPw) as [a [=]].
  - destruct (Hk a w1 J1) as (J2 & K2 & E2). split_and!; [done | by etransitivity |].
    intros HPw. apply E2. by eapply HP.
Qed.

Lemma WSafe_if P {A} (b : bool) (m1 m2 : W A) : WSafe J P m1 -> WSafe J P m2 -> WSafe J P (if b then m1 else m2).
Proof. by destruct b. Qed.

Lemma WSafe_when P b m : WSafe J P m -> WSafe J P (wwhen b m).
Proof. intros H. destruct b; [done | apply WSafe_ret]. Qed.

Lemma WSafe_weaken (P P' : World -> Prop) {A} (m : W A) : (forall w, J w -> P' w -> P w) -> WSafe J P m -> WSafe J P' m.
Proof. intros H Hm w Hw. destruct (Hm w Hw) as (H1 & H2 & H3). split_and!; [done|done|]. auto. Qed.

Lemma WSafe_upd P f : (forall w, J w -> J (f w) /\ kept w (f w)) -> WSafe J P (wupd f).
Proof. intros H w Hw. destruct (H w Hw). split_and!; [done|done|by eexists]. Qed.

Lemma WSafe_for P {A} (l : list A) (f : A -> W unit) : stable_w P ->
  (forall x, x ∈ l -> WSafe J P (f x)) -> WSafe J P (wfor l f).
Proof.
  intros HP. induction l as [|x l IH]; intros Hf; cbn [wfor]; [apply WSafe_ret|].
  apply WSafe_bind; [done| |intros _]; [apply Hf; by left|]. apply IH. intros y Hy. apply Hf. by right.
Qed.

Lemma WSafe_all_bots P (f : nat -> W unit) : stable_w P ->
  (forall i, WSafe J (λ w, bots_of i w /\ P w) (f i)) -> WSafe J P (all_bots f).
Proof.
  intros HP Hf w Hw. unfold all_bots, wbind, wget.
  assert (WSafe J (λ w', length (Bots w') = length (Bots w) /\ P w') (wfor (seq 0 (length (Bots w))) f)) as H.
  { apply WSafe_for.
    - intros w1 w2 Hk [E HP1]. split; [|by eapply HP]. destruct Hk as (_ & -> & _). done.
    - intros i Hi%elem_of_seq. eapply WSafe_weaken; [|apply Hf]. intros w' _ [E ?]. split; [|done].
      unfold bots_of. lia. }
  destruct (H w Hw) as (H1 & H2 & H3). split_and!; [done|done|]. intros HPw. by apply H3.
Qed.

Lemma WSafe_in_bot {A} i (m : X A) :
  (forall w b, J w -> Bots w !! i = Some b -> exists a c', m (enter w b) = (inr a, c') /\ J (leave i c' w)) ->
  WSafe J (bots_of i) (in_bot i m).
Proof.
  intros H w Hw. unfold in_bot. destruct (Bots w !! i) as [b|] eqn:Eb.
  - destruct (H w b Hw Eb) as (a & c' & -> & HJ). split_and!; [done| |by eexists].
    split_and!; [done | apply length_insert | done].
  - split_and!; [done|reflexivity|]. intros Hi. unfold bots_of in Hi.
    apply lookup_ge_None in Eb. lia.
Qed.
End wsafe.

#[export] Hint Resolve WSafe_ret WSafe_get WSafe_bind WSafe_if WSafe_when : wsafe.

Lemma BSafe_in_bot {A} P i (m : X A) : BSafe P m ->
  (forall w b, WInv w -> Bots w !! i = Some b -> P (enter w b)) -> WSafe WInv (bots_of i) (in_bot i m).
Proof.
  intros Hm HP. apply WSafe_in_bot. intros w b Hw Hb.
  pose proof (Hm _ (WInv_enter w i b Hw Hb) (HP w b Hw Hb)) as H. unfold xwp in H.
  destruct (m (enter w b)) as [[e|a] c']; [done|]. exists a, c'. split; [done|].
  destruct H as (Hf & Hs & Hh). by apply WInv_leave.
Qed.

Lemma WSafe_in_bot_always {A} i (m : X A) : BSafe always m -> WSafe WInv (bots_of i) (in_bot i m).
Proof. intros H. by eapply BSafe_in_bot. Qed.

Lemma WSafe_in_current {A} (m : X A) : BSafe always m -> WSafe WInv chosen (in_current m).
Proof.
  intros Hm w Hw. unfold in_current, wbind, wget.
  destruct (CurrentBot w) as [i|] eqn:Ei.
  - destruct (WSafe_in_bot_always i m Hm w Hw) as (H1 & H2 & H3).
    split_and!; [done|done|]. intros _. apply H3. by apply (wi_cur w Hw).
  - split_and!; [done|reflexivity|]. unfold chosen. rewrite Ei. by intros [? [=]].
Qed.

(** ** The listeners *)

Lemma WInv_host w h : WInv w -> same_streams (w_host w) h -> WInv (w_set_host h w).
Proof. intros [] Hh. split; cbn; try done. by eapply same_streams_ok. Qed.
Lemma WInv_map w m : WInv w -> wf m -> same_shape (w_map w) m -> WInv (w_set_map m w).
Proof. intros [] Hm Hs. split; cbn; try done. by eapply same_size. Qed.

Lemma WSafe_now P : WSafe WInv P wnow.
Proof.
  intros w Hw. unfold wnow. split_and!; [|done|by eexists]. apply WInv_host; [done | apply performance_now_streams].
Qed.
Lemma WSafe_random P : WSafe WInv P wrandom.
Proof.
  intros w Hw. unfold wrandom. split_and!; [|done|by eexists]. apply WInv_host; [done|].
  unfold same_streams. cbn. auto.
Qed.
Lemma WSafe_rand P lo hi : WSafe WInv P (wrand lo hi).
Proof.
  intros w Hw. unfold wrand. split_and!; [|done|by eexists]. apply WInv_host; [done|].
  unfold same_streams. cbn. auto.
Qed.
Lemma WSafe_keys P f : WSafe WInv P (wkeys f).
Proof. apply WSafe_upd. intros w []. split; [by split | done]. Qed.
Lemma WSafe_map P f : (forall m, wf m -> wf (f m) /\ same_shape m (f m)) -> WSafe WInv P (wmapf f).
Proof. intros H. apply WSafe_upd. intros w Hw. destruct (H (w_map w)); [apply Hw|]. split; [by apply WInv_map | done]. Qed.
#[export] Hint Resolve WSafe_now WSafe_random WSafe_rand WSafe_keys : wsafe.

Lemma set_tile_ok x y id m : is_byte id -> wf m -> wf (SetTileWithCoords x y id 0 m) /\ same_shape m (SetTileWithCoords x y id 0 m).
Proof. intros. split; [by apply wf_SetTileWithCoords | apply SetTileWithCoords_shape]. Qed.
Lemma clear_tile_ok x y m : wf m -> wf (ClearTile x y false m) /\ same_shape m (ClearTile x y false m).
Proof. intros. split; [by apply wf_ClearTile | apply ClearTile_shape]. Qed.

(** [RandInt] within its bounds. *)
Lemma WSafe_rand_then P lo hi {A} (k : Z -> W A) : stable_w P -> lo <= hi ->
  (forall r, lo <= r <= hi -> WSafe WInv P (k r)) -> WSafe WInv P (wbind (wrand lo hi) k).
Proof.
  intros HP Hle Hk w Hw.
  pose proof (RandInt_range lo hi (w_host w) (wi_host w Hw) Hle) as Hr.
  destruct (WSafe_rand always lo hi w Hw) as (H1 & H2 & _).
  unfold wbind. unfold wrand in *. destruct (RandInt lo hi (w_host w)) as [r h]. cbn [fst snd] in *.
  destruct (Hk r Hr _ H1) as (H3 & H4 & H5). split_and!; [done | by etransitivity|].
  intros HPw. apply H5. by eapply HP.
Qed.

Lemma Execute_wsafe : WSafe WInv always Execute.
Proof.
  unfold Execute. apply WSafe_all_bots; [done|]. intros i.
  eapply WSafe_weaken; [|apply WSafe_in_bot_always, BSafe_Execute]. by intros w _ [? _].
Qed.

Lemma gather_wsafe i : WSafe WInv (λ w, bots_of i w /\ chosen w) (gather i).
Proof.
  intros w Hw. unfold gather, wbind, wget.
  destruct (Bots w !! i) as [b|] eqn:Eb.
  2: { split_and!; [done|reflexivity|]. intros [Hi _]. unfold bots_of in Hi. apply lookup_ge_None in Eb. lia. }
  destruct (current w) as [cur|] eqn:Ec.
  2: { split_and!; [done|reflexivity|]. intros [_ [j Hj]]. unfold current in Ec. rewrite Hj in Ec. cbn in Ec.
       apply lookup_ge_None in Ec. pose proof (wi_cur w Hw j Hj). lia. }
  assert (quarter (rotation cur)) as Hrot.
  { unfold current in Ec. destruct (CurrentBot w) as [j|] eqn:Ej; [|done].
    apply (wi_bots w Hw j cur) in Ec as [Hok _]. apply Hok. }
  assert (forall x y, WSafe WInv (λ w, bots_of i w /\ chosen w) (in_bot i (lift (Teleport x y)))) as Htp.
  { intros x y. apply (WSafe_weaken _ (bots_of i)); [by intros ? _ []|]. apply WSafe_in_bot_always, BSafe_tame;
      [apply tame_Teleport | auto with shaped | auto using quiet_Teleport with streams]. }
  assert (forall r, quarter r -> WSafe WInv (λ w, bots_of i w /\ chosen w) (in_bot i (updb (b_rotation r)))) as Hro.
  { intros r Hr. apply (WSafe_weaken _ (bots_of i)); [by intros ? _ []|]. by apply WSafe_in_bot_always, BSafe_rotation. }
  revert w Hw Eb Ec. assert (forall w0, WSafe WInv (λ w, bots_of i w /\ chosen w)
    (wwhen (negb (bot_id b =? bot_id cur))
      ((if ctrl (keys w0) then
          wbind spread (λ dx, wbind spread (λ dy,
            in_bot i (lift (Teleport (vx (position cur) + dx) (vy (position cur) + dy)))))
        else in_bot i (lift (Teleport (vx (position cur)) (vy (position cur))))) ?;
       if shift (keys w0) then wbind (wrand 0 3) (λ r, in_bot i (updb (b_rotation (r * 90))))
       else in_bot i (updb (b_rotation (rotation cur)))))) as H.
  { intros w0. apply WSafe_when, WSafe_bind; [auto with wsafe| |intros _].
    - unfold spread. apply WSafe_if; [|done]. auto 10 with wsafe.
    - apply WSafe_if; [|by apply Hro]. apply WSafe_rand_then; [auto with wsafe | lia|].
      intros r Hr. apply Hro. unfold quarter. lia. }
  intros w Hw _ _. by apply H.
Qed.

Lemma pick_bot_wsafe P : WSafe WInv P pick_bot.
Proof.
  intros w Hw. unfold pick_bot, wbind, wrandom, wupd. cbn [fst snd].
  pose proof (random_range _ (wi_host w Hw) (nrandom (w_host w))) as [H0 H1].
  set (r := random (w_host w) (nrandom (w_host w))) in *.
  set (n := length (Bots w)).
  assert (0 < n -> Z.to_nat (Qfloor (r * inject_Z (Z.of_nat n))) < n)%nat as Hlt.
  { intros Hn. pose proof (RandInt_range 0 (Z.of_nat n - 1) (w_host w) (wi_host w Hw) ltac:(lia)) as Hr.
    unfold RandInt, Math_random in Hr. cbn [fst] in Hr. fold r in Hr.
    replace (Z.of_nat n - 1 + 1 - 0) with (Z.of_nat n) in Hr by lia. lia. }
  split_and!.
  - destruct Hw. split; cbn; try done; [|by intros i; case_decide; intros [= <-]].
    eapply same_streams_ok; [|done]. unfold same_streams. cbn. auto.
  - split_and!; [done|done|]. intros [i Hi]. cbn. pose proof (wi_cur w Hw i Hi).
    rewrite decide_True; [done|]. apply Hlt. unfold n. lia.
  - by eexists.
Qed.

Lemma user_tool_safe c m : user_tool c = Some m -> BSafe always (lift m).
Proof.
  intros H. assert (Tame m /\ Shaped m /\ Streams m) as (?&?&?); [|by apply BSafe_tame].
  destruct (tame_tools true) as (T1&T2&T3&T4&T5), (paced_tools true) as (P1&P2&P3&P4&P5).
  destruct c; cbn in H; try done; injection H as <-;
    (split; [first [done | apply tame_UseGeo]|]; split; [auto with shaped | auto using paced_UseGeo with streams]).
Qed.

Lemma direction_down_wsafe P c : stable_w P -> WSafe WInv P (direction_down c).
Proof. intros HP. unfold direction_down. auto 12 with wsafe. Qed.

(** A bot's operation on a key, with the current bot chosen. *)
Lemma keydown_wsafe t c : WSafe WInv chosen (keydown t c).
Proof.
  unfold keydown. apply WSafe_if; [auto with wsafe|].
  pose proof (direction_down_wsafe chosen) as Hd.
  destruct c; cbn [user_tool]; auto 8 with wsafe;
    try (apply WSafe_in_current; first
      [ apply (user_tool_safe K_F _ eq_refl) | apply (user_tool_safe K_V _ eq_refl)
      | apply (user_tool_safe K_J _ eq_refl) | apply (user_tool_safe K_H _ eq_refl)
      | apply (user_tool_safe K_Y _ eq_refl) | apply (user_tool_safe K_G _ eq_refl) ]).
  - (* Control *)
    apply WSafe_bind; [auto with wsafe | auto with wsafe | intros _].
    intros w Hw. unfold wbind, wget. destruct (CurrentBot w) as [i|] eqn:Ei.
    + destruct (WSafe_in_bot_always i flip_roadignore (BSafe_mode _) w Hw) as (H1 & H2 & H3).
      split_and!; [done|done|]. intros _. apply H3. by apply (wi_cur w Hw).
    + split_and!; [done|reflexivity|by eexists].
  - apply pick_bot_wsafe.
  - apply WSafe_upd. intros w []. split; [by split | done].
  - apply WSafe_in_current, (BSafe_mode (λ b, m_autodigg (negb (autodigg (mode b))) (mode b))).
  - (* R *)
    apply WSafe_bind; [auto with wsafe | auto with wsafe | intros k]. apply WSafe_if.
    + apply WSafe_all_bots; [auto with wsafe|]. intros i. eapply WSafe_weaken;
        [|apply WSafe_in_bot_always, BSafe_toggle]. by intros w _ [? _].
    + apply WSafe_in_current, BSafe_toggle.
  - apply WSafe_all_bots; [auto with wsafe|]. apply gather_wsafe.
Qed.

Lemma keyup_wsafe P c : stable_w P -> WSafe WInv P (keyup c).
Proof. intros HP. unfold keyup. destruct c; auto 8 with wsafe. Qed.

Lemma hold_loop_ok fuel s w r w' : WInv w -> hold_loop fuel s w = Some (r, w') ->
  WInv w' /\ kept w w' /\ (chosen w -> r = inr tt).
Proof.
  revert w. induction fuel as [|fuel IH]; intros w Hw; cbn [hold_loop];
    (destruct (delta (keys w)) as [d|]; [|by intros [= <- <-]]);
    (destruct (Qle_bool d 0); [by intros [= <- <-]|]); [done|].
  destruct (WSafe_in_current (lift (Move s true)) (BSafe_tame _ (tame_Move s true) (Shaped_Move s true)
    (Paced_Streams _ (paced_Move s true))) w Hw) as (H1 & H2 & H3).
  destruct (in_current (lift (Move s true)) w) as [[e|cd] w1]; cbn in *.
  - intros [= <- <-]. split_and!; [done|done|]. intros Hc. by destruct (H3 Hc).
  - intros Hl. apply IH in Hl as (I1 & I2 & I3); [|by destruct H1; split].
    split_and!; [done | |].
    + etransitivity; [exact H2|]. exact I2.
    + intros Hc. apply I3. by apply H2.
Qed.

Lemma MouseSetBlock_wsafe P cam x y id radius : stable_w P ->
  (forall b, id = Some b -> is_byte b) -> WSafe WInv P (MouseSetBlock cam x y id radius).
Proof.
  intros HP Hid. unfold MouseSetBlock. apply WSafe_for; [done|]. intros y' _. apply WSafe_for; [done|]. intros x' _.
  apply WSafe_map. intros m Hm. destruct id; [by apply set_tile_ok; [apply Hid|] | by apply clear_tile_ok].
Qed.

Lemma byte_48 b : Some 48 = Some b -> is_byte b.
Proof. intros [= <-]. unfold is_byte. lia. Qed.
#[export] Hint Resolve MouseSetBlock_wsafe byte_48 : wsafe.

Lemma random_tile_wsafe P : stable_w P -> WSafe WInv P random_tile.
Proof.
  intros HP. unfold random_tile. do 3 (apply WSafe_bind; [done | auto with wsafe | intros ?]).
  assert (forall lo hi x y, 0 <= lo -> lo <= hi -> hi < 256 ->
    WSafe WInv P (wbind (wrand lo hi) (λ id, wmapf (SetTileWithCoords x y id 0)))) as H.
  { intros lo hi x y H1 H2 H3. apply WSafe_rand_then; [done|done|]. intros r Hr. apply WSafe_map.
    intros m. apply set_tile_ok. unfold is_byte. lia. }
  case_match; by apply H.
Qed.

(** Which bots are visible matters to no invariant. *)
Lemma WInv_visible v w : WInv w -> WInv (w_set_Bots (imap (λ i, b_isVisible (v i)) (Bots w)) w).
Proof.
  intros [H1 H2 H3 H4 H5]. split; cbn; try done.
  - intros i b. rewrite list_lookup_imap. destruct (Bots w !! i) as [b0|] eqn:Eb; [|done].
    intros [= <-]. apply H4 in Eb as [[] Hf]. split; [by split | exact Hf].
  - intros i Hi. rewrite length_imap. by apply H5.
Qed.

Lemma Update_wsafe v : WSafe WInv always (Update v).
Proof.
  unfold Update. pose proof (random_tile_wsafe always stable_always).
  do 2 (apply WSafe_bind; [done | done | intros _]).
  apply WSafe_bind; [done | auto with wsafe | intros ib].
  apply WSafe_bind; [done | | intros _].
  { apply WSafe_when, WSafe_all_bots; [done|]. intros i. apply WSafe_bind; [auto with wsafe | auto with wsafe|].
    intros r. apply WSafe_when. apply (WSafe_weaken _ (bots_of i)); [by intros ? _ []|].
    apply WSafe_in_bot_always, BSafe_tame;
      [apply tame_CheckBlockUnder | auto with shaped | auto using quiet_CheckBlockUnder with streams]. }
  apply WSafe_bind; [done | | intros _]; apply WSafe_upd; intros w Hw.
  - destruct (Bots w) as [|b bs] eqn:Eb, (CurrentBot w) as [i|] eqn:Ei; try by split.
    split; [|by split_and!]. destruct Hw. split; cbn; try done. intros i [= <-]. rewrite Eb. cbn. lia.
  - split; [by apply WInv_visible | split_and!; [done | cbn; by rewrite length_imap | done]].
Qed.

(** A frame with bots chooses one. *)
Lemma Update_chosen v w w' : Update v w = (inr tt, w') -> Bots w' <> [] -> chosen w'.
Proof.
  unfold Update, wbind. destruct (random_tile w) as [[e|?] w1]; [done|]. destruct (random_tile w1) as [[e|?] w2]; [done|].
  cbn [wget]. destruct (wwhen _ _ w2) as [[e|?] w3]; [done|]. unfold wupd. intros [= <-]. cbn. unfold chosen.
  destruct (Bots w3) as [|b bs] eqn:Eb; cbn; [by rewrite Eb|]. intros _. destruct (CurrentBot w3) eqn:Ec; cbn; by rewrite ?Ec.
Qed.

(** What [ProgTicker]'s callback runs between being called and asking for the
    next call. *)
Definition prog_run : W unit :=
  let? t := wget progTicks in wwhen (many_ticks t) (wfor (seq 0 50) (λ _, Execute)) ?; Execute.

Lemma prog_timer_eq w :
  prog_timer w =
  if ticking w then
    match prog_run (w_set_ticking false w) with
    | (inl e, w') => (inl e, w')
    | (inr _, w') => (inr tt, w_set_ticking true w')
    end
  else (inr tt, w).
Proof.
  unfold prog_timer, prog_run, wbind, wget. destruct (ticking w); [|done]. unfold wupd at 1. cbn [fst snd].
  destruct (wwhen _ _ _) as [[e|[]] w2]; [done|]. by destruct (Execute w2) as [[e|[]] w3].
Qed.

Lemma prog_run_wsafe : WSafe WInv always prog_run.
Proof.
  pose proof Execute_wsafe. apply WSafe_bind; [done | auto with wsafe | intros t].
  apply WSafe_bind; [done | | done]. by apply WSafe_when, WSafe_for.
Qed.

Lemma prog_timer_wsafe : WSafe WInv always prog_timer.
Proof.
  intros w Hw. rewrite prog_timer_eq.
  destruct (ticking w) eqn:Et; [|split_and!; [done|reflexivity|by eexists]].
  assert (WInv (w_set_ticking false w)) as Hw1 by by destruct Hw.
  destruct (prog_run_wsafe _ Hw1) as (H1 & (K1 & K2 & K3) & H3). destruct (H3 I) as [[] H4].
  destruct (prog_run (w_set_ticking false w)) as [[e|[]] w']; [done|]. cbn in *.
  split; [by destruct H1|]. split; [by split_and! | by eexists].
Qed.

Lemma falling_wsafe : WSafe WInv always falling.
Proof.
  apply WSafe_upd. intros w Hw.
  pose proof (falling_tick_ok (position <$> Bots w) (CurrentBot w) (inProcess w) (w_map w) (w_host w) (wi_map w Hw)) as (H1 & H2 & H3).
  destruct (falling_tick _ _ _ _ _) as [p [m h]]. cbn in *. split; [|done].
  destruct Hw. split; cbn; try done; [by eapply same_size | by eapply same_streams_ok].
Qed.

Lemma growing_wsafe : WSafe WInv always growing.
Proof.
  apply WSafe_upd. intros w Hw.
  pose proof (growth_tick_ok (w_map w) (w_host w) (iter w) (wi_map w Hw) (wi_size w Hw)) as (H1 & H2 & H3).
  destruct (growth_tick _) as [[m h] i]. cbn in *. split; [|done].
  destruct Hw. split; cbn; try done; [by eapply same_size | by eapply same_streams_ok].
Qed.

Definition all_start (g : list Cell) (w : World) : Prop :=
  forall i b, Bots w !! i = Some b -> startIndex (programCondition b) < prog_len g.

Lemma set_all_wsafe g : prog_ok g = true ->
  WSafe (λ w, WInv w /\ all_start g w) always (all_bots (λ i, in_bot i (set_program g))).
Proof.
  intros Hg. apply WSafe_all_bots; [done|]. intros i.
  apply (WSafe_weaken _ (bots_of i)); [by intros ? _ []|]. apply WSafe_in_bot. intros w b [Hw Hs] Hb.
  pose proof (BSafe_set_program g Hg _ (WInv_enter w i b Hw Hb) (Hs i b Hb)) as H. unfold xwp in H.
  assert (Safe (λ c, holds fine c /\ starts_in g c) (set_program g) (λ _ c', startIndex (prog c') < prog_len g)) as H'.
  { intros c [[Hi Hf] Hst]. unfold set_program. apply xwp_bind, xwp_upd.
    destruct (fine_stack _ Hf) as [s0 Es].
    eapply xwp_mono; [apply (Reset_keeps (λ p, startIndex p < prog_len g) _ s0); [eauto with inv | done | done] | | done].
    by intros _ c' []. }
  specialize (H' (enter w b) (conj (WInv_enter w i b Hw Hb) (Hs i b Hb))). unfold xwp in H'.
  destruct (set_program g (enter w b)) as [[e|a] c']; [done|]. exists a, c'. split; [done|].
  destruct H as (Hf & Hsh & Hh). split; [by apply WInv_leave|].
  intros j bj Hj. cbn in Hj. destruct (decide (i = j)) as [->|Hne].
  - apply list_lookup_insert_Some in Hj as [(_ & <- & _)|[? _]]; done.
  - rewrite list_lookup_insert_ne in Hj by done. by eapply Hs.
Qed.

(** A message is acceptable when its program is well formed and no shorter than
    where the bots start. *)
Definition event_ok (e : Event) (w : World) : Prop :=
  match e with
  | E_message (M_setprogram g _) => prog_ok g = true /\ all_start g w
  | _ => True
  end.

Lemma onmessage_ok m w : WInv w -> event_ok (E_message m) w ->
  WInv (onmessage m w).2 /\ kept w (onmessage m w).2 /\ (chosen w -> (onmessage m w).1 = inr tt).
Proof.
  assert (forall m, WSafe WInv chosen m -> WInv w ->
    WInv (m w).2 /\ kept w (m w).2 /\ (chosen w -> (m w).1 = inr tt)) as Hlift.
  { intros m' H Hw. destruct (H w Hw) as (H1 & H2 & H3). split_and!; [done|done|].
    intros Hc. by destruct (H3 Hc) as [[] ->]. }
  intros Hw Hok. destruct m as [g [|]| | |]; cbn [onmessage].
  - destruct Hok as [Hg Hs]. destruct (set_all_wsafe g Hg w (conj Hw Hs)) as ([H1 _] & H2 & H3).
    split_and!; [done|done|]. intros _. by destruct (H3 I) as [[] ->].
  - destruct Hok as [Hg Hs]. unfold in_current, wbind, wget.
    destruct (CurrentBot w) as [i|] eqn:Ei.
    2: { split_and!; [done|reflexivity|]. unfold chosen. rewrite Ei. by intros [? [=]]. }
    destruct (lookup_lt_is_Some_2 (Bots w) i (wi_cur w Hw i Ei)) as [b Hb].
    pose proof (BSafe_set_program g Hg _ (WInv_enter w i b Hw Hb) (Hs i b Hb)) as H. unfold xwp in H.
    unfold in_bot. rewrite Hb. destruct (set_program g (enter w b)) as [[e|[]] c']; [done|].
    destruct H as (Hf & Hsh & Hh). split_and!; [by apply WInv_leave | split_and!; [done | apply length_insert | done] | done].
  - apply Hlift; [|done]. apply WSafe_in_current, BSafe_reset_then. intros p. apply fine_isExecute.
  - apply Hlift; [|done]. apply WSafe_in_current, BSafe_reset_then. intros p. apply fine_isExecute.
  - split_and!; [done|reflexivity|done].
Qed.

Lemma hold_timer_ok fuel w r w' : WInv w -> hold_timer fuel w = Some (r, w') ->
  WInv w' /\ kept w w' /\ (chosen w -> r = inr tt).
Proof.
  intros Hw. unfold hold_timer. pose proof (performance_now_streams (w_host w)) as Hs.
  destruct (performance_now (w_host w)) as [t h]. cbn [snd] in Hs.
  set (w1 := w_set_keys _ _). assert (WInv w1) as Hw1 by (pose proof (WInv_host w h Hw Hs) as []; by split).
  assert (kept w w1) as Hk by by split_and!.
  assert (forall (m : X unit) r w', BSafe always m -> in_current m w1 = (r, w') ->
    WInv w' /\ kept w w' /\ (chosen w -> r = inr tt)) as Hop.
  { intros m r0 w0 Hm E. destruct (WSafe_in_current m Hm w1 Hw1) as (H1 & H2 & H3). rewrite E in *. cbn in *.
    split_and!; [done | by etransitivity|]. intros Hc. by destruct (H3 Hc) as [[] ->]. }
  destruct (held_side (keys w1)) as [s|].
  - destruct (shift (keys w1)).
    + intros [= E]. eapply Hop; [|exact E]. apply BSafe_tame;
        [apply tame_Rotate | auto with shaped | apply Paced_Streams, paced_Rotate].
    + intros H. apply hold_loop_ok in H as (H1 & H2 & H3); [|done]. split_and!; [done | by etransitivity|].
      intros Hc. by apply H3.
  - destruct (kz (keys w1)); [|by intros [= <- <-]].
    intros [= E]. eapply Hop; [|exact E]. apply BSafe_tame;
      [auto using tame_drop, tame_Digg | auto with shaped | apply Paced_Streams, Paced_drop, paced_Digg].
Qed.

Lemma mouse_wsafe cam button x y :
  WSafe WInv chosen (mousedown cam button x y) /\ WSafe WInv chosen (mousemove cam x y).
Proof.
  assert (forall b : Z, @None Z = Some b -> is_byte b) by done.
  unfold mousedown, mousemove. auto 14 with wsafe.
Qed.

(** Every event keeps the world well formed. *)
Lemma handle_ok fuel e w r w' : WInv w -> event_ok e w -> handle fuel e w = Some (r, w') ->
  WInv w' /\ kept w w' /\ (chosen w -> r = inr tt).
Proof.
  intros Hw Hok.
  assert (forall m : W unit, WSafe WInv chosen m -> Some (m w) = Some (r, w') ->
    WInv w' /\ kept w w' /\ (chosen w -> r = inr tt)) as Hm.
  { intros m H [= E]. destruct (H w Hw) as (H1 & H2 & H3). rewrite E in *. cbn in *. split_and!; [done|done|].
    intros Hc. by destruct (H3 Hc) as [[] ->]. }
  assert (forall m : W unit, WSafe WInv always m -> WSafe WInv chosen m) as Hal.
  { intros m. by apply WSafe_weaken. }
  destruct e; cbn [handle];
    try (lazymatch goal with |- context [onmessage] => fail | _ => intros E; eapply Hm; [|exact E]; clear E end).
  - apply keydown_wsafe.
  - apply keyup_wsafe, stable_chosen.
  - by apply hold_timer_ok.
  - apply WSafe_keys.
  - by apply mouse_wsafe.
  - apply (mouse_wsafe cam 0 x y).
  - apply WSafe_keys.
  - apply WSafe_keys.
  - intros [= E]. destruct (onmessage_ok m w Hw Hok) as (H1 & H2 & H3). by rewrite E in *.
  - apply WSafe_upd. by intros ? [].
  - apply WSafe_upd. by intros ? [].
  - apply Hal, prog_timer_wsafe.
  - apply Hal, Update_wsafe.
  - apply Hal, falling_wsafe.
  - apply Hal, growing_wsafe.
Qed.
