(* ===== verification/WorldProps.v ===== *)
(** * The page: what its events do

    The safety of the whole page, the errors that stop it, and the loop of the
    held key. *)

From Stdlib Require Import QArith Qround Qminmax Lqa.
From S2P Require Import Prelude Host JsNum JsSet Blocks PacksContainer WMap Vec Cargo Machine BotOps BotFacts Geo GeoFacts Growth Programmator ProgFacts ProgSafety ProgSem World Shape WorldFacts.

#[local] Open Scope world_scope.

(** ** Every event *)

(** One event with an acceptable message. *)
Definition good_step (w w' : World) : Prop := exists e r, event_ok e w /\ page_step w e r w'.

Lemma good_step_ok w w' : WInv w -> good_step w w' -> WInv w' /\ kept w w'.
Proof.
  intros Hw (e & r & Hok & [fuel H]%page_step_handle). by destruct (handle_ok fuel e w r w' Hw Hok H) as (? & ? & _).
 Qed.

Lemma good_steps_ok w w' : WInv w -> rtc good_step w w' -> WInv w' /\ kept w w'.
Proof.
  intros Hw. induction 1 as [w|w1 w2 w3 Hs _ IH]; [by split|].
  destruct (good_step_ok _ _ Hw Hs) as [H1 K1]. destruct (IH H1) as [H2 K2]. split; [done | by etransitivity].
Qed.

(** C1: The page is safe while the programs it is sent fit: from a well-formed world, under any
    interleaving of keys, mouse, program ticks, frames, falling blocks, growth and messages
    of which those that set a program bring a well-formed one that is longer than the start of
    every bot, every event leaves a well-formed world - the map, every bot
    and every running program -, leaves the timer of the programs as it was set and the bots as many
    as they were, and none throws once a bot was chosen.  What a shorter program
    does, [stale_start_throws] says. *)
Theorem world_safe (w0 w : World) (e : Event) (r : JsError + unit) (w' : World)
    (H0 : WInv w0) (Hrun : rtc good_step w0 w) (Hok : event_ok e w) (Hstep : page_step w e r w') :
  WInv w' /\ ticking w' = ticking w0 /\ length (Bots w') = length (Bots w0) /\
  (is_Some (CurrentBot w) -> r = inr tt).
Proof.
  destruct (good_steps_ok _ _ H0 Hrun) as [Hw K1]. apply page_step_handle in Hstep as [fuel H].
  destruct (handle_ok fuel e w r w' Hw Hok H) as (Hw' & K2 & Hr).
  destruct (transitivity K1 K2) as (Et & Eb & _). by split_and!.
Qed.

Definition demo_world (bots : list Bot) : World :=
  mkWorld demo_host (new_WorldMap 3 3) false (Some 10%Q) bots None new_KeyFlags false true false set_iter [].

Lemma demo_world_ok bots : (forall i b, bots !! i = Some b -> bot_ok b /\ fine (programCondition b)) -> WInv (demo_world bots).
Proof.
  intros H. split; cbn; try done.
  - apply wf_Resyze; lia.
  - split; intros n; cbn; [rewrite <- Zle_Qle; lia | split; [discriminate | reflexivity]].
Qed.

Lemma demo_bot_ok : bot_ok demo_bot.
Proof. apply (Inv_bot demo_ctx), demo_Inv, wf_Resyze; lia. Qed.

Lemma world_safe_witness :
  ticking (prog_timer (keydown false K_Space (demo_world [demo_bot])).2).2 = true.
Proof.
  destruct (world_safe (demo_world [demo_bot]) (keydown false K_Space (demo_world [demo_bot])).2 E_prog_timer
    (prog_timer (keydown false K_Space (demo_world [demo_bot])).2).1
    (prog_timer (keydown false K_Space (demo_world [demo_bot])).2).2) as (_ & Ht & _).
  - apply demo_world_ok. intros [|[|i]] b; cbn; try done. intros [= <-].
    split; [apply demo_bot_ok | apply (fine_new 0)].
  - apply rtc_once. exists (E_keydown false K_Space), (inr tt). split; [done|].
    apply (page_step_intro _ 0). reflexivity.
  - done.
  - apply (page_step_intro _ 0). cbn [handle]. by destruct (prog_timer _).
  - exact Ht.
Defined.

(** ** An error of one program *)

(** Nothing but the callback of [ProgTicker] touches its timer. *)
Definition WTick {A} (m : W A) : Prop := forall w, ticking (m w).2 = ticking w.

Lemma tick_ret {A} (a : A) : WTick (wret a).
Proof. done. Qed.
Lemma tick_get {A} (f : World -> A) : WTick (wget f).
Proof. done. Qed.
Lemma tick_throw {A} e : WTick (wthrow (A := A) e).
Proof. done. Qed.
Lemma tick_bind {A B} (m : W A) (k : A -> W B) : WTick m -> (forall a, WTick (k a)) -> WTick (wbind m k).
Proof.
  intros Hm Hk w. specialize (Hm w). unfold wbind. destruct (m w) as [[e|a] w1]; cbn in *; [done|].
  by rewrite (Hk a w1).
Qed.
Lemma tick_if {A} (b : bool) (m1 m2 : W A) : WTick m1 -> WTick m2 -> WTick (if b then m1 else m2).
Proof. by destruct b. Qed.
Lemma tick_when b m : WTick m -> WTick (wwhen b m).
Proof. by destruct b. Qed.
Lemma tick_for {A} (l : list A) f : (forall x, WTick (f x)) -> WTick (wfor l f).
Proof. intros H. induction l; cbn [wfor]; [apply tick_ret | by apply tick_bind]. Qed.
Lemma tick_all_bots f : (forall i, WTick (f i)) -> WTick (all_bots f).
Proof. intros H. unfold all_bots. apply tick_bind; [apply tick_get | intros n]. by apply tick_for. Qed.
Lemma tick_in_bot {A} i (m : X A) : WTick (in_bot i m).
Proof. intros w. unfold in_bot. destruct (Bots w !! i); [|done]. by destruct (m _). Qed.
Lemma tick_in_current {A} (m : X A) : WTick (in_current m).
Proof.
  unfold in_current. apply tick_bind; [apply tick_get|]. intros [i|]; [apply tick_in_bot | apply tick_throw].
Qed.
Lemma tick_now : WTick wnow.
Proof. done. Qed.
Lemma tick_rand lo hi : WTick (wrand lo hi).
Proof. done. Qed.
Lemma tick_random : WTick wrandom.
Proof. done. Qed.
Lemma tick_keys f : WTick (wkeys f).
Proof. done. Qed.
Lemma tick_map f : WTick (wmapf f).
Proof. done. Qed.

Create HintDb wtick.
#[export] Hint Resolve tick_ret tick_get tick_throw tick_bind tick_if tick_when tick_for tick_all_bots
  tick_in_bot tick_in_current tick_now tick_rand tick_random tick_keys tick_map : wtick.

Lemma tick_keydown t c : WTick (keydown t c).
Proof.
  unfold keydown. apply tick_if; [auto with wtick|].
  destruct c; cbn [user_tool]; unfold direction_down; auto 12 with wtick; try done.
  - apply tick_bind; [auto with wtick|]. intros _. apply tick_bind; [auto with wtick|]. intros []; auto with wtick.
  - apply tick_all_bots. intros i. unfold gather, spread. apply tick_bind; [auto with wtick|]. intros w.
    destruct (Bots w !! i); [|auto with wtick]. destruct (current w); [|auto with wtick].
    apply tick_when, tick_bind; auto 12 with wtick.
Qed.

Lemma tick_onmessage m : WTick (onmessage m).
Proof. destruct m as [g [|]| | |]; cbn [onmessage]; auto with wtick. Qed.

Lemma tick_Update v : WTick (Update v).
Proof.
  assert (WTick random_tile) by (unfold random_tile; auto 12 with wtick).
  unfold Update. do 4 (apply tick_bind; [auto 12 with wtick | intros ?]).
  apply tick_bind; [|intros _; done]. intros w. unfold wupd. cbn. by destruct (Bots w), (CurrentBot w).
Qed.

Lemma tick_hold fuel w r w' : hold_timer fuel w = Some (r, w') -> ticking w' = ticking w.
Proof.
  assert (forall s fuel w r w', hold_loop fuel s w = Some (r, w') -> ticking w' = ticking w) as Hl.
  { intros s fuel0. induction fuel0 as [|n IH]; intros w0 r0 w0'; cbn [hold_loop];
      (destruct (delta (keys w0)) as [d|]; [|by intros [= <- <-]]);
      (destruct (Qle_bool d 0); [by intros [= <- <-]|]); [done|].
    pose proof (tick_in_current (lift (Move s true)) w0) as Ht.
    destruct (in_current (lift (Move s true)) w0) as [[e|cd] w1]; cbn in Ht; [by intros [= <- <-]|].
    intros H. apply IH in H. by rewrite H. }
  unfold hold_timer. destruct (performance_now (w_host w)) as [t h].
  set (w1 := w_set_keys _ _). change (ticking w) with (ticking w1).
  destruct (held_side (keys w1)); [destruct (shift (keys w1))|destruct (kz (keys w1))].
  - intros [= E]. pose proof (tick_in_current (lift (Rotate s true true)) w1) as Ht. by rewrite E in Ht.
  - apply Hl.
  - intros [= E]. pose proof (tick_in_current (lift (drop_result (Digg true))) w1) as Ht. by rewrite E in Ht.
  - by intros [= _ <-].
Qed.

(** Any event, whatever it throws. *)
Definition any_step (w w' : World) : Prop := exists e r, page_step w e r w'.

Lemma dead_stays w w' : any_step w w' -> ticking w = false -> ticking w' = false.
Proof.
  intros (e & r & [fuel H]%page_step_handle) Ht.
  assert (forall m : W unit, (m w).2 = w \/ WTick m -> Some (m w) = Some (r, w') -> ticking w' = false) as Hm.
  { intros m Hm [= E]. rewrite E in *. rewrite <- Ht. destruct Hm as [<-|Hm]; [done|].
    specialize (Hm w). by rewrite E in Hm. }
  revert H. destruct e; cbn [handle];
    try (lazymatch goal with
         | |- context [hold_timer] => rewrite <- Ht; apply tick_hold
         | |- context [prog_timer] => apply Hm; left
         | _ => apply Hm; right
         end).
  - apply tick_keydown.
  - unfold keyup. destruct c; auto 8 with wtick.
  - auto with wtick.
  - unfold mousedown, MouseSetBlock. auto 20 with wtick.
  - unfold mousemove, MouseSetBlock. auto 20 with wtick.
  - unfold mouseleave. auto with wtick.
  - unfold mouseup. auto with wtick.
  - apply tick_onmessage.
  - done.
  - done.
  - by rewrite prog_timer_eq, Ht.
  - apply tick_Update.
  - intros w1. unfold falling, wupd. cbn [snd]. by destruct (falling_tick _ _ _ _ _) as [? [? ?]].
  - intros w1. unfold growing, wupd. cbn [snd]. by destruct (growth_tick _) as [[? ?] ?].
Qed.

Lemma in_bot_others {A} i (m : X A) w j : j <> i -> Bots (in_bot i m w).2 !! j = Bots w !! j.
Proof.
  intros Hne. unfold in_bot. destruct (Bots w !! i); [|done]. destruct (m _) as [r c].
  by apply list_lookup_insert_ne.
Qed.

(** The executor up to the first error: [k] bots are behind, [n] ahead. *)
Lemma Execute_from n : forall k w e, (wfor (seq k n) (λ i, in_bot i Execute_bot) w).1 = inl e ->
  (k + n <= length (Bots w))%nat ->
  exists i b c, (k <= i)%nat /\ Bots w !! i = Some b /\ bot c = b /\ (Execute_bot c).1 = inl e /\
    forall j, (i < j)%nat -> Bots (wfor (seq k n) (λ i, in_bot i Execute_bot) w).2 !! j = Bots w !! j.
Proof.
  induction n as [|n IH]; intros k w e; cbn [seq wfor]; [done|].
  intros He Hl. destruct (lookup_lt_is_Some_2 (Bots w) k) as [b Hb]; [lia|]. revert He Hl.
  pose proof (λ j, in_bot_others k Execute_bot w j) as Hoth.
  unfold wbind. unfold in_bot at 1 3. unfold in_bot in Hoth. rewrite Hb in *.
  destruct (Execute_bot (enter w b)) as [[e'|[]] c'] eqn:Ex; cbn [fst snd] in *.
  - intros [= ->] _. exists k, b, (enter w b). split_and!; [lia|done|done|by rewrite Ex|].
    intros j Hj. apply Hoth. lia.
  - intros He Hl. destruct (IH (S k) (leave k c' w) e He) as (i & b' & c & Hi & Hb' & Hc & Hx & Hj).
    { cbn. rewrite length_insert. lia. }
    exists i, b', c. rewrite Hoth in Hb' by lia. split_and!; [lia|done|done|done|].
    intros j Hij. rewrite (Hj j Hij). apply Hoth. lia.
Qed.

(** C9: One failing program stops all programs, for good: an error of bot i ends
    the call of the executor before the bots after i, and when it comes out of the
    timer, the timer is never set again: after any further events the callback runs
    no program. *)
Theorem program_error_stops_all (w : World) (e : JsError) :
  ((Execute w).1 = inl e ->
   exists i b c, Bots w !! i = Some b /\ bot c = b /\ (Execute_bot c).1 = inl e /\
     forall j, (i < j)%nat -> Bots (Execute w).2 !! j = Bots w !! j) /\
  ((prog_timer w).1 = inl e ->
   forall w', rtc any_step (prog_timer w).2 w' -> prog_timer w' = (inr tt, w')).
Proof.
  split.
  - intros He. destruct (Execute_from (length (Bots w)) 0 w e He) as (i & b & c & _ & Hb & Hc & Hx & Hj); [lia|].
    by exists i, b, c.
  - intros He w' Hs. assert (ticking w' = false) as Ht; [|by rewrite prog_timer_eq, Ht].
    assert (ticking (prog_timer w).2 = false) as H0.
    { rewrite prog_timer_eq in *. destruct (ticking w); [|done].
      assert (WTick prog_run) as Hr by (unfold prog_run, Execute; auto 12 with wtick).
      specialize (Hr (w_set_ticking false w)).
      destruct (prog_run (w_set_ticking false w)) as [[e'|[]] w1]; cbn in *; [exact Hr | done]. }
    clear He. induction Hs as [w1|w1 w2 w3 H12 _ IH]; [done|]. by apply IH, (dead_stays w1).
Qed.

(** A program whose only line begins with a line feed, started. *)
Definition broken_bot : Bot := b_prog (pc_isExecute true (pc_program (line [op 1]) (new_ProgramCondition 0))) demo_bot.
Definition broken_world : World := (prog_timer (demo_world [broken_bot; demo_bot])).2.

Lemma program_error_stops_all_witness :
  (prog_timer broken_world).1 = inl TypeError /\
  prog_timer (keydown false K_R (prog_timer broken_world).2).2 =
    (inr tt, (keydown false K_R (prog_timer broken_world).2).2).
Proof.
  assert ((prog_timer broken_world).1 = inl TypeError) as He by (vm_compute; reflexivity).
  split; [exact He|]. destruct (program_error_stops_all broken_world TypeError) as [_ H].
  apply (H He), rtc_once. exists (E_keydown false K_R), (keydown false K_R (prog_timer broken_world).2).1.
  apply (page_step_intro _ 0). cbn [handle]. by destruct (keydown _ _ _).
Defined.

(** ** A stale start *)

(** At the first cell of the program [g], the start behind its end. *)
Definition stale (g : list Cell) (p : ProgramCondition) : Prop :=
  program p = g /\ currIndex p = 0 /\ prog_len g <= startIndex p /\ (0 < length (stack p))%nat.

(** The first line of a program has cells, and they are empty. *)
Definition empty_line (g : list Cell) : Prop := forall k, 0 <= k < LineLength -> exists d, at_index g k = Some d /\ cell_id d = 0.

(** What an operation that does not throw gives. *)
Lemma xwp_total {A} (m : X A) (Q : A -> Ctx -> Prop) c : xwp m Q NoErr c -> exists a c', m c = (inr a, c') /\ Q a c'.
Proof. unfold xwp. destruct (m c) as [[e|a] c']; [done|]. intros H. by exists a, c'. Qed.

Lemma set_program_stale g c : Inv c -> fine (prog c) -> prog_len g <= startIndex (prog c) ->
  xwp (set_program g) (λ _ c', Inv c' /\ stale g (prog c')) NoErr c.
Proof.
  intros Hi Hf Hs. destruct (fine_stack _ Hf) as [s0 Es0].
  unfold set_program. apply xwp_bind, xwp_upd. apply (Reset_keeps (stale g) _ s0); [eauto with inv | done |].
  intros t. unfold stale. cbn. rewrite length_insert. unfold at_index in Es0. cbn in Es0. apply lookup_lt_Some in Es0. by split_and!.
Qed.

Lemma start_stale g c : Inv c -> stale g (prog c) ->
  xwp (Reset >! upd (pc_isExecute true)) (λ _ c', isExecute (prog c') = true /\ stale g (prog c')) NoErr c.
Proof.
  intros Hi (G1 & G2 & G3 & G4). destruct (at_index_Some (stack (prog c)) 0) as [s1 Es1]; [lia|]. apply xwp_bind.
  eapply xwp_mono; [apply (Reset_keeps (stale g) _ s1 Hi Es1) | | done].
  - intros t. unfold stale. cbn. rewrite length_insert. by split_and!.
  - intros _ c' [_ HQ]. by apply xwp_upd.
Qed.

(** The scan of the empty line jumps to the start. *)
Lemma scan_stale g c n : forall k, empty_line g -> stale g (prog c) -> isExecute (prog c) = true ->
  0 <= k < 16 -> 16 - k <= Z.of_nat n ->
  xwp (empty_scan n k) (λ r c', r = true /\ isExecute (prog c') = true /\ program (prog c') = g /\
    prog_len g <= currIndex (prog c')) NoErr c.
Proof.
  intros k Hg (F1 & F2 & F3 & F4) Hx. revert k. induction n as [|n IH]; intros k Hr Hn; [lia|]. cbn [empty_scan].
  destruct (Hg k Hr) as (d & Ed & E0). apply xwp_bind, (xwp_cell_at _ d); [by rewrite F1|]. rewrite E0.
  apply xwp_if; intros E1; [|done]. apply xwp_if; intros E2.
  - apply xwp_bind, xwp_upd, xwp_ret. cbn. by split_and!.
  - apply xwp_bind, xwp_getp. unfold LineLength in *. rewrite Z.rem_mod_nonneg, Z.mod_small in E2 by lia.
    apply xwp_if; intros E3; [|apply IH; lia]. zprop.
    destruct (Hg 15 ltac:(by split)) as (d' & Ed' & _). unfold at_index in Ed'. apply lookup_lt_Some in Ed'. rewrite F1 in E3. lia.
Qed.

Lemma Execute_stale g c : empty_line g -> stale g (prog c) -> isExecute (prog c) = true ->
  xwp Execute_bot (λ _ c', isExecute (prog c') = true /\ program (prog c') = g /\ prog_len g <= currIndex (prog c')) NoErr c.
Proof.
  intros Hg Hs Hx. pose proof Hs as (F1 & F2 & _). destruct (Hg 0 ltac:(done)) as (d & Ed & E0).
  unfold Execute_bot. apply xwp_bind, xwp_getp, xwp_if; intros Hx'; [|congruence].
  apply xwp_bind, (xwp_cell_at _ d); [by rewrite F1, F2|]. rewrite E0.
  apply xwp_bind, xwp_ret, xwp_bind. unfold empty_cell. apply xwp_bind, xwp_getp. rewrite F2.
  eapply xwp_mono; [apply (scan_stale g c 16 0 Hg Hs Hx); lia | | done].
  intros r c' (-> & H). by apply xwp_ret.
Qed.

Lemma Execute_outside c : isExecute (prog c) = true -> prog_len (program (prog c)) <= currIndex (prog c) ->
  (Execute_bot c).1 = inl TypeError.
Proof.
  intros He Hc. unfold Execute_bot, xbind, getp, lift, gets. cbn. fold (prog c).
  rewrite He. unfold cell_at, xbind, getp, lift, gets. cbn. fold (prog c).
  unfold at_index. destruct (0 <=? currIndex (prog c)) eqn:E; [|done]. by rewrite lookup_ge_None_2 by (unfold prog_len in Hc; lia).
Qed.

(** An operation of the i-th bot, as a step of the world. *)
Lemma in_bot_total {A} i (m : X A) (Q : A -> Ctx -> Prop) w b : Bots w !! i = Some b -> xwp m Q NoErr (enter w b) ->
  exists a c, in_bot i m w = (inr a, leave i c w) /\ Q a c /\ Bots (leave i c w) !! i = Some (bot c).
Proof.
  intros Hb (a & c & E & HQ)%xwp_total. exists a, c. unfold in_bot. rewrite Hb, E. split_and!; [done | done|].
  cbn. apply list_lookup_insert_eq. by eapply lookup_lt_Some.
Qed.

(** C27: Loading a program keeps the start of the one before: when the current bot, whose
    start lies at or behind the end of a new program, gets this program by a message and is
    started by another, and the first line of the program is empty, then neither message throws, the
    executor's first visit of the bot jumps out of the program, and its second visit throws. *)
Theorem stale_start_throws (w : World) (i : nat) (b : Bot) (g : list Cell)
    (Hw : WInv w) (Hi : CurrentBot w = Some i) (Hb : Bots w !! i = Some b)
    (Hs : prog_len g <= startIndex (programCondition b)) (Hg : empty_line g) :
  let '(r1, w1) := onmessage (M_setprogram g false) w in
  let '(r2, w2) := onmessage M_start_prog w1 in
  let '(r3, w3) := in_bot i Execute_bot w2 in
  r1 = inr tt /\ r2 = inr tt /\ r3 = inr tt /\
  (exists b3, Bots w3 !! i = Some b3 /\ prog_len (program (programCondition b3)) <= currIndex (programCondition b3)) /\
  (in_bot i Execute_bot w3).1 = inl TypeError.
Proof.
  destruct (WInv_enter w i b Hw Hb) as [Hinv Hf]. cbn [onmessage]. unfold in_current, wbind, wget. rewrite Hi.
  destruct (in_bot_total i _ _ w b Hb (set_program_stale g (enter w b) Hinv Hf Hs)) as ([] & c1 & -> & [I1 S1] & B1).
  cbn [CurrentBot leave]. rewrite Hi. set (w1 := leave i c1 w) in *.
  assert (Inv (enter w1 (bot c1))) as I1' by (apply Inv_bot in I1; by apply Inv_bot).
  destruct (in_bot_total i _ _ w1 (bot c1) B1 (start_stale g (enter w1 (bot c1)) I1' S1)) as ([] & c2 & -> & [X2 S2] & B2).
  set (w2 := leave i c2 w1) in *.
  destruct (in_bot_total i _ _ w2 (bot c2) B2 (Execute_stale g (enter w2 (bot c2)) Hg S2 X2)) as ([] & c3 & -> & (X3 & P3 & O3) & B3).
  set (w3 := leave i c3 w2) in *. split_and!; [done..| |].
  - exists (bot c3). split; [exact B3|]. unfold prog in *. by rewrite P3.
  - assert ((Execute_bot (enter w3 (bot c3))).1 = inl TypeError) as H.
    { apply Execute_outside; [exact X3|]. change (prog (enter w3 (bot c3))) with (prog c3). by rewrite P3. }
    unfold in_bot. rewrite B3. by destruct (Execute_bot (enter w3 (bot c3))) as [r c4].
Qed.

(** A bot in a program of two lines whose start is in the second. *)
Definition late_bot : Bot := b_prog (pc_startIndex 16 (pc_program (line [] ++ line []) (new_ProgramCondition 0))) demo_bot.
Definition late_world : World := w_set_CurrentBot (Some 0%nat) (demo_world [late_bot]).

Lemma stale_start_throws_witness :
  (in_bot 0 Execute_bot (in_bot 0 Execute_bot (onmessage M_start_prog (onmessage (M_setprogram (line []) false) late_world).2).2).2).1
  = inl TypeError.
Proof.
  pose proof (stale_start_throws late_world 0 late_bot (line [])) as H.
  destruct (onmessage (M_setprogram (line []) false) late_world) as [r1 w1]. cbn [snd].
  destruct (onmessage M_start_prog w1) as [r2 w2]. cbn [snd]. destruct (in_bot 0 Execute_bot w2) as [r3 w3]. cbn [snd].
  apply H.
  - assert (WInv (demo_world [late_bot])) as [W1 W2 W3 W4 W5].
    { apply demo_world_ok. intros [|[|k]] b; cbn; try done. intros [= <-]. split; [destruct demo_bot_ok; by split|].
      left. split; [by vm_compute | by vm_compute | by vm_compute | by vm_compute | | done]. intros k Hk. cbn in Hk. lia. }
    split; try done. intros k [= <-]. cbn. lia.
  - reflexivity.
  - reflexivity.
  - vm_compute. discriminate.
  - intros k Hk. exists (op 0). split; [|reflexivity]. unfold LineLength in Hk. unfold at_index. replace (0 <=? k) with true by lia.
    change (line []) with (replicate 16 (op 0)). apply lookup_replicate_2. lia.
Defined.

(** ** The loop of a held key *)

Lemma current_leave w i c b : CurrentBot w = Some i -> Bots w !! i = Some b -> current (leave i c w) = Some (bot c).
Proof.
  intros Hi Hb. unfold current. cbn. rewrite Hi. cbn. apply list_lookup_insert_eq. by eapply lookup_lt_Some.
Qed.

(** One round of the loop, on the bot it moves. *)
Lemma hold_loop_round n s w b d : current w = Some b -> delta (keys w) = Some d -> Qle_bool d 0 = false ->
  exists i, CurrentBot w = Some i /\ Bots w !! i = Some b /\
  hold_loop (S n) s w =
    let '(cd, c) := Move s true (enter w b) in
    hold_loop n s (w_set_keys (k_delta (match cd with Some cd => Some (d - cd)%Q | None => None end) (keys w))
      (leave i c w)).
Proof.
  intros Hc Hd Hp. unfold current in Hc. destruct (CurrentBot w) as [i|] eqn:Ei; [|done]. cbn in Hc.
  exists i. split_and!; [done|done|]. cbn [hold_loop]. rewrite Hd, Hp.
  unfold in_current, wbind, wget. rewrite Ei. unfold in_bot. rewrite Hc. unfold lift.
  by destruct (Move s true (enter w b)) as [cd c].
Qed.

(** The bot stands before a wall it may not enter and will not dig. *)
Record walled (s : Side) (c : Ctx) : Prop := {
  wd_permitted : isManualControlAlloved (prog c) = true;
  wd_wall : can_enter c (target s (bot c)) = false;
  wd_autodigg : autodigg (mode (bot c)) = false;
  wd_cooldown : (cooldown (bot c) == 0)%Q }.

Lemma target_turned s b : target s (b_rotation (turned s (rotation b)) b) = target s b.
Proof. by destruct s. Qed.

Lemma Move_walled s c : walled s c ->
  wp (Move s true) (λ r c', r = Some (cooldown (bot c)) /\ ignoreBorders c' = ignoreBorders c /\ walled s c') c.
Proof.
  intros [Hp Hw Ha Hc]. unfold Move, inCooldown. do 2 wp_step. unfold permitted. rewrite Hp. cbn [negb orb].
  wp_run; [split; [done|]; by split|]. apply wp_move_case. cbn [bot c_host]. unfold wp.
  rewrite step_to_stays.
  - cbn. destruct s; (split; [done|]; split; [done|]; by split).
  - destruct (target s (bot c)) as [x y] eqn:Et. cbn [vx vy]. by destruct s.
  - by destruct s.
Qed.

Lemma hold_loop_stuck fuel s w b d : current w = Some b -> walled s (enter w b) ->
  delta (keys w) = Some d -> (0 < d)%Q -> hold_loop fuel s w = None.
Proof.
  assert (Hpos : forall d, (0 < d)%Q -> Qle_bool d 0 = false).
  { intros q Hq. apply not_true_iff_false. rewrite Qle_bool_iff. lra. }
  revert w b d. induction fuel as [|n IH]; intros w b d Hb Hw Hd Hp.
  - cbn. by rewrite Hd, Hpos.
  - destruct (hold_loop_round n s w b d Hb Hd (Hpos d Hp)) as (i & Hi & Hl & ->).
    destruct (wp_run _ _ _ (Move_walled s _ Hw) _ _ (surjective_pairing _)) as (Hr & Hib & Hw').
    destruct (Move s true (enter w b)) as [cd c]. cbn [fst snd] in *. subst cd.
    pose proof (wd_cooldown _ _ Hw) as H0. cbn in H0.
    eapply IH; [by eapply (current_leave w i c b) | | reflexivity|].
    + destruct c. cbn in *. subst. exact Hw'.
    + cbn. lra.
Qed.

(** C20: A held key can freeze the page: when borders count, autodig is off, the current bot
    may be steered by hand, has never had a cooldown and faces a wall, and a key of movement that
    points at the wall is held without shift while time passes, the loop of
    the 1 ms timer never ends - for no fuel does the event of the held key have an
    outcome. *)
Theorem held_key_hangs (w : World) (b : Bot) (s : Side)
    (Hb : current w = Some b) (Hk : held_side (keys w) = Some s) (Hs : shift (keys w) = false)
    (Ht : (timePrev (keys w) < clock (w_host w) (nclock (w_host w)))%Q)
    (Hw : walled s (enter w b)) :
  forall r w', ~ page_step w E_hold r w'.
Proof.
  intros r w' [fuel Hf]%page_step_handle. cbn [handle] in Hf. unfold hold_timer in Hf.
  change (performance_now (w_host w)) with (clock (w_host w) (nclock (w_host w)), (performance_now (w_host w)).2) in Hf.
  set (t := clock _ _) in *. set (h := (performance_now (w_host w)).2) in *.
  cbv iota in Hf. cbv zeta in Hf. cbn [keys w_set_keys] in Hf.
  change (held_side (k_delta _ _)) with (held_side (keys w)) in Hf.
  change (shift (k_delta _ _)) with (shift (keys w)) in Hf. rewrite Hk, Hs in Hf.
  erewrite hold_loop_stuck in Hf; [done | | | reflexivity |].
  - exact Hb.
  - destruct Hw. by split.
  - cbn. lra.
Qed.

(** A bot in front of a wall, autodig off, the up key held since the start. *)
Definition walled_bot : Bot := b_mode (m_autodigg false (mode demo_bot)) demo_bot.
Definition walled_world : World :=
  w_set_keys (set_held K_up true new_KeyFlags)
    (w_set_map (SetTileWithCoords 1 0 (Block B_rock_black) 0 (new_WorldMap 3 3))
      (w_set_CurrentBot (Some 0%nat) (demo_world [walled_bot]))).

Lemma held_key_hangs_witness :
  walled S_u (enter walled_world walled_bot) /\ ~ exists p, page_step walled_world E_hold p.1 p.2.
Proof.
  assert (walled S_u (enter walled_world walled_bot)) as Hw by (split; reflexivity).
  split; [exact Hw|]. intros [p Hp].
  apply (held_key_hangs walled_world walled_bot S_u eq_refl eq_refl eq_refl eq_refl Hw p.1 p.2 Hp).
Defined.

(** How long a move takes at the least, whatever the bot stands on. *)
Definition slower (δ : Q) (b : Bot) : Prop :=
  (δ <= CD_digging)%Q /\ (δ <= 1000 / moveSpeed (bot_stats b))%Q /\
  (δ <= 1000 / (moveSpeed (bot_stats b) * moveRoadSpeedMul (bot_stats b)))%Q /\ (δ <= cooldown b)%Q.

Lemma slower_cd δ c v : slower δ (bot c) -> (δ <= v)%Q ->
  wp (set_cooldown v) (λ _ c', slower δ (bot c')) c.
Proof. intros (H1 & H2 & H3 & _) Hv. unfold set_cooldown. wp_run. by split_and!. Qed.

Lemma Digg_slower δ u c : slower δ (bot c) -> wp (Digg u) (λ _ c', slower δ (bot c')) c.
Proof.
  intros Hs. unfold Digg. wp_run; try done;
    (eapply wp_mono; [apply slower_cd; [exact Hs | apply Hs] |]; cbv beta; intros ? ? ? ; by wp_run).
Qed.

Lemma move_case_slower δ s c : slower δ (bot c) -> wp (move_case s) (λ _ c', slower δ (bot c')) c.
Proof.
  intros Hs. apply wp_move_case. assert (slower δ (bot (after_turn s c))) as H by by destruct s.
  revert H. generalize (after_turn s c). clear Hs. intros c1 Hs. unfold step_to. wp_run; try done.
  - eapply wp_mono; [apply Trails_spec|]. cbv beta. intros _ c2 (_ & _ & _ & _ & _ & _ & E & _). wp_run.
    cbn. by rewrite E.
  - eapply wp_mono; [by apply Digg_slower|]. cbv beta. intros ? ? ? . by wp_run.
Qed.

Lemma Move_slower δ s u c : slower δ (bot c) ->
  wp (Move s u) (λ r c', slower δ (bot c') /\ (r = None \/ r = Some (cooldown (bot c')))) c.
Proof.
  intros Hs. unfold Move, inCooldown. wp_run; try (split; [done | by auto]).
  eapply wp_mono; [by apply move_case_slower|]. cbv beta. intros moved c1 H1. wp_run; [|split; [done | by auto]].
  eapply wp_mono; [apply slower_cd; [exact H1|]|].
  - unfold step_cd. destruct (_ && _); apply Hs.
  - cbv beta. intros _ c2 Hs2. unfold HasMoved. wp_run; (split; [done | by auto]).
Qed.

Lemma hold_loop_ends δ n s w b d : current w = Some b -> delta (keys w) = Some d ->
  (0 < δ)%Q -> slower δ b -> (d <= inject_Z (Z.of_nat n) * δ)%Q ->
  exists r w', hold_loop n s w = Some (r, w').
Proof.
  intros Hb Hd H0. revert w b d Hb Hd. induction n as [|n IH]; intros w b d Hb Hd Hs Hle.
  - cbn [hold_loop]. rewrite Hd. replace (Qle_bool d 0) with true; [by eexists _, _|].
    symmetry. apply Qle_bool_iff. change (inject_Z (Z.of_nat 0)) with 0%Q in Hle. lra.
  - destruct (Qle_bool d 0) eqn:E; [cbn [hold_loop]; rewrite Hd, E; by eexists _, _|].
    destruct (hold_loop_round n s w b d Hb Hd E) as (i & Hi & Hl & ->).
    destruct (wp_run _ _ _ (Move_slower δ s true (enter w b) Hs) _ _ (surjective_pairing _)) as [Hs' Hr].
    destruct (Move s true (enter w b)) as [cd c]. cbn [fst snd] in *. destruct Hr as [->| ->].
    + destruct n; cbn [hold_loop]; by eexists _, _.
    + eapply (IH _ (bot c)); [by eapply (current_leave w i c b) | reflexivity | done |].
      destruct Hs' as (_ & _ & _ & Hcd).
      rewrite Nat2Z.inj_succ in Hle. unfold Z.succ in Hle. rewrite inject_Z_plus in Hle.
      change (inject_Z 1) with 1%Q in Hle. lra.
Qed.

(** The shortest cooldown a round of the loop can meet. *)
Definition pace (b : Bot) : Q :=
  Qmin (cooldown b) (Qmin CD_digging (Qmin (1000 / moveSpeed (bot_stats b))
    (1000 / (moveSpeed (bot_stats b) * moveRoadSpeedMul (bot_stats b))))).

Lemma pace_slower b : slower (pace b) b.
Proof.
  unfold pace, slower.
  pose proof (Q.le_min_l (cooldown b) (Qmin CD_digging (Qmin (1000 / moveSpeed (bot_stats b))
    (1000 / (moveSpeed (bot_stats b) * moveRoadSpeedMul (bot_stats b)))))).
  pose proof (Q.le_min_r (cooldown b) (Qmin CD_digging (Qmin (1000 / moveSpeed (bot_stats b))
    (1000 / (moveSpeed (bot_stats b) * moveRoadSpeedMul (bot_stats b)))))).
  pose proof (Q.le_min_l CD_digging (Qmin (1000 / moveSpeed (bot_stats b))
    (1000 / (moveSpeed (bot_stats b) * moveRoadSpeedMul (bot_stats b))))).
  pose proof (Q.le_min_r CD_digging (Qmin (1000 / moveSpeed (bot_stats b))
    (1000 / (moveSpeed (bot_stats b) * moveRoadSpeedMul (bot_stats b))))).
  pose proof (Q.le_min_l (1000 / moveSpeed (bot_stats b))
    (1000 / (moveSpeed (bot_stats b) * moveRoadSpeedMul (bot_stats b)))).
  pose proof (Q.le_min_r (1000 / moveSpeed (bot_stats b))
    (1000 / (moveSpeed (bot_stats b) * moveRoadSpeedMul (bot_stats b)))).
  split_and!; lra.
Qed.

Lemma pace_pos b : bot_ok b -> (0 < cooldown b)%Q -> (0 < pace b)%Q.
Proof.
  intros [_ _ _ _ Hsp Hrd] Hc. unfold pace.
  assert (forall q, (0 < q)%Q -> (0 < 1000 / q)%Q) as Hdiv.
  { intros q Hq. apply Qlt_shift_div_l; [done|]. lra. }
  assert (0 < moveSpeed (bot_stats b) * moveRoadSpeedMul (bot_stats b))%Q by by apply Qmult_lt_0_compat.
  repeat apply Q.min_glb_lt; auto. reflexivity.
Qed.

(** C14: A held key does not freeze the page once the bot has a cooldown: then the
    event of the 1 ms timer ends, after at most as many rounds as the shortest
    cooldown fits into the time since the key went down. *)
Theorem held_key_ends (w : World) (b : Bot)
    (Hw : WInv w) (Hb : current w = Some b) (Hc : (0 < cooldown b)%Q) :
  (0 < pace b)%Q /\
  (forall n, (clock (w_host w) (nclock (w_host w)) - timePrev (keys w) <= inject_Z (Z.of_nat n) * pace b)%Q ->
     exists r w', handle n E_hold w = Some (r, w')) /\
  exists w', page_step w E_hold (inr tt) w'.
Proof.
  assert (bot_ok b) as Hok.
  { unfold current in Hb. destruct (CurrentBot w) as [i|]; [|done]. by eapply (wi_bots w Hw i). }
  assert (chosen w) as Hch by (unfold current in Hb; unfold chosen; destruct (CurrentBot w); done).
  assert (forall n, (clock (w_host w) (nclock (w_host w)) - timePrev (keys w) <= inject_Z (Z.of_nat n) * pace b)%Q ->
    exists r w', handle n E_hold w = Some (r, w')) as Hn.
  { intros n Hn. cbn [handle]. unfold hold_timer.
    change (performance_now (w_host w)) with (clock (w_host w) (nclock (w_host w)), (performance_now (w_host w)).2).
    cbv iota zeta. set (t := clock _ _) in *. set (w1 := w_set_keys _ _).
    destruct (held_side (keys w1)) as [s|].
    - destruct (shift (keys w1)); [eexists _, _; by rewrite <- surjective_pairing|].
      apply (hold_loop_ends (pace b) n s w1 b (t - timePrev (keys w))%Q);
        [done | done | by apply pace_pos | apply pace_slower | done].
    - destruct (kz (keys w1)); eexists _, _; [by rewrite <- surjective_pairing | done]. }
  split; [by apply pace_pos|]. split; [done|].
  destruct (Hn (Z.to_nat (Qceiling ((clock (w_host w) (nclock (w_host w)) - timePrev (keys w)) / pace b)))) as (r & w' & E).
  - set (e := (_ - _)%Q). set (q := (e / pace b)%Q). pose proof (pace_pos b Hok Hc) as Hp.
    assert (q <= inject_Z (Z.of_nat (Z.to_nat (Qceiling q))))%Q as Hq.
    { eapply Qle_trans; [apply Qle_ceiling|]. rewrite <- Zle_Qle. lia. }
    apply (Qle_trans _ (q * pace b)); [apply Qle_lteq; right; unfold q; field; lra|].
    apply Qmult_le_compat_r; [exact Hq | lra].
  - exists w'. destruct (hold_timer_ok _ w r w' Hw E) as (_ & _ & Hr). rewrite (Hr Hch) in E.
    by apply (page_step_intro _ _ _ _ _ E).
Qed.

(** The same bot, once it has dug. *)
Definition rested_world : World :=
  w_set_Bots [b_cooldown CD_digging 0 walled_bot] walled_world.

Lemma held_key_ends_witness : exists w', page_step rested_world E_hold (inr tt) w'.
Proof.
  destruct (held_key_ends rested_world (b_cooldown CD_digging 0 walled_bot)) as (_ & _ & H).
  - split; cbn [w_map w_host Bots CurrentBot rested_world w_set_Bots walled_world w_set_keys w_set_map
      w_set_CurrentBot demo_world].
    + apply wf_SetTileWithCoords; [apply Block_byte | apply wf_Resyze; lia].
    + vm_compute. discriminate.
    + split; intros n; cbn; [rewrite <- Zle_Qle; lia | split; [discriminate | reflexivity]].
    + intros [|[|i]] b; cbn; try done. intros [= <-]. split; [|apply (fine_new 0)].
      destruct demo_bot_ok. split; try done.
    + intros i [= <-]. cbn. lia.
  - reflexivity.
  - reflexivity.
  - exact H.
Defined.
