(* ===== verification/Anims.v ===== *)
(** * Animations and interpolation

    Models [Anim], [DropAnim] and [Animations] of [scripts/tables/minestileset.js],
    [DrawFiniteAnims] and [DrawDropsAnim] of [scripts/wrenderer.js], and the
    interpolation of [scripts/usefuladitions.js].  An animation object is known by
    its number in [store], because the program passes the same object between the
    set of the shown animations and the pool of those it takes for finished. *)

From Stdlib Require Import QArith Qround Qabs Qpower Lqa.
From S2P Require Import Prelude Host JsNum JsSet Vec.

(** ** The tables *)

Record Frame := mkFrame { fx : Z; fy : Z; fw : Z; fh : Z }.

Inductive AnimID := Anim_digg | Anim_heal | Anim_geo.

#[global] Instance AnimID_eq_dec : EqDecision AnimID.
Proof. solve_decision. Defined.

Definition digg_frames : list Frame :=
  [ mkFrame 0 0 16 32; mkFrame 16 0 16 32; mkFrame 32 0 16 32; mkFrame 48 0 16 32; mkFrame 64 0 16 32;
    mkFrame 0 32 16 32; mkFrame 16 32 16 32; mkFrame 32 32 16 32; mkFrame 48 32 16 32; mkFrame 64 32 16 32;
    mkFrame 0 64 16 32; mkFrame 16 64 16 32; mkFrame 32 64 16 32; mkFrame 48 64 16 32; mkFrame 64 64 16 32 ].
Definition heal_frames : list Frame :=
  [ mkFrame 0 0 16 16; mkFrame 16 0 16 16; mkFrame 32 0 16 16; mkFrame 48 0 16 16; mkFrame 64 0 16 16 ].
Definition geo_frames : list Frame :=
  [ mkFrame 0 0 32 32; mkFrame 32 0 32 32; mkFrame (32 * 2) 0 32 32; mkFrame (32 * 3) 0 32 32;
    mkFrame (32 * 4) 0 32 32; mkFrame (32 * 5) 0 32 32; mkFrame (32 * 6) 0 32 32; mkFrame (32 * 7) 0 32 32 ].

(** [Animations]: the frames, the frames per second, the size in blocks. *)
Record AnimData := mkAnimData { frames : list Frame; speed : Z; syzeInBlocks : Z * Z }.
Definition Animations (id : AnimID) : AnimData :=
  match id with
  | Anim_digg => mkAnimData digg_frames 20 (1, 2)
  | Anim_heal => mkAnimData heal_frames 15 (1, 1)
  | Anim_geo => mkAnimData geo_frames 50 (1, 1)
  end.

(** ** The objects *)

Record Anim := mkAnim {
  an_id : AnimID; an_position : Vector2d; an_rotation : Z; timestamp : Q; isFinished : bool }.

(** The host's clock, the objects made so far, the static pool
    [Anim.FinishedAnims] and the renderer's set [finiteAnims]. *)
Record Anims := mkAnims {
  a_host : Host; store : list Anim; FinishedAnims : JsSet; finiteAnims : JsSet }.

Definition a_clock (s : Anims) : Q := clock (a_host s) (nclock (a_host s)).
Definition a_tick (s : Anims) : Anims :=
  mkAnims (performance_now (a_host s)).2 (store s) (FinishedAnims s) (finiteAnims s).
Definition the_anim (s : Anims) (k : Z) : option Anim := at_index (store s) k.
Definition set_anim (k : Z) (a : Anim) (s : Anims) : Anims :=
  mkAnims (a_host s) (<[Z.to_nat k := a]> (store s)) (FinishedAnims s) (finiteAnims s).

(** [GetExemplar(animID, position, rotation)]: the first object of the pool, or a
    new one; [Init] in both cases. *)
Definition GetExemplar (id : AnimID) (p : Vector2d) (r : Z) (s : Anims) : Z * Anims :=
  let a := mkAnim id p r (a_clock s) false in
  match (set_next (FinishedAnims s) set_iter).1 with
  | Some k =>
      let s := mkAnims (a_host s) (store s) (set_delete (FinishedAnims s) k) (finiteAnims s) in
      (k, set_anim k a (a_tick s))
  | None =>
      let s := a_tick s in
      (Z.of_nat (length (store s)), mkAnims (a_host s) (store s ++ [a]) (FinishedAnims s) (finiteAnims s))
  end.

(** [finiteAnims.add(Anim.GetExemplar(..))], as the bots call it. *)
Definition show (id : AnimID) (p : Vector2d) (r : Z) (s : Anims) : Anims :=
  let '(k, s) := GetExemplar id p r s in
  mkAnims (a_host s) (store s) (FinishedAnims s) (set_add (finiteAnims s) k).

(** [Math.floor((performance.now() - timestamp) * speed / 1000)] at time [t]. *)
Definition frame_number (a : Anim) (t : Q) : Z :=
  Qfloor ((t - timestamp a) * inject_Z (speed (Animations (an_id a))) / 1000).

(** [GetCurrentFrame()]: [None] is null, [Some None] a frame that is undefined. *)
Definition GetCurrentFrame (a : Anim) (t : Q) : option (option Frame) :=
  let curframe := frame_number a t in
  if curframe <? Z.of_nat (length (frames (Animations (an_id a))))
  then Some (at_index (frames (Animations (an_id a))) curframe) else None.

(** [get IsEnded()] of object [k]: an animation that is not finished is put into
    the pool before it is looked at. *)
Definition IsEnded (k : Z) (a : Anim) (s : Anims) : bool * Anims :=
  if isFinished a then (true, s)
  else
    let fin := Z.of_nat (length (frames (Animations (an_id a)))) <=? frame_number a (a_clock s) in
    let s := a_tick s in
    let s := mkAnims (a_host s) (store s) (set_add (FinishedAnims s) k) (finiteAnims s) in
    (fin, set_anim k (mkAnim (an_id a) (an_position a) (an_rotation a) (timestamp a) fin) s).

(** One call of the callback in [DrawFiniteAnims]: what it draws. *)
Definition draw_anim (k : Z) (s : Anims) : list (AnimID * Vector2d * option Frame) * Anims :=
  match the_anim s k with
  | None => ([], s)
  | Some a =>
      let curframe := GetCurrentFrame a (a_clock s) in
      let '(ended, s) := IsEnded k a (a_tick s) in
      match curframe with
      | Some f =>
          if negb ended then ([(an_id a, an_position a, f)], s)
          else ([], mkAnims (a_host s) (store s) (FinishedAnims s) (set_delete (finiteAnims s) k))
      | None => ([], mkAnims (a_host s) (store s) (FinishedAnims s) (set_delete (finiteAnims s) k))
      end
  end.

(** [forEach] over the set: the callback only deletes the value it is called
    with, so it is called once for every value there was. *)
Fixpoint draw_all (ks : list Z) (s : Anims) : list (AnimID * Vector2d * option Frame) * Anims :=
  match ks with
  | [] => ([], s)
  | k :: ks =>
      let '(d, s) := draw_anim k s in
      let '(ds, s) := draw_all ks s in
      (d ++ ds, s)
  end.
Definition DrawFiniteAnims (s : Anims) : list (AnimID * Vector2d * option Frame) * Anims :=
  draw_all (omap id (finiteAnims s)) s.

(** ** Interpolation *)

(** [Lerp(ta, tb, amt)]: angles in degrees. *)
Definition Qlt_bool (x y : Q) : bool := negb (Qle_bool y x).
Definition Lerp (ta tb amt : Q) : Q :=
  let tb := if Qlt_bool 270 ta && Qlt_bool ta 360 && Qeq_bool tb 90 then 450%Q else tb in
  let ta := if Qlt_bool 359 ta && Qeq_bool tb 90 then 0%Q else ta in
  let tb := if Qeq_bool tb 0 && Qle_bool 169 ta then 360%Q else tb in
  if Qle_bool 359 ta && (Qeq_bool tb 0 || Qeq_bool tb 360) then 0%Q
  else
    let tb := if Qeq_bool tb 270 && Qlt_bool ta 90 then (-(90))%Q else tb in
    if Qlt_bool ta 0 && (Qeq_bool tb 270 || Qeq_bool tb (-(90))) then (360 - ta)%Q
    else ((1 - amt) * ta + amt * tb)%Q.

(** One coordinate of [Lerp2d(target, amt, translation, accuracy)]; without a
    translation the goal is the target. *)
Definition lerp1 (amt accuracy goal x : Q) : Q :=
  if Qlt_bool accuracy (Qabs (x - goal)) then ((1 - amt) * x + amt * goal)%Q else goal.

Definition V2q : Type := Q * Q.
Definition Lerp2d (target : V2q) (amt : Q) (translation : V2q) (accuracy : Q) (v : V2q) : V2q :=
  (lerp1 amt accuracy (target.1 - translation.1) v.1, lerp1 amt accuracy (target.2 - translation.2) v.2).
Definition dist2 (v w : V2q) : Q := ((w.1 - v.1) * (w.1 - v.1) + (w.2 - v.2) * (w.2 - v.2))%Q.

(** ** Drops *)

(** A crystal count that rises and then flies to the bot. *)
Record DropAnim := mkDropAnim {
  d_position : V2q; firstGoTo : V2q; firstTarget : bool; d_finished : bool }.

(** [Init(x, y, ..)]. *)
Definition new_DropAnim (x y : Z) : DropAnim :=
  mkDropAnim (inject_Z x, inject_Z y) (inject_Z x, inject_Z (y - 1)) true false.

(** [Update()], the place of the bot being [endPos]; distances are compared by
    their squares. *)
Definition drop_Update (endPos : V2q) (d : DropAnim) : DropAnim :=
  let accuracy := (5 # 10000)%Q in
  if firstTarget d then
    let p := Lerp2d (firstGoTo d) (18 # 100) (0, 0)%Q accuracy (d_position d) in
    mkDropAnim p (firstGoTo d) (negb (Qlt_bool (dist2 p (firstGoTo d)) (1 # 100))) (d_finished d)
  else
    let dist := dist2 (d_position d) endPos in
    mkDropAnim (Lerp2d endPos (66 # 100) (0, 0)%Q accuracy (d_position d)) (firstGoTo d) false
      (d_finished d || Qlt_bool dist (1 # 100) || Qlt_bool 9 dist).

(** ** The pool *)

Definition member (k : Z) (l : JsSet) : Prop := Some k ∈ l.

Record anims_ok (s : Anims) : Prop := {
  ao_pool : forall k, member k (FinishedAnims s) -> 0 <= k < Z.of_nat (length (store s));
  ao_shown : forall k, member k (finiteAnims s) -> 0 <= k < Z.of_nat (length (store s)) }.

Lemma member_add k j l : member k (set_add l j) <-> k = j \/ member k l.
Proof. unfold member. rewrite <- !set_has_iff. apply set_has_add. Qed.
Lemma member_delete k j l : member k (set_delete l j) <-> k <> j /\ member k l.
Proof. unfold member. rewrite <- !set_has_iff. apply set_has_delete. Qed.

(** What one call of the callback does to the two sets. *)
Record drawn (k : Z) (s s' : Anims) : Prop := {
  dr_store : length (store s') = length (store s);
  dr_pool : forall j, member j (FinishedAnims s) -> member j (FinishedAnims s');
  dr_pooled : forall j, member j (FinishedAnims s') -> j = k \/ member j (FinishedAnims s);
  dr_shown : forall j, member j (finiteAnims s') -> member j (finiteAnims s);
  dr_kept : forall j, member j (finiteAnims s) -> j = k \/ member j (finiteAnims s');
  dr_both : 0 <= k < Z.of_nat (length (store s)) -> member k (finiteAnims s') -> member k (FinishedAnims s') }.

Lemma draw_anim_drawn k s : drawn k s (draw_anim k s).2.
Proof.
  unfold draw_anim. destruct (the_anim s k) as [a|] eqn:Ea.
  2: { split; try done; [by right|by right|]. intros H. unfold the_anim in Ea.
       destruct (at_index_Some (store s) k H). congruence. }
  unfold IsEnded. destruct (isFinished a).
  - destruct (GetCurrentFrame a (a_clock s)) as [f|]; cbn [fst snd negb];
      (split; cbn [store FinishedAnims finiteAnims a_tick set_anim]; try done;
       [by right | intros j [_ Hj]%member_delete; done
       | intros j Hj; destruct (decide (j = k)); [by left | right; by apply member_delete]
       | intros _ [? _]%member_delete; done]).
  - destruct (GetCurrentFrame a (a_clock s)) as [f|]; [destruct (negb _)|]; cbn [fst snd];
      (split; cbn [store FinishedAnims finiteAnims a_tick set_anim];
       rewrite ?length_insert; try done;
       first
         [ intros j Hj; apply member_add; by right
         | intros j Hj; apply member_add in Hj as [->|Hj]; [by left | by right]
         | intros j Hj; apply member_delete in Hj as [_ Hj]; exact Hj
         | intros j Hj; destruct (decide (j = k)); [by left | right; by apply member_delete]
         | intros _ Hj; apply member_add; by left
         | intros j Hj; by right ]).
Qed.

(** A frame of drawing: the store keeps its size, the pool only grows, and
    whatever is still shown is in the pool. *)
Lemma draw_all_drawn ks s : (forall k, k ∈ ks -> 0 <= k < Z.of_nat (length (store s))) ->
  let s' := (draw_all ks s).2 in
  length (store s') = length (store s) /\
  (forall j, member j (FinishedAnims s) -> member j (FinishedAnims s')) /\
  (forall j, member j (FinishedAnims s') -> j ∈ ks \/ member j (FinishedAnims s)) /\
  (forall j, member j (finiteAnims s') -> member j (finiteAnims s)) /\
  (forall j, j ∈ ks -> member j (finiteAnims s') -> member j (FinishedAnims s')).
Proof.
  revert s. induction ks as [|k ks IH]; intros s Hr; cbn [draw_all].
  { cbn. split_and!; auto. by intros j Hj%not_elem_of_nil. }
  pose proof (draw_anim_drawn k s) as [D1 D2 D3 D4 D5 D6].
  destruct (draw_anim k s) as [d s1]. cbn [snd] in *.
  destruct (IH s1) as (E1 & E2 & E3 & E4 & E5).
  { intros j Hj. rewrite D1. apply Hr. by right. }
  destruct (draw_all ks s1) as [ds s2]. cbn [snd] in *. cbv zeta. split_and!.
  - congruence.
  - auto.
  - intros j Hj. apply E3 in Hj as [Hj|Hj]; [left; by right|].
    apply D3 in Hj as [->|Hj]; [left; by left | by right].
  - auto.
  - intros j Hj Hm. apply elem_of_cons in Hj as [->|Hj]; [|by apply E5].
    apply E2, D6; [apply Hr; by left | by apply E4].
Qed.

Lemma elem_of_values k (l : JsSet) : k ∈ omap id l <-> member k l.
Proof.
  unfold member. rewrite list_elem_of_omap. split.
  - intros (x & Hx & E). cbn in E. by subst.
  - intros H. by exists (Some k).
Qed.

Lemma DrawFiniteAnims_ok s : anims_ok s ->
  let s1 := (DrawFiniteAnims s).2 in
  anims_ok s1 /\ length (store s1) = length (store s) /\
  (forall k, member k (finiteAnims s1) -> member k (FinishedAnims s1)).
Proof.
  intros [Hp Hs]. cbv zeta. unfold DrawFiniteAnims.
  destruct (draw_all_drawn (omap id (finiteAnims s)) s) as (E1 & E2 & E3 & E4 & E5).
  { intros k Hk%elem_of_values. by apply Hs. }
  split_and!; [split| done |].
  - intros k Hk. rewrite E1. apply E3 in Hk as [Hk%elem_of_values|Hk]; auto.
  - intros k Hk. rewrite E1. auto.
  - intros k Hk. apply E5; [|done]. by apply elem_of_values, E4.
Qed.

(** Drawing reads the clock and nothing else of the host. *)
Lemma draw_anim_streams k s : same_streams (a_host s) (a_host (draw_anim k s).2).
Proof.
  unfold draw_anim. destruct (the_anim s k) as [a|]; [|done]. unfold IsEnded.
  destruct (isFinished a), (GetCurrentFrame a (a_clock s)); cbn; repeat case_match; cbn; unfold same_streams; cbn; auto with lia.
Qed.

Lemma DrawFiniteAnims_streams s : same_streams (a_host s) (a_host (DrawFiniteAnims s).2).
Proof.
  unfold DrawFiniteAnims. generalize (omap id (finiteAnims s)) as ks. intros ks. revert s.
  induction ks as [|k ks IH]; intros s; cbn [draw_all]; [done|]. pose proof (draw_anim_streams k s) as H.
  destruct (draw_anim k s) as [d s1]. specialize (IH s1). destruct (draw_all ks s1) as [ds s2]. cbn in *. by etransitivity.
Qed.

Lemma GetExemplar_pool id p r s k : member k (FinishedAnims s) -> anims_ok s ->
  exists j, member j (FinishedAnims s) /\ 0 <= j < Z.of_nat (length (store s)) /\
    GetExemplar id p r s =
      (j, set_anim j (mkAnim id p r (a_clock s) false)
            (a_tick (mkAnims (a_host s) (store s) (set_delete (FinishedAnims s) j) (finiteAnims s)))).
Proof.
  intros Hk [Hp _]. unfold GetExemplar.
  destruct (set_next_fresh (FinishedAnims s) k) as (j & it & E); [by apply set_has_iff|].
  rewrite E. cbn [fst]. exists j. assert (member j (FinishedAnims s)) as Hj.
  { apply set_has_iff. by eapply set_next_has. }
  split_and!; [done | by apply Hp | by apply Hp | done].
Qed.

(** Showing an animation. *)
Lemma show_ok id p r s : anims_ok s -> anims_ok (show id p r s) /\ same_streams (a_host s) (a_host (show id p r s)).
Proof.
  intros Hs. unfold show, GetExemplar. pose proof (performance_now_streams (a_host s)) as Ht.
  destruct (set_next (FinishedAnims s) set_iter) as [[k|] it] eqn:En; cbn [fst]; (split; [|exact Ht]).
  - assert (0 <= k < Z.of_nat (length (store s))) as Hk by (apply (ao_pool s Hs), set_has_iff; by eapply set_next_has).
    split; cbn; rewrite length_insert.
    + intros j [_ Hj]%member_delete. by apply (ao_pool s Hs).
    + intros j [->|Hj]%member_add; [done | by apply (ao_shown s Hs)].
  - split; cbn; rewrite length_app; cbn.
    + intros j Hj%(ao_pool s Hs). lia.
    + intros j [->|Hj%(ao_shown s Hs)]%member_add; lia.
Qed.

(** Running animations are recycled: an animation gets into the pool of the
    finished ones when it is looked at, not when it ends.  So as soon as one was
    drawn, the next animation that is started makes no new object, and when only
    running ones are in the pool it takes over one of them: no more animations are
    shown than before, and one that was playing is gone. *)
Theorem running_anim_recycled (s : Anims) (id : AnimID) (p : Vector2d) (r : Z) (k : Z)
    (Hok : anims_ok s) (Hk : member k (finiteAnims (DrawFiniteAnims s).2))
    (Honly : forall j, member j (FinishedAnims (DrawFiniteAnims s).2) -> member j (finiteAnims (DrawFiniteAnims s).2)) :
  let s1 := (DrawFiniteAnims s).2 in
  let s2 := show id p r s1 in
  length (store s2) = length (store s1) /\
  (forall j, member j (finiteAnims s2) <-> member j (finiteAnims s1)) /\
  exists j t, member j (finiteAnims s1) /\ the_anim s2 j = Some (mkAnim id p r t false).
Proof.
  cbv zeta. destruct (DrawFiniteAnims_ok s Hok) as (Hok1 & _ & Hsub). cbv zeta in *.
  set (s1 := (DrawFiniteAnims s).2) in *.
  destruct (GetExemplar_pool id p r s1 k (Hsub k Hk) Hok1) as (j & Hj & Hr & E).
  unfold show. rewrite E. cbn [store set_anim a_tick FinishedAnims finiteAnims a_host].
  rewrite length_insert. split; [done|]. split.
  - intros i. rewrite member_add. split; [intros [->|?]; auto | by right].
  - exists j, (a_clock s1). split; [by apply Honly|]. unfold the_anim, at_index. cbn [store].
    replace (0 <=? j) with true by lia. apply list_lookup_insert_eq. lia.
Qed.

Definition demo_anims : Anims := mkAnims (mkHost (λ n, inject_Z (1000 + Z.of_nat n)) (λ _, 0%Q) 0 0) [] set_new set_new.

Lemma running_anim_recycled_witness :
  let s := show Anim_digg (mkV2 5 5) 0 demo_anims in
  length (store (show Anim_digg (mkV2 9 9) 0 (DrawFiniteAnims s).2)) = 1%nat.
Proof.
  destruct (running_anim_recycled (show Anim_digg (mkV2 5 5) 0 demo_anims) Anim_digg (mkV2 9 9) 0 0) as (H & _ & _).
  - split; intros k; unfold member.
    + change (FinishedAnims _) with (@nil (option Z)). by intros ?%not_elem_of_nil.
    + change (finiteAnims _) with [Some 0]. rewrite list_elem_of_singleton. intros [= ->]. by vm_compute.
  - vm_compute. left.
  - intros j. unfold member. vm_compute. tauto.
  - etransitivity; [exact H | vm_compute; reflexivity].
Defined.

(** ** How long an animation plays *)

Lemma frame_number_mono a t t' : (t <= t')%Q -> frame_number a t <= frame_number a t'.
Proof.
  intros H. unfold frame_number. apply Qfloor_resp_le.
  assert (0 <= inject_Z (speed (Animations (an_id a))))%Q as Hs by (by destruct (an_id a); vm_compute).
  set (v := inject_Z _) in *. assert ((t - timestamp a) * v <= (t' - timestamp a) * v)%Q.
  { apply Qmult_le_compat_r; lra. }
  unfold Qdiv. apply Qmult_le_compat_r; [done | by vm_compute].
Qed.

Lemma frame_number_nonneg a t : (timestamp a <= t)%Q -> 0 <= frame_number a t.
Proof.
  intros H. apply (frame_number_mono a) in H. etransitivity; [|exact H].
  unfold frame_number. set (v := inject_Z _).
  assert ((timestamp a - timestamp a) * v / 1000 == 0)%Q as -> by field. done.
Qed.

(** C29: An animation plays for exactly its length: at a draw of a running
    animation the frame shown is the one of the time passed, and it exists; from
    the first draw after the last frame on, nothing is drawn and the animation is
    shown no more. *)
Theorem anim_plays_exactly (s : Anims) (k : Z) (a : Anim)
    (Hh : Host_ok (a_host s)) (Ha : the_anim s k = Some a) (Hf : isFinished a = false)
    (Ht : (timestamp a <= a_clock s)%Q) :
  let n := frame_number a (a_clock s) in
  let last := Z.of_nat (length (frames (Animations (an_id a)))) in
  let '(d, s') := draw_anim k s in
  if frame_number a (a_clock (a_tick s)) <? last then
    (exists f, d = [(an_id a, an_position a, Some f)] /\
       frames (Animations (an_id a)) !! Z.to_nat n = Some f) /\
    finiteAnims s' = finiteAnims s
  else d = [] /\ forall j, member j (finiteAnims s') <-> j <> k /\ member j (finiteAnims s).
Proof.
  assert (a_clock s <= a_clock (a_tick s))%Q as Hc by apply (clock_mono _ Hh).
  pose proof (frame_number_mono a _ _ Hc) as Hm. pose proof (frame_number_nonneg a _ Ht) as H0.
  cbv zeta. unfold draw_anim. rewrite Ha. unfold IsEnded. rewrite Hf.
  unfold GetCurrentFrame. set (last := Z.of_nat _).
  set (n2 := frame_number a (a_clock (a_tick s))) in *. set (n1 := frame_number a (a_clock s)) in *.
  destruct (Z.ltb_spec n2 last) as [H2|H2].
  - replace (n1 <? last) with true by lia. replace (last <=? n2) with false by lia. cbn [negb].
    split; [|done]. unfold at_index. replace (0 <=? n1) with true by lia.
    destruct (lookup_lt_is_Some_2 (frames (Animations (an_id a))) (Z.to_nat n1)) as [f Hf']; [unfold last in *; lia|].
    exists f. by rewrite Hf'.
  - replace (last <=? n2) with true by lia.
    destruct (n1 <? last); cbn [negb]; (split; [done|]); intros j; cbn [finiteAnims set_anim a_tick];
      apply member_delete.
Qed.

Lemma anim_plays_exactly_witness :
  (draw_anim 0 (show Anim_heal (mkV2 5 5) 0 demo_anims)).1 = [(Anim_heal, mkV2 5 5, Some (mkFrame 0 0 16 16))].
Proof.
  pose proof (anim_plays_exactly (show Anim_heal (mkV2 5 5) 0 demo_anims) 0
    (mkAnim Anim_heal (mkV2 5 5) 0 (inject_Z 1000) false)) as H.
  destruct (draw_anim 0 (show Anim_heal (mkV2 5 5) 0 demo_anims)) as [d s'] eqn:E. cbn zeta in H.
  replace (_ <? _) with true in H by (vm_compute; reflexivity).
  destruct H as [(f & -> & Hf) _].
  - split; intros n; cbn; [rewrite <- Zle_Qle; lia | by split].
  - reflexivity.
  - reflexivity.
  - vm_compute. discriminate.
  - vm_compute in Hf. by injection Hf as <-.
Defined.

(** ** How long a drop flies *)

(** Interpolation by the share [amt] leaves at most the share [1 - amt] of the
    difference. *)
Lemma lerp1_contracts amt acc goal x b : (0 <= amt <= 1)%Q -> (Qabs (x - goal) <= b)%Q -> (0 <= b)%Q ->
  (Qabs (lerp1 amt acc goal x - goal) <= (1 - amt) * b)%Q.
Proof.
  intros Ha Hb H0. unfold lerp1. destruct (Qlt_bool _ _).
  - assert ((1 - amt) * x + amt * goal - goal == (1 - amt) * (x - goal))%Q as -> by ring.
    rewrite Qabs_Qmult, (Qabs_pos (1 - amt)) by lra.
    rewrite (Qmult_comm (1 - amt)), (Qmult_comm (1 - amt)). apply Qmult_le_compat_r; lra.
  - assert (goal - goal == 0)%Q as -> by ring. rewrite Qabs_pos by lra.
    apply Qmult_le_0_compat; lra.
Qed.

Lemma lerp1_proper amt acc g x g' x' : (g == g')%Q -> (x == x')%Q -> (lerp1 amt acc g x == lerp1 amt acc g' x')%Q.
Proof.
  intros Hg Hx. unfold lerp1, Qlt_bool.
  assert (Qle_bool (Qabs (x - g)) acc = Qle_bool (Qabs (x' - g')) acc) as ->.
  { apply eq_true_iff_eq. rewrite !Qle_bool_iff, Hg, Hx. done. }
  destruct (negb _); by rewrite ?Hg, ?Hx.
Qed.

(** A box of half size [b] around the goal. *)
Definition near (b : Q) (goal p : V2q) : Prop := (Qabs (p.1 - goal.1) <= b /\ Qabs (p.2 - goal.2) <= b)%Q.

Lemma Lerp2d_near amt acc goal p b : (0 <= amt <= 1)%Q -> (0 <= b)%Q -> near b goal p ->
  near ((1 - amt) * b) goal (Lerp2d goal amt (0, 0)%Q acc p).
Proof.
  intros Ha H0 [Hx Hy]. unfold near, Lerp2d. cbn [fst snd].
  assert (forall g, (g - 0 == g)%Q) as E by (intros; ring). split.
  - rewrite (lerp1_proper amt acc (goal.1 - 0) p.1 goal.1 p.1) by (apply E || done). by apply lerp1_contracts.
  - rewrite (lerp1_proper amt acc (goal.2 - 0) p.2 goal.2 p.2) by (apply E || done). by apply lerp1_contracts.
Qed.

Lemma Qabs_sq z b : (Qabs z <= b)%Q -> (z * z <= b * b)%Q.
Proof.
  intros H. destruct (Qabs_Qle_condition z b) as [Hq _]. destruct (Hq H) as [H1 H2]. nra.
Qed.

Lemma near_dist2 b goal p : near b goal p -> (dist2 p goal <= 2 * (b * b))%Q.
Proof.
  intros [Hx Hy]. apply Qabs_sq in Hx, Hy. unfold dist2.
  assert ((goal.1 - p.1) * (goal.1 - p.1) == (p.1 - goal.1) * (p.1 - goal.1))%Q as -> by ring.
  assert ((goal.2 - p.2) * (goal.2 - p.2) == (p.2 - goal.2) * (p.2 - goal.2))%Q as -> by ring. lra.
Qed.

Lemma Qlt_bool_iff x y : Qlt_bool x y = true <-> (x < y)%Q.
Proof.
  unfold Qlt_bool. rewrite negb_true_iff. rewrite <- not_true_iff_false, Qle_bool_iff. split; lra.
Qed.

(** The rise: every update leaves 82 percent of the way. *)
Lemma rise_ends endPos n : forall d b, firstTarget d = true -> near b (firstGoTo d) (d_position d) -> (0 <= b)%Q ->
  (2 * (b * b) * (82 # 100) ^ (2 * Z.of_nat n) < 1 # 100)%Q -> (0 < n)%nat ->
  exists m, (m <= n)%nat /\ firstTarget (Nat.iter m (drop_Update endPos) d) = false.
Proof.
  induction n as [|n IH]; intros d b Hd Hn Hb Hlt Hpos; [lia|].
  pose proof (Lerp2d_near (18 # 100) (5 # 10000) (firstGoTo d) (d_position d) b) as Hnear.
  assert (near (((1 - (18 # 100)) * b)%Q) (firstGoTo d) (d_position (drop_Update endPos d))) as Hnear'.
  { unfold drop_Update. rewrite Hd. cbn [d_position]. apply Hnear; [by vm_compute | done | done]. }
  assert (firstGoTo (drop_Update endPos d) = firstGoTo d) as Hgo by (unfold drop_Update; by rewrite Hd).
  destruct (firstTarget (drop_Update endPos d)) eqn:E; [|by exists 1%nat; split; [lia|]].
  set (b' := ((1 - (18 # 100)) * b)%Q) in *.
  assert (b' * b' == (82 # 100) * (82 # 100) * (b * b))%Q as Eb by (unfold b'; ring).
  assert (0 <= b')%Q as Hb' by (unfold b'; apply Qmult_le_0_compat; [by vm_compute | done]).
  rewrite Nat2Z.inj_succ in Hlt.
  replace (2 * Z.succ (Z.of_nat n)) with (2 + 2 * Z.of_nat n) in Hlt by lia.
  rewrite Qpower_plus in Hlt by (vm_compute; discriminate).
  assert ((82 # 100) ^ 2 == (82 # 100) * (82 # 100))%Q as E2 by (vm_compute; reflexivity).
  rewrite E2 in Hlt.
  destruct n as [|n].
  - exfalso. change ((82 # 100) ^ (2 * Z.of_nat 0))%Q with 1%Q in Hlt.
    pose proof (near_dist2 _ _ _ Hnear') as Hdist. unfold drop_Update in E, Hdist. rewrite Hd in E, Hdist.
    cbn [firstTarget d_position] in E, Hdist. apply negb_true_iff in E.
    apply not_true_iff_false in E. apply E, Qlt_bool_iff.
    lra.
  - destruct (IH (drop_Update endPos d) b') as (m & Hm & Hf); [done | by rewrite Hgo | done | | lia |].
    + rewrite Eb. set (q := ((82 # 100) ^ _)%Q) in *. lra.
    + exists (S m). split; [lia|]. rewrite Nat.iter_succ_r. exact Hf.
Qed.

(** The flight. *)
Lemma flight_ends endPos n : forall d b, firstTarget d = false -> near b endPos (d_position d) -> (0 <= b)%Q ->
  (2 * (b * b) * (34 # 100) ^ (2 * Z.of_nat n) < 1 # 100)%Q ->
  d_finished (Nat.iter (S n) (drop_Update endPos) d) = true.
Proof.
  induction n as [|n IH]; intros d b Hd Hn Hb Hlt.
  - change (Nat.iter 1 (drop_Update endPos) d) with (drop_Update endPos d). unfold drop_Update. rewrite Hd. cbn [d_finished].
    change ((34 # 100) ^ (2 * Z.of_nat 0))%Q with 1%Q in Hlt.
    pose proof (near_dist2 _ _ _ Hn) as Hdist.
    assert (Qlt_bool (dist2 (d_position d) endPos) (1 # 100) = true) as -> by (apply Qlt_bool_iff; lra).
    by rewrite orb_true_r.
  - rewrite Nat.iter_succ_r. apply (IH _ ((1 - (66 # 100)) * b)%Q).
    + unfold drop_Update. by rewrite Hd.
    + unfold drop_Update. rewrite Hd. cbn [d_position]. apply Lerp2d_near; [by vm_compute | done | done].
    + apply Qmult_le_0_compat; [by vm_compute | done].
    + rewrite Nat2Z.inj_succ in Hlt.
      replace (2 * Z.succ (Z.of_nat n)) with (2 + 2 * Z.of_nat n) in Hlt by lia.
      rewrite Qpower_plus in Hlt by (vm_compute; discriminate).
      assert ((34 # 100) ^ 2 == (34 # 100) * (34 # 100))%Q as E2 by (vm_compute; reflexivity).
      rewrite E2 in Hlt. set (q := ((34 # 100) ^ _)%Q) in *. lra.
Qed.

Lemma far_finishes endPos d : firstTarget d = false -> (9 < dist2 (d_position d) endPos)%Q ->
  d_finished (drop_Update endPos d) = true.
Proof.
  intros Hd H. unfold drop_Update. rewrite Hd. cbn [d_finished]. apply orb_true_iff. right. by apply Qlt_bool_iff.
Qed.

Lemma sq_bound x : (x * x <= 9)%Q -> (Qabs x <= 3)%Q.
Proof. intros H. apply Qabs_Qle_condition. split; nra. Qed.

Lemma close_near d endPos : (dist2 (d_position d) endPos <= 9)%Q -> near 3 endPos (d_position d).
Proof.
  unfold dist2. set (x := (endPos.1 - (d_position d).1)%Q). set (y := (endPos.2 - (d_position d).2)%Q). intros H.
  assert (0 <= x * x)%Q by nra. assert (0 <= y * y)%Q by nra.
  split.
  - rewrite <- Qabs_opp. assert (- ((d_position d).1 - endPos.1) == x)%Q as -> by (unfold x; ring).
    apply sq_bound. lra.
  - rewrite <- Qabs_opp. assert (- ((d_position d).2 - endPos.2) == y)%Q as -> by (unfold y; ring).
    apply sq_bound. lra.
Qed.

(** A drop on its way: while it rises it is at most one cell from where it goes. *)
Definition on_the_way (d : DropAnim) : Prop := firstTarget d = true -> near 1 (firstGoTo d) (d_position d).

Lemma new_DropAnim_on_the_way x y : on_the_way (new_DropAnim x y).
Proof.
  intros _. unfold near. cbn [firstGoTo d_position new_DropAnim fst snd]. split.
  - assert (inject_Z x - inject_Z x == 0)%Q as -> by ring. by vm_compute.
  - unfold Z.sub. rewrite inject_Z_plus. assert (inject_Z y - (inject_Z y + inject_Z (-1)) == 1)%Q as -> by ring.
    by vm_compute.
Qed.

Lemma drop_Update_on_the_way endPos d : on_the_way d -> on_the_way (drop_Update endPos d).
Proof.
  unfold on_the_way, drop_Update. destruct (firstTarget d) eqn:E; cbn [firstTarget firstGoTo d_position]; [|done].
  intros Hd _. specialize (Hd eq_refl). pose proof (Lerp2d_near (18 # 100) (5 # 10000) (firstGoTo d) (d_position d) 1 ltac:(done) ltac:(done) Hd) as [H1 H2].
  split; (eapply Qle_trans; [eassumption|]; by vm_compute).
Qed.

(** From anywhere on its way a drop ends within 19 updates. *)
Lemma drop_ends endPos d : on_the_way d -> exists n, (n <= 19)%nat /\ d_finished (Nat.iter n (drop_Update endPos) d) = true.
Proof.
  intros Hd. assert (exists m, (m <= 14)%nat /\ firstTarget (Nat.iter m (drop_Update endPos) d) = false) as (m & Hm & Hf).
  { destruct (firstTarget d) eqn:E; [|exists 0%nat; split; [lia | done]].
    apply (rise_ends endPos 14 d 1); [done | by apply Hd | by vm_compute | by vm_compute | lia]. }
  set (d1 := Nat.iter m (drop_Update endPos) d) in *.
  assert (forall k, Nat.iter k (drop_Update endPos) d1 = Nat.iter (k + m) (drop_Update endPos) d) as E.
  { intros k. unfold d1. by rewrite Nat.iter_add. }
  destruct (Qlt_le_dec 9 (dist2 (d_position d1) endPos)) as [H|H].
  - exists (1 + m)%nat. split; [lia|]. rewrite <- E. by apply far_finishes.
  - exists (5 + m)%nat. split; [lia|]. rewrite <- E.
    apply (flight_ends endPos 4 d1 3); [done | by apply close_near | by vm_compute | by vm_compute].
Qed.

(** A drop always comes to its end: wherever it starts and wherever the bot
    is, as long as the bot stays there, the drop is finished after at most 19
    updates: at most 14 to rise, and at most 5 to reach the bot, unless it is
    farther than three cells away, which ends the drop at once. *)
Theorem drop_finishes (x y : Z) (endPos : V2q) :
  exists n, (n <= 19)%nat /\ d_finished (Nat.iter n (drop_Update endPos) (new_DropAnim x y)) = true.
Proof. apply drop_ends, new_DropAnim_on_the_way. Qed.

(** ** An angle below zero *)

(** Turning on from an angle 10 degrees below 0 towards 270 degrees jumps to the
    mirrored angle, 370, and not to the same one, 350. *)
Lemma Lerp_mirrors : (Lerp (-10) 270 (1 # 10) == 370)%Q.
Proof. by vm_compute. Qed.
