(* ===== verification/Tiles.v ===== *)
(** * The tile sheet and the picture of the terrain

    Models [WorldTilesetRaw] and [WorldTileset] of
    [scripts/tables/minestileset.js], [SetTile] and [DrawTerrain] of
    [scripts/wrenderer.js] and the fractions of [Vector2d]
    ([scripts/usefuladitions.js]).  A call of [drawImage] is the rectangle of the
    sheet it copies and the place of the canvas it copies it to. *)

From Stdlib Require Import QArith Qround Lqa.
From S2P Require Import Prelude Host JsNum Blocks WMap World JsSet Anims.

(** ** The table *)

(** An entry of [WorldTilesetRaw.frames]; the fields some entries lack are
    optional.  [filter], [spriteSourceSize] and [sourceSize] in this order. *)
Record TileEntry := mkTileEntry {
  t_id : Z; t_frame : Frame; t_filter : option Frame;
  t_spriteSourceSize : option Frame; t_sourceSize : option (Z * Z) }.

Definition frames_0 : list TileEntry :=
  [ mkTileEntry 0 (mkFrame 0 544 480 320) None (Some (mkFrame 0 0 480 320)) (Some (480, 320));
    mkTileEntry 30 (mkFrame 0 160 64 128) None (Some (mkFrame 0 0 64 128)) (Some (64, 128));
    mkTileEntry 31 (mkFrame 0 0 16 16) None (Some (mkFrame 0 0 16 16)) (Some (16, 16));
    mkTileEntry 32 (mkFrame 480 544 480 320) None (Some (mkFrame 0 0 480 320)) (Some (480, 320));
    mkTileEntry 33 (mkFrame 0 864 480 320) None (Some (mkFrame 0 0 480 320)) (Some (480, 320));
    mkTileEntry 34 (mkFrame 480 864 480 320) None (Some (mkFrame 0 0 480 320)) (Some (480, 320));
    mkTileEntry 35 (mkFrame 0 1184 480 320) None (Some (mkFrame 0 0 480 320)) (Some (480, 320)) ].
Definition frames_36 : list TileEntry :=
  [ mkTileEntry 36 (mkFrame 480 1184 480 320) None (Some (mkFrame 0 0 480 320)) (Some (480, 320));
    mkTileEntry 37 (mkFrame 16 0 16 16) None (Some (mkFrame 0 0 16 16)) (Some (16, 16));
    mkTileEntry 38 (mkFrame 32 0 16 16) None (Some (mkFrame 0 0 16 16)) (Some (16, 16));
    mkTileEntry 39 (mkFrame 48 0 16 16) None (Some (mkFrame 0 0 16 16)) (Some (16, 16));
    mkTileEntry 40 (mkFrame 64 0 16 16) None (Some (mkFrame 0 0 16 16)) (Some (16, 16));
    mkTileEntry 41 (mkFrame 80 0 16 16) None (Some (mkFrame 0 0 16 16)) (Some (16, 16));
    mkTileEntry 42 (mkFrame 96 0 16 16) None (Some (mkFrame 0 0 16 16)) (Some (16, 16)) ].
Definition frames_43 : list TileEntry :=
  [ mkTileEntry 43 (mkFrame 112 0 16 16) None (Some (mkFrame 0 0 16 16)) (Some (16, 16));
    mkTileEntry 44 (mkFrame 128 0 16 16) None (Some (mkFrame 0 0 16 16)) (Some (16, 16));
    mkTileEntry 45 (mkFrame 144 0 16 16) None (Some (mkFrame 0 0 16 16)) (Some (16, 16));
    mkTileEntry 48 (mkFrame 160 0 16 16) None (Some (mkFrame 0 0 16 16)) (Some (16, 16));
    mkTileEntry 49 (mkFrame 176 0 16 16) None (Some (mkFrame 0 0 16 16)) (Some (16, 16));
    mkTileEntry 50 (mkFrame 688 0 32 32) (Some (mkFrame 688 32 32 32)) (Some (mkFrame 0 0 32 32)) (Some (32, 32));
    mkTileEntry 51 (mkFrame 720 0 32 32) (Some (mkFrame 720 32 32 32)) (Some (mkFrame 0 0 32 32)) (Some (32, 32)) ].
Definition frames_52 : list TileEntry :=
  [ mkTileEntry 52 (mkFrame 752 0 32 32) (Some (mkFrame 752 32 32 32)) (Some (mkFrame 0 0 32 32)) (Some (32, 32));
    mkTileEntry 53 (mkFrame 816 0 48 48) (Some (mkFrame 640 16 48 48)) (Some (mkFrame 0 0 48 48)) (Some (48, 48));
    mkTileEntry 54 (mkFrame 784 0 32 32) (Some (mkFrame 784 32 32 32)) (Some (mkFrame 0 0 32 32)) (Some (32, 32));
    mkTileEntry 55 (mkFrame 64 160 160 128) None None (Some (160, 128));
    mkTileEntry 60 (mkFrame 192 0 16 16) None (Some (mkFrame 0 0 16 16)) (Some (16, 16));
    mkTileEntry 61 (mkFrame 208 0 16 16) None (Some (mkFrame 0 0 16 16)) (Some (16, 16));
    mkTileEntry 62 (mkFrame 224 0 16 16) None (Some (mkFrame 0 0 16 16)) (Some (16, 16)) ].
Definition frames_63 : list TileEntry :=
  [ mkTileEntry 63 (mkFrame 240 0 16 16) None (Some (mkFrame 0 0 16 16)) (Some (16, 16));
    mkTileEntry 64 (mkFrame 256 0 16 16) None (Some (mkFrame 0 0 16 16)) (Some (16, 16));
    mkTileEntry 65 (mkFrame 272 0 16 16) None (Some (mkFrame 0 0 16 16)) (Some (16, 16));
    mkTileEntry 66 (mkFrame 288 0 16 16) None (Some (mkFrame 0 0 16 16)) (Some (16, 16));
    mkTileEntry 67 (mkFrame 304 0 16 16) None (Some (mkFrame 0 0 16 16)) (Some (16, 16));
    mkTileEntry 68 (mkFrame 864 0 96 64) None (Some (mkFrame 0 0 96 64)) (Some (96, 64));
    mkTileEntry 69 (mkFrame 0 64 96 64) None (Some (mkFrame 0 0 96 64)) (Some (96, 64)) ].
Definition frames_71 : list TileEntry :=
  [ mkTileEntry 71 (mkFrame 96 64 80 80) None (Some (mkFrame 0 0 80 80)) (Some (80, 80));
    mkTileEntry 72 (mkFrame 176 64 80 80) None (Some (mkFrame 0 0 80 80)) (Some (80, 80));
    mkTileEntry 73 (mkFrame 256 64 80 80) None (Some (mkFrame 0 0 80 80)) (Some (80, 80));
    mkTileEntry 74 (mkFrame 336 64 80 80) None (Some (mkFrame 0 0 80 80)) (Some (80, 80));
    mkTileEntry 75 (mkFrame 416 64 80 80) None (Some (mkFrame 0 0 80 80)) (Some (80, 80));
    mkTileEntry 80 (mkFrame 320 0 16 16) None (Some (mkFrame 0 0 16 16)) (Some (16, 16));
    mkTileEntry 81 (mkFrame 336 0 16 16) None (Some (mkFrame 0 0 16 16)) (Some (16, 16)) ].
Definition frames_82 : list TileEntry :=
  [ mkTileEntry 82 (mkFrame 352 0 16 16) None (Some (mkFrame 0 0 16 16)) (Some (16, 16));
    mkTileEntry 83 (mkFrame 368 0 16 16) None (Some (mkFrame 0 0 16 16)) (Some (16, 16));
    mkTileEntry 86 (mkFrame 384 0 16 16) None (Some (mkFrame 0 0 16 16)) (Some (16, 16));
    mkTileEntry 87 (mkFrame 400 0 16 16) None (Some (mkFrame 0 0 16 16)) (Some (16, 16));
    mkTileEntry 88 (mkFrame 416 0 16 16) None (Some (mkFrame 0 0 16 16)) (Some (16, 16));
    mkTileEntry 90 (mkFrame 432 0 16 16) None (Some (mkFrame 0 0 16 16)) (Some (16, 16));
    mkTileEntry 91 (mkFrame 448 0 16 16) None (Some (mkFrame 0 0 16 16)) (Some (16, 16)) ].
Definition frames_92 : list TileEntry :=
  [ mkTileEntry 92 (mkFrame 464 0 16 16) None (Some (mkFrame 0 0 16 16)) (Some (16, 16));
    mkTileEntry 93 (mkFrame 480 0 16 16) None (Some (mkFrame 0 0 16 16)) (Some (16, 16));
    mkTileEntry 94 (mkFrame 496 0 16 16) None (Some (mkFrame 0 0 16 16)) (Some (16, 16));
    mkTileEntry 95 (mkFrame 512 0 16 16) None (Some (mkFrame 0 0 16 16)) (Some (16, 16));
    mkTileEntry 96 (mkFrame 528 0 16 16) None (Some (mkFrame 0 0 16 16)) (Some (16, 16));
    mkTileEntry 97 (mkFrame 544 0 16 16) None (Some (mkFrame 0 0 16 16)) (Some (16, 16));
    mkTileEntry 98 (mkFrame 560 0 16 16) None (Some (mkFrame 0 0 16 16)) (Some (16, 16)) ].
Definition frames_99 : list TileEntry :=
  [ mkTileEntry 99 (mkFrame 576 0 16 16) None (Some (mkFrame 0 0 16 16)) (Some (16, 16));
    mkTileEntry 100 (mkFrame 592 0 16 16) None (Some (mkFrame 0 0 16 16)) (Some (16, 16));
    mkTileEntry 101 (mkFrame 608 0 16 16) None (Some (mkFrame 0 0 16 16)) (Some (16, 16));
    mkTileEntry 102 (mkFrame 624 0 16 16) None (Some (mkFrame 0 0 16 16)) (Some (16, 16));
    mkTileEntry 103 (mkFrame 224 160 160 128) None None (Some (160, 128));
    mkTileEntry 104 (mkFrame 640 0 16 16) None (Some (mkFrame 0 0 16 16)) (Some (16, 16));
    mkTileEntry 105 (mkFrame 656 0 16 16) None (Some (mkFrame 0 0 16 16)) (Some (16, 16));
    mkTileEntry 106 (mkFrame 672 0 16 16) None (Some (mkFrame 0 0 16 16)) (Some (16, 16)) ].
Definition frames_107 : list TileEntry :=
  [ mkTileEntry 107 (mkFrame 384 160 160 128) None None (Some (160, 128));
    mkTileEntry 108 (mkFrame 544 160 160 128) None None (Some (160, 128));
    mkTileEntry 109 (mkFrame 704 160 160 128) None None (Some (160, 128));
    mkTileEntry 110 (mkFrame 656 64 128 96) None (Some (mkFrame 0 0 128 96)) (Some (128, 96));
    mkTileEntry 111 (mkFrame 496 64 160 80) None (Some (mkFrame 0 0 160 80)) (Some (160, 80));
    mkTileEntry 112 (mkFrame 784 64 160 96) None (Some (mkFrame 0 0 160 96)) (Some (160, 96));
    mkTileEntry 113 (mkFrame 0 288 160 128) None None (Some (160, 128));
    mkTileEntry 114 (mkFrame 160 288 160 128) None None (Some (160, 128));
    mkTileEntry 115 (mkFrame 320 288 160 128) None None (Some (160, 128));
    mkTileEntry 116 (mkFrame 480 288 160 128) None None (Some (160, 128)) ].
Definition frames_117 : list TileEntry :=
  [ mkTileEntry 117 (mkFrame 640 288 160 128) None None (Some (160, 128));
    mkTileEntry 118 (mkFrame 800 288 160 128) None None (Some (160, 128));
    mkTileEntry 119 (mkFrame 0 416 160 128) None None (Some (160, 128));
    mkTileEntry 120 (mkFrame 160 416 160 128) None None (Some (160, 128));
    mkTileEntry 121 (mkFrame 320 416 160 128) None None (Some (160, 128));
    mkTileEntry 122 (mkFrame 480 416 160 128) None None (Some (160, 128)) ].

Definition WorldTilesetRaw : list TileEntry :=
  frames_0 ++ frames_36 ++ frames_43 ++ frames_52 ++ frames_63 ++ frames_71 ++ frames_82 ++ frames_92 ++ frames_99 ++ frames_107 ++ frames_117.

(** [meta.size]. *)
Definition sheet_w : Z := 960.
Definition sheet_h : Z := 1504.

(** [WorldTileset.TilesData]: an array of 256 places, written entry by entry. *)
Record TileData := mkTileData { tyles : Frame; filter_frame : option Frame }.
Definition TilesData : gmap Z TileData :=
  foldl (λ t e, <[t_id e := mkTileData (t_frame e) (t_filter e)]> t) ∅ WorldTilesetRaw.

(** ** Drawing *)

(** [drawImage(sheet, .., tx, ty, 16, 16)] of a square of the sheet. *)
Record Draw := mkDraw { d_src : Frame; d_x : Z; d_y : Z }.

(** [x_mantice] and [y_mantice]; [x % 1] keeps the sign of x. *)
Definition rem1 (x : Q) : Q := (x - inject_Z (if Qle_bool 0 x then Qfloor x else Qceiling x))%Q.
Definition mantice (x : Q) : Q :=
  let xx := if Qle_bool 0 x then rem1 x else (1 + rem1 x)%Q in
  if Qeq_bool xx 1 then 0%Q else xx.

Definition blockSize : Z := 16.

(** The tile 0 stands for blocks without one. *)
Definition tile_of (tid : Z) : Frame :=
  match TilesData !! tid with
  | Some data => tyles data
  | None => match TilesData !! 0 with Some data => tyles data | None => mkFrame 0 0 0 0 end
  end.

(** The square of frame [f] that stands at cell (wx, wy) of the world; [%] is
    the remainder with the sign of the dividend. *)
Definition square (f : Frame) (dx dy : Z) : Frame := mkFrame (fx f + dx) (fy f + dy) blockSize blockSize.

(** The second half of every second. *)
Definition blink (now : Q) : bool :=
  let pn := (now / 1000)%Q in Qlt_bool (1 # 2) (pn - inject_Z (Qfloor pn)).

(** [SetTile(tx, ty, tid, worldPos)]. *)
Definition SetTile (tx ty tid wx wy : Z) (h : Host) : list Draw * Host :=
  let tyleSyzing := tile_of tid in
  let dx := Z.rem (wx * blockSize) (fw tyleSyzing) in
  let dy := Z.rem (wy * blockSize) (fh tyleSyzing) in
  let d := mkDraw (square tyleSyzing dx dy) tx ty in
  match TilesData !! tid with
  | Some (mkTileData _ (Some filter)) =>
      let '(now, h) := performance_now h in
      (d :: (if blink now then [mkDraw (square filter dx dy) tx ty] else []), h)
  | _ => ([d], h)
  end.

(** A loop whose body draws. *)
Fixpoint for_draw {A} (l : list A) (f : A -> Host -> list Draw * Host) (h : Host) : list Draw * Host :=
  match l with
  | [] => ([], h)
  | a :: l => let '(d, h) := f a h in let '(ds, h) := for_draw l f h in (d ++ ds, h)
  end.

(** The number of squares drawn along [n] pixels: [Math.ceil(n / 16) + 1]. *)
Definition squares (n : Z) : Z := Qceiling (n # 16) + 1.

(** [DrawTerrain()] on a canvas of cw times ch pixels, the camera at [cam]. *)
Definition DrawTerrain (cw ch : Z) (cam : Q * Q) (m : WorldMap) : Host -> list Draw * Host :=
  let xm := (mantice cam.1 * 16)%Q in
  let ym := (mantice cam.2 * 16)%Q in
  let cx := Qfloor cam.1 in
  let cy := Qfloor cam.2 in
  for_draw (up_to 0 (squares ch)) (λ y,
    for_draw (up_to 0 (squares cw)) (λ x,
      SetTile (Qfloor (inject_Z (x * 16) - xm)) (Qfloor (inject_Z (y * 16) - ym))
        (GetIDByCoord m (cx + x) (cy + y)) (cx + x) (cy + y))).

(** Drawing the terrain reads the clock and nothing else of the host. *)
Lemma for_draw_streams {A} (l : list A) f h :
  (forall a h, same_streams h (f a h).2) -> same_streams h (for_draw l f h).2.
Proof.
  intros Hf. revert h. induction l as [|a l IH]; intros h; cbn [for_draw]; [done|].
  specialize (Hf a h). destruct (f a h) as [d h1]. specialize (IH h1). destruct (for_draw l f h1) as [ds h2]. cbn in *.
  by etransitivity.
Qed.

Lemma SetTile_streams tx ty tid wx wy h : same_streams h (SetTile tx ty tid wx wy h).2.
Proof.
  unfold SetTile. pose proof (performance_now_streams h) as H. repeat case_match; cbn in *; try done.
Qed.

Lemma DrawTerrain_streams cw ch cam m h : same_streams h (DrawTerrain cw ch cam m h).2.
Proof. apply for_draw_streams. intros y h1. apply for_draw_streams. intros x h2. apply SetTile_streams. Qed.

(** ** The table is sound *)

(** A rectangle of whole squares within the sheet. *)
Definition frame_ok (f : Frame) : bool :=
  (0 <=? fx f) && (0 <=? fy f) && (0 <? fw f) && (0 <? fh f) &&
  (fw f mod 16 =? 0) && (fh f mod 16 =? 0) && (fx f + fw f <=? sheet_w) && (fy f + fh f <=? sheet_h).

Definition tile_ok (d : TileData) : bool :=
  frame_ok (tyles d) &&
  match filter_frame d with
  | Some f => frame_ok f && (fw f =? fw (tyles d)) && (fh f =? fh (tyles d))
  | None => true
  end.

Lemma TilesData_ok tid d : TilesData !! tid = Some d -> tile_ok d = true.
Proof.
  assert (forallb (λ p, tile_ok p.2) (map_to_list TilesData) = true) as H by (by vm_compute).
  rewrite forallb_forall in H. intros Hd. apply (H (tid, d)).
  by apply list_elem_of_In, elem_of_map_to_list.
Qed.

(** Every tile has a code of its own, and no two share a pixel of the sheet. *)
Definition apart (f g : Frame) : bool :=
  (fx f + fw f <=? fx g) || (fx g + fw g <=? fx f) || (fy f + fh f <=? fy g) || (fy g + fh g <=? fy f).

Definition all_frames : list Frame := WorldTilesetRaw ≫= λ e, t_frame e :: match t_filter e with Some f => [f] | None => [] end.

Fixpoint pairwise {A} (R : A -> A -> bool) (l : list A) : bool :=
  match l with [] => true | a :: l => forallb (R a) l && pairwise R l end.

Lemma tiles_apart : NoDup (t_id <$> WorldTilesetRaw) /\ pairwise apart all_frames = true.
Proof. split; [by apply (bool_decide_unpack _); vm_compute | by vm_compute]. Qed.

Lemma tile_of_ok tid : exists t d, TilesData !! t = Some d /\ tile_of tid = tyles d /\
  (forall d', TilesData !! tid = Some d' -> t = tid).
Proof.
  unfold tile_of. destruct (TilesData !! tid) as [d|] eqn:E; [by exists tid, d|].
  destruct (TilesData !! 0) as [d|] eqn:E0; [by exists 0, d|]. by vm_compute in E0.
Qed.

(** ** Squares of a tile *)

Definition inside (s f : Frame) : Prop :=
  fx f <= fx s /\ fx s + fw s <= fx f + fw f /\ fy f <= fy s /\ fy s + fh s <= fy f + fh f.

(** The remainder of whole squares is a whole square of the tile. *)
Lemma rem_square w v : 0 < w -> w mod 16 = 0 -> 0 <= v \/ w = 16 -> 0 <= Z.rem (v * 16) w <= w - 16.
Proof.
  intros Hw Hm [Hv | ->].
  - rewrite Z.rem_mod_nonneg by lia. apply Z.mod_divide in Hm as [n ->]; [|lia].
    rewrite Z.mul_mod_distr_r by lia. pose proof (Z.mod_pos_bound v n). nia.
  - rewrite Z.rem_mul by lia. lia.
Qed.

Lemma square_inside f dx dy :
  0 <= dx <= fw f - 16 -> 0 <= dy <= fh f - 16 -> inside (square f dx dy) f.
Proof. unfold inside, square, blockSize. cbn. lia. Qed.

(** The tile the map asks for outside of its bounds is a single square, so the
    sign of the remainder does not matter there. *)
Lemma cell_square m x y : let f := tile_of (GetIDByCoord m x y) in
  0 <= Z.rem (x * blockSize) (fw f) <= fw f - 16 /\ 0 <= Z.rem (y * blockSize) (fh f) <= fh f - 16.
Proof.
  cbv zeta. set (f := tile_of _).
  assert (0 < fw f /\ fw f mod 16 = 0 /\ 0 < fh f /\ fh f mod 16 = 0) as (?&?&?&?).
  { destruct (tile_of_ok (GetIDByCoord m x y)) as (t & d & Hd & E & _). apply TilesData_ok in Hd.
    unfold f. rewrite E. unfold tile_ok, frame_ok in Hd. lia. }
  assert (0 <= x /\ 0 <= y \/ fw f = 16 /\ fh f = 16) as Hor.
  { unfold f, GetIDByCoord. destruct (ValidCoords m x y) eqn:E; [left; unfold ValidCoords in E; lia | right; by vm_compute]. }
  unfold blockSize. split; apply rem_square; lia.
Qed.

(** ** What one call of SetTile draws *)

Definition source_ok (tid : Z) (s : Frame) : Prop :=
  (inside s (tile_of tid) \/ exists d f, TilesData !! tid = Some d /\ filter_frame d = Some f /\ inside s f) /\
  0 <= fx s /\ fx s + fw s <= sheet_w /\ 0 <= fy s /\ fy s + fh s <= sheet_h.

Lemma inside_sheet s f : frame_ok f = true -> inside s f ->
  0 <= fx s /\ fx s + fw s <= sheet_w /\ 0 <= fy s /\ fy s + fh s <= sheet_h.
Proof. unfold frame_ok, inside. lia. Qed.

Lemma SetTile_draws m tx ty x y h :
  Forall (λ d, (d_x d, d_y d) = (tx, ty) /\ source_ok (GetIDByCoord m x y) (d_src d))
    (SetTile tx ty (GetIDByCoord m x y) x y h).1 /\
  (SetTile tx ty (GetIDByCoord m x y) x y h).1 <> [].
Proof.
  pose proof (cell_square m x y) as [Hx Hy]. cbv zeta in *. set (tid := GetIDByCoord m x y) in *.
  set (dx := Z.rem (x * blockSize) _) in *. set (dy := Z.rem (y * blockSize) _) in *.
  assert (source_ok tid (square (tile_of tid) dx dy)) as Hs.
  { pose proof (square_inside (tile_of tid) dx dy Hx Hy) as Hi. split; [by left|].
    destruct (tile_of_ok tid) as (t & d & Hd & E & _). apply TilesData_ok in Hd. unfold tile_ok in Hd.
    apply andb_prop in Hd as [Hd _]. rewrite E in *. by apply (inside_sheet _ (tyles d)). }
  unfold SetTile. fold dx dy. destruct (TilesData !! tid) as [[ty' [f|]]|] eqn:E; [|split; [by apply Forall_singleton | done]..].
  cbn [performance_now fst]. split; [|done]. constructor; [done|]. destruct (blink _); [|done]. constructor; [|done].
  pose proof (TilesData_ok _ _ E) as Hok. unfold tile_ok in Hok. cbn [filter_frame tyles] in Hok.
  apply andb_prop in Hok as [_ [[Hf ?%Z.eqb_eq]%andb_prop ?%Z.eqb_eq]%andb_prop].
  assert (tile_of tid = ty') as Et by (unfold tile_of; by rewrite E). rewrite Et in Hx, Hy.
  assert (inside (square f dx dy) f) as Hi by (apply square_inside; lia).
  split; [done|]. split; [right; by exists (mkTileData ty' (Some f)), f|].
  by apply (inside_sheet _ f).
Qed.

(** ** Loops that draw *)

Section loops.
Context {A : Type}.
Implicit Types (l : list A) (f : A -> Host -> list Draw * Host) (P : Draw -> bool).

Lemma for_draw_Forall (Q : Draw -> Prop) l f h :
  (forall a h, a ∈ l -> Forall Q (f a h).1) -> Forall Q (for_draw l f h).1.
Proof.
  revert h. induction l as [|a l IH]; intros h H; cbn [for_draw]; [by constructor|].
  pose proof (H a h (list_elem_of_here _ _)) as H1. destruct (f a h) as [d h1]. cbn [fst] in H1.
  specialize (IH h1 ltac:(intros; apply H; by right)). destruct (for_draw l f h1). by apply Forall_app.
Qed.

Lemma for_draw_none P l f h :
  (forall a h, a ∈ l -> List.filter P (f a h).1 = []) -> List.filter P (for_draw l f h).1 = [].
Proof.
  revert h. induction l as [|a l IH]; intros h H; cbn [for_draw]; [done|].
  pose proof (H a h (list_elem_of_here _ _)) as H1. destruct (f a h) as [d h1]. cbn [fst] in H1.
  specialize (IH h1 ltac:(intros; apply H; by right)). destruct (for_draw l f h1). cbn [fst] in *.
  by rewrite List.filter_app, H1, IH.
Qed.

(** When one element alone draws what is looked for, the loop draws what it
    draws. *)
Lemma for_draw_one P l f h a :
  NoDup l -> a ∈ l -> (forall b h, b ∈ l -> b <> a -> List.filter P (f b h).1 = []) ->
  exists h', List.filter P (for_draw l f h).1 = List.filter P (f a h').1.
Proof.
  revert h. induction l as [|b l IH]; intros h Hn Ha Hb; [by apply not_elem_of_nil in Ha|].
  apply list.NoDup_cons in Hn as [Hni Hn]. cbn [for_draw].
  destruct (f b h) as [d h1] eqn:E. destruct (for_draw l f h1) as [ds h2] eqn:E2. cbn [fst].
  rewrite List.filter_app. apply elem_of_cons in Ha as [->|Ha].
  - exists h. rewrite E. cbn [fst]. pose proof (for_draw_none P l f h1) as Hz. rewrite E2 in Hz. cbn [fst] in Hz.
    rewrite Hz; [apply app_nil_r|]. intros c hc Hc. apply Hb; [by right | by intros ->].
  - destruct (IH h1 Hn Ha) as [h' Eh]; [intros; apply Hb; [by right | done]|].
    rewrite E2 in Eh. cbn [fst] in Eh. exists h'. rewrite Eh.
    pose proof (Hb b h (list_elem_of_here _ _)) as Hz. rewrite E in Hz. cbn [fst] in Hz.
    by rewrite Hz by (by intros ->).
Qed.
End loops.

(** ** The fraction of the camera *)

Lemma mantice_spec x : (mantice x == x - inject_Z (Qfloor x))%Q.
Proof.
  unfold mantice, rem1. destruct (Qle_bool 0 x) eqn:E.
  - destruct (Qeq_bool _ 1) eqn:E1; [|done]. apply Qeq_bool_iff in E1.
    pose proof (Qlt_floor x) as H. rewrite inject_Z_plus in H. change (inject_Z 1) with 1%Q in H. lra.
  - assert (x < 0)%Q as Hx by (apply Qnot_le_lt; intros H; apply Qle_bool_iff in H; congruence).
    pose proof (Qle_ceiling x) as H1. pose proof (Qceiling_lt x) as H2.
    pose proof (Qfloor_le x) as H3. pose proof (Qlt_floor x) as H4.
    assert (Qceiling x = Qfloor x \/ Qceiling x = Qfloor x + 1) as [Ec|Ec].
    { assert (Qfloor x <= Qceiling x) as Ha.
      { rewrite Zle_Qle. by apply (Qle_trans _ x). }
      assert (Qceiling x < Qfloor x + 2) as Hb.
      { assert (inject_Z (Qceiling x - 1) < inject_Z (Qfloor x + 1))%Q as Hc by (by apply (Qlt_trans _ x)).
        rewrite <- Zlt_Qlt in Hc. lia. }
      lia. }
    + assert (x == inject_Z (Qfloor x))%Q as Hq by (rewrite Ec in H1; by apply Qle_antisym).
      assert (1 + (x - inject_Z (Qceiling x)) == 1)%Q as Hz by (rewrite Ec; lra).
      apply Qeq_bool_iff in Hz. rewrite Hz. lra.
    + destruct (Qeq_bool _ 1) eqn:E1.
      * apply Qeq_bool_iff in E1. rewrite Ec, inject_Z_plus in E1. change (inject_Z 1) with 1%Q in E1.
        rewrite inject_Z_plus in H4. change (inject_Z 1) with 1%Q in H4. lra.
      * rewrite Ec, inject_Z_plus. change (inject_Z 1) with 1%Q. lra.
Qed.

Lemma Qfloor_Z_plus z q : Qfloor (inject_Z z + q) = z + Qfloor q.
Proof.
  pose proof (Qfloor_le q) as H1. pose proof (Qlt_floor q) as H2.
  pose proof (Qfloor_le (inject_Z z + q)) as H3. pose proof (Qlt_floor (inject_Z z + q)) as H4.
  rewrite !inject_Z_plus in *. change (inject_Z 1) with 1%Q in *.
  assert (inject_Z (z + Qfloor q) < inject_Z (Qfloor (inject_Z z + q) + 1))%Q as Ha by (rewrite !inject_Z_plus; change (inject_Z 1) with 1%Q; lra).
  assert (inject_Z (Qfloor (inject_Z z + q)) < inject_Z (z + Qfloor q + 1))%Q as Hb by (rewrite !inject_Z_plus; change (inject_Z 1) with 1%Q; lra).
  rewrite <- Zlt_Qlt in Ha, Hb. lia.
Qed.

(** All columns (rows) are shifted by the same number of pixels. *)
Definition shift_of (x : Q) : Z := Qceiling (mantice x * 16).

Lemma shift_of_range x : 0 <= shift_of x <= 16.
Proof.
  pose proof (mantice_spec x) as E. pose proof (Qfloor_le x) as H1. pose proof (Qlt_floor x) as H2.
  rewrite inject_Z_plus in H2. change (inject_Z 1) with 1%Q in H2. unfold shift_of, Qceiling.
  assert (- (16) <= - (mantice x * 16) <= 0)%Q as [Ha Hb] by lra.
  apply Qfloor_resp_le in Ha, Hb. change (Qfloor (- (16))) with (-16) in Ha. change (Qfloor 0) with 0 in Hb. lia.
Qed.

Lemma column_place x z : Qfloor (inject_Z (z * 16) - mantice x * 16) = z * 16 - shift_of x.
Proof. unfold shift_of, Qceiling, Qminus. rewrite Qfloor_Z_plus. lia. Qed.

(** One column contains the pixel, and it is among those drawn. *)
Lemma squares_enough n p s : 0 <= p < n -> 0 <= s <= 16 -> 0 <= (p + s) / 16 < squares n.
Proof.
  intros Hp Hs. split; [apply Z.div_pos; lia|]. unfold squares.
  assert (n <= Qceiling (n # 16) * 16) as H.
  { pose proof (Qle_ceiling (n # 16)) as H. unfold Qle, inject_Z in H. cbn in H. lia. }
  pose proof (Z.mul_div_le (p + s) 16). nia.
Qed.

(** ** The picture *)

(** The draw paints pixel (px, py) of the canvas. *)
Definition covers (px py : Z) (d : Draw) : bool :=
  (d_x d <=? px) && (px <? d_x d + blockSize) && (d_y d <=? py) && (py <? d_y d + blockSize).

(** The cell of the world seen at pixel p along one axis. *)
Definition seen (cam : Q) (p : Z) : Z := Qfloor cam + (p + shift_of cam) / 16.

Lemma filter_nothing {A} (P : A -> bool) (l : list A) : Forall (λ a, P a = false) l -> List.filter P l = [].
Proof. induction 1 as [|a l Ha _ IH]; [done|]. cbn [List.filter]. by rewrite Ha. Qed.

Lemma covers_none px py tx ty (l : list Draw) (R : Draw -> Prop) :
  Forall (λ d, (d_x d, d_y d) = (tx, ty) /\ R d) l ->
  ~ (tx <= px < tx + 16 /\ ty <= py < ty + 16) -> List.filter (covers px py) l = [].
Proof.
  intros H Hn. apply filter_nothing. eapply list.Forall_impl; [exact H|].
  intros d [[= Ex Ey] _]. unfold covers, blockSize. lia.
Qed.

Lemma covers_all px py tx ty (l : list Draw) (R : Draw -> Prop) :
  Forall (λ d, (d_x d, d_y d) = (tx, ty) /\ R d) l ->
  tx <= px < tx + 16 /\ ty <= py < ty + 16 -> List.filter (covers px py) l = l.
Proof.
  intros H Hn. induction H as [|d l [[= Ex Ey] _] _ IH]; [done|]. cbn [List.filter].
  replace (covers px py d) with true by (unfold covers, blockSize; lia). by f_equal.
Qed.

(** One row of the picture. *)
Definition draw_row (cw : Z) (cam : Q * Q) (m : WorldMap) (y : Z) : Host -> list Draw * Host :=
  for_draw (up_to 0 (squares cw)) (λ x,
    SetTile (Qfloor (inject_Z (x * 16) - mantice cam.1 * 16)) (Qfloor (inject_Z (y * 16) - mantice cam.2 * 16))
      (GetIDByCoord m (Qfloor cam.1 + x) (Qfloor cam.2 + y)) (Qfloor cam.1 + x) (Qfloor cam.2 + y)).

Lemma draw_row_place cw cam m y h :
  Forall (λ d, d_y d = y * 16 - shift_of cam.2 /\ exists tid, source_ok tid (d_src d)) (draw_row cw cam m y h).1.
Proof.
  apply for_draw_Forall. intros x h' _. rewrite !column_place.
  eapply list.Forall_impl; [apply (proj1 (SetTile_draws _ _ _ _ _ _))|]. intros d [[= _ ->] H]. split; [done | by eexists].
Qed.

Lemma up_to_NoDup a b : NoDup (up_to a b).
Proof. apply NoDup_seqZ. Qed.

Lemma place_unique z p s : z * 16 - s <= p < z * 16 - s + 16 <-> z = (p + s) / 16.
Proof. pose proof (Z.div_mod (p + s) 16). pose proof (Z.mod_pos_bound (p + s) 16). lia. Qed.

Lemma draw_row_pixel cw cam m y px py h :
  0 <= px < cw -> y * 16 - shift_of cam.2 <= py < y * 16 - shift_of cam.2 + 16 ->
  exists h', List.filter (covers px py) (draw_row cw cam m y h).1 =
    (SetTile (px - (px + shift_of cam.1) mod 16) (y * 16 - shift_of cam.2)
       (GetIDByCoord m (seen cam.1 px) (Qfloor cam.2 + y)) (seen cam.1 px) (Qfloor cam.2 + y) h').1.
Proof.
  intros Hp Hy. pose proof (squares_enough cw px _ Hp (shift_of_range cam.1)) as Hin.
  destruct (for_draw_one (covers px py) (up_to 0 (squares cw)) (λ x,
    SetTile (Qfloor (inject_Z (x * 16) - mantice cam.1 * 16)) (Qfloor (inject_Z (y * 16) - mantice cam.2 * 16))
      (GetIDByCoord m (Qfloor cam.1 + x) (Qfloor cam.2 + y)) (Qfloor cam.1 + x) (Qfloor cam.2 + y)) h
    ((px + shift_of cam.1) / 16)) as [h' E].
  - apply up_to_NoDup.
  - by apply elem_of_up_to.
  - intros x hx _ Hne. rewrite !column_place. eapply covers_none; [apply (proj1 (SetTile_draws _ _ _ _ _ _))|].
    intros [Hx _]. apply Hne. by apply place_unique.
  - exists h'. unfold draw_row. rewrite E, !column_place.
    rewrite (covers_all px py _ _ _ _ (proj1 (SetTile_draws m _ _ _ _ h'))).
    + unfold seen. do 2 f_equal. pose proof (Z.div_mod (px + shift_of cam.1) 16). lia.
    + split; [by apply place_unique | done].
Qed.

(** C21: The terrain fills the canvas: whatever the camera, the canvas and the map,
    every square copied lies in the sheet and in a tile, and every pixel of the
    canvas is painted by the call for exactly one cell of the world - the one the
    camera sees there, also beyond the edges of the map - with squares of the tile
    of that cell's block. *)
Theorem terrain_drawn (cw ch : Z) (cam : Q * Q) (m : WorldMap) (h : Host) (px py : Z)
    (Hx : 0 <= px < cw) (Hy : 0 <= py < ch) :
  let ds := (DrawTerrain cw ch cam m h).1 in
  let x := seen cam.1 px in
  let y := seen cam.2 py in
  Forall (λ d, exists tid, source_ok tid (d_src d)) ds /\
  exists tx ty h',
    List.filter (covers px py) ds = (SetTile tx ty (GetIDByCoord m x y) x y h').1 /\
    List.filter (covers px py) ds <> [] /\
    Forall (λ d, source_ok (GetIDByCoord m x y) (d_src d)) (List.filter (covers px py) ds).
Proof.
  cbv zeta. split.
  - apply for_draw_Forall. intros y h' _. eapply list.Forall_impl; [apply (draw_row_place cw cam m y h')|]. by intros d [_ H].
  - pose proof (squares_enough ch py _ Hy (shift_of_range cam.2)) as Hin.
    set (row := (py + shift_of cam.2) / 16) in *.
    assert (row * 16 - shift_of cam.2 <= py < row * 16 - shift_of cam.2 + 16) as Hrow by (by apply place_unique).
    destruct (for_draw_one (covers px py) (up_to 0 (squares ch)) (draw_row cw cam m) h row) as [h1 E1].
    + apply up_to_NoDup.
    + by apply elem_of_up_to.
    + intros y hy _ Hne. apply filter_nothing. eapply list.Forall_impl; [apply (draw_row_place cw cam m y hy)|].
      intros d [Ey _]. unfold covers, blockSize. pose proof (place_unique y py (shift_of cam.2)) as Hu. fold row in Hu. lia.
    + destruct (draw_row_pixel cw cam m row px py h1 Hx Hrow) as [h' E2]. rewrite E2 in E1.
      pose proof (SetTile_draws m (px - (px + shift_of cam.1) mod 16) (row * 16 - shift_of cam.2)
        (seen cam.1 px) (seen cam.2 py) h') as [Ha Hb].
      exists (px - (px + shift_of cam.1) mod 16), (row * 16 - shift_of cam.2), h'.
      unfold DrawTerrain. fold (draw_row cw cam m). cbv zeta. change (Qfloor cam.2 + row) with (seen cam.2 py) in E1.
      rewrite E1. split; [done|]. split; [done|]. eapply list.Forall_impl; [exact Ha|]. by intros d [_ Hd].
Qed.

Lemma terrain_drawn_witness :
  let cam := ((3 # 2), (-5 # 4))%Q in
  List.filter (covers 7 9) (DrawTerrain 20 20 cam (new_WorldMap 4 4) (const_host 0 0)).1 <> [].
Proof.
  destruct (terrain_drawn 20 20 ((3 # 2), (-5 # 4))%Q (new_WorldMap 4 4) (const_host 0 0) 7 9
    ltac:(lia) ltac:(lia)) as [_ (tx & ty & h' & _ & H & _)]. exact H.
Defined.

(** ** The pixel under the mouse *)

Lemma Qfloor_16 q n : (q == n # 16)%Q -> Qfloor q = n / 16.
Proof. intros H. rewrite (Qfloor_comp _ _ H). reflexivity. Qed.

Lemma seen_whole c k p : (c == k # 16)%Q -> seen c p = Qfloor ((p # 16) + c).
Proof.
  intros Hc. rewrite (Qfloor_16 ((p # 16) + c) (p + k)).
  2: { rewrite Hc. unfold Qeq. cbn. lia. }
  assert (mantice c * 16 == inject_Z (k - 16 * (k / 16)))%Q as E.
  { rewrite mantice_spec, (Qfloor_16 c k Hc), Hc. unfold Qeq. cbn. lia. }
  unfold seen, shift_of. rewrite (Qceiling_comp _ _ E), Qceiling_Z, (Qfloor_16 c k Hc).
  replace (p + (k - 16 * (k / 16))) with (p + k + (- (k / 16)) * 16) by lia.
  rewrite Z.div_add by lia. lia.
Qed.

(** A click hits the cell that is drawn under the pointer, when the camera
    stands on a whole pixel: the tool of the mouse without a radius writes the cell
    the pixel shows, and nothing else of the page. *)
Theorem click_hits_drawn (cam : Q * Q) (kx ky px py : Z) (id : option Z) (w : World)
    (Hx : (cam.1 == kx # 16)%Q) (Hy : (cam.2 == ky # 16)%Q) :
  let x := seen cam.1 px in
  let y := seen cam.2 py in
  MouseSetBlock cam px py id 0 w =
  (inr tt, w_set_map (match id with
                      | Some id => SetTileWithCoords x y id 0 (w_map w)
                      | None => ClearTile x y false (w_map w)
                      end) w).
Proof.
  cbv zeta. unfold MouseSetBlock. cbv zeta. rewrite <- (seen_whole _ kx px Hx), <- (seen_whole _ ky py Hy).
  set (x := seen cam.1 px). set (y := seen cam.2 py).
  assert (forall z, up_to (z - 0) (z + 0 + 1) = [z]) as E.
  { intros z. unfold up_to. rewrite Z.sub_0_r, Z.add_0_r. by replace (z + 1 - z) with 1 by lia. }
  rewrite !E. cbn [wfor]. unfold wbind, wmapf, wupd, wret. by destruct id.
Qed.

Lemma click_hits_drawn_witness :
  let w := mkWorld (const_host 0 0) (new_WorldMap 4 4) true None [] None new_KeyFlags false false false set_iter [] in
  exists m, MouseSetBlock ((1 # 16), 0)%Q 40 20 (Some 48) 0 w = (inr tt, w_set_map m w) /\
    GetIDByCoord m 2 1 = 48.
Proof.
  eexists. split; [apply (click_hits_drawn ((1 # 16), 0)%Q 1 0 40 20 (Some 48)); reflexivity|].
  vm_compute. reflexivity.
Defined.

(** Between two pixels the picture and the mouse disagree: the last pixel of a
    column shows the next cell. *)
Lemma click_misses_between : seen (1 # 32) 15 = 1 /\ Qfloor ((15 # 16) + (1 # 32)) = 0.
Proof. by vm_compute. Qed.
