(* ===== verification/View.v ===== *)
(** * The view: the camera and the bots as they are drawn

    Models [GotoCurrentBot] and the part of [DrawBots] of [scripts/wrenderer.js]
    that keeps state: bots are drawn at a place that follows their position, the
    camera follows the current bot, and a bot is visible when it is drawn near the
    canvas.  [frame] is [Update] of the renderer with this part in its place. *)

From Stdlib Require Import QArith Qround Qabs Lqa.
From S2P Require Import Prelude Host JsNum WMap Vec Machine BotOps BotFacts World Anims.

(** ** State *)

(** [visibleposition] and [visiblerotation] of a bot. *)
Record Visual := mkVisual { visibleposition : V2q; visiblerotation : Q }.

(** The position of the camera, the visuals of the bots in their order, and the
    time of the last frame. *)
Record View := mkView { camera : V2q; visuals : list Visual; elapsed : Q }.

Definition exact (p : Vector2d) : V2q := (inject_Z (vx p), inject_Z (vy p)).

(** The constructor of a bot copies its position. *)
Definition new_Visual (p : Vector2d) : Visual := mkVisual (exact p) 0.

(** ** Operations *)

(** [[WorldCanv.width / 2 / 16, WorldCanv.height / 2 / 16]]. *)
Definition half_canvas (cw ch : Z) : V2q := ((cw # 2) / 16, (ch # 2) / 16)%Q.

(** The move of the camera in [GotoCurrentBot()]; [dt] is the time since the last
    frame and not 0. *)
Definition GotoCurrentBot (cw ch : Z) (dt : Q) (target : Vector2d) (cam : V2q) : V2q :=
  Lerp2d (exact target) ((9 # 10) / dt) (half_canvas cw ch) (1 # 16) cam.

(** The test of [DrawBots()], and what it does to one bot. *)
Definition on_screen (cw ch : Z) (cam p : V2q) : bool :=
  let dx := (p.1 - cam.1)%Q in
  let dy := (p.2 - cam.2)%Q in
  Qlt_bool (-(4)) dx && Qlt_bool (-(4)) dy && Qle_bool dx ((cw # 16) + 4) && Qle_bool dy ((ch # 16) + 4).

Definition draw_bot (b : Bot) (v : Visual) : Visual :=
  mkVisual (Lerp2d (exact (position b)) (18 # 100) (0, 0)%Q (5 # 10000) (visibleposition v))
    (Lerp (visiblerotation v) (inject_Z (rotation b)) (1 # 10)).

Definition DrawBots (cw ch : Z) (cam : V2q) (bots : list Bot) (vs : list Visual) : list Bot * list Visual :=
  let vs := zip_with draw_bot bots vs in
  (zip_with (λ b v, b_isVisible (on_screen cw ch cam (visibleposition v)) b) bots vs, vs).

(** [Update()] of the renderer: the time, the random tiles and the blocks under
    the bots, the camera, the bots. *)
Definition frame (cw ch : Z) (w : World) (v : View) : (JsError + unit) * World * View :=
  let '(now, h) := performance_now (w_host w) in
  let dt := (now - elapsed v)%Q in
  match World.Update (λ _, false) (w_set_host h w) with
  | (inl e, w) => (inl e, w, mkView (camera v) (visuals v) now)
  | (inr _, w) =>
      let cam := match current w with
                 | Some b => GotoCurrentBot cw ch dt (position b) (camera v)
                 | None => camera v
                 end in
      let '(bots, vs) := DrawBots cw ch cam (Bots w) (visuals v) in
      (inr tt, w_set_Bots bots w, mkView cam vs now)
  end.

(** ** A frame is an event of the page *)

Lemma b_isVisible_twice x y b : b_isVisible x (b_isVisible y b) = b_isVisible x b.
Proof. by destruct b. Qed.

(** Which bots a frame finds visible. *)
Lemma DrawBots_imap cw ch cam bots vs :
  length bots = length vs ->
  exists visible, (DrawBots cw ch cam bots vs).1 = imap (λ i, b_isVisible (visible i)) bots.
Proof.
  intros Hl. set (vs' := zip_with draw_bot bots vs).
  exists (λ i, match vs' !! i with Some v => on_screen cw ch cam (visibleposition v) | None => false end).
  apply list_eq. intros i. unfold DrawBots. cbn [fst]. fold vs'. rewrite lookup_zip_with, list_lookup_imap.
  destruct (bots !! i) as [b|] eqn:Eb; [|done]. cbn.
  destruct (lookup_lt_is_Some_2 vs' i) as [v ->]; [|done].
  unfold vs'. rewrite length_zip_with. apply lookup_lt_Some in Eb. lia.
Qed.

Lemma Update_visible visible w :
  World.Update visible w =
  match World.Update (λ _, false) w with
  | (inl e, w) => (inl e, w)
  | (inr _, w) => (inr tt, w_set_Bots (imap (λ i, b_isVisible (visible i)) (Bots w)) w)
  end.
Proof.
  unfold World.Update, wbind. destruct (random_tile w) as [[e|?] w1]; [done|].
  destruct (random_tile w1) as [[e|?] w2]; [done|]. cbn [wget]. destruct (wwhen _ _ w2) as [[e|?] w3]; [done|].
  unfold wupd. cbv beta iota. set (w4 := match Bots w3 with [] => w3 | _ => _ end). clearbody w4.
  assert (forall bots, w_set_Bots (imap (λ i, b_isVisible (visible i)) (imap (λ _, b_isVisible false) bots)) w4 =
    w_set_Bots (imap (λ i, b_isVisible (visible i)) bots) w4) as E; [|by rewrite <- E].
  intros bots. f_equal. apply list_eq. intros i. rewrite !list_lookup_imap. destruct (bots !! i) as [b|]; [|done].
  cbn. by rewrite b_isVisible_twice.
Qed.

(** The world after a frame is the one after the event of a frame, with the clock
    read once before, for the bots the frame found visible. *)
Lemma frame_event cw ch w v r w' v' :
  length (Bots (World.Update (λ _, false) (w_set_host (performance_now (w_host w)).2 w)).2) = length (visuals v) ->
  frame cw ch w v = (r, w', v') ->
  exists visible, World.Update visible (w_set_host (performance_now (w_host w)).2 w) = (r, w').
Proof.
  intros Hl Hf. unfold frame, performance_now in *. cbn [snd] in *. set (h := mkHost _ _ _ _) in *.
  destruct (World.Update (λ _, false) (w_set_host h w)) as [[e|[]] w1] eqn:E; cbn [snd] in Hl.
  - injection Hf as <- <- _. exists (λ _, false). by rewrite E.
  - set (cam := match current w1 with Some b => _ | None => _ end) in Hf.
    destruct (DrawBots_imap cw ch cam (Bots w1) (visuals v) Hl) as [visible Hv].
    destruct (DrawBots cw ch cam (Bots w1) (visuals v)) as [bots vs]. cbn [fst] in Hv. injection Hf as <- <- _.
    exists visible. rewrite Update_visible, E. by subst bots.
Qed.

(** ** The view settles *)

Section settling.
Context (goal acc : Q) (Hacc : (0 < acc)%Q).

Definition approach (amts : list Q) (x : Q) : Q := foldl (λ x amt, lerp1 amt acc goal x) x amts.

Lemma lerp1_snaps amt x : (Qabs (x - goal) <= acc)%Q -> lerp1 amt acc goal x = goal.
Proof.
  intros H. unfold lerp1. replace (Qlt_bool acc (Qabs (x - goal))) with false; [done|].
  symmetry. apply not_true_iff_false. rewrite Qlt_bool_iff. lra.
Qed.

Lemma approach_goal amts : approach amts goal = goal.
Proof.
  induction amts as [|amt amts IH]; [done|]. unfold approach in *. cbn [foldl]. rewrite lerp1_snaps; [done|].
  assert (goal - goal == 0)%Q as -> by ring. rewrite Qabs_pos; lra.
Qed.

(** What is left of [b] after n steps that leave at most the share [1 - a]. *)
Definition left_after (a b : Q) (n : nat) : Q := Nat.iter n (λ b, ((1 - a) * b)%Q) b.

Lemma left_after_nonneg a b n : (0 <= a <= 1)%Q -> (0 <= b)%Q -> (0 <= left_after a b n)%Q.
Proof.
  intros Ha Hb. unfold left_after. induction n as [|n IH]; [done|]. rewrite Nat.iter_succ.
  apply Qmult_le_0_compat; lra.
Qed.

Lemma left_after_bound a b n : (0 <= a <= 1)%Q -> (0 <= b)%Q ->
  (left_after a b n * (1 + inject_Z (Z.of_nat n) * a) <= b)%Q.
Proof.
  intros Ha Hb. induction n as [|n IH].
  - unfold left_after. cbn [Nat.iter nat_rect]. change (inject_Z (Z.of_nat 0)) with 0%Q. lra.
  - pose proof (left_after_nonneg a b n Ha Hb) as H0. unfold left_after in *. rewrite Nat.iter_succ.
    set (l := Nat.iter n _ b) in *. rewrite Nat2Z.inj_succ, <- Z.add_1_r, inject_Z_plus. change (inject_Z 1) with 1%Q.
    set (k := inject_Z (Z.of_nat n)) in *. assert (0 <= k)%Q as Hk.
    { unfold k. change 0%Q with (inject_Z 0). rewrite <- Zle_Qle. lia. }
    assert ((1 - a) * l * (1 + (k + 1) * a) == l * (1 + k * a) - l * ((k + 1) * (a * a)))%Q as -> by ring.
    assert (0 <= l * ((k + 1) * (a * a)))%Q; [|lra].
    apply Qmult_le_0_compat; [done|]. apply Qmult_le_0_compat; [lra|]. apply Qmult_le_0_compat; lra.
Qed.

Lemma left_after_small a b : (0 < a <= 1)%Q -> (0 <= b)%Q -> exists n, (left_after a b n <= acc)%Q.
Proof.
  intros Ha Hb. exists (Z.to_nat (Qceiling (b / (acc * a)))). set (n := Z.to_nat _).
  pose proof (left_after_bound a b n ltac:(lra) Hb) as H.
  assert (0 < acc * a)%Q as Hp by (apply Qmult_lt_0_compat; lra).
  assert (b / (acc * a) <= inject_Z (Z.of_nat n))%Q as Hn.
  { unfold n. apply (Qle_trans _ (inject_Z (Qceiling (b / (acc * a))))); [apply Qle_ceiling|]. rewrite <- Zle_Qle. lia. }
  assert (b <= inject_Z (Z.of_nat n) * (acc * a))%Q as Hb'.
  { apply (Qmult_le_compat_r _ _ (acc * a)) in Hn; [|lra].
    assert (b / (acc * a) * (acc * a) == b)%Q as E by (field; lra). by rewrite E in Hn. }
  set (k := inject_Z (Z.of_nat n)) in *. apply Qmult_le_r with (z := (1 + k * a)%Q); [|nra].
  assert (0 <= k)%Q by (unfold k; change 0%Q with (inject_Z 0); rewrite <- Zle_Qle; lia). nra.
Qed.

Lemma approach_within a n : forall amts x b,
  (0 < a <= 1)%Q -> (0 <= b)%Q -> Forall (λ amt, a <= amt <= 1)%Q amts -> (Qabs (x - goal) <= b)%Q ->
  (left_after a b n <= acc)%Q -> (n < length amts)%nat -> approach amts x = goal.
Proof.
  induction n as [|n IH]; intros [|amt amts] x b Ha Hb Hf Hx Hl Hn; cbn in Hn; try lia.
  - unfold approach. cbn [foldl]. rewrite lerp1_snaps; [apply approach_goal|]. unfold left_after in Hl. cbn in Hl. lra.
  - inversion_clear Hf. unfold approach. cbn [foldl].
    apply (IH amts _ ((1 - a) * b)%Q); [done| |done| | |lia].
    + apply Qmult_le_0_compat; lra.
    + apply (Qle_trans _ ((1 - amt) * b)); [apply lerp1_contracts; lra|]. apply Qmult_le_compat_r; lra.
    + unfold left_after in *. by rewrite Nat.iter_succ_r in Hl.
Qed.

(** Enough steps, each of at least the share [a], reach the goal. *)
Lemma approach_settles a x : (0 < a <= 1)%Q ->
  exists n, forall amts, Forall (λ amt, a <= amt <= 1)%Q amts -> (n <= length amts)%nat -> approach amts x = goal.
Proof.
  intros Ha. destruct (left_after_small a (Qabs (x - goal)) Ha (Qabs_nonneg _)) as [n Hn].
  exists (S n). intros amts Hf Hl. apply (approach_within a n amts x (Qabs (x - goal))); try done; try lra; apply Qabs_nonneg.
Qed.
End settling.

(** The camera and a bot that stands still, over frames that took [dts]. *)
Definition follow (cw ch : Z) (b : Bot) (dts : list Q) (cam : V2q) (v : Visual) : V2q * Visual :=
  foldl (λ s dt, (GotoCurrentBot cw ch dt (position b) s.1, draw_bot b s.2)) (cam, v) dts.

Lemma follow_approach cw ch b dts cam v :
  let s := follow cw ch b dts cam v in
  let amts := (λ dt, (9 # 10) / dt)%Q <$> dts in
  s.1 = (approach ((exact (position b)).1 - (half_canvas cw ch).1)%Q (1 # 16) amts cam.1,
         approach ((exact (position b)).2 - (half_canvas cw ch).2)%Q (1 # 16) amts cam.2) /\
  visibleposition s.2 =
    (approach ((exact (position b)).1 - 0)%Q (5 # 10000) ((λ _, 18 # 100)%Q <$> dts) (visibleposition v).1,
     approach ((exact (position b)).2 - 0)%Q (5 # 10000) ((λ _, 18 # 100)%Q <$> dts) (visibleposition v).2).
Proof.
  cbv zeta. unfold follow, approach. revert cam v. induction dts as [|dt dts IH]; intros cam v.
  - cbn. by destruct cam, (visibleposition v).
  - cbn [foldl fmap list_fmap fst snd]. destruct (IH (GotoCurrentBot cw ch dt (position b) cam) (draw_bot b v)) as [E1 E2].
    rewrite E1, E2. done.
Qed.

Lemma camera_share longest dt : (9 # 10 < longest)%Q -> (9 # 10 < dt /\ dt <= longest)%Q ->
  ((9 # 10) / longest <= (9 # 10) / dt <= 1)%Q.
Proof.
  intros Hl [H1 H2]. assert (0 < dt)%Q by lra. split.
  - apply Qle_shift_div_l; [done|]. assert (0 < (9 # 10) / longest)%Q as Hp by (apply Qlt_shift_div_l; lra).
    apply (Qle_trans _ ((9 # 10) / longest * longest)); [by apply Qmult_le_l|].
    assert ((9 # 10) / longest * longest == 9 # 10)%Q as -> by (field; lra). apply Qle_refl.
  - apply Qle_shift_div_r; lra.
Qed.

(** Half a canvas, in cells, is on it. *)
Lemma canvas_bounds n : 0 <= n -> (-(4) < (n # 2) / 16 /\ (n # 2) / 16 <= (n # 16) + 4)%Q.
Proof.
  intros Hn. assert (0 <= n # 1)%Q as H by (unfold Qle; cbn; lia).
  assert ((n # 2) == (n # 1) / 2)%Q as -> by (unfold Qeq; cbn; lia).
  assert ((n # 16) == (n # 1) / 16)%Q as -> by (unfold Qeq; cbn; lia).
  set (q := (n # 1)%Q) in *. clearbody q.
  assert (q / 2 / 16 == q * (1 # 32))%Q as -> by field. assert (q / 16 == q * (1 # 16))%Q as -> by field. split; lra.
Qed.

(** C15: The view settles on the current bot: whatever the camera shows and wherever
    the bot was drawn, once the bot stands still, there is a number of frames -
    each taking more than 0.9 ms and at most [longest] - after which the bot is
    drawn exactly where it stands, in the middle of the canvas, and counts as
    visible, and so it stays. *)
Theorem view_settles (cw ch : Z) (b : Bot) (cam : V2q) (v : Visual) (longest : Q)
    (Hc : 0 <= cw /\ 0 <= ch) (Hl : (9 # 10 < longest)%Q) :
  exists n, forall dts, Forall (λ dt, 9 # 10 < dt /\ dt <= longest)%Q dts -> (n <= length dts)%nat ->
    let '(cam', v') := follow cw ch b dts cam v in
    (visibleposition v').1 == inject_Z (vx (position b)) /\ (visibleposition v').2 == inject_Z (vy (position b)) /\
    (visibleposition v').1 - cam'.1 == (half_canvas cw ch).1 /\
    (visibleposition v').2 - cam'.2 == (half_canvas cw ch).2 /\
    on_screen cw ch cam' (visibleposition v') = true.
Proof.
  set (a := ((9 # 10) / longest)%Q).
  assert (0 < a <= 1)%Q as Ha.
  { split; [apply Qlt_shift_div_l; lra|]. unfold a. apply Qle_shift_div_r; lra. }
  destruct (approach_settles ((exact (position b)).1 - (half_canvas cw ch).1) (1 # 16) ltac:(done) a cam.1 Ha) as [n1 E1].
  destruct (approach_settles ((exact (position b)).2 - (half_canvas cw ch).2) (1 # 16) ltac:(done) a cam.2 Ha) as [n2 E2].
  destruct (approach_settles ((exact (position b)).1 - 0) (5 # 10000) ltac:(done) (18 # 100) (visibleposition v).1 ltac:(done)) as [n3 E3].
  destruct (approach_settles ((exact (position b)).2 - 0) (5 # 10000) ltac:(done) (18 # 100) (visibleposition v).2 ltac:(done)) as [n4 E4].
  exists (n1 + n2 + n3 + n4)%nat. intros dts Hd Hn. destruct (follow_approach cw ch b dts cam v) as [F1 F2]. cbv zeta in *.
  destruct (follow cw ch b dts cam v) as [cam' v']. cbn [fst snd] in *.
  assert (Forall (λ amt, a <= amt <= 1)%Q ((λ dt, (9 # 10) / dt)%Q <$> dts)) as Hf.
  { apply Forall_fmap. eapply list.Forall_impl; [exact Hd|]. intros dt Hdt. by apply camera_share. }
  assert (Forall (λ amt, 18 # 100 <= amt <= 1)%Q ((λ _, 18 # 100)%Q <$> dts)) as Hf'.
  { apply Forall_fmap, list.Forall_true. by intros dt. }
  rewrite E1, E2 in F1 by (rewrite ?length_fmap; done || lia).
  rewrite E3, E4 in F2 by (rewrite ?length_fmap; done || lia). subst cam'. rewrite F2. cbn [fst snd exact].
  assert (forall x h : Q, x - 0 - (x - h) == h)%Q as Eh by (intros; ring).
  split; [ring|]. split; [ring|]. split; [apply Eh|]. split; [apply Eh|].
  unfold on_screen, exact. cbn [fst snd]. rewrite !andb_true_iff, !Qlt_bool_iff, !Qle_bool_iff, !Eh.
  unfold half_canvas. cbn [fst snd]. repeat split; apply canvas_bounds; lia.
Qed.

Lemma view_settles_witness :
  exists n, let '(cam', v') := follow 320 200 demo_bot (replicate n 16%Q) (50, 50)%Q (new_Visual (mkV2 7 7)) in
    on_screen 320 200 cam' (visibleposition v') = true.
Proof.
  destruct (view_settles 320 200 demo_bot (50, 50)%Q (new_Visual (mkV2 7 7)) 20%Q) as [n H].
  - split; lia.
  - reflexivity.
  - exists n. specialize (H (replicate n 16%Q)). rewrite length_replicate in H.
    specialize (H ltac:(apply Forall_replicate; split; [reflexivity | discriminate]) (le_n n)).
    destruct (follow _ _ _ _ _ _) as [cam' v']. apply H.
Defined.
