(* ===== verification/Tails.v ===== *)
(** * The tails of the bots

    Models [TailStyles] and [class Tails] of [scripts/bot.js]: strands of links that
    trail behind the place where a bot is drawn, swaying at random. *)

From Stdlib Require Import QArith Qround Qabs Lqa.
From S2P Require Import Prelude Host JsNum Anims.

(** ** State and operations *)

(** The styles: how many colours, one strand for each, and how many links; the
    colours themselves are in [Colours]. *)
Record TailStyle := mkStyle { colors : nat; links : nat }.
Definition TailStyles : list TailStyle :=
  [ mkStyle 4 5; mkStyle 3 5; mkStyle 4 5; mkStyle 4 5; mkStyle 4 5; mkStyle 4 5; mkStyle 4 5; mkStyle 4 5; mkStyle 4 5;
    mkStyle 4 5; mkStyle 5 5 ].

(** [tail]: the places of the links of every strand. *)
Abbreviation Tail := (list (list V2q)).

(** [SetTail()]. *)
Definition SetTail (style : TailStyle) (p : V2q) : Tail := replicate (colors style) (replicate (links style) p).

(** [new Tails(bot)]; an index out of the styles gives undefined. *)
Definition new_Tails (p : V2q) (h : Host) : (JsError + Tail) * Host :=
  let '(style, h) := RandInt 0 (Z.of_nat (length TailStyles) - 1) h in
  (match TailStyles !! Z.to_nat (style mod Z.of_nat (length TailStyles)) with
   | Some s => inr (SetTail s p) | None => inl TypeError end, h).

(** [pos[0] = visibleposition], for one strand. *)
Definition set_head (p : V2q) (strand : list V2q) : option (list V2q) :=
  match strand with _ :: rest => Some (p :: rest) | [] => None end.

(** Every link is copied from the one before, which was copied already. *)
Fixpoint copy_links (prev : V2q) (rest : list V2q) : list V2q :=
  match rest with [] => [] | _ :: rest => prev :: copy_links prev rest end.

(** [pos[i].x += RandInt(-3, 3) / 16] and so on, then the step towards the link
    before, for the links after [prev]. *)
Fixpoint sway (prev : V2q) (rest : list V2q) (h : Host) : list V2q * Host :=
  match rest with
  | [] => ([], h)
  | p :: rest =>
      let '(a, h) := RandInt (-3) 3 h in
      let '(b, h) := RandInt (-3) 3 h in
      let q := Lerp2d prev (55 # 100) (0, 0)%Q 0 (p.1 + inject_Z a * (1 # 16), p.2 + inject_Z b * (1 # 16))%Q in
      let '(rest, h) := sway q rest h in (q :: rest, h)
  end.

(** The second loop, for one strand; without a second link undefined is read. *)
Definition move_strand (p : V2q) (strand : list V2q) (h : Host) : option (list V2q) * Host :=
  match strand with
  | head :: l1 :: rest =>
      let tail := if Qlt_bool 25 (dist2 p l1) then copy_links head (l1 :: rest) else l1 :: rest in
      let '(tail, h) := sway head tail h in (Some (head :: tail), h)
  | _ => (None, h)
  end.

Fixpoint move_strands (p : V2q) (tail : Tail) (h : Host) : option Tail * Host :=
  match tail with
  | [] => (Some [], h)
  | strand :: tail =>
      match move_strand p strand h with
      | (None, h) => (None, h)
      | (Some strand, h) =>
          match move_strands p tail h with
          | (Some tail, h) => (Some (strand :: tail), h)
          | failed => failed
          end
      end
  end.

(** [Update(wrender)] at the place [p] of the bot; a missing link throws. *)
Definition Update (p : V2q) (tail : Tail) (h : Host) : (JsError + Tail) * Host :=
  match mapM (set_head p) tail with
  | None => (inl TypeError, h)
  | Some tail =>
      match move_strands p tail h with
      | (None, h) => (inl TypeError, h)
      | (Some tail, h) => (inr tail, h)
      end
  end.

(** Some frames, in which the bot is drawn at the given places. *)
Fixpoint updates (ps : list V2q) (tail : Tail) (h : Host) : (JsError + Tail) * Host :=
  match ps with
  | [] => (inr tail, h)
  | p :: ps => match Update p tail h with (inr tail, h) => updates ps tail h | failed => failed end
  end.

(** ** How far the links are apart *)

(** A link may have moved by [s] since the links behind it last did. *)
Definition gap (s : Q) : Q := ((9 # 11) * (s + (3 # 16)))%Q.
Definition slack (s : Q) : Q := (s + (17 # 100))%Q.

Fixpoint chain (s : Q) (prev : V2q) (rest : list V2q) : Prop :=
  match rest with [] => True | p :: rest => near (gap s) prev p /\ chain (slack s) p rest end.

(** A strand with its head at [p]: the first link is at most 2.35 from it, in each
    coordinate. *)
Definition strand_ok (n : nat) (p : V2q) (strand : list V2q) : Prop :=
  exists l1 rest, strand = p :: l1 :: rest /\ length rest = n /\ near (235 # 100) p l1 /\ chain (285 # 100) l1 rest.

Lemma near_coords b g p : near b g p <-> ((Qabs (p.1 - g.1) <= b) /\ (Qabs (p.2 - g.2) <= b))%Q.
Proof. done. Qed.

Lemma near_refl b p : (0 <= b)%Q -> near b p p.
Proof.
  intros Hb. apply near_coords. split; apply Qabs_Qle_condition; lra.
Qed.

Lemma chain_same s p rest : (0 <= s)%Q -> chain s p (copy_links p rest).
Proof.
  revert s. induction rest as [|q rest IH]; intros s Hs; [done|]. cbn. split.
  - apply near_refl. unfold gap. lra.
  - apply IH. unfold slack. lra.
Qed.

(** One coordinate: the link [x], at most [d] from the old place [o] of the link
    before, which is now at [g], at most [s] away. *)
Lemma sway1 d s o g x j : (0 <= s)%Q -> (3 # 16 <= d + s)%Q -> (Qabs j <= 3 # 16)%Q -> (Qabs (x - o) <= d)%Q -> (Qabs (g - o) <= s)%Q ->
  (Qabs (lerp1 (55 # 100) 0 g (x + j) - g) <= (45 # 100) * (d + s + (3 # 16)))%Q /\
  (Qabs (lerp1 (55 # 100) 0 g (x + j) - x) <= (55 # 100) * (d + s) + (45 # 100) * (3 # 16))%Q.
Proof.
  intros Hs Hds Hj Hx Hg. apply Qabs_Qle_condition in Hj, Hx, Hg.
  assert (Qabs (x + j - g) <= d + s + (3 # 16))%Q as Hb by (apply Qabs_Qle_condition; lra).
  split.
  - eapply Qle_trans; [apply (lerp1_contracts (55 # 100) 0 g (x + j) (d + s + (3 # 16)) ltac:(done) Hb)|lra].
    apply Qabs_Qle_condition in Hb. lra.
  - unfold lerp1. destruct (Qlt_bool 0 (Qabs (x + j - g))) eqn:E.
    + apply Qabs_Qle_condition. lra.
    + assert (Qabs (x + j - g) <= 0)%Q as E0.
      { apply not_true_iff_false in E. rewrite Qlt_bool_iff in E. lra. }
      apply Qabs_Qle_condition in E0. apply Qabs_Qle_condition. lra.
Qed.

Lemma jitter_range h : Host_ok h -> (Qabs (inject_Z (RandInt (-3) 3 h).1 * (1 # 16)) <= 3 # 16)%Q.
Proof.
  intros Hh. pose proof (RandInt_range (-3) 3 h Hh ltac:(lia)) as [H1 H2]. set (a := (RandInt (-3) 3 h).1) in *. clearbody a.
  rewrite Zle_Qle in H1, H2. change (inject_Z (-3)) with (-(3))%Q in H1. change (inject_Z 3) with 3%Q in H2.
  apply Qabs_Qle_condition. lra.
Qed.

(** The links behind a link that has moved by at most [s]. *)
Lemma sway_chain rest : forall s old new h, Host_ok h -> (1 # 50 <= s)%Q -> chain s old rest -> near s old new ->
  let r := sway new rest h in
  length r.1 = length rest /\ chain s new r.1 /\ same_streams h r.2.
Proof.
  induction rest as [|p rest IH]; intros s old new h Hh Hs Hc Hn; [by split_and!|].
  cbn [chain] in Hc. destruct Hc as [[D1 D2] Hc], Hn as [N1 N2]. cbn [sway].
  pose proof (jitter_range h Hh) as J1. pose proof (RandInt_streams (-3) 3 h) as S1.
  destruct (RandInt (-3) 3 h) as [a h1]. cbn [fst snd] in J1, S1. pose proof (same_streams_ok _ _ S1 Hh) as Hh1.
  pose proof (jitter_range h1 Hh1) as J2. pose proof (RandInt_streams (-3) 3 h1) as S2.
  destruct (RandInt (-3) 3 h1) as [b h2]. cbn [fst snd] in J2, S2. pose proof (same_streams_ok _ _ S2 Hh1) as Hh2.
  set (q := Lerp2d _ _ _ _ _).
  assert (near (gap s) new q /\ near (slack s) p q) as [Hg Hk].
  { destruct (sway1 (gap s) s old.1 (new.1 - 0)%Q p.1 (inject_Z a * (1 # 16))%Q) as [X1 X2];
      [lra|unfold gap; lra|exact J1|exact D1|rewrite Qabs_Qle_condition in *; lra|].
    destruct (sway1 (gap s) s old.2 (new.2 - 0)%Q p.2 (inject_Z b * (1 # 16))%Q) as [Y1 Y2];
      [lra|unfold gap; lra|exact J2|exact D2|rewrite Qabs_Qle_condition in *; lra|].
    rewrite !near_coords. unfold q, Lerp2d, gap, slack in *. cbn [fst snd] in *.
    set (x := lerp1 _ _ _ (p.1 + _)) in *. set (y := lerp1 _ _ _ (p.2 + _)) in *. clearbody x y.
    rewrite !Qabs_Qle_condition in *. repeat split; lra. }
  destruct (IH (slack s) p q h2 Hh2) as (L & C & S3); [unfold slack; lra | done | done |].
  destruct (sway q rest h2) as [rest' h3]. cbn [fst snd] in *. split; [cbn; by rewrite L|]. split; [by split|].
  etransitivity; [exact S1|]. by etransitivity.
Qed.

(** A strand as it is kept between two frames, wherever its head is. *)
Definition strand_wf (n : nat) (strand : list V2q) : Prop :=
  exists head l1 rest, strand = head :: l1 :: rest /\ length rest = n /\ chain (285 # 100) l1 rest.

Lemma strand_ok_wf n p strand : strand_ok n p strand -> strand_wf n strand.
Proof. intros (l1 & rest & -> & Hl & _ & Hc). by exists p, l1, rest. Qed.

Lemma square_pos u : (0 <= u * u)%Q.
Proof. destruct (Qlt_le_dec u 0); nra. Qed.

Lemma square_bound u b : (0 <= b)%Q -> (u * u <= b * b)%Q -> (Qabs u <= b)%Q.
Proof. intros Hb Hu. apply Qabs_Qle_condition. destruct (Qlt_le_dec b u), (Qlt_le_dec u (- b)); split; nra. Qed.

Lemma near_square b x y p l : (0 <= b)%Q -> (dist2 p l <= b * b)%Q -> x = (l.1 - p.1)%Q -> y = (l.2 - p.2)%Q -> (Qabs x <= b /\ Qabs y <= b)%Q.
Proof.
  intros Hb Hd -> ->. unfold dist2 in Hd. set (u := (l.1 - p.1)%Q) in *. set (v := (l.2 - p.2)%Q) in *. clearbody u v.
  pose proof (square_pos u). pose proof (square_pos v). split; apply square_bound; lra.
Qed.

(** The first link is caught up with when it is too far away. *)
Lemma copy_links_near p l1 rest :
  chain (285 # 100) l1 rest ->
  exists l rest', (if Qlt_bool 25 (dist2 p l1) then copy_links p (l1 :: rest) else l1 :: rest) = l :: rest' /\
    length rest' = length rest /\ near 5 p l /\ chain (285 # 100) l rest'.
Proof.
  intros Hc. destruct (Qlt_bool 25 (dist2 p l1)) eqn:E.
  - exists p, (copy_links p rest). split_and!; [done| |by apply near_refl|by apply chain_same].
    clear. induction rest as [|q rest IH]; cbn; [done | by f_equal].
  - exists l1, rest. split_and!; [done|done| |done]. apply not_true_iff_false in E. rewrite Qlt_bool_iff in E.
    apply near_coords. by apply (near_square 5 _ _ p l1); [|apply Qnot_lt_le| |].
Qed.

Lemma move_strand_ok n p l1 rest h : Host_ok h -> length rest = n -> chain (285 # 100) l1 rest ->
  exists strand h', move_strand p (p :: l1 :: rest) h = (Some strand, h') /\ strand_ok n p strand /\ same_streams h h'.
Proof.
  intros Hh Hl Hc. unfold move_strand. destruct (copy_links_near p l1 rest Hc) as (l & rest' & -> & Hl' & [N1 N2] & Hc').
  cbn [sway]. pose proof (jitter_range h Hh) as J1. pose proof (RandInt_streams (-3) 3 h) as S1.
  destruct (RandInt (-3) 3 h) as [a h1]. cbn [fst snd] in J1, S1. pose proof (same_streams_ok _ _ S1 Hh) as Hh1.
  pose proof (jitter_range h1 Hh1) as J2. pose proof (RandInt_streams (-3) 3 h1) as S2.
  destruct (RandInt (-3) 3 h1) as [b h2]. cbn [fst snd] in J2, S2. pose proof (same_streams_ok _ _ S2 Hh1) as Hh2.
  set (q := Lerp2d _ _ _ _ _).
  assert (near (235 # 100) p q /\ near (285 # 100) l q) as [Hg Hk].
  { destruct (sway1 5 0 p.1 (p.1 - 0)%Q l.1 (inject_Z a * (1 # 16))%Q) as [X1 X2];
      [lra|lra|exact J1|exact N1|apply Qabs_Qle_condition; lra|].
    destruct (sway1 5 0 p.2 (p.2 - 0)%Q l.2 (inject_Z b * (1 # 16))%Q) as [Y1 Y2];
      [lra|lra|exact J2|exact N2|apply Qabs_Qle_condition; lra|].
    rewrite !near_coords. unfold q, Lerp2d in *. cbn [fst snd] in *.
    set (x := lerp1 _ _ _ (l.1 + _)) in *. set (y := lerp1 _ _ _ (l.2 + _)) in *. clearbody x y.
    rewrite !Qabs_Qle_condition in *. repeat split; lra. }
  destruct (sway_chain rest' (285 # 100) l q h2 Hh2) as (L & C & S3); [lra | done | done |].
  destruct (sway q rest' h2) as [rest'' h3]. cbn [fst snd] in *. exists (p :: q :: rest''), h3. split; [done|]. split.
  - exists q, rest''. split_and!; [done | congruence | done | done].
  - etransitivity; [exact S1|]. by etransitivity.
Qed.

(** The tails between two frames, and after a frame. *)
Definition tail_wf (k n : nat) (tail : Tail) : Prop := length tail = k /\ Forall (strand_wf n) tail.
Definition tail_ok (k n : nat) (p : V2q) (tail : Tail) : Prop := length tail = k /\ Forall (strand_ok n p) tail.

Lemma tail_ok_wf k n p tail : tail_ok k n p tail -> tail_wf k n tail.
Proof. intros [Hk Hf]. split; [done|]. eapply list.Forall_impl; [exact Hf|]. intros s. apply strand_ok_wf. Qed.

Lemma Update_ok k n p tail h : Host_ok h -> tail_wf k n tail ->
  exists tail' h', Update p tail h = (inr tail', h') /\ tail_ok k n p tail' /\ same_streams h h'.
Proof.
  intros Hh [Hk Hf]. unfold Update.
  assert (exists heads, mapM (set_head p) tail = Some heads /\ length heads = k /\
    Forall (λ s, exists l1 rest, s = p :: l1 :: rest /\ length rest = n /\ chain (285 # 100) l1 rest) heads) as (heads & -> & Hk' & Hf').
  { clear Hh h. revert k Hk. induction Hf as [|s tail (head & l1 & rest & -> & Hl & Hc) Hf IH]; intros k Hk; [by exists []|].
    destruct k as [|k]; [done|]. injection Hk as Hk. destruct (IH k Hk) as (heads & E & Hk' & Hf').
    exists ((p :: l1 :: rest) :: heads). cbn. rewrite E. cbn. split_and!; [done | by f_equal |]. constructor; [|done]. by exists l1, rest. }
  clear Hf Hk tail. enough (exists tail' h', move_strands p heads h = (Some tail', h') /\ tail_ok k n p tail' /\ same_streams h h')
    as (tail' & h' & -> & H) by (by exists tail', h').
  revert h k Hh Hk'. induction Hf' as [|s heads (l1 & rest & -> & Hl & Hc) Hf IH]; intros h k Hh Hk.
  - exists [], h. cbn in *. subst k. by split_and!.
  - destruct k as [|k]; [done|]. injection Hk as Hk. cbn [move_strands].
    destruct (move_strand_ok n p l1 rest h Hh Hl Hc) as (s & h1 & -> & Hs & S1).
    destruct (IH h1 k (same_streams_ok _ _ S1 Hh) Hk) as (tail' & h2 & -> & [Hk' Hf'] & S2).
    exists (s :: tail'), h2. split; [done|]. split; [split; [cbn; by f_equal | by constructor] | by etransitivity].
Qed.

Lemma SetTail_wf style p : (2 <= links style)%nat -> tail_wf (colors style) (links style - 2) (SetTail style p).
Proof.
  intros Hl. split; [apply length_replicate|]. apply Forall_replicate. destruct (links style) as [|[|n]]; [lia|lia|].
  exists p, p, (replicate n p). split_and!; [done | rewrite length_replicate; lia |].
  replace (replicate n p) with (copy_links p (replicate n p)) by (clear; induction n; cbn; [done | by f_equal]).
  by apply chain_same.
Qed.

Lemma updates_ok k n p ps : forall tail h, Host_ok h -> tail_wf k n tail ->
  exists tail' h', updates (ps ++ [p]) tail h = (inr tail', h') /\ tail_ok k n p tail'.
Proof.
  induction ps as [|p0 ps IH]; intros tail h Hh Hw; cbn [app updates].
  - destruct (Update_ok k n p tail h Hh Hw) as (tail' & h' & -> & Ht & _). by exists tail', h'.
  - destruct (Update_ok k n p0 tail h Hh Hw) as (tail' & h' & -> & Ht & Hs).
    apply (IH tail' h' (same_streams_ok _ _ Hs Hh) (tail_ok_wf _ _ _ _ Ht)).
Qed.

(** The distance to the head adds up along the strand. *)
Lemma near_trans a b x y z : near a x y -> near b y z -> near (a + b) x z.
Proof. rewrite !near_coords, !Qabs_Qle_condition. intros. repeat split; lra. Qed.

Lemma near_le a b x y : (a <= b)%Q -> near a x y -> near b x y.
Proof. rewrite !near_coords. intros. split; lra. Qed.

(** With three more links the last one is at most 11 cells away. *)
Lemma strand_reach p strand : strand_ok 3 p strand -> Forall (near 11 p) strand.
Proof.
  intros (l1 & rest & -> & Hl & N1 & Hc). destruct rest as [|l2 [|l3 [|l4 [|]]]]; try done.
  cbn [chain] in Hc. destruct Hc as (N2 & N3 & N4 & _).
  pose proof (near_trans _ _ _ _ _ N1 N2) as M2. pose proof (near_trans _ _ _ _ _ M2 N3) as M3.
  pose proof (near_trans _ _ _ _ _ M3 N4) as M4.
  repeat (constructor; [first [by apply near_refl | eapply near_le; [|eassumption]; unfold gap, slack; lra]|]). constructor.
Qed.

Lemma new_Tails_ok p h : Host_ok h ->
  exists tail h', new_Tails p h = (inr tail, h') /\ same_streams h h' /\ exists k, (3 <= k <= 5)%nat /\ tail_wf k 3 tail.
Proof.
  intros Hh. unfold new_Tails. pose proof (RandInt_range 0 (Z.of_nat (length TailStyles) - 1) h Hh ltac:(done)) as R.
  pose proof (RandInt_streams 0 (Z.of_nat (length TailStyles) - 1) h) as S1. destruct (RandInt _ _ h) as [i h1]. cbn [fst snd] in *.
  assert (Forall (λ s, (3 <= colors s <= 5)%nat /\ links s = 5%nat) TailStyles) as Hf by (repeat (constructor; [cbn; lia|]); constructor).
  rewrite Z.mod_small by lia. destruct (lookup_lt_is_Some_2 TailStyles (Z.to_nat i)) as [s Es]; [lia|]. rewrite Es.
  destruct (Forall_lookup_1 _ _ _ _ Hf Es) as [Hc Hl]. exists (SetTail s p), h1. split; [done|]. split; [done|].
  exists (colors s). split; [done|]. pose proof (SetTail_wf s p ltac:(lia)) as Hw. by rewrite Hl in Hw.
Qed.

(** C35: A tail never gets lost: wherever the bot was drawn since its tail was made, and
    however far it jumped from one frame to the next, for any random numbers no frame
    throws, and after the last one the tail has its three to five strands of five
    links, every strand begins at the bot, and no link is further than 11 cells from
    it in either direction. *)
Theorem tails_follow (p0 : V2q) (ps : list V2q) (p : V2q) (h : Host) (Hh : Host_ok h) :
  exists tail0 h0, new_Tails p0 h = (inr tail0, h0) /\
  exists tail h', updates (ps ++ [p]) tail0 h0 = (inr tail, h') /\
    (3 <= length tail <= 5)%nat /\
    Forall (λ strand, length strand = 5%nat /\ head strand = Some p /\ Forall (near 11 p) strand) tail.
Proof.
  destruct (new_Tails_ok p0 h Hh) as (tail0 & h0 & E & Hs & k & Hk & Hw). exists tail0, h0. split; [done|].
  destruct (updates_ok k 3 p ps tail0 h0 (same_streams_ok _ _ Hs Hh) Hw) as (tail & h' & E' & [Hk' Hf]).
  exists tail, h'. split; [done|]. split; [lia|]. eapply list.Forall_impl; [exact Hf|]. intros strand Hst.
  split_and!; [| |by apply strand_reach]; destruct Hst as (l1 & rest & -> & Hl & _); cbn; [by rewrite Hl | done].
Qed.

Lemma tails_follow_witness :
  exists tail0 h0, new_Tails (0, 0)%Q (const_host 0 (1 # 2)) = (inr tail0, h0) /\
  exists tail h', updates ([(3, 4)%Q; (100, 0)%Q] ++ [(5, 5)%Q]) tail0 h0 = (inr tail, h') /\ (3 <= length tail)%nat.
Proof.
  destruct (tails_follow (0, 0)%Q [(3, 4)%Q; (100, 0)%Q] (5, 5)%Q (const_host 0 (1 # 2))) as (tail0 & h0 & E & tail & h' & E' & H & _).
  - apply const_host_ok. split; by vm_compute.
  - exists tail0, h0. split; [exact E|]. exists tail, h'. split; [exact E'|]. apply H.
Defined.
