(* ===== verification/JsText.v ===== *)
(** * Text

    What the admin panel uses of the language's strings and of the conversions
    between strings and numbers.  A string is the list of its UTF-16 code
    units; numbers that come out of JSON or of an input are exact decimals. *)

From Stdlib Require Import QArith Qround.
From S2P Require Import Prelude.

Definition JsStr : Type := list Z.

(** A literal of the source. *)
Definition u (s : string) : JsStr := (λ c, Z.of_nat (Ascii.nat_of_ascii c)) <$> String.list_ascii_of_string s.

(** ** Searching and trimming *)

Fixpoint starts_with (q s : JsStr) : bool :=
  match q, s with
  | [], _ => true
  | a :: q, b :: s => (a =? b) && starts_with q s
  | _ :: _, [] => false
  end.

(** [s.includes(q)]. *)
Fixpoint includes (q s : JsStr) : bool :=
  starts_with q s || match s with [] => false | _ :: s => includes q s end.

(** The white space and line terminators [trim] removes. *)
Definition trims (c : Z) : bool :=
  ((9 <=? c) && (c <=? 13)) || ((8192 <=? c) && (c <=? 8202)) ||
  existsb (Z.eqb c) [32; 160; 5760; 8232; 8233; 8239; 8287; 12288; 65279].

Fixpoint trim_start (s : JsStr) : JsStr :=
  match s with c :: r => if trims c then trim_start r else s | [] => [] end.

Definition trim (s : JsStr) : JsStr := reverse (trim_start (reverse (trim_start s))).

(** ** Numbers to text *)

Definition digit (d : Z) : Z := 48 + d.

Fixpoint digits_of (fuel : nat) (n : Z) (acc : JsStr) : JsStr :=
  match fuel with
  | O => acc
  | S fuel => if n <? 10 then digit n :: acc else digits_of fuel (n / 10) (digit (n mod 10) :: acc)
  end.

(** [String(n)] of a non-negative integer: as many digits as its logarithm allows. *)
Definition nat_text (n : Z) : JsStr := digits_of (S (Z.to_nat (Z.log2 n))) n [].
Definition int_text (n : Z) : JsStr := if n <? 0 then u "-" ++ nat_text (- n) else nat_text n.

(** The decimals of r / d, for 0 <= r < d, at most [fuel] of them. *)
Fixpoint decimals (fuel : nat) (r d : Z) : JsStr :=
  match fuel with
  | O => []
  | S fuel => if r =? 0 then [] else digit (10 * r / d) :: decimals fuel (10 * r mod d) d
  end.

(** [String(q)] of a decimal of at most 17 places. *)
Definition num_text (q : Q) : JsStr :=
  let n := Z.abs (Qnum q) in
  let d := Z.pos (Qden q) in
  (if Qnum q <? 0 then u "-" else []) ++ nat_text (n / d) ++
  (if n mod d =? 0 then [] else u "." ++ decimals 17 (n mod d) d).

(** [q.toFixed(2)] for q >= 0: the nearest hundredth, the greater one when two are. *)
Definition toFixed2 (q : Q) : JsStr :=
  let n := Qfloor (q * 100 + (1 # 2)) in
  nat_text (n / 100) ++ u "." ++ [digit (n mod 100 / 10); digit (n mod 10)].

(** ** Text to numbers *)

Definition is_digit (c : Z) : bool := (48 <=? c) && (c <=? 57).

(** The digits at the start of a string: their value, their number, the rest. *)
Fixpoint read_digits (s : JsStr) (acc : Z) (n : nat) : Z * nat * JsStr :=
  match s with
  | c :: r => if is_digit c then read_digits r (10 * acc + (c - 48)) (S n) else (acc, n, s)
  | [] => (acc, n, s)
  end.

Definition read_sign (s : JsStr) : Z * JsStr :=
  match s with
  | 43 :: r => (1, r)
  | 45 :: r => (-1, r)
  | _ => (1, s)
  end.

(** [Number.parseInt(s, 10)]; [None] is NaN. *)
Definition parseInt10 (s : JsStr) : option Z :=
  let '(sign, s) := read_sign (trim_start s) in
  let '(v, n, _) := read_digits s 0 0 in
  if (n =? 0)%nat then None else Some (sign * v).

(** The number of a text where the language wants one ([Number(s)]): of the texts the
    program converts so, the decimal numerals are numbers and all others are NaN,
    [None]. *)
Definition text_number (s : JsStr) : option Z :=
  let '(sign, s) := read_sign s in
  let '(v, n, rest) := read_digits s 0 0 in
  match rest with
  | [] => if (n =? 0)%nat then None else Some (sign * v)
  | _ => None
  end.

(** The exponent part: ignored as a whole when no digit follows the e. *)
Definition read_exponent (s : JsStr) : Z :=
  match s with
  | e :: s =>
      if (e =? 101) || (e =? 69) then
        let '(sign, s) := read_sign s in
        let '(v, n, _) := read_digits s 0 0 in
        if (n =? 0)%nat then 0 else sign * v
      else 0
  | [] => 0
  end.

Definition pow10 (e : Z) : Q := if 0 <=? e then inject_Z (10 ^ e) else 1 / inject_Z (10 ^ (- e)).

(** [Number.parseFloat(s)]; [None] is NaN or an infinity, which JSON writes as
    null alike. *)
Definition parseFloat (s : JsStr) : option Q :=
  let '(sign, s) := read_sign (trim_start s) in
  let '(v, n, s) := read_digits s 0 0 in
  let '(w, k, s) := match s with 46 :: r => read_digits r v 0 | _ => (v, O, s) end in
  if ((n + k) =? 0)%nat then None
  else Some (Qred (inject_Z (sign * w) * pow10 (read_exponent s - Z.of_nat k))).

(** ** Facts *)

(** The value digits stand for. *)
Definition value (s : JsStr) (acc : Z) : Z := foldl (λ v c, 10 * v + (c - 48)) acc s.

Lemma is_digit_digit d : 0 <= d < 10 -> is_digit (digit d) = true.
Proof. unfold is_digit, digit. lia. Qed.

Lemma digits_of_app fuel n acc : digits_of fuel n acc = digits_of fuel n [] ++ acc.
Proof.
  revert n acc. induction fuel as [|fuel IH]; intros n acc; cbn; [done|].
  destruct (n <? 10); [done|]. rewrite IH, (IH _ [_]), <- app_assoc. done.
Qed.

Lemma digits_of_spec fuel n :
  0 <= n < 2 ^ Z.of_nat fuel ->
  Forall (λ c, is_digit c = true) (digits_of fuel n []) /\ value (digits_of fuel n []) 0 = n.
Proof.
  revert n. induction fuel as [|fuel IH]; intros n Hn.
  - cbn in *. split; [constructor | lia].
  - cbn [digits_of]. destruct (Z.ltb_spec n 10); cbv match.
    + split; [|cbn; unfold digit; lia]. constructor; [|constructor]. apply is_digit_digit; lia.
    + rewrite digits_of_app. rewrite Nat2Z.inj_succ, Z.pow_succ_r in Hn by lia.
      pose proof (Z.div_mod n 10 ltac:(lia)). pose proof (Z.mod_pos_bound n 10 ltac:(lia)).
      destruct (IH (n / 10)) as [Hf Hv]; [lia|]. split.
      * apply Forall_app. split; [done|]. constructor; [|constructor]. apply is_digit_digit; lia.
      * unfold value in *. rewrite foldl_app, Hv. cbn. unfold digit. lia.
Qed.

Lemma digits_of_nonempty fuel n : digits_of (S fuel) n [] <> [].
Proof.
  cbn. destruct (n <? 10); [done|]. rewrite digits_of_app. by destruct (digits_of _ _ _).
Qed.

Lemma nat_text_spec n : 0 <= n ->
  Forall (λ c, is_digit c = true) (nat_text n) /\ value (nat_text n) 0 = n /\ nat_text n <> [].
Proof.
  intros Hn. unfold nat_text. pose proof (Z.log2_nonneg n).
  destruct (digits_of_spec (S (Z.to_nat (Z.log2 n))) n) as [? ?].
  - split; [done|]. rewrite Nat2Z.inj_succ, Z2Nat.id by done.
    destruct (decide (n = 0)) as [->|]; [done|]. apply Z.log2_spec. lia.
  - split_and!; [done|done|apply digits_of_nonempty].
Qed.

Lemma read_digits_all s v n :
  Forall (λ c, is_digit c = true) s -> read_digits s v n = (value s v, (n + length s)%nat, []).
Proof.
  revert v n. induction s as [|c s IH]; intros v n; cbn; [by rewrite Nat.add_0_r|].
  inversion 1; subst. rewrite H2, IH by done. by rewrite Nat.add_succ_r.
Qed.

Lemma trims_digit c : is_digit c = true -> trims c = false.
Proof.
  intros H. assert (48 <= c < 48 + 10) as Hc by (unfold is_digit in H; lia).
  apply negb_true_iff. by apply (range_check (λ c, negb (trims c)) 48 10).
Qed.

(** An input filled with a number gives the number back. *)
Lemma parseInt10_int_text n : parseInt10 (int_text n) = Some n.
Proof.
  unfold int_text, parseInt10.
  destruct (Z.ltb_spec n 0) as [Hn|Hn].
  - change (u "-") with [45]. destruct (nat_text_spec (- n) ltac:(lia)) as (Hf & Hv & Hne).
    cbn [app trim_start]. change (trims 45) with false. cbn [read_sign].
    rewrite read_digits_all by done. rewrite Hv.
    destruct (nat_text (- n)); [done|]. cbn [length Nat.add Nat.eqb]. f_equal. lia.
  - destruct (nat_text_spec n Hn) as (Hf & Hv & Hne).
    destruct (nat_text n) as [|c s] eqn:E; [done|]. inversion Hf; subst.
    cbn [trim_start]. rewrite trims_digit by done.
    assert (read_sign (c :: s) = (1, c :: s)) as ->.
    { unfold is_digit in *. unfold read_sign. repeat (case_match; try done; simplify_eq/=). }
    rewrite read_digits_all by done. cbn [length Nat.add Nat.eqb]. f_equal. lia.
Qed.

(** ** Numerals as numbers *)

Lemma text_number_digits s : Forall (λ c, is_digit c = true) s -> s <> [] -> text_number s = Some (value s 0).
Proof.
  intros Hf Hne. unfold text_number.
  assert (read_sign s = (1, s)) as ->.
  { destruct s as [|c s]; [done|]. inversion Hf; subst. unfold is_digit in *. unfold read_sign.
    repeat (case_match; try done; simplify_eq/=). }
  rewrite read_digits_all by done. destruct s; [done|]. cbn [length Nat.add Nat.eqb]. f_equal. lia.
Qed.

Lemma text_number_int n : text_number (int_text n) = Some n.
Proof.
  unfold int_text. destruct (Z.ltb_spec n 0) as [Hn|Hn].
  - destruct (nat_text_spec (- n) ltac:(lia)) as (Hf & Hv & Hne). unfold text_number. change (u "-") with [45].
    cbn [app read_sign]. rewrite read_digits_all by done. rewrite Hv.
    destruct (nat_text (- n)); [done|]. cbn [length Nat.add Nat.eqb]. f_equal. lia.
  - destruct (nat_text_spec n Hn) as (Hf & Hv & Hne). by rewrite text_number_digits, Hv.
Qed.

(** Digits with a letter behind them are no number. *)
Lemma text_number_unit n c : 0 <= n -> is_digit c = false -> text_number (int_text n ++ [c]) = None.
Proof.
  intros Hn Hc. unfold int_text. replace (n <? 0) with false by lia.
  destruct (nat_text_spec n Hn) as (Hf & _ & Hne). unfold text_number.
  assert (read_sign (nat_text n ++ [c]) = (1, nat_text n ++ [c])) as ->.
  { destruct (nat_text n) as [|d s]; [done|]. inversion Hf; subst. unfold is_digit in *. unfold read_sign. cbn [app].
    repeat (case_match; try done; simplify_eq/=). }
  assert (forall s v k, Forall (λ c, is_digit c = true) s -> (read_digits (s ++ [c]) v k).2 = [c]) as H.
  { induction s as [|d s IH]; intros v k; cbn; [by rewrite Hc|]. inversion 1; subst. rewrite H2. by apply IH. }
  specialize (H (nat_text n) 0 0%nat Hf). destruct (read_digits _ 0 0) as [[v k] rest]. cbn in H. by subst.
Qed.
