(* ===== verification/Colours.v ===== *)
(** * Random colours

    Models [RandColor], [RandColor16] and the text of a [Vector2d] of
    [scripts/usefuladitions.js], and the colours [TailStyles] of [scripts/bot.js]
    gets from them.  What text is a colour is for CSS to say: a hash and three, four,
    six or eight hexadecimal digits. *)

From Stdlib Require Import QArith Qround.
From S2P Require Import Prelude Host JsNum JsText Vec.

(** ** Numerals to base 16 *)

(** The digits of [toString(16)]. *)
Definition hex_digit (d : Z) : Z := if d <? 10 then 48 + d else 87 + d.

Fixpoint hex_digits (fuel : nat) (n : Z) (acc : JsStr) : JsStr :=
  match fuel with
  | O => acc
  | S fuel => if n <? 16 then hex_digit n :: acc else hex_digits fuel (n / 16) (hex_digit (n mod 16) :: acc)
  end.

(** [n.toString(16)] of a non-negative integer, one unit of fuel per bit. *)
Definition toString16 (n : Z) : JsStr := hex_digits (S (Z.to_nat (Z.log2 n))) n [].

(** ** The functions *)

Definition RandColor (h : Host) : JsStr * Host :=
  let '(r, h) := Math_random h in (u "#" ++ toString16 (Qfloor (r * 16777215)), h).
Definition RandColor16 (h : Host) : JsStr * Host :=
  let '(r, h) := Math_random h in (u "#" ++ toString16 (Qfloor (r * 4095)), h).

(** The colours of [TailStyles]: ten lists, and the last, drawn when the script is loaded. *)
Definition TailColors : list (list string) :=
  [ ["#ff0d"; "#f0fd"; "#0ffd"; "#fffd"]; ["#f0fd"; "#0ffd"; "#fffd"]; ["#f0f"; "#ff0"; "#f0f"; "#ff0"];
    replicate 4 "#fffd"; replicate 4 "#000d"; ["#fffd"; "#000d"; "#fffd"; "#000d"];
    replicate 4 "#7f0f"; replicate 4 "#d13f"; replicate 4 "#fd0f"; replicate 4 "#0fff" ]%string.

Fixpoint random_style (n : nat) (h : Host) : list JsStr * Host :=
  match n with
  | O => ([], h)
  | S n => let '(c, h) := RandColor16 h in let '(cs, h) := random_style n h in (c :: cs, h)
  end.
Definition last_style_colors (h : Host) : list JsStr * Host := random_style 5 h.

(** [toString()] of a vector. *)
Definition V2_toString (v : Vector2d) : JsStr := u "{x:" ++ int_text (vx v) ++ u ",y:" ++ int_text (vy v) ++ u "}".

Lemma random_style_length n h : length (random_style n h).1 = n.
Proof.
  revert h. induction n as [|n IH]; intros h; [done|]. cbn [random_style]. destruct (RandColor16 h) as [c h1].
  specialize (IH h1). destruct (random_style n h1) as [cs h2]. cbn in *. by f_equal.
Qed.

(** ** Colours of CSS *)

Definition hex_value1 (c : Z) : option Z :=
  if (48 <=? c) && (c <=? 57) then Some (c - 48) else if (97 <=? c) && (c <=? 102) then Some (c - 87) else None.

(** The value of hexadecimal digits. *)
Definition hex_value (s : JsStr) (acc : Z) : option Z :=
  foldl (λ v c, a ← v; d ← hex_value1 c; Some (16 * a + d)) (Some acc) s.

Definition is_css_color (s : JsStr) : bool :=
  match s with
  | c :: rest =>
      (c =? 35) && (match hex_value rest 0 with Some _ => true | None => false end) &&
      bool_decide (length rest ∈ [3; 4; 6; 8]%nat)
  | [] => false
  end.

(** ** What the digits say *)

Lemma hex_value1_digit d : 0 <= d < 16 -> hex_value1 (hex_digit d) = Some d.
Proof.
  intros Hd. unfold hex_value1, hex_digit. destruct (d <? 10) eqn:E; zprop.
  - replace ((48 <=? 48 + d) && (48 + d <=? 57)) with true by lia. f_equal. lia.
  - replace ((48 <=? 87 + d) && (87 + d <=? 57)) with false by lia.
    replace ((97 <=? 87 + d) && (87 + d <=? 102)) with true by lia. f_equal. lia.
Qed.

Lemma hex_value_app s t acc : hex_value (s ++ t) acc = v ← hex_value s acc; hex_value t v.
Proof.
  unfold hex_value. rewrite foldl_app. destruct (foldl _ (Some acc) s) as [v|]; [done|]. cbn.
  induction t as [|c t IH]; [done | exact IH].
Qed.

Lemma hex_digits_app fuel n acc : hex_digits fuel n acc = hex_digits fuel n [] ++ acc.
Proof.
  revert n acc. induction fuel as [|fuel IH]; intros n acc; cbn; [done|].
  destruct (n <? 16); [done|]. by rewrite IH, (IH _ [_]), <- app_assoc.
Qed.

(** The numeral has the value of the number, and exactly as many digits as it takes. *)
Lemma hex_digits_spec fuel : forall n, 0 <= n < 2 ^ Z.of_nat fuel ->
  let s := hex_digits fuel n [] in
  hex_value s 0 = Some n /\ n < 16 ^ Z.of_nat (length s) /\ (0 < n -> 16 ^ (Z.of_nat (length s) - 1) <= n).
Proof.
  induction fuel as [|fuel IH]; intros n Hn; cbn [hex_digits]; cbv zeta.
  - cbn in *. split_and!; [f_equal; lia | lia | lia].
  - destruct (n <? 16) eqn:E; zprop.
    + cbn. rewrite hex_value1_digit by lia. cbn. split_and!; [done | lia | lia].
    + rewrite hex_digits_app. rewrite Nat2Z.inj_succ, Z.pow_succ_r in Hn by lia.
      pose proof (Z.div_mod n 16 ltac:(lia)) as Hdm. pose proof (Z.mod_pos_bound n 16 ltac:(lia)) as Hm.
      destruct (IH (n / 16)) as (Hv & Hu & Hl); [lia|]. cbv zeta in *. rewrite hex_value_app, Hv. cbn.
      rewrite hex_value1_digit by lia. cbn. rewrite length_app. cbn [length].
      set (k := Z.of_nat (length (hex_digits fuel (n / 16) []))) in *.
      replace (Z.of_nat (length (hex_digits fuel (n / 16) []) + 1)) with (Z.succ k) by lia.
      assert (0 <= k) by lia. split_and!; [f_equal; lia | rewrite Z.pow_succ_r by lia; lia |].
      intros _. specialize (Hl ltac:(lia)). replace (Z.succ k - 1) with k by lia.
      destruct (decide (k = 0)) as [Ek|Hk]; [rewrite Ek; cbn; lia|].
      replace k with (Z.succ (k - 1)) by lia. rewrite Z.pow_succ_r by lia. lia.
Qed.

Lemma toString16_spec n : 0 <= n ->
  hex_value (toString16 n) 0 = Some n /\
  forall k, 1 < Z.of_nat k -> length (toString16 n) = k <-> 16 ^ (Z.of_nat k - 1) <= n < 16 ^ Z.of_nat k.
Proof.
  intros Hn. unfold toString16. pose proof (Z.log2_nonneg n).
  destruct (hex_digits_spec (S (Z.to_nat (Z.log2 n))) n) as (Hv & Hu & Hl).
  { split; [done|]. rewrite Nat2Z.inj_succ, Z2Nat.id by done.
    destruct (decide (n = 0)) as [->|]; [done|]. apply Z.log2_spec. lia. }
  cbv zeta in *. split; [done|]. intros k Hk. assert (0 < 16 ^ (Z.of_nat k - 1)) by (apply Z.pow_pos_nonneg; lia).
  destruct (decide (n = 0)) as [->|Hn0]; [cbn; lia|]. specialize (Hl ltac:(lia)).
  set (l := length _) in *. clearbody l. split; [by intros <-|]. intros [H1 H2].
  assert (Z.of_nat l - 1 < Z.of_nat k) by (apply (Z.pow_lt_mono_r_iff 16); lia).
  assert (Z.of_nat k - 1 < Z.of_nat l) by (apply (Z.pow_lt_mono_r_iff 16); lia). lia.
Qed.

(** Which numbers give a colour. *)
Lemma hash_color n : 0 <= n ->
  is_css_color (u "#" ++ toString16 n) = true <->
  256 <= n < 65536 \/ 1048576 <= n < 16777216 \/ 268435456 <= n < 4294967296.
Proof.
  intros Hn. destruct (toString16_spec n Hn) as [Hv Hl].
  change (u "#" ++ toString16 n) with (35 :: toString16 n). cbn [is_css_color]. rewrite Hv. change (35 =? 35) with true. cbn [andb].
  rewrite bool_decide_eq_true, !elem_of_cons, elem_of_nil, !Hl by lia. cbn. lia.
Qed.

Lemma random_scaled (h : Host) n : Host_ok h -> 0 < n ->
  0 <= Qfloor (random h (nrandom h) * inject_Z n) < n.
Proof.
  intros Hh Hn. pose proof (RandInt_range 0 (n - 1) h Hh ltac:(lia)) as R. unfold RandInt, Math_random in R. cbn [fst snd] in R.
  replace (n - 1 + 1 - 0) with n in R by lia. lia.
Qed.

(** C37: The random colours are not always colours: with v the number that is drawn, the text of
    [RandColor16] is a hash and the numeral of v, which is less than 4095 - white never comes -, and
    it is a colour if and only if v is at least 256, for the numeral is not filled up
    with zeros; the text of [RandColor] is a colour if v takes three, four or six digits,
    but means the number v only if it takes six. *)
Theorem random_colours (h : Host) (Hh : Host_ok h) :
  (exists v, (RandColor16 h).1 = u "#" ++ toString16 v /\ hex_value (toString16 v) 0 = Some v /\ 0 <= v < 4095 /\
     (is_css_color (RandColor16 h).1 = true <-> 256 <= v)) /\
  (exists v, (RandColor h).1 = u "#" ++ toString16 v /\ hex_value (toString16 v) 0 = Some v /\ 0 <= v < 16777215 /\
     (is_css_color (RandColor h).1 = true <-> 256 <= v < 65536 \/ 1048576 <= v) /\
     (length (toString16 v) = 6%nat <-> 1048576 <= v)).
Proof.
  split.
  - exists (Qfloor (random h (nrandom h) * 4095)). pose proof (random_scaled h 4095 Hh ltac:(lia)) as R.
    change (inject_Z 4095) with 4095%Q in R. unfold RandColor16, Math_random. cbn [fst]. set (v := Qfloor _) in *. clearbody v.
    split; [done|]. split; [by apply (proj1 (toString16_spec v ltac:(lia)))|]. split; [done|]. rewrite hash_color by lia. lia.
  - exists (Qfloor (random h (nrandom h) * 16777215)). pose proof (random_scaled h 16777215 Hh ltac:(lia)) as R.
    change (inject_Z 16777215) with 16777215%Q in R. unfold RandColor, Math_random. cbn [fst]. set (v := Qfloor _) in *. clearbody v.
    destruct (toString16_spec v ltac:(lia)) as [Hv Hl].
    split; [done|]. split; [done|]. split; [done|]. rewrite hash_color by lia. split; [lia|].
    rewrite (Hl 6%nat) by lia. cbn. lia.
Qed.

Lemma random_colours_witness : is_css_color (RandColor16 (const_host 0 (1 # 32))).1 = false.
Proof.
  destruct (random_colours (const_host 0 (1 # 32))) as [(v & E & Hv & _ & Hc) _].
  - apply const_host_ok. split; [by vm_compute | by vm_compute].
  - apply not_true_is_false. rewrite Hc. intros Hl. injection E as E.
    assert (hex_value (toString16 v) 0 = Some 127) as E2 by (rewrite <- E; reflexivity). rewrite Hv in E2. injection E2 as ->. lia.
Defined.

