(* ===== verification/Overlay.v ===== *)
(** * What is drawn over the terrain

    Models the strokes of [scripts/wrenderer.js] ([line], [Rey], [Rey2], [Box]), the
    part of [DrawBots] that draws a visible bot, [SkinsSet] and [LightningAnim] of
    [scripts/tables/minestileset.js].  The canvas is the list of the calls made to it;
    the width of a text, which the browser measures, is a parameter. *)

From Stdlib Require Import QArith Qround Qabs Lqa.
From S2P Require Import Prelude Host JsNum JsText WMap Vec Machine BotOps Programmator BotFacts Anims Tiles View.

#[local] Open Scope Z_scope.

(** ** Strokes *)

(** [Rey.prevcolor] and the [strokeStyle] of the canvas. *)
Record Pen := mkPen { prevcolor : option string; strokeStyle : string }.

(** The calls that paint: a path that is stroked, a skin, a text. *)
Inductive Call :=
  | C_stroke (path : list V2q) (color : string)
  | C_skin (sx sy : Z) (x y : Z) (angle : Q)
  | C_text (color : string) (text : JsStr) (x y : Z).

(** [line(v1, v2, color)], in pixels. *)
Definition line (v1 v2 : V2q) (color : string) (p : Pen) : Call * Pen :=
  let p := mkPen (prevcolor p) color in (C_stroke [v1; v2] (strokeStyle p), p).

(** A point of the world on the canvas, moved by [off]. *)
Definition on_canvas (cam : V2q) (off : Q) (v : V2q) : V2q :=
  ((v.1 - cam.1) * 16 + off, (v.2 - cam.2) * 16 + off)%Q.

Definition halfBS : Q := (16 / 2 + (1 # 2))%Q.

(** [Rey(v1, v2, color)]: the line between the middles of two cells. *)
Definition Rey (cam : V2q) (v1 v2 : V2q) (color : string) (p : Pen) : Call * Pen :=
  let p := match prevcolor p with
           | None => mkPen (Some color) (strokeStyle p)
           | Some c => if String.eqb c color then p else mkPen (Some color) color
           end in
  let p := mkPen (prevcolor p) color in
  (C_stroke [on_canvas cam halfBS v1; on_canvas cam halfBS v2] (strokeStyle p), p).

(** [Rey2(Vstart, dx, dy, color)]. *)
Definition Rey2 (cam : V2q) (v : V2q) (dx dy : Q) (color : string) (p : Pen) : Call * Pen :=
  Rey cam v (v.1 + dx, v.2 + dy)%Q color p.

(** [Box(v, color)]: the four sides. *)
Definition Box (cam : V2q) (v : V2q) (color : string) (p : Pen) : Call * Pen :=
  let p := mkPen (prevcolor p) color in
  let '(dx1, dy1) := on_canvas cam (1 # 2) v in
  let dx2 := (dx1 + 16)%Q in
  let dy2 := (dy1 + 16)%Q in
  (C_stroke [(dx1, dy1); (dx1, dy2); (dx2, dy2); (dx2, dy1); (dx1, dy1)] (strokeStyle p), p).

(** ** A visible bot *)

(** The skins of [SkinsSet]. *)
Definition skins : list (Z * Z) := [ (0, 0); (96, 0); (128, 0); (0, 32); (32, 32) ].

(** The options of the page that matter here. *)
Record Marks := mkMarks { vectors : bool; nicknames : bool; viewBox : bool }.

(** The colour of the nickname. *)
Definition nick_color (b : Bot) : string :=
  let p := programCondition b in
  (if isExecute p then if isHandModeActive p then "#0d2" else "#dd4" else "#fff")%string.

(** The two lines of the option [vectors]: to the place where the bot is drawn, and
    ahead. *)
Definition heading (rotation : Z) : Q * Q :=
  (if rotation =? 90 then 3 # 10 else if rotation =? 270 then - (3 # 10) else 0,
   if rotation =? 0 then - (3 # 10) else if rotation =? 180 then 3 # 10 else 0)%Q.
Definition draw_vectors (cam : V2q) (b : Bot) (v : Visual) (p : Pen) : list Call * Pen :=
  let '(c1, p) := Rey cam (exact (position b)) (visibleposition v) "#0f04" p in
  let '(dx, dy) := heading (rotation b) in
  let '(c2, p) := Rey2 cam (exact (position b)) dx dy "#0f36" p in
  ([c1; c2], p).

(** The skin, turned; a number without a skin throws. *)
Definition draw_skin (cam : V2q) (skin : Z) (v : Visual) : JsError + Call :=
  match at_index skins skin with
  | Some (sx, sy) =>
      let d := on_canvas cam 8 (visibleposition v) in
      inr (C_skin sx sy (Qfloor d.1) (Qfloor d.2) (visiblerotation v))
  | None => inl TypeError
  end.

(** The nickname with the id. *)
Definition nickid (b : Bot) (nick : JsStr) : JsStr := u "[" ++ int_text (bot_id b) ++ u "]" ++ nick.
Definition draw_nick (width : JsStr -> Q) (cam : V2q) (b : Bot) (nick : JsStr) (v : Visual) : Call :=
  let d := on_canvas cam 0 (visibleposition v) in
  C_text (nick_color b) (nickid b nick)
    (Qfloor (d.1 - width (nickid b nick) / 2 + 8 + (1 # 2))) (Qfloor (d.2 - 8 + (1 # 2))).

(** The cell the program of the bot looks at, with its box; without a frame on the
    stack undefined is read. *)
Definition view_cell (b : Bot) : option Vector2d :=
  s ← at_index (stack (programCondition b)) (stackDepth (programCondition b));
  Some (mkV2 (vx (position b) + vx (viewOffset s)) (vy (position b) + vy (viewOffset s))).
Definition draw_box (cam : V2q) (b : Bot) (p : Pen) : (JsError + Call) * Pen :=
  match view_cell b with
  | Some v => let '(c, p) := Box cam (exact v) "#1ffa" p in (inr c, p)
  | None => (inl TypeError, p)
  end.

(** What [DrawBots] draws for a visible bot after its tail. *)
Definition draw_visible (width : JsStr -> Q) (o : Marks) (cam : V2q) (b : Bot) (nick : JsStr) (skin : Z) (v : Visual) (p : Pen) :
    list Call * option JsError * Pen :=
  let '(c1, p) := if vectors o then draw_vectors cam b v p else ([], p) in
  match draw_skin cam skin v with
  | inl e => (c1, Some e, p)
  | inr s =>
      let c2 := if nicknames o then [draw_nick width cam b nick v] else [] in
      if viewBox o then
        match draw_box cam b p with
        | (inr c, p) => (c1 ++ [s] ++ c2 ++ [c], None, p)
        | (inl e, p) => (c1 ++ [s] ++ c2, Some e, p)
        end
      else (c1 ++ [s] ++ c2, None, p)
  end.

(** ** Lightnings *)

(** The nodes between the two ends; the ends are vectors of others, read at every
    frame. *)
Record LightningAnim := mkLightning { isFinished : bool; nodes : list V2q; nodes2 : list V2q; nodes3 : list V2q }.

(** [Init] of a new object. *)
Definition new_LightningAnim : LightningAnim :=
  let l := replicate 8 (0, 0)%Q in mkLightning false l l l.

(** One coordinate pair of a node: the i-th tenth of the way, and a random part of
    [1 / k]. *)
Definition jitter (s e : V2q) (i : nat) (k : Q) (h : Host) : V2q * Host :=
  let '(a, h) := Math_random h in
  let '(b, h) := Math_random h in
  let n := inject_Z (Z.of_nat i) in
  ((s.1 - (s.1 - e.1) / 10 * n + a / k, s.2 - (s.2 - e.2) / 10 * n + b / k)%Q, h).

(** The loop over the nodes 1 to 8; only their number matters of the old ones. *)
Fixpoint move_nodes (n i : nat) (s e : V2q) (h : Host) : list V2q * list V2q * list V2q * Host :=
  match n with
  | O => ([], [], [], h)
  | S n =>
      let '(a, h) := jitter s e i 2 h in
      let '(b, h) := jitter s e i 3 h in
      let '(c, h) := jitter s e i (5 # 2) h in
      let '(la, lb, lc, h) := move_nodes n (S i) s e h in (a :: la, b :: lb, c :: lc, h)
  end.

(** [RandInt(0, 15).toString(16)], after the name of a colour. *)
Definition hex (d : Z) : string := nth (Z.to_nat d) ["0"; "1"; "2"; "3"; "4"; "5"; "6"; "7"; "8"; "9"; "a"; "b"; "c"; "d"; "e"; "f"]%string "0"%string.
Fixpoint strand (cam : V2q) (color : string) (prev : V2q) (rest : list V2q) (h : Host) (p : Pen) : list Call * Host * Pen :=
  match rest with
  | [] => ([], h, p)
  | v :: rest =>
      let '(d, h) := RandInt 0 15 h in
      let '(c, p) := Rey cam prev v (color ++ hex d) p in
      let '(cs, h, p) := strand cam color v rest h p in (c :: cs, h, p)
  end.

(** [Update()] of a lightning from [s] to [e]. *)
Definition lightning_Update (cam s e : V2q) (l : LightningAnim) (h : Host) (p : Pen) : list Call * LightningAnim * Host * Pen :=
  if isFinished l then ([], l, h, p)
  else
    let '(a, b, c, h) := move_nodes 8 1 s e h in
    let l := mkLightning (isFinished l) a b c in
    let '(c1, h, p) := strand cam "#f0f" s (nodes l ++ [e]) h p in
    let '(c2, h, p) := strand cam "#0ff" s (nodes2 l ++ [e]) h p in
    let '(c3, h, p) := strand cam "#fff" s (nodes3 l ++ [e]) h p in
    (c1 ++ c2 ++ c3, l, h, p).

(** [DrawLightings()], each lightning with its ends: the finished ones leave the set. *)
Fixpoint DrawLightings (cam : V2q) (ls : list (V2q * V2q * LightningAnim)) (h : Host) (p : Pen) :
    list Call * list (V2q * V2q * LightningAnim) * Host * Pen :=
  match ls with
  | [] => ([], [], h, p)
  | (s, e, l) :: ls =>
      if isFinished l then DrawLightings cam ls h p
      else
        let '(c1, l, h, p) := lightning_Update cam s e l h p in
        let '(c2, ls, h, p) := DrawLightings cam ls h p in (c1 ++ c2, (s, e, l) :: ls, h, p)
  end.

(** ** The strokes have the colour asked for *)

Lemma Rey_eq cam v1 v2 color p :
  Rey cam v1 v2 color p =
  (C_stroke [on_canvas cam halfBS v1; on_canvas cam halfBS v2] color,
   mkPen (Some color) color).
Proof.
  unfold Rey. destruct (prevcolor p) as [c|] eqn:E; cbn; [|done].
  destruct (String.eqb_spec c color) as [->|_]; cbn; [by rewrite E | done].
Qed.

(** A bot is drawn without an error if it has a skin and, when the box is shown, a
    frame on the stack of its program. *)
Lemma draw_visible_error width o cam b nick skin v p :
  (draw_visible width o cam b nick skin v p).1.2 = None <->
  0 <= skin < 5 /\ (viewBox o = true -> view_cell b <> None).
Proof.
  unfold draw_visible. destruct (if vectors o then _ else _) as [c1 p1].
  unfold draw_skin. destruct (at_index skins skin) as [[sx sy]|] eqn:E.
  - apply at_index_nat in E as (n & -> & Hn%lookup_lt_Some). change (length skins) with 5%nat in Hn.
    assert (0 <= Z.of_nat n < 5) as Hr by lia. unfold draw_box.
    destruct (viewBox o), (view_cell b) as [c|]; cbn; naive_solver.
  - cbn. split; [done|]. intros [Hs _]. destruct (at_index_Some skins skin ltac:(cbn; lia)) as [a Ha]. congruence.
Qed.

(** ** The box of the program's view *)

Section box.
Context (cam : V2q) (kx ky : Z) (Hx : (cam.1 == kx # 16)%Q) (Hy : (cam.2 == ky # 16)%Q).

(** One axis: the middle of a pixel lies between two sides of the box exactly when the
    pixel shows the cell. *)
Lemma side_seen c k a px : (c == k # 16)%Q ->
  let x0 := ((inject_Z a - c) * 16 + (1 # 2))%Q in
  (x0 <= inject_Z px + (1 # 2) /\ inject_Z px + (1 # 2) < x0 + 16)%Q <-> seen c px = a.
Proof.
  intros Hc. cbv zeta. rewrite (seen_whole c k px Hc), (Qfloor_16 ((px # 16) + c) (px + k)).
  2:{ rewrite Hc. unfold Qeq. cbn. lia. }
  assert ((inject_Z a - c) * 16 == inject_Z (a * 16 - k))%Q as ->.
  { rewrite Hc. unfold Qeq. cbn. lia. }
  transitivity (a = (px + k) / 16); [|by split].
  rewrite <- (place_unique a px k).
  assert (forall x y : Z, inject_Z x + (1 # 2) <= inject_Z y + (1 # 2) <-> (x <= y)%Z)%Q as H1.
  { intros x y. rewrite Qplus_le_l. by rewrite <- Zle_Qle. }
  rewrite H1. assert (inject_Z px + (1 # 2) < inject_Z (a * 16 - k) + (1 # 2) + 16 <-> (px < a * 16 - k + 16)%Z)%Q as ->.
  { rewrite <- Qplus_assoc, (Qplus_comm (1 # 2)), Qplus_assoc, Qplus_lt_l.
    change 16%Q with (inject_Z 16). by rewrite <- inject_Z_plus, <- Zlt_Qlt. }
  done.
Qed.

(** C23: With the camera on a whole pixel, the box that marks the view of a program
    encloses exactly the pixels of one cell, and this cell is the one whose block the
    conditions of the program read; the box cannot be drawn exactly when they throw. *)
Theorem view_box_right (c : Ctx) (p : Pen) :
  match draw_box cam (bot c) p with
  | (inl e, _) => viewSelectedBlock c = (inl e, c)
  | (inr call, _) => exists (v : Vector2d) (x0 y0 : Q) (color : string),
      call = C_stroke [(x0, y0); (x0, (y0 + 16)%Q); ((x0 + 16)%Q, (y0 + 16)%Q); ((x0 + 16)%Q, y0); (x0, y0)] color /\
      viewSelectedBlock c = (inr (GetIDByCoord (wmap c) (vx v) (vy v)), c) /\
      forall px py : Z,
        (x0 <= inject_Z px + (1 # 2) < x0 + 16 /\ y0 <= inject_Z py + (1 # 2) < y0 + 16)%Q <->
        seen cam.1 px = vx v /\ seen cam.2 py = vy v
  end.
Proof using All.
  unfold draw_box, view_cell, viewSelectedBlock, currentStack.
  destruct (at_index (stack (programCondition (bot c))) (stackDepth (programCondition (bot c)))) as [s|] eqn:E; cbn.
  - eexists (mkV2 _ _), _, _, _. split; [done|]. split.
    + unfold xbind. cbn. unfold prog. by rewrite E.
    + intros px py. rewrite <- (side_seen _ kx _ px Hx), <- (side_seen _ ky _ py Hy). done.
  - unfold xbind. cbn. unfold prog. by rewrite E.
Qed.
End box.

Lemma view_box_right_witness :
  exists call p, draw_box (0, 0)%Q (bot demo_ctx) (mkPen None "#000") = (inr call, p) /\
    exists v, viewSelectedBlock demo_ctx = (inr (GetIDByCoord (wmap demo_ctx) (vx v) (vy v)), demo_ctx).
Proof.
  pose proof (view_box_right (0, 0)%Q 0 0 ltac:(reflexivity) ltac:(reflexivity) demo_ctx (mkPen None "#000")) as H.
  destruct (draw_box _ _ _) as [[e|call] p] eqn:E; [discriminate E|].
  destruct H as (v & x0 & y0 & color & _ & Hv & _). exists call, p. split; [reflexivity | exists v; exact Hv].
Defined.

(** ** Lightnings never end *)

(** A node is at most half a cell right of and below its place on the line. *)
Definition on_line (s e : V2q) (i : nat) (v : V2q) : Prop :=
  let n := inject_Z (Z.of_nat i) in
  (0 <= v.1 - (s.1 - (s.1 - e.1) / 10 * n) <= 1 # 2 /\ 0 <= v.2 - (s.2 - (s.2 - e.2) / 10 * n) <= 1 # 2)%Q.

Lemma jitter_ok s e i k h : Host_ok h -> (2 <= k)%Q ->
  on_line s e i (jitter s e i k h).1 /\ Host_ok (jitter s e i k h).2.
Proof.
  intros Hh Hk. split.
  - assert (forall n, 0 <= random h n / k <= 1 # 2)%Q as Hr.
    { intros n. destruct (random_range h Hh n) as [H0 H1]. assert (0 < k)%Q by lra.
      assert (0 <= random h n / k)%Q by (apply Qle_shift_div_l; lra).
      assert (random h n / k <= 1 # 2)%Q by (apply Qle_shift_div_r; lra). lra. }
    unfold on_line, jitter, Math_random. cbn [fst snd random nrandom].
    generalize ((s.1 - e.1) / 10 * inject_Z (Z.of_nat i))%Q ((s.2 - e.2) / 10 * inject_Z (Z.of_nat i))%Q. intros dx dy.
    pose proof (Hr (nrandom h)). pose proof (Hr (S (nrandom h))). split; lra.
  - apply (same_streams_ok h); [|done]. unfold jitter, Math_random, same_streams. cbn. split_and!; done || lia.
Qed.

Definition nodes_ok (n i : nat) (s e : V2q) (l : list V2q) : Prop :=
  length l = n /\ forall j v, l !! j = Some v -> on_line s e (i + j) v.

Lemma nodes_ok_cons n i s e v l : on_line s e i v -> nodes_ok n (S i) s e l -> nodes_ok (S n) i s e (v :: l).
Proof.
  intros Hv [Hl Hn]. split; [cbn; by f_equal|]. intros [|j] w; cbn.
  - intros [= <-]. by rewrite Nat.add_0_r.
  - intros Hj. rewrite Nat.add_succ_r. by apply (Hn j).
Qed.

Lemma move_nodes_ok n : forall i s e h, Host_ok h ->
  let '(a, b, c, h') := move_nodes n i s e h in
  nodes_ok n i s e a /\ nodes_ok n i s e b /\ nodes_ok n i s e c /\ Host_ok h'.
Proof.
  induction n as [|n IH]; intros i s e h Hh; cbn [move_nodes].
  - assert (nodes_ok 0 i s e []) by (by split). done.
  - destruct (jitter_ok s e i 2 h Hh ltac:(lra)) as [Ha Hh1]. destruct (jitter s e i 2 h) as [a h1]. cbn [fst snd] in *.
    destruct (jitter_ok s e i 3 h1 Hh1 ltac:(lra)) as [Hb Hh2]. destruct (jitter s e i 3 h1) as [b h2]. cbn [fst snd] in *.
    destruct (jitter_ok s e i (5 # 2) h2 Hh2 ltac:(lra)) as [Hc Hh3]. destruct (jitter s e i (5 # 2) h2) as [c h3].
    cbn [fst snd] in *. specialize (IH (S i) s e h3 Hh3). destruct (move_nodes n (S i) s e h3) as [[[la lb] lc] h'].
    destruct IH as (H1 & H2 & H3 & H4). split_and!; [by apply nodes_ok_cons.. | done].
Qed.

Lemma strand_length cam color rest : forall prev h p,
  length (strand cam color prev rest h p).1.1 = length rest /\
  (Host_ok h -> Host_ok (strand cam color prev rest h p).1.2).
Proof.
  induction rest as [|v rest IH]; intros prev h p; cbn [strand]; [done|].
  pose proof (RandInt_streams 0 15 h) as Hs. destruct (RandInt 0 15 h) as [d h1]. cbn [snd] in Hs.
  destruct (Rey cam prev v _ p) as [c p1]. specialize (IH v h1 p1).
  destruct (strand cam color v rest h1 p1) as [[cs h2] p2]. cbn in *. destruct IH as [IH1 IH2].
  split; [by f_equal|]. intros Hh. by apply IH2, (same_streams_ok h).
Qed.

(** One frame: nothing finishes it, the nodes stay near the line between its ends, and
    27 strokes are drawn. *)
Lemma lightning_frame cam s e l h p : Host_ok h -> isFinished l = false ->
  let '(cs, l', h', _) := lightning_Update cam s e l h p in
  isFinished l' = false /\ length cs = 27%nat /\ Host_ok h' /\
  nodes_ok 8 1 s e (nodes l') /\ nodes_ok 8 1 s e (nodes2 l') /\ nodes_ok 8 1 s e (nodes3 l').
Proof.
  intros Hh Hl. unfold lightning_Update. rewrite Hl. pose proof (move_nodes_ok 8 1 s e h Hh) as H.
  destruct (move_nodes 8 1 s e h) as [[[a b] c] h0]. destruct H as (Ha & Hb & Hc & H0). cbn [nodes nodes2 nodes3].
  pose proof (strand_length cam "#f0f" (a ++ [e]) s h0 p) as [L1 H1]. destruct (strand cam "#f0f" _ _ h0 p) as [[c1 h1] p1].
  pose proof (strand_length cam "#0ff" (b ++ [e]) s h1 p1) as [L2 H2]. destruct (strand cam "#0ff" _ _ h1 p1) as [[c2 h2] p2].
  pose proof (strand_length cam "#fff" (c ++ [e]) s h2 p2) as [L3 H3]. destruct (strand cam "#fff" _ _ h2 p2) as [[c3 h3] p3].
  cbn [fst snd] in *. split_and!; [done| |auto|done..].
  rewrite !length_app, L1, L2, L3, !length_app, (proj1 Ha), (proj1 Hb), (proj1 Hc). done.
Qed.

(** A lightning that is shown once is shown in every later frame: nothing sets
    [isFinished]. *)
Theorem lightnings_stay (cam : V2q) (ls : list (V2q * V2q * LightningAnim)) (h : Host) (p : Pen)
    (Hh : Host_ok h) (Hl : Forall (λ t, isFinished t.2 = false) ls) :
  let '(cs, ls', _, _) := DrawLightings cam ls h p in
  length cs = (27 * length ls)%nat /\ ls'.*1 = ls.*1 /\ Forall (λ t, isFinished t.2 = false) ls' /\
  forall s e l, (s, e, l) ∈ ls' -> nodes_ok 8 1 s e (nodes l) /\ nodes_ok 8 1 s e (nodes2 l) /\ nodes_ok 8 1 s e (nodes3 l).
Proof.
  revert h p Hh. induction Hl as [|[[s e] l] ls Hl Hls IH]; intros h p Hh; cbn [DrawLightings].
  - split_and!; [done..|]. intros s e l []%elem_of_nil.
  - cbn in Hl. rewrite Hl. pose proof (lightning_frame cam s e l h p Hh Hl) as H.
    destruct (lightning_Update cam s e l h p) as [[[c1 l'] h1] p1]. destruct H as (H1 & H2 & H3 & H4).
    specialize (IH h1 p1 H3). destruct (DrawLightings cam ls h1 p1) as [[[c2 ls'] h2] p2].
    destruct IH as (I1 & I2 & I3 & I4). rewrite length_app, H2, I1. split_and!.
    + cbn [length]. lia.
    + cbn. by f_equal.
    + by constructor.
    + intros s0 e0 l0 [[= -> -> ->]|Hin]%elem_of_cons; [done | by apply I4].
Qed.
