(* ===== verification/Names.v ===== *)
(** * Nicknames and amounts

    Models [NickNames] of [scripts/tables/DataTables.js], which gives every bot a
    name, and [MoneyConverter] of [scripts/usefuladitions.js], which shortens large
    amounts. *)

From Stdlib Require Import QArith Qround.
From S2P Require Import Prelude Host JsNum JsText.

(** ** Nicknames *)

(** An element of [NickNames.base]: a string, or an object once it was used. *)
Inductive Nick := N_string (name : JsStr) | N_used (counter : Z) (name : JsStr).

Definition nick_name (k : Nick) : JsStr := match k with N_string s | N_used _ s => s end.

(** The getter [random]; of an empty base, a property of undefined is read. *)
Definition nick_random (base : list Nick) (h : Host) : (JsError + JsStr) * list Nick * Host :=
  let '(r, h) := Math_random h in
  let i := Z.to_nat (Qfloor (r * inject_Z (Z.of_nat (length base)))) in
  match base !! i with
  | None => (inl TypeError, base, h)
  | Some k =>
      let '(counter, name) := match k with N_string s => (0, s) | N_used c s => (c, s) end in
      if counter =? 0 then (inr name, <[i := N_used 1 name]> base, h)
      else (inr (name ++ int_text (counter + 1)), <[i := N_used (counter + 1 + 1) name]> base, h)
  end.

(** The place of the first string. *)
Fixpoint first_string (base : list Nick) : option (nat * JsStr) :=
  match base with
  | [] => None
  | N_string s :: _ => Some (O, s)
  | N_used _ _ :: base => match first_string base with Some (i, s) => Some (S i, s) | None => None end
  end.

(** The getter [unique]. *)
Definition nick_unique (base : list Nick) (h : Host) : (JsError + JsStr) * list Nick * Host :=
  match first_string base with
  | Some (i, s) => (inr s, <[i := N_used 1 s]> base, h)
  | None => nick_random base h
  end.

(** ** Amounts *)

(** [while (number > 1000000000n)]: the number left and the letters. *)
Fixpoint thousands (fuel : nat) (number : Z) (result : JsStr) : Z * JsStr :=
  match fuel with
  | O => (number, result)
  | S fuel =>
      if 1000000000 <? number then thousands fuel (Z.quot number 1000000000) (result ++ u "T")
      else (number, result)
  end.

(** [toKKKformat(number, nochangeminimum)] of a whole number. *)
Definition toKKKformat (number nochangeminimum : Z) : JsStr :=
  if nochangeminimum <=? number then
    if (number <=? 10 ^ 6) && (10 ^ 3 <? number) then int_text (Z.quot number (10 ^ 3)) ++ u "K"
    else if (number <=? 10 ^ 9) && (10 ^ 6 <? number) then int_text (Z.quot number (10 ^ 6)) ++ u "M"
    else if (number <=? 10 ^ 12) && (10 ^ 9 <? number) then int_text (Z.quot number (10 ^ 9)) ++ u "B"
    else if (number <=? 10 ^ 15) && (10 ^ 12 <? number) then int_text (Z.quot number (10 ^ 12)) ++ u "T"
    else if (number <=? 10 ^ 18) && (10 ^ 15 <? number) then int_text (Z.quot number (10 ^ 15)) ++ u "Q"
    else if (number <=? 10 ^ 21) && (10 ^ 18 <? number) then int_text (Z.quot number (10 ^ 18)) ++ u "KQ"
    else let '(number, result) := thousands (S (Z.to_nat (Z.log2 number))) number [] in int_text number ++ result
  else int_text number.

(** ** Numerals *)

Lemma nat_text_inj n k : 0 <= n -> 0 <= k -> nat_text n = nat_text k -> n = k.
Proof.
  intros Hn Hk E. destruct (nat_text_spec n Hn) as (_ & <- & _). destruct (nat_text_spec k Hk) as (_ & <- & _).
  by rewrite E.
Qed.

(** What follows the name: nothing at first, then a number. *)
Definition suffix (k : Z) : JsStr := if k =? 0 then [] else nat_text k.

Lemma suffix_digits k : 0 <= k -> Forall (λ c, is_digit c = true) (suffix k).
Proof. intros Hk. unfold suffix. destruct (k =? 0); [constructor | by apply nat_text_spec]. Qed.

Lemma suffix_inj n k : 0 <= n -> 0 <= k -> suffix n = suffix k -> n = k.
Proof.
  intros Hn Hk. unfold suffix. destruct (nat_text_spec n Hn) as (_ & _ & H1). destruct (nat_text_spec k Hk) as (_ & _ & H2).
  destruct (n =? 0) eqn:En, (k =? 0) eqn:Ek; zprop; intros E; [lia | by rewrite <- E in H2 | done | by apply nat_text_inj].
Qed.

(** ** No name is given twice *)

(** No name of the base is another one followed by digits. *)
Definition no_clash (names : list JsStr) : Prop :=
  forall i j x e, names !! j = Some x -> names !! i = Some (x ++ e) -> Forall (λ c, is_digit c = true) e -> i = j.

Lemma name_inj names i j x y n k :
  no_clash names -> names !! i = Some x -> names !! j = Some y -> 0 <= n -> 0 <= k ->
  x ++ suffix n = y ++ suffix k -> i = j /\ n = k.
Proof.
  intros Hc Hi Hj Hn Hk E. assert (i = j) as ->.
  { destruct (app_eq_inv _ _ _ _ E) as [(e & -> & Es)|(e & -> & Es)].
    - apply (Hc i j y e Hj Hi). pose proof (suffix_digits k Hk) as H. rewrite Es in H. by apply Forall_app in H as [H _].
    - symmetry. apply (Hc j i x e Hi Hj). pose proof (suffix_digits n Hn) as H. rewrite Es in H. by apply Forall_app in H as [H _]. }
  split; [done|]. rewrite Hi in Hj. injection Hj as ->. apply app_inv_head in E. by apply suffix_inj.
Qed.

(** The names given out so far: each is an element of the base followed by an even
    number below the counter, which is odd. *)
Record given (names : list JsStr) (base : list Nick) (out : list JsStr) : Prop := {
  g_names : nick_name <$> base = names;
  g_odd : forall i c s, base !! i = Some (N_used c s) -> exists k, c = 2 * k + 1 /\ 0 <= k;
  g_out : forall w, w ∈ out -> exists i k c s, base !! i = Some (N_used c s) /\ 0 <= k < c /\ w = s ++ suffix k;
  g_nodup : NoDup out }.

Lemma given_use names base out i nk k c :
  no_clash names -> given names base out -> base !! i = Some nk ->
  (forall c0 s, nk = N_used c0 s -> c0 <= k) -> 0 <= k < c -> (exists m, c = 2 * m + 1 /\ 0 <= m) ->
  given names (<[i := N_used c (nick_name nk)]> base) (out ++ [nick_name nk ++ suffix k]).
Proof.
  intros Hc [Hn Ho Hw Hd] Hi Hold Hk Hodd. pose proof (lookup_lt_Some _ _ _ Hi) as Hl.
  assert (forall j x, base !! j = Some x -> names !! j = Some (nick_name x)) as Hname.
  { intros j x Hj. by rewrite <- Hn, list_lookup_fmap, Hj. }
  split.
  - rewrite list_fmap_insert. cbn [nick_name]. rewrite Hn. apply list_insert_id. by apply Hname.
  - intros j c' s Hj. destruct (decide (j = i)) as [->|Hne].
    + rewrite list_lookup_insert_eq in Hj by done. by injection Hj as <- _.
    + rewrite list_lookup_insert_ne in Hj by done. by eapply Ho.
  - intros w [Hin| ->%list_elem_of_singleton]%elem_of_app.
    + destruct (Hw w Hin) as (j & k' & c' & s & Hj & Hk' & ->). destruct (decide (j = i)) as [->|Hne].
      * rewrite Hj in Hi. injection Hi as <-. specialize (Hold c' s eq_refl).
        exists i, k', c, s. split; [by apply list_lookup_insert_eq|]. split; [lia|done].
      * exists j, k', c', s. by rewrite list_lookup_insert_ne.
    + exists i, k, c, (nick_name nk). split; [by apply list_lookup_insert_eq|]. split; [lia|done].
  - apply list.NoDup_app. split; [done|]. split; [|apply NoDup_singleton].
    intros w Hin ->%list_elem_of_singleton. destruct (Hw _ Hin) as (j & k' & c' & s & Hj & Hk' & E).
    destruct (name_inj names i j (nick_name nk) s k k') as [-> ->]; [done | by apply Hname | by apply (Hname j _ Hj) | lia | lia | done |].
    rewrite Hj in Hi. injection Hi as <-. specialize (Hold c' s eq_refl). lia.
Qed.

(** A string of the base is given out as it is. *)
Lemma given_first names base out i s :
  no_clash names -> given names base out -> base !! i = Some (N_string s) ->
  given names (<[i := N_used 1 s]> base) (out ++ [s]).
Proof.
  intros Hc Hg Hi. pose proof (given_use names base out i (N_string s) 0 1 Hc Hg Hi) as H.
  change (suffix 0) with (@nil Z) in H. cbn [nick_name] in H. rewrite app_nil_r in H.
  apply H; [done | lia | exists 0; lia].
Qed.

(** ** The getters *)

Lemma random_place {A} (l : list A) h :
  Host_ok h -> l <> [] ->
  exists x, l !! Z.to_nat (Qfloor (random h (nrandom h) * inject_Z (Z.of_nat (length l)))) = Some x.
Proof.
  intros Hh Hl. apply lookup_lt_is_Some_2. assert (0 < length l)%nat by (destruct l; [done | cbn; lia]).
  pose proof (RandInt_range 0 (Z.of_nat (length l) - 1) h Hh ltac:(lia)) as H1. unfold RandInt, Math_random in H1. cbn [fst] in H1.
  replace (Z.of_nat (length l) - 1 + 1 - 0) with (Z.of_nat (length l)) in H1 by lia. lia.
Qed.

(** One call gives a name that was not given before. *)
Definition gives (names : list JsStr) (base : list Nick) (out : list JsStr) (h : Host)
    (r : (JsError + JsStr) * list Nick * Host) : Prop :=
  exists w base' h', r = (inr w, base', h') /\ same_streams h h' /\ given names base' (out ++ [w]).

Lemma nick_random_gives names base out h :
  no_clash names -> given names base out -> Host_ok h -> names <> [] -> gives names base out h (nick_random base h).
Proof.
  intros Hc Hg Hh Hne. assert (base <> []) as Hb.
  { intros ->. by rewrite <- (g_names _ _ _ Hg) in Hne. }
  destruct (random_place base h Hh Hb) as [nk Hi]. unfold gives, nick_random, Math_random. rewrite Hi.
  set (h' := mkHost _ _ _ _). assert (same_streams h h') as Hs by (unfold same_streams, h'; cbn; auto).
  destruct nk as [s|c s].
  - cbn [Z.eqb]. eexists s, _, h'. split; [done|]. split; [done|].
    by apply (given_first names base out _ s).
  - destruct (g_odd _ _ _ Hg _ _ _ Hi) as (m & -> & Hm). replace (2 * m + 1 =? 0) with false by lia.
    eexists _, _, h'. split; [done|]. split; [done|].
    assert (int_text (2 * m + 1 + 1) = suffix (2 * m + 1 + 1)) as ->.
    { unfold int_text, suffix. by replace (2 * m + 1 + 1 <? 0) with false by lia; replace (2 * m + 1 + 1 =? 0) with false by lia. }
    apply (given_use names base out _ (N_used (2 * m + 1) s)); [done..| |lia|exists (m + 1); lia].
    intros c0 s0 [= <- _]. lia.
Qed.

Lemma first_string_lookup base i s : first_string base = Some (i, s) -> base !! i = Some (N_string s).
Proof.
  revert i. induction base as [|[s'|c s'] base IH]; intros i; cbn; [done | by intros [= <- <-] |].
  destruct (first_string base) as [[j s0]|]; [|done]. intros [= <- <-]. by apply IH.
Qed.

Lemma nick_unique_gives names base out h :
  no_clash names -> given names base out -> Host_ok h -> names <> [] -> gives names base out h (nick_unique base h).
Proof.
  intros Hc Hg Hh Hne. unfold nick_unique. destruct (first_string base) as [[i s]|] eqn:E; [|by apply nick_random_gives].
  apply first_string_lookup in E. exists s, (<[i := N_used 1 s]> base), h. split; [done|]. split; [reflexivity|].
  by apply (given_first names base out i s).
Qed.

(** Some reads of the getters, in any order: the names they give. *)
Fixpoint nick_calls (uniques : list bool) (base : list Nick) (h : Host) : list (JsError + JsStr) :=
  match uniques with
  | [] => []
  | b :: uniques =>
      let '(r, base, h) := if b then nick_unique base h else nick_random base h in
      r :: nick_calls uniques base h
  end.

Lemma nick_calls_given uniques : forall names base out h,
  no_clash names -> given names base out -> Host_ok h -> names <> [] ->
  exists ws, nick_calls uniques base h = inr <$> ws /\ NoDup (out ++ ws).
Proof.
  induction uniques as [|b uniques IH]; intros names base out h Hc Hg Hh Hne; cbn [nick_calls].
  { exists []. split; [done|]. rewrite app_nil_r. by apply (g_nodup _ _ _ Hg). }
  assert (gives names base out h (if b then nick_unique base h else nick_random base h)) as (w & base' & h' & -> & Hs & Hg').
  { destruct b; [by apply nick_unique_gives | by apply nick_random_gives]. }
  destruct (IH names base' (out ++ [w]) h' Hc Hg' (same_streams_ok _ _ Hs Hh) Hne) as (ws & -> & Hd).
  exists (w :: ws). split; [done|]. by rewrite <- app_assoc in Hd.
Qed.

Lemma nick_calls_length uniques base h : length (nick_calls uniques base h) = length uniques.
Proof.
  revert base h. induction uniques as [|b us IH]; intros base h; [done|]. cbn [nick_calls].
  destruct (if b then _ else _) as [[r base'] h']. cbn [length]. by f_equal.
Qed.

(** C33: No nickname is given twice: from a base in which no name is another one
    with digits behind it, every read of [unique] or [random], in any order and for
    any random numbers, gives a name, and all the names given are different. *)
Theorem nicknames_differ (names : list JsStr) (uniques : list bool) (h : Host)
    (Hc : no_clash names) (Hne : names <> []) (Hh : Host_ok h) :
  exists ws, nick_calls uniques (N_string <$> names) h = inr <$> ws /\ length ws = length uniques /\ NoDup ws.
Proof.
  destruct (nick_calls_given uniques names (N_string <$> names) [] h Hc) as (ws & E & Hd); [|done..|].
  - split.
    + rewrite <- list_fmap_compose. by apply list_fmap_id.
    + intros i c s Hi. rewrite list_lookup_fmap in Hi. by destruct (names !! i).
    + by intros w Hw%not_elem_of_nil.
    + apply NoDup_nil_2.
  - exists ws. split; [done|]. split; [|done].
    by rewrite <- (nick_calls_length uniques (N_string <$> names) h), E, length_fmap.
Qed.

Lemma nicknames_differ_witness :
  exists ws, nick_calls [true; false; false; true; false] (N_string <$> [u "Ann"; u "Bob"]) (const_host 0 (1 # 2)) = inr <$> ws /\
    NoDup ws.
Proof.
  destruct (nicknames_differ [u "Ann"; u "Bob"] [true; false; false; true; false] (const_host 0 (1 # 2))) as (ws & E & _ & H).
  - intros [|[|i]] [|[|j]] x e; cbn; try done; intros [= <-] [= E]; done.
  - done.
  - apply const_host_ok. split; [by vm_compute | by vm_compute].
  - exists ws. split; [exact E | exact H].
Defined.

(** A name that is in the base twice is given twice. *)
Lemma duplicate_name :
  nick_calls [true; true] (N_string <$> [u "Fake"; u "Fake"]) (const_host 0 0) = [inr (u "Fake"); inr (u "Fake")].
Proof. by vm_compute. Qed.

(** ** Amounts in short *)

Definition units : list (Z * JsStr) :=
  [ (3, u "K"); (6, u "M"); (9, u "B"); (12, u "T"); (15, u "Q"); (18, u "KQ") ].

(** Dividing by a thousand millions and appending a letter, as long as it takes. *)
Lemma thousands_spec fuel : forall n s, 0 < n -> n < 2 ^ Z.of_nat fuel ->
  exists k, thousands fuel n s = (n / 10 ^ (9 * Z.of_nat k), s ++ concat (replicate k (u "T"))) /\
    1 <= n / 10 ^ (9 * Z.of_nat k) <= 10 ^ 9.
Proof.
  induction fuel as [|fuel IH]; intros n s Hn Hf.
  { change (2 ^ Z.of_nat 0) with 1 in Hf. lia. }
  cbn [thousands]. destruct (1000000000 <? n) eqn:E; zprop.
  - rewrite Z.quot_div_nonneg by lia.
    destruct (IH (n / 1000000000) (s ++ u "T")) as (k & Ek & Hk).
    + apply Z.div_str_pos. lia.
    + apply Z.div_lt_upper_bound; [lia|]. rewrite Nat2Z.inj_succ, Z.pow_succ_r in Hf by lia.
      pose proof (Z.pow_pos_nonneg 2 (Z.of_nat fuel)). lia.
    + exists (S k). rewrite Ek. rewrite Z.div_div in * by lia.
      replace (10 ^ (9 * Z.of_nat (S k))) with (1000000000 * 10 ^ (9 * Z.of_nat k)).
      * split; [|done]. f_equal. cbn [replicate concat]. by rewrite <- app_assoc.
      * change 1000000000 with (10 ^ 9). rewrite <- Z.pow_add_r by lia. f_equal. lia.
  - exists 0%nat. cbn [replicate concat]. change (10 ^ (9 * Z.of_nat 0)) with 1. rewrite Z.div_1_r, app_nil_r.
    split; [done|]. change (10 ^ 9) with 1000000000. lia.
Qed.

Lemma unit_range n e : 0 <= e -> 10 ^ e < n <= 10 ^ (e + 3) -> 1 <= n / 10 ^ e <= 1000.
Proof.
  intros He [H1 H2]. pose proof (Z.pow_pos_nonneg 10 e). rewrite Z.pow_add_r in H2 by lia. split.
  - apply Z.div_le_lower_bound; lia.
  - apply Z.div_le_upper_bound; lia.
Qed.

Lemma units_pos e un : (e, un) ∈ units -> 0 <= e.
Proof. unfold units. rewrite !elem_of_cons, elem_of_nil. intros; naive_solver lia. Qed.

Lemma andb_lt_false a b c : c <= b -> (c <=? a) && (b <? c) = false.
Proof. lia. Qed.
Lemma andb_le_false a b c : a < c -> (c <=? a) && (b <? c) = false.
Proof. lia. Qed.

(** Decides the tests of [toKKKformat] one after the other. *)
Ltac pick_unit :=
  repeat match goal with
  | |- (if ?b then _ else _) = _ => first [ replace b with true by lia | replace b with false by lia ]
  end.

(** Amounts are shortened soundly: below the given bound, and up to a thousand,
    an amount is written out; up to 10^21 it is the number of whole units of its
    size, at most a thousand of them, and the unit; beyond that it is at most
    10^9, cut off, and one T for every division by 10^9. *)
Theorem money_text (n least : Z) (Hn : 0 < n) :
  (n < least \/ n <= 10 ^ 3 -> toKKKformat n least = int_text n) /\
  (least <= n -> forall e un, (e, un) ∈ units -> 10 ^ e < n <= 10 ^ (e + 3) ->
     toKKKformat n least = int_text (n / 10 ^ e) ++ un /\ 1 <= n / 10 ^ e <= 1000) /\
  (least <= n -> 10 ^ 21 < n -> exists k,
     toKKKformat n least = int_text (n / 10 ^ (9 * Z.of_nat k)) ++ concat (replicate k (u "T")) /\
     1 <= n / 10 ^ (9 * Z.of_nat k) <= 10 ^ 9).
Proof.
  split; [|split].
  - intros H. unfold toKKKformat. destruct (least <=? n) eqn:El; [|done]. zprop.
    assert (n <= 10 ^ 3) as Hs by lia. rewrite !andb_lt_false by lia.
    cbn [thousands]. replace (1000000000 <? n) with false by lia. by rewrite app_nil_r.
  - intros Hl e un Hin Hr. assert (1 <= n / 10 ^ e <= 1000) as Hq by (by apply unit_range; [apply (units_pos e un)|]).
    split; [|done]. unfold toKKKformat. replace (least <=? n) with true by lia.
    unfold units in Hin. rewrite !elem_of_cons, elem_of_nil in Hin.
    destruct Hin as [[= -> ->]|[[= -> ->]|[[= -> ->]|[[= -> ->]|[[= -> ->]|[[= -> ->]|[]]]]]]];
      pick_unit; by rewrite Z.quot_div_nonneg by lia.
  - intros Hl Hn'. unfold toKKKformat. replace (least <=? n) with true by lia. rewrite !andb_le_false by lia.
    destruct (thousands_spec (S (Z.to_nat (Z.log2 n))) n [] Hn) as (k & E & Hk).
    { rewrite Nat2Z.inj_succ, Z2Nat.id by apply Z.log2_nonneg. by apply Z.log2_spec. }
    exists k. by rewrite E.
Qed.

Lemma money_text_witness : toKKKformat 123456 1000 = u "123K" /\ toKKKformat 700 1000 = u "700".
Proof.
  destruct (money_text 123456 1000 ltac:(lia)) as (_ & H & _). destruct (money_text 700 1000 ltac:(lia)) as (H0 & _ & _).
  split.
  - destruct (H ltac:(lia) 3 (u "K")) as [E _]; [left | lia |]. exact E.
  - apply H0. lia.
Defined.

(** The letter T means 10^12 below 10^21 and 10^9, once for each T, beyond it. *)
Lemma two_meanings_of_T :
  toKKKformat (10 ^ 15) 1000 = u "1000T" /\ toKKKformat (10 ^ 24) 1000 = u "1000000TT".
Proof. by vm_compute. Qed.
