(* ===== verification/Drops.v ===== *)
(** * The drops

    Models the pool of [class DropAnim] of [scripts/tables/minestileset.js], the set
    [dropAnims] and [DrawDropsAnim] of [scripts/wrenderer.js]: what a drop does is in
    [Anims]; here are the objects, which are used again when they are finished, and
    which keep the place of their bot by reference. *)

From Stdlib Require Import QArith Qround.
From S2P Require Import Prelude Host JsNum JsSet JsText Cargo Anims.

(** ** State *)

(** An object: its motion, its text, its colour by the crystal, and the bot whose
    [visibleposition] it holds. *)
Record Drop := mkDrop { d_motion : DropAnim; d_text : JsStr; d_color : CryKey; d_bot : nat }.

(** The objects by number, the static pool [FinishedAnims], the set [dropAnims]. *)
Record Drops := mkDrops { d_store : list Drop; d_pool : JsSet; dropAnims : JsSet }.
Definition no_drops : Drops := mkDrops [] set_new set_new.

Definition the_drop (s : Drops) (k : Z) : option Drop := at_index (d_store s) k.
Definition set_drop (k : Z) (d : Drop) (s : Drops) : Drops := mkDrops (<[Z.to_nat k := d]> (d_store s)) (d_pool s) (dropAnims s).

(** ** Operations *)

(** [Init(x, y, botVisPosition, cryType, value)]. *)
Definition drop_Init (x y : Z) (bot : nat) (cryType : CryKey) (value : Z) : Drop :=
  mkDrop (new_DropAnim x y) (u "+" ++ int_text value) cryType bot.

(** [DropAnim.GetExemplar(..)]. *)
Definition drop_GetExemplar (x y : Z) (bot : nat) (cryType : CryKey) (value : Z) (s : Drops) : Z * Drops :=
  let d := drop_Init x y bot cryType value in
  match (set_next (d_pool s) set_iter).1 with
  | Some k => (k, set_drop k d (mkDrops (d_store s) (set_delete (d_pool s) k) (dropAnims s)))
  | None => (Z.of_nat (length (d_store s)), mkDrops (d_store s ++ [d]) (d_pool s) (dropAnims s))
  end.

(** [dropAnims.add(DropAnim.GetExemplar(..))], as [Digg] calls it. *)
Definition show_drop (x y : Z) (bot : nat) (cryType : CryKey) (value : Z) (s : Drops) : Drops :=
  let '(k, s) := drop_GetExemplar x y bot cryType value s in mkDrops (d_store s) (d_pool s) (set_add (dropAnims s) k).

(** A text on the canvas: its colour, itself, and where it is. *)
Record TextCall := mkText { t_color : CryKey; t_text : JsStr; t_x : Z; t_y : Z }.

(** The callback of [dropAnims.forEach]; [vis] gives the place where each bot is
    drawn. *)
Definition draw_drop (vis : nat -> V2q) (cam : V2q) (k : Z) (s : Drops) : list TextCall * Drops :=
  match the_drop s k with
  | None => ([], s)
  | Some d =>
      if negb (d_finished (d_motion d)) then
        let dx := ((d_position (d_motion d)).1 - cam.1)%Q in
        let dy := ((d_position (d_motion d)).2 - cam.2)%Q in
        let m := drop_Update (vis (d_bot d)) (d_motion d) in
        let s := set_drop k (mkDrop m (d_text d) (d_color d) (d_bot d)) s in
        let s := if d_finished m then mkDrops (d_store s) (set_add (d_pool s) k) (dropAnims s) else s in
        ([mkText (d_color d) (d_text d) (Qfloor (dx * 16 + (85 # 10))) (Qfloor (dy * 16 + (85 # 10)))], s)
      else ([], mkDrops (d_store s) (d_pool s) (set_delete (dropAnims s) k))
  end.

Fixpoint draw_drops (vis : nat -> V2q) (cam : V2q) (ks : list Z) (s : Drops) : list TextCall * Drops :=
  match ks with
  | [] => ([], s)
  | k :: ks =>
      let '(c, s) := draw_drop vis cam k s in
      let '(cs, s) := draw_drops vis cam ks s in (c ++ cs, s)
  end.

(** [DrawDropsAnim()]; the callback only deletes the value it is called with. *)
Definition DrawDropsAnim (vis : nat -> V2q) (cam : V2q) (s : Drops) : list TextCall * Drops :=
  draw_drops vis cam (omap id (dropAnims s)) s.

(** ** The pool *)

Definition finished (s : Drops) (k : Z) : bool := match the_drop s k with Some d => d_finished (d_motion d) | None => false end.

(** An object is in the pool if and only if it is finished; one that runs is shown. *)
Record drops_ok (s : Drops) : Prop := {
  do_range : forall k, member k (d_pool s) \/ member k (dropAnims s) -> 0 <= k < Z.of_nat (length (d_store s));
  do_pool : forall k, member k (d_pool s) <-> finished s k = true;
  do_shown : forall k, 0 <= k < Z.of_nat (length (d_store s)) -> finished s k = false -> member k (dropAnims s);
  do_way : Forall (λ d, on_the_way (d_motion d)) (d_store s);
  do_wf : set_wf (dropAnims s) }.

Lemma the_drop_Some s k d : the_drop s k = Some d -> 0 <= k < Z.of_nat (length (d_store s)) /\ d_store s !! Z.to_nat k = Some d.
Proof.
  unfold the_drop, at_index. destruct (0 <=? k) eqn:E; [|done]. intros H. split; [|done]. apply lookup_lt_Some in H. lia.
Qed.

Lemma the_drop_range s k : 0 <= k < Z.of_nat (length (d_store s)) -> exists d, the_drop s k = Some d.
Proof. apply at_index_Some. Qed.

Lemma the_drop_set s k d j : 0 <= k < Z.of_nat (length (d_store s)) ->
  the_drop (set_drop k d s) j = if decide (j = k) then Some d else the_drop s j.
Proof.
  intros Hk. unfold the_drop, at_index, set_drop. cbn [d_store]. destruct (decide (j = k)) as [->|Hne].
  - replace (0 <=? k) with true by lia. apply list_lookup_insert_eq. lia.
  - destruct (0 <=? j) eqn:E; [|done]. apply list_lookup_insert_ne. lia.
Qed.

(** What one call of the callback does. *)
Definition moved (vis : nat -> V2q) (d : Drop) : Drop :=
  if d_finished (d_motion d) then d else mkDrop (drop_Update (vis (d_bot d)) (d_motion d)) (d_text d) (d_color d) (d_bot d).

Record drop_drawn (vis : nat -> V2q) (k : Z) (s s' : Drops) : Prop := {
  dd_ok : drops_ok s';
  dd_length : length (d_store s') = length (d_store s);
  dd_drop : forall j, the_drop s' j = if decide (j = k) then moved vis <$> the_drop s j else the_drop s j;
  dd_shown : forall j, member j (dropAnims s') <-> member j (dropAnims s) /\ (j = k -> finished s j = false) }.

Lemma draw_drop_ok vis cam k s : drops_ok s -> 0 <= k < Z.of_nat (length (d_store s)) ->
  drop_drawn vis k s (draw_drop vis cam k s).2.
Proof.
  intros [K1 K2 K3 K4 K5] Hk. destruct (the_drop_range s k Hk) as [d Ed]. unfold draw_drop. rewrite Ed.
  assert (finished s k = d_finished (d_motion d)) as Ef by (unfold finished; by rewrite Ed).
  destruct (d_finished (d_motion d)) eqn:Efd; cbn [negb snd].
  - assert (forall j, the_drop (mkDrops (d_store s) (d_pool s) (set_delete (dropAnims s) k)) j = the_drop s j) as Et by done.
    split; [split; cbn [d_store d_pool dropAnims]| done | |].
    + intros j [Hj|Hj]; [by apply K1; left|]. apply K1. right. by apply member_delete in Hj as [_ Hj].
    + exact K2.
    + intros j Hj Hf. apply member_delete. split; [|by apply K3]. intros ->. change (finished s k = false) in Hf. congruence.
    + done.
    + by apply set_wf_delete.
    + intros j. rewrite Et. case_decide as Ej; [|done]. subst j. rewrite Ed. cbn. unfold moved. by rewrite Efd.
    + intros j. cbn [dropAnims]. rewrite member_delete. destruct (decide (j = k)) as [->|Hne]; [|naive_solver].
      rewrite Ef. naive_solver.
  - set (m := drop_Update _ _). set (d' := mkDrop m _ _ _).
    set (s' := if d_finished m then _ else _).
    assert (d_store s' = d_store (set_drop k d' s) /\ dropAnims s' = dropAnims s) as [Est Esh] by (unfold s'; by destruct (d_finished m)).
    assert (forall j, the_drop s' j = if decide (j = k) then Some d' else the_drop s j) as Et.
    { intros j. unfold the_drop at 1. rewrite Est. by apply the_drop_set. }
    assert (forall j, finished s' j = if decide (j = k) then d_finished m else finished s j) as Ef'.
    { intros j. unfold finished at 1. rewrite Et. by case_decide. }
    assert (forall j, member j (d_pool s') <-> (j = k /\ d_finished m = true) \/ member j (d_pool s)) as Ep.
    { intros j. unfold s'. destruct (d_finished m); cbn [d_pool set_drop]; [rewrite member_add|]; naive_solver. }
    assert (length (d_store s') = length (d_store s)) as El by (rewrite Est; cbn; apply length_insert).
    split; [split| done | |].
    + intros j. rewrite El, Ep, Esh. intros [[[-> _]|Hj]|Hj]; [done | by apply K1; left | by apply K1; right].
    + intros j. rewrite Ep, Ef', K2. case_decide as Ej; [subst j; rewrite Ef; naive_solver | naive_solver].
    + intros j. rewrite El, Ef', Esh. case_decide as Ej; [subst j|by apply K3]. intros _ _. by apply K3.
    + rewrite Est. cbn. apply Forall_insert; [done|]. cbn. apply drop_Update_on_the_way.
      apply the_drop_Some in Ed as [_ Ed]. apply (Forall_lookup_1 _ _ _ _ K4 Ed).
    + by rewrite Esh.
    + intros j. rewrite Et. case_decide as Ej; [|done]. subst j. rewrite Ed. cbn. unfold moved. by rewrite Efd.
    + intros j. rewrite Esh. split; [|by intros [? _]]. intros Hj. split; [done|]. by intros ->.
Qed.

Lemma draw_drops_ok vis cam ks : forall s, drops_ok s -> NoDup ks -> (forall k, k ∈ ks -> 0 <= k < Z.of_nat (length (d_store s))) ->
  let s' := (draw_drops vis cam ks s).2 in
  drops_ok s' /\ length (d_store s') = length (d_store s) /\
  (forall j, the_drop s' j = if decide (j ∈ ks) then moved vis <$> the_drop s j else the_drop s j) /\
  (forall j, member j (dropAnims s') <-> member j (dropAnims s) /\ (j ∈ ks -> finished s j = false)).
Proof.
  induction ks as [|k ks IH]; intros s Hok Hd Hr; cbn [draw_drops].
  { cbn. split_and!; [done|done|done|]. intros j. rewrite elem_of_nil. naive_solver. }
  apply list.NoDup_cons in Hd as [Hn Hd].
  destruct (draw_drop_ok vis cam k s Hok ltac:(apply Hr; by left)) as [D1 D2 D3 D4].
  destruct (draw_drop vis cam k s) as [c s1]. cbn [snd] in *.
  destruct (IH s1 D1 Hd) as (E1 & E2 & E3 & E4); [intros j Hj; rewrite D2; apply Hr; by right|].
  destruct (draw_drops vis cam ks s1) as [cs s2]. cbn [snd] in *. cbv zeta. split_and!; [done | congruence | |].
  - intros j. rewrite E3, D3. destruct (decide (j = k)) as [->|Hne].
    + rewrite decide_False by done. by rewrite decide_True by (by left).
    + destruct (decide (j ∈ ks)); [by rewrite decide_True by (by right)|]. rewrite decide_False; [done|].
      by intros [?|?]%elem_of_cons.
  - intros j. rewrite E4, D4, elem_of_cons. unfold finished. rewrite D3. destruct (decide (j = k)) as [->|Hne]; naive_solver.
Qed.

Lemma values_nodup l : set_wf l -> NoDup (omap id l).
Proof.
  induction l as [|[v|] l IH]; intros Hw; cbn; [apply NoDup_nil_2| |].
  - apply list.NoDup_cons. split.
    + rewrite elem_of_values. intros Hv. unfold member in Hv. apply list_elem_of_lookup in Hv as [i Hi]. by pose proof (Hw 0%nat (S i) v eq_refl Hi).
    + apply IH. intros i j w Hi Hj. pose proof (Hw (S i) (S j) w Hi Hj). lia.
  - apply IH. intros i j w Hi Hj. pose proof (Hw (S i) (S j) w Hi Hj). lia.
Qed.

(** A frame: every running drop moves once, what had finished leaves the screen. *)
Lemma DrawDropsAnim_ok vis cam s : drops_ok s ->
  let s' := (DrawDropsAnim vis cam s).2 in
  drops_ok s' /\ length (d_store s') = length (d_store s) /\ (forall j, the_drop s' j = moved vis <$> the_drop s j) /\
  (forall j, member j (dropAnims s') <-> member j (dropAnims s) /\ finished s j = false).
Proof.
  intros Hok. unfold DrawDropsAnim.
  destruct (draw_drops_ok vis cam (omap id (dropAnims s)) s Hok) as (E1 & E2 & E3 & E4).
  - apply values_nodup, Hok.
  - intros k Hk%elem_of_values. apply (do_range s Hok). by right.
  - cbv zeta in *. split_and!; [done|done| |].
    + intros j. rewrite E3. destruct (decide _) as [|Hn]; [done|]. destruct (the_drop s j) as [d|] eqn:Ed; [|done]. cbn.
      unfold moved. destruct (d_finished (d_motion d)) eqn:Ef; [done|]. destruct Hn. apply elem_of_values, (do_shown s Hok).
      * by apply the_drop_Some in Ed as [? _].
      * unfold finished. by rewrite Ed.
    + intros j. rewrite E4, elem_of_values. naive_solver.
Qed.

(** ** Showing a drop *)

Lemma drop_GetExemplar_ok x y bot c v s : drops_ok s ->
  let '(k, s1) := drop_GetExemplar x y bot c v s in
  let s2 := show_drop x y bot c v s in
  drops_ok s2 /\ the_drop s2 k = Some (drop_Init x y bot c v) /\ member k (dropAnims s2) /\
  (finished s k = true \/ the_drop s k = None) /\
  (forall j, j <> k -> the_drop s2 j = the_drop s j /\ (member j (dropAnims s2) <-> member j (dropAnims s))).
Proof.
  intros [K1 K2 K3 K4 K5]. unfold show_drop, drop_GetExemplar. set (d := drop_Init x y bot c v).
  destruct (set_next (d_pool s) set_iter) as [[k|] it] eqn:En; cbn [fst].
  - assert (member k (d_pool s)) as Hk by (apply set_has_iff; by eapply set_next_has).
    assert (0 <= k < Z.of_nat (length (d_store s))) as Hr by (apply K1; by left).
    pose proof (the_drop_set s k d) as Et. unfold the_drop in Et. cbn [set_drop d_store] in Et.
    assert (forall j, finished (mkDrops (<[Z.to_nat k:=d]> (d_store s)) (set_delete (d_pool s) k) (set_add (dropAnims s) k)) j =
      if decide (j = k) then false else finished s j) as Ef.
    { intros j. unfold finished, the_drop. cbn [d_store]. rewrite Et by done. by case_decide. }
    cbn [set_drop d_store d_pool dropAnims]. split_and!.
    + split; cbn [d_store d_pool dropAnims].
      * intros j. rewrite length_insert, member_add, member_delete. intros [[_ Hj]|[->|Hj]]; [apply K1; by left | done | apply K1; by right].
      * intros j. rewrite Ef, member_delete, K2. case_decide; naive_solver.
      * intros j. rewrite length_insert, Ef, member_add. case_decide; [by left|]. intros. right. by apply K3.
      * apply Forall_insert; [done | apply new_DropAnim_on_the_way].
      * by apply set_wf_add.
    + unfold the_drop. cbn [d_store]. rewrite Et by done. by rewrite decide_True.
    + apply member_add. by left.
    + left. by apply K2.
    + intros j Hne. split; [unfold the_drop at 1; cbn [d_store]; rewrite Et by done; by rewrite decide_False|].
      cbn [dropAnims]. rewrite member_add. naive_solver.
  - assert (forall j, ~ member j (d_pool s)) as Hnone.
    { intros j Hj. destruct (set_next_fresh (d_pool s) j) as (w & it' & E); [by apply set_has_iff|]. congruence. }
    set (k := Z.of_nat (length (d_store s))).
    assert (forall j, at_index (d_store s ++ [d]) j = if decide (j = k) then Some d else the_drop s j) as Et.
    { intros j. unfold the_drop, at_index. case_decide as Ej; [subst j|].
      - replace (0 <=? k) with true by lia. unfold k. rewrite Nat2Z.id. by rewrite lookup_app_r, Nat.sub_diag by lia.
      - destruct (0 <=? j) eqn:E0; [|done]. destruct (decide (j < k)).
        + rewrite lookup_app_l; [done | unfold k in *; lia].
        + rewrite !lookup_ge_None_2; [done | unfold k in *; lia | rewrite length_app; cbn; unfold k in *; lia]. }
    assert (forall j, finished (mkDrops (d_store s ++ [d]) (d_pool s) (set_add (dropAnims s) k)) j =
      if decide (j = k) then false else finished s j) as Ef.
    { intros j. unfold finished, the_drop. cbn [d_store]. rewrite Et. by case_decide. }
    assert (the_drop s k = None) as Hkn.
    { unfold the_drop, at_index. replace (0 <=? k) with true by lia. apply lookup_ge_None_2. unfold k. lia. }
    cbn [d_store d_pool dropAnims]. split_and!.
    + split; cbn [d_store d_pool dropAnims].
      * intros j. rewrite length_app, member_add. cbn. intros [Hj|[->|Hj]]; [by destruct (Hnone j) | unfold k; lia |].
        pose proof (K1 j ltac:(by right)). lia.
      * intros j. rewrite Ef, K2. case_decide as Ej; [subst j|done]. unfold finished. rewrite Hkn. done.
      * intros j. rewrite length_app, Ef, member_add. cbn. case_decide; [by left|]. intros Hj Hf. right. apply K3; [unfold k in *; lia | done].
      * apply Forall_app. split; [done|]. constructor; [apply new_DropAnim_on_the_way | constructor].
      * by apply set_wf_add.
    + unfold the_drop. cbn [d_store]. rewrite Et. by rewrite decide_True.
    + apply member_add. by left.
    + by right.
    + intros j Hne. split; [unfold the_drop at 1; cbn [d_store]; rewrite Et; by rewrite decide_False|].
      cbn [dropAnims]. rewrite member_add. naive_solver.
Qed.

Lemma no_drops_ok : drops_ok no_drops.
Proof.
  split.
  - intros k [H|H]; by apply not_elem_of_nil in H.
  - intros k. split; [by intros H%not_elem_of_nil|]. unfold finished, the_drop, at_index. by destruct (0 <=? k).
  - intros k Hk. cbn in Hk. lia.
  - constructor.
  - intros i j v Hi. done.
Qed.

(** ** Runs *)

(** A drop that is shown, or a frame, in which the bots are drawn somewhere. *)
Inductive DropEvent :=
  | DE_show (x y : Z) (bot : nat) (cryType : CryKey) (value : Z)
  | DE_frame (vis : nat -> V2q) (cam : V2q).

Definition drop_event (e : DropEvent) (s : Drops) : Drops :=
  match e with
  | DE_show x y bot c v => show_drop x y bot c v s
  | DE_frame vis cam => (DrawDropsAnim vis cam s).2
  end.

Lemma drop_events_ok es s : drops_ok s -> drops_ok (foldl (λ s e, drop_event e s) s es).
Proof.
  revert s. induction es as [|e es IH]; intros s Hs; [done|]. apply IH. destruct e; cbn [drop_event].
  - pose proof (drop_GetExemplar_ok x y bot cryType value s Hs) as H.
    by destruct (drop_GetExemplar x y bot cryType value s) as [k s1], H as [H _].
  - by destruct (DrawDropsAnim_ok vis cam s Hs) as [H _].
Qed.

(** C30: No drop is taken away while it runs, unlike the other animations: after any
    drops and frames the next drop uses a finished object or a new one, the new drop
    is on the screen, and every other drop stays what and where it was - so those
    that run stay on the screen until they are finished. *)
Theorem drops_not_recycled (es : list DropEvent) (x y : Z) (bot : nat) (c : CryKey) (v : Z) :
  let s := foldl (λ s e, drop_event e s) no_drops es in
  let s' := show_drop x y bot c v s in
  exists k, (finished s k = true \/ the_drop s k = None) /\
    the_drop s' k = Some (drop_Init x y bot c v) /\ member k (dropAnims s') /\
    (forall j, j <> k -> the_drop s' j = the_drop s j) /\
    (forall j d, the_drop s j = Some d -> d_finished (d_motion d) = false -> j <> k /\ member j (dropAnims s) /\ member j (dropAnims s')).
Proof.
  cbv zeta. set (s := foldl _ _ _). pose proof (drop_events_ok es no_drops no_drops_ok) as Hs. fold s in Hs. clearbody s.
  pose proof (drop_GetExemplar_ok x y bot c v s Hs) as H. destruct (drop_GetExemplar x y bot c v s) as [k s1].
  destruct H as (_ & H1 & H2 & H3 & H4). exists k. split_and!; [done|done|done| |].
  - intros j Hne. by apply H4.
  - intros j d Hj Hf. assert (finished s j = false) as Hfj by (unfold finished; by rewrite Hj).
    assert (j <> k) as Hne by (intros ->; destruct H3; congruence).
    assert (member j (dropAnims s)) as Hm by (apply (do_shown s Hs); [by apply the_drop_Some in Hj as [? _] | done]).
    split_and!; [done|done|]. by apply H4.
Qed.

(** Some frames with the bots in their places. *)
Fixpoint drop_frames (n : nat) (vis : nat -> V2q) (cam : nat -> V2q) (s : Drops) : Drops :=
  match n with O => s | S n => (DrawDropsAnim vis (cam n) (drop_frames n vis cam s)).2 end.

Lemma drop_frames_spec n vis cam s : drops_ok s ->
  drops_ok (drop_frames n vis cam s) /\
  (forall j, the_drop (drop_frames n vis cam s) j = Nat.iter n (moved vis) <$> the_drop s j) /\
  (forall j, member j (dropAnims (drop_frames (S n) vis cam s)) -> finished (drop_frames n vis cam s) j = false /\ 0 <= j < Z.of_nat (length (d_store s))).
Proof.
  intros Hs. assert (drops_ok (drop_frames n vis cam s) /\ length (d_store (drop_frames n vis cam s)) = length (d_store s) /\
    forall j, the_drop (drop_frames n vis cam s) j = Nat.iter n (moved vis) <$> the_drop s j) as (H1 & H2 & H3).
  { induction n as [|n (I1 & I2 & I3)].
    - split_and!; [done|done|]. intros j. cbn. by destruct (the_drop s j).
    - cbn [drop_frames]. destruct (DrawDropsAnim_ok vis (cam n) _ I1) as (D1 & D2 & D3 & _).
      cbv zeta in *. split_and!; [done | congruence|]. intros j. rewrite D3, I3. by destruct (the_drop s j). }
  split_and!; [done|done|]. intros j Hj. cbn [drop_frames] in Hj.
  destruct (DrawDropsAnim_ok vis (cam n) _ H1) as (_ & _ & _ & D4). apply D4 in Hj as [Hj Hf]. split; [exact Hf|].
  rewrite <- H2. apply (do_range _ H1). by right.
Qed.

Lemma moved_iter vis d n : d_finished (d_motion (Nat.iter n (moved vis) d)) = false ->
  d_motion (Nat.iter n (moved vis) d) = Nat.iter n (drop_Update (vis (d_bot d))) (d_motion d) /\
  d_bot (Nat.iter n (moved vis) d) = d_bot d /\
  forall m, (m <= n)%nat -> d_finished (Nat.iter m (drop_Update (vis (d_bot d))) (d_motion d)) = false.
Proof.
  induction n as [|n IH]; intros Hf.
  - split_and!; [done|done|]. intros m Hm. by replace m with 0%nat by lia.
  - rewrite Nat.iter_succ in *. set (d1 := Nat.iter n (moved vis) d) in *.
    assert (d_finished (d_motion d1) = false) as Hf1.
    { destruct (d_finished (d_motion d1)) eqn:E; [|done]. unfold moved in Hf. by rewrite E, E in Hf. }
    destruct (IH Hf1) as (E1 & E2 & E3). unfold moved in *. rewrite Hf1 in *. cbn [d_motion d_bot] in *.
    rewrite E1, E2 in *. split_and!; [done|done|]. intros m Hm. destruct (decide (m = S n)) as [->|]; [by rewrite Nat.iter_succ | apply E3; lia].
Qed.

Lemma vanish_after n vis cam s : drops_ok s ->
  (forall e d, on_the_way d -> exists m, (m <= n)%nat /\ d_finished (Nat.iter m (drop_Update e) d) = true) ->
  let s' := drop_frames (S n) vis cam s in
  (forall k, ~ member k (dropAnims s')) /\ (forall k d, the_drop s' k = Some d -> member k (d_pool s')).
Proof.
  intros Hs Hends. cbv zeta. destruct (drop_frames_spec n vis cam s Hs) as (Hs1 & E1 & M2).
  destruct (drop_frames_spec (S n) vis cam s Hs) as (Hs2 & _ & _).
  assert (forall k, ~ member k (dropAnims (drop_frames (S n) vis cam s))) as Hnone.
  { intros k Hk. destruct (M2 k Hk) as [Hf Hr]. destruct (the_drop_range s k Hr) as [d Ed].
    unfold finished in Hf. rewrite E1, Ed in Hf. cbn [fmap option_fmap option_map] in Hf.
    destruct (moved_iter vis d n Hf) as (_ & _ & Hm).
    assert (on_the_way (d_motion d)) as Hw.
    { apply the_drop_Some in Ed as [_ Ed]. apply (Forall_lookup_1 _ _ _ _ (do_way s Hs) Ed). }
    destruct (Hends (vis (d_bot d)) (d_motion d) Hw) as (m & Hm' & E). by rewrite (Hm m Hm') in E. }
  split; [exact Hnone|]. intros k d Hd. apply (do_pool _ Hs2). destruct (finished (drop_frames (S n) vis cam s) k) eqn:E; [done|].
  destruct (Hnone k). apply (do_shown _ Hs2); [by apply the_drop_Some in Hd as [? _] | done].
Qed.

(** C31: The screen gets clear of drops: whatever drops there are after any drops and
    frames, once no more are made and the bots are drawn where they are - the camera may move -,
    after twenty frames none is on the screen, and all their objects are in the pool. *)
Theorem drops_vanish (es : list DropEvent) (vis : nat -> V2q) (cam : nat -> V2q) :
  let s := foldl (λ s e, drop_event e s) no_drops es in
  let s' := drop_frames 20 vis cam s in
  (forall k, ~ member k (dropAnims s')) /\ (forall k d, the_drop s' k = Some d -> member k (d_pool s')).
Proof. apply (vanish_after 19); [apply drop_events_ok, no_drops_ok | intros e d; apply drop_ends]. Qed.
