(* ===== verification/Start.v ===== *)
(** * The start of the page

    Models what [scripts/main.js] does before the first event, with the
    constructors of [scripts/bot.js] it calls: the world is loaded and cleared,
    blocks are scattered, 51 bots get a name and a place.  The stored world and
    the base of the names are arguments. *)

From Stdlib Require Import QArith Qround Lqa.
From S2P Require Import Prelude Host JsNum JsSet JsText Blocks PacksContainer WMap MapCodec Vec Cargo Machine BotOps BotFacts Programmator ProgFacts ProgSafety World WorldFacts WorldProps Names.

#[local] Open Scope world_scope.

(** ** A new bot *)

(** [new BotSkillEffects(bot)]: the speed is random. *)
Definition new_BotSkillEffects (h : Host) : BotStats * Host :=
  let '(r, h) := Math_random h in (mkBotStats 500 500 (20 + r * 20) (34 # 10), h).

(** [new ProgramCondition(bot)] reads the clock. *)
Definition start_condition (h : Host) : ProgramCondition * Host :=
  let '(t, h) := performance_now h in (new_ProgramCondition (wrap32 (Qtrunc t)), h).

(** [new Bot(pos, skin, nick, renderer)]; the style of the tail is drawn and left
    out, as the skin is. *)
Definition new_Bot (id : Z) (pos : Vector2d) (h : Host) : Bot * Host :=
  let '(_, h) := RandInt 0 10 h in
  let '(stats, h) := new_BotSkillEffects h in
  let '(items, h) := GenerateRandomItems 20 500000 new_BotItemInventory h in
  let '(cond, h) := start_condition h in
  (mkBot id None pos pos 0 0 0 stats (new_BotCargo BotCargoStats) items new_BotMode false 0 cond, h).

(** ** The world *)

(** [RandInt(0, 1) ? (!RandInt(0, 5)) ? 116 : RandInt(50, 55) : Block.rock_hypno]. *)
Definition scatter_id (h : Host) : Z * Host :=
  let '(a, h) := RandInt 0 1 h in
  if negb (a =? 0) then
    let '(b, h) := RandInt 0 5 h in
    if b =? 0 then (116, h) else RandInt 50 55 h
  else (Block B_rock_hypno, h).

(** One of the hundred blocks that are scattered. *)
Definition scatter (st : WorldMap * Host) : WorldMap * Host :=
  let '(m, h) := st in
  let '(x, h) := RandInt 0 100 h in
  let '(y, h) := RandInt 0 100 h in
  let '(id, h) := scatter_id h in
  (SetTileWithCoords x y id 0 m, h).

(** The lines from [new WorldMap(2, 2)] to the scattered blocks. *)
Definition start_map (wrld : WorldData) (h : Host) : WorldMap * Host :=
  let m := new_WorldMap 2 2 in
  let '(m, h) := LoadWorld wrld m h in
  let m := ClearRect 0 0 2000 20 m in
  let m := ClearRect 1000 0 10 1000 m in
  let m := ClearRect 200 0 10 1000 m in
  let m := ClearRect 0 0 100 100 m in
  Nat.iter 100 scatter (m, h).

(** ** The bots *)

Definition goodcoords (m : WorldMap) (x y : Z) : bool := 0 <=? hardness (stats (GetIDByCoord m x y)).

(** [while (!goodcoords)]: [None] when the fuel runs out. *)
Fixpoint find_place (fuel : nat) (m : WorldMap) (h : Host) : option (Z * Z * Host) :=
  match fuel with
  | O => None
  | S fuel =>
      let '(x, h) := RandInt 0 (width m) h in
      let '(y, h) := RandInt 0 (height m) h in
      if goodcoords m x y then Some (x, y, h) else find_place fuel m h
  end.

(** The loop of the other bots: each looks for a place and gets a unique name and a
    direction; an error of the getter ends the loop. *)
Fixpoint spawn (n : nat) (fuel : nat) (m : WorldMap) (id : Z) (base : list Nick) (h : Host) :
    option (JsError + list (Bot * JsStr) * Host) :=
  match n with
  | O => Some (inr ([], h))
  | S n =>
      match find_place fuel m h with
      | None => None
      | Some (x, y, h) =>
          match nick_unique base h with
          | (inl e, _, _) => Some (inl e)
          | (inr nick, base, h) =>
              let '(b, h) := new_Bot id (mkV2 x y) h in
              let '(r, h) := RandInt 0 3 h in
              let '(_, h) := RandInt 0 4 h in
              match spawn n fuel m (id + 1) base h with
              | Some (inr (bots, h)) => Some (inr ((b_rotation (r * 90) b, nick) :: bots, h))
              | failed => failed
              end
          end
      end
  end.

(** The page with a renderer, before there are bots. *)
Definition empty_page (m : WorldMap) (h : Host) : World :=
  mkWorld h m true (Some 10%Q) [] None new_KeyFlags false false false set_iter [].

(** [main.js]: the page when its first event comes, and the names of its bots;
    [None] when the fuel runs out. *)
Definition start (fuel : nat) (wrld : WorldData) (names : list JsStr) (h : Host) :
    option (JsError + World * list JsStr) :=
  let '(m, h) := start_map wrld h in
  (* new WRenderer(..) draws a first frame *)
  let w := (World.Update (λ _, false) (empty_page m h)).2 in
  match nick_random (N_string <$> names) (w_host w) with
  | (inl e, _, _) => Some (inl e)
  | (inr nick, base, h) =>
      let '(b, h) := new_Bot 1 (mkV2 50 50) h in
      match spawn 50 fuel (w_map w) 2 base h with
      | None => None
      | Some (inl e) => Some (inl e)
      | Some (inr (bots, h)) =>
          (* ProgTicker() *)
          Some (inr (w_set_ticking true (w_set_Bots (b :: bots.*1) (w_set_host h w)), nick :: bots.*2))
      end
  end.

(** ** What the parts draw from the host *)

Lemma GenerateRandomItems_streams n c inv h : same_streams h (GenerateRandomItems n c inv h).2.
Proof.
  unfold GenerateRandomItems. apply (Nat.iter_invariant _ _ _ (λ st, same_streams h st.2)); [|done].
  intros [inv' h'] H. cbn [snd] in H. pose proof (RandInt_streams 0 50 h') as H1.
  destruct (RandInt 0 50 h') as [code h1]. pose proof (RandInt_streams 0 c h1) as H2.
  destruct (RandInt 0 c h1) as [count h2]. cbn [snd] in *. etransitivity; [exact H|]. by etransitivity.
Qed.

(** The items that can be had are 0 to 50. *)
Definition in_panel (inv : BotItemInventory) : Prop := map_Forall (λ code _, 0 <= code <= 50) inv.

Lemma GenerateRandomItems_codes n c inv h : Host_ok h -> in_panel inv -> in_panel (GenerateRandomItems n c inv h).1.
Proof.
  intros Hh Hi. unfold GenerateRandomItems. apply (Nat.iter_invariant _ _ _ (λ st, Host_ok st.2 /\ in_panel st.1)); [|done].
  intros [inv' h'] [Hh' Hi']. cbn [fst snd] in *. pose proof (RandInt_range 0 50 h' Hh' ltac:(lia)) as R.
  pose proof (same_streams_ok _ _ (RandInt_streams 0 50 h') Hh') as H1. destruct (RandInt 0 50 h') as [code h1].
  pose proof (same_streams_ok _ _ (RandInt_streams 0 c h1) H1) as H2. destruct (RandInt 0 c h1) as [count h2]. cbn [fst snd] in *.
  split; [exact H2|]. by apply map_Forall_insert_2.
Qed.

(** A bot as it is made: nothing has run on it yet. *)
Record fresh (b : Bot) : Prop := {
  fr_fine : fine (programCondition b);
  fr_panel : in_panel (inventory b);
  fr_program : exists t, programCondition b = new_ProgramCondition t;
  fr_cooldown : cooldown b = 0%Q }.

(** A new bot is in order, wherever it is put. *)
Lemma new_Bot_ok id p h : Host_ok h ->
  let r := new_Bot id p h in
  bot_ok r.1 /\ fresh r.1 /\ position r.1 = p /\ same_streams h r.2 /\ bot_id r.1 = id.
Proof.
  intros Hh. unfold new_Bot. pose proof (RandInt_streams 0 10 h) as H1. destruct (RandInt 0 10 h) as [s h1]. cbn [snd] in H1.
  unfold new_BotSkillEffects, Math_random. set (h2 := mkHost _ _ _ (S _)).
  assert (same_streams h1 h2) as H2 by (unfold same_streams, h2; cbn; auto).
  pose proof (GenerateRandomItems_streams 20 500000 new_BotItemInventory h2) as H3.
  pose proof (GenerateRandomItems_codes 20 500000 new_BotItemInventory h2 (same_streams_ok _ _ H2 (same_streams_ok _ _ H1 Hh))
    (map_Forall_empty _)) as Hi.
  destruct (GenerateRandomItems 20 500000 new_BotItemInventory h2) as [items h3]. cbn [snd] in H3.
  unfold start_condition. pose proof (performance_now_streams h3) as H4. destruct (performance_now h3) as [t h4].
  cbn [fst snd] in *. split_and!.
  - destruct (random_range _ (same_streams_ok _ _ H1 Hh) (nrandom h1)) as [R0 _].
    split; [apply new_cargo_wf | by apply Forall_replicate; auto with mines | by left | done | | done].
    cbn [bot_stats moveSpeed]. lra.
  - split; [apply fine_new | exact Hi | by eexists | done].
  - done.
  - etransitivity; [exact H1|]. etransitivity; [exact H2|]. by etransitivity.
  - done.
Qed.

(** ** The map at the start *)

Lemma ClearRect_shape xs ys w h m : same_shape m (ClearRect xs ys w h m).
Proof.
  unfold ClearRect. apply foldl_invariant; [done|]. intros m1 y _ H1.
  apply foldl_invariant; [done|]. intros m2 x _ H2. etransitivity; [exact H2 | apply ClearTile_shape].
Qed.

Lemma scatter_id_ok h : Host_ok h -> is_byte (scatter_id h).1 /\ same_streams h (scatter_id h).2.
Proof.
  intros Hh. unfold scatter_id. pose proof (RandInt_streams 0 1 h) as H1. destruct (RandInt 0 1 h) as [a h1]. cbn [snd] in H1.
  pose proof (same_streams_ok _ _ H1 Hh) as Hh1. destruct (negb (a =? 0)); [|split; [apply Block_byte | done]].
  pose proof (RandInt_streams 0 5 h1) as H2. destruct (RandInt 0 5 h1) as [b h2]. cbn [snd] in H2.
  destruct (b =? 0); cbn [fst snd].
  - split; [unfold is_byte; lia | by etransitivity].
  - pose proof (RandInt_range 50 55 h2 (same_streams_ok _ _ H2 Hh1)) as R. split; [unfold is_byte; lia|].
    etransitivity; [exact H1|]. etransitivity; [exact H2 | apply RandInt_streams].
Qed.

Lemma Resyze_size w h m : width (Resyze w h m) = w /\ height (Resyze w h m) = h.
Proof.
  unfold Resyze, Fill. apply foldl_invariant; [done|]. intros m' i _ [H1 H2]. by case_match.
Qed.

(** What the start keeps of the map and the host. *)
Definition in_order (m0 : WorldMap) (h0 : Host) (st : WorldMap * Host) : Prop :=
  wf st.1 /\ same_shape m0 st.1 /\ same_streams h0 st.2.

Lemma scatter_ok m0 h0 st : Host_ok h0 -> in_order m0 h0 st -> in_order m0 h0 (scatter st).
Proof.
  destruct st as [m h]. intros Hh (Hm & Hs & Hr). unfold scatter. cbn [fst snd] in *.
  pose proof (RandInt_streams 0 100 h) as H1. destruct (RandInt 0 100 h) as [x h1]. cbn [snd] in H1.
  pose proof (RandInt_streams 0 100 h1) as H2. destruct (RandInt 0 100 h1) as [y h2]. cbn [snd] in H2.
  assert (same_streams h0 h2) as H3 by (etransitivity; [exact Hr|]; by etransitivity).
  destruct (scatter_id_ok h2 (same_streams_ok _ _ H3 Hh)) as [Hb H4]. destruct (scatter_id h2) as [id h3]. cbn [fst snd] in *.
  split_and!; [by apply wf_SetTileWithCoords | | by etransitivity].
  etransitivity; [exact Hs | apply SetTileWithCoords_shape].
Qed.

Lemma start_map_ok wrld h : 0 <= wd_width wrld -> 0 <= wd_height wrld -> Host_ok h ->
  in_order (Resyze (wd_width wrld) (wd_height wrld) (new_WorldMap 2 2)) h (start_map wrld h).
Proof.
  intros Hw Hk Hh. unfold start_map. destruct (LoadWorld_shape wrld (new_WorldMap 2 2) h) as [H1 H2].
  pose proof (wf_LoadWorld wrld (new_WorldMap 2 2) h Hw Hk) as H3.
  destruct (LoadWorld wrld (new_WorldMap 2 2) h) as [m h1]. cbn [fst snd] in *.
  apply (Nat.iter_invariant _ _ _ (in_order _ h)); [intros st; by apply scatter_ok|].
  split_and!; cbn [fst snd]; [by repeat apply wf_ClearRect | | done].
  etransitivity; [exact H1|]. do 4 (etransitivity; [|apply ClearRect_shape]). reflexivity.
Qed.

(** ** Looking for a place *)

(** A block with a hardness is solid: what one can walk on has the hardness -1 of
    the default. *)
Lemma hard_solid id : is_byte id -> 0 <= hardness (stats id) -> solid (stats id) = true.
Proof.
  intros Hb Hh. table_fact (λ (_ : Z) s, negb (0 <=? hardness s) || solid s) id Hb H.
  by replace (0 <=? hardness (stats id)) with true in H by lia.
Qed.

(** Where a bot may be placed: inside the map, in a solid block. *)
Lemma goodcoords_solid m x y : wf m -> goodcoords m x y = true ->
  ValidCoords m x y = true /\ solid (stats (GetIDByCoord m x y)) = true.
Proof.
  unfold goodcoords. intros Hm Hg. zprop. split; [|by apply hard_solid; [apply GetID_byte|]].
  unfold GetIDByCoord in Hg. destruct (ValidCoords m x y); [done|]. by vm_compute in Hg.
Qed.

(** What the n-th random number of the host and the next one say of a place. *)
Definition place (m : WorldMap) (h : Host) (n : nat) : Z * Z :=
  let h := mkHost (clock h) (random h) (nclock h) n in
  ((RandInt 0 (width m) h).1, (RandInt 0 (height m) (RandInt 0 (width m) h).2).1).

Definition good_place (m : WorldMap) (h : Host) (n : nat) : bool := let '(x, y) := place m h n in goodcoords m x y.

Lemma find_place_S fuel m h :
  find_place (S fuel) m h =
  let '(x, y) := place m h (nrandom h) in
  let h' := mkHost (clock h) (random h) (nclock h) (S (S (nrandom h))) in
  if goodcoords m x y then Some (x, y, h') else find_place fuel m h'.
Proof. by destruct h. Qed.

Lemma find_place_ok fuel m h x y h' : find_place fuel m h = Some (x, y, h') ->
  goodcoords m x y = true /\ same_streams h h'.
Proof.
  revert h. induction fuel as [|fuel IH]; intros h; [done|]. rewrite find_place_S.
  set (h1 := mkHost _ _ _ _). assert (same_streams h h1) as H1 by (repeat split; cbn; lia).
  destruct (place m h (nrandom h)) as [x1 y1]. cbv zeta. destruct (goodcoords m x1 y1) eqn:E; [by intros [= <- <- <-]|].
  intros [H2 H3]%IH. split; [done | by etransitivity].
Qed.

Lemma find_place_more f f' m h r : find_place f m h = Some r -> (f <= f')%nat -> find_place f' m h = Some r.
Proof.
  revert f' h. induction f as [|f IH]; intros f' h; [done|]. destruct f' as [|f']; [lia|]. rewrite !find_place_S.
  destruct (place m h (nrandom h)) as [x y]. cbv zeta. destruct (goodcoords m x y); [done|]. intros H Hf. apply IH; [done | lia].
Qed.

Lemma find_place_found j m : forall h, good_place m h (nrandom h + 2 * j) = true -> is_Some (find_place (S j) m h).
Proof.
  induction j as [|j IH]; intros h Hg; rewrite find_place_S; unfold good_place in Hg.
  - rewrite Nat.add_0_r in Hg. destruct (place m h (nrandom h)) as [x y]. rewrite Hg. by eexists.
  - destruct (place m h (nrandom h)) as [x y]. cbv zeta. destruct (goodcoords m x y); [by eexists|].
    apply IH. unfold good_place. cbn [nrandom]. by replace (S (S (nrandom h)) + 2 * j)%nat with (nrandom h + 2 * S j)%nat by lia.
Qed.

Lemma good_place_streams m h h' n : same_streams h h' -> good_place m h' n = good_place m h n.
Proof. intros (_ & Er & _). unfold good_place, place, RandInt, Math_random. cbn [random nrandom clock nclock fst snd]. by rewrite Er. Qed.

(** ** The other bots *)

(** A bot as the loop leaves it on the map. *)
Definition placed (m : WorldMap) (b : Bot) : Prop :=
  bot_ok b /\ fresh b /\ goodcoords m (vx (position b)) (vy (position b)) = true.

Lemma spawn_searches n fuel m id base h : find_place fuel m h = None -> spawn (S n) fuel m id base h = None.
Proof. intros H. cbn [spawn]. by rewrite H. Qed.

(** The getters always give a name, and different ones when the base has no
    clashes. *)
Lemma nick_random_some base h : base <> [] -> Host_ok h ->
  exists w base' h', nick_random base h = (inr w, base', h') /\ same_streams h h' /\ base' <> [].
Proof.
  intros Hb Hh. destruct (random_place base h Hh Hb) as [nk Hi]. unfold nick_random, Math_random. rewrite Hi.
  assert (same_streams h (mkHost (clock h) (random h) (nclock h) (S (nrandom h)))) as Hs by (unfold same_streams; cbn; auto).
  assert (forall i x, <[i := x]> base <> []) as Hne by (intros i x; by destruct base, i).
  destruct nk as [s|c s]; [|cbv beta iota; destruct (c =? 0)]; (eexists _, _, _; split; [reflexivity|]; split; [exact Hs | apply Hne]).
Qed.

Lemma nick_unique_some base h : base <> [] -> Host_ok h ->
  exists w base' h', nick_unique base h = (inr w, base', h') /\ same_streams h h' /\ base' <> [].
Proof.
  intros Hb Hh. unfold nick_unique. destruct (first_string base) as [[i s]|]; [|by apply nick_random_some].
  exists s, (<[i := N_used 1 s]> base), h. split; [done|]. split; [reflexivity|]. by destruct base, i.
Qed.

Section spawning.
Context (names : list JsStr) (Hne : names <> []) (m : WorldMap).

(** What is known of the base and of the names given out. *)
Definition named (base : list Nick) (out : list JsStr) : Prop :=
  base <> [] /\ (no_clash names -> given names base out).

Lemma named_random base out h : named base out -> Host_ok h ->
  exists w base' h', nick_random base h = (inr w, base', h') /\ same_streams h h' /\ named base' (out ++ [w]).
Proof.
  intros [Hb Hg] Hh. destruct (nick_random_some base h Hb Hh) as (w & base' & h' & E & Hs & Hb'). exists w, base', h'.
  split; [exact E|]. split; [exact Hs|]. split; [exact Hb'|]. intros Hc. destruct (nick_random_gives names base out h Hc (Hg Hc) Hh Hne) as (w1 & b1 & h1 & E1 & _ & H1).
  rewrite E in E1. by injection E1 as <- <- <-.
Qed.

Lemma named_unique base out h : named base out -> Host_ok h ->
  exists w base' h', nick_unique base h = (inr w, base', h') /\ same_streams h h' /\ named base' (out ++ [w]).
Proof.
  intros [Hb Hg] Hh. destruct (nick_unique_some base h Hb Hh) as (w & base' & h' & E & Hs & Hb'). exists w, base', h'.
  split; [exact E|]. split; [exact Hs|]. split; [exact Hb'|]. intros Hc. destruct (nick_unique_gives names base out h Hc (Hg Hc) Hh Hne) as (w1 & b1 & h1 & E1 & _ & H1).
  rewrite E in E1. by injection E1 as <- <- <-.
Qed.

(** The body of the loop, once it found a place. *)
Lemma spawn_S n fuel id base out h x y h1 :
  Host_ok h -> named base out -> find_place fuel m h = Some (x, y, h1) ->
  exists nick base' b h2, same_streams h h2 /\ named base' (out ++ [nick]) /\ placed m b /\ bot_id b = id /\
    forall fuel', (fuel <= fuel')%nat -> spawn (S n) fuel' m id base h =
      match spawn n fuel' m (id + 1) base' h2 with
      | Some (inr (bots, h)) => Some (inr ((b, nick) :: bots, h))
      | failed => failed
      end.
Proof.
  intros Hh Hg Hf. destruct (find_place_ok _ _ _ _ _ _ Hf) as [Hxy H1]. pose proof (same_streams_ok _ _ H1 Hh) as Hh1.
  destruct (named_unique base out h1 Hg Hh1) as (nick & base' & h2 & En & H2 & Hg').
  pose proof (same_streams_ok _ _ H2 Hh1) as Hh2.
  destruct (new_Bot_ok id (mkV2 x y) h2 Hh2) as (Hb & Hfi & Hp & H3 & Hid).
  destruct (new_Bot id (mkV2 x y) h2) as [b h3] eqn:Eb. cbn [fst snd] in Hb, Hfi, Hp, H3, Hid.
  pose proof (same_streams_ok _ _ H3 Hh2) as Hh3.
  pose proof (RandInt_range 0 3 h3 Hh3 ltac:(lia)) as R. pose proof (RandInt_streams 0 3 h3) as H4.
  destruct (RandInt 0 3 h3) as [r h4] eqn:E4. cbn [fst snd] in R, H4. pose proof (RandInt_streams 0 4 h4) as H5.
  destruct (RandInt 0 4 h4) as [s h5] eqn:E5. cbn [snd] in H5.
  exists nick, base', (b_rotation (r * 90) b), h5. split_and!.
  - etransitivity; [exact H1|]. etransitivity; [exact H2|]. etransitivity; [exact H3|]. etransitivity; [exact H4 | exact H5].
  - exact Hg'.
  - split; [|split].
    + destruct Hb. split; cbn; try assumption. unfold quarter. lia.
    + destruct Hfi. by split.
    + cbn [b_rotation position]. rewrite Hp. exact Hxy.
  - exact Hid.
  - intros fuel' Hl. cbn [spawn]. by rewrite (find_place_more _ _ _ _ _ Hf Hl), En, Eb, E4, E5.
Qed.

Lemma spawn_ok n : forall fuel id base out h r,
  Host_ok h -> named base out -> spawn n fuel m id base h = Some r ->
  exists bots h', r = inr (bots, h') /\ same_streams h h' /\ length bots = n /\
    Forall (placed m) bots.*1 /\ (no_clash names -> NoDup (out ++ bots.*2)) /\ bot_id <$> bots.*1 = seqZ id (Z.of_nat n).
Proof.
  induction n as [|n IH]; intros fuel id base out h r Hh Hg.
  { intros [= <-]. exists [], h. split_and!; [done..|constructor| |done]. intros Hc. rewrite app_nil_r.
    by apply (g_nodup _ _ _ (proj2 Hg Hc)). }
  destruct (find_place fuel m h) as [[[x y] h1]|] eqn:Ef; [|by cbn [spawn]; rewrite Ef].
  destruct (spawn_S n fuel id base out h x y h1 Hh Hg Ef) as (nick & base' & b & h2 & Hs & Hg' & Hb & Hid & ->); [|done].
  destruct (spawn n fuel m (id + 1) base' h2) as [r'|] eqn:E; [|done].
  destruct (IH _ _ _ _ _ _ (same_streams_ok _ _ Hs Hh) Hg' E) as (bots & h' & -> & Hs' & Hl & Hf & Hd & Hi).
  intros [= <-]. exists ((b, nick) :: bots), h'. split_and!; [done | by etransitivity | cbn; by f_equal | by constructor| |].
  - intros Hc. specialize (Hd Hc). by rewrite <- app_assoc in Hd.
  - cbn. rewrite seqZ_cons, Hi, Hid by lia. f_equal. f_equal; lia.
Qed.

(** With places that come up again and again, enough fuel spawns all the bots. *)
Lemma spawn_ends n : forall id base out h,
  Host_ok h -> named base out -> (forall k, exists j, good_place m h (k + 2 * j) = true) ->
  exists fuel, forall fuel', (fuel <= fuel')%nat -> is_Some (spawn n fuel' m id base h).
Proof.
  induction n as [|n IH]; intros id base out h Hh Hg Hp; [by exists O|].
  destruct (Hp (nrandom h)) as [j Hj]. destruct (find_place_found j m h Hj) as [[[x y] h1] Ef].
  destruct (spawn_S n (S j) id base out h x y h1 Hh Hg Ef) as (nick & base' & b & h2 & Hs & Hg' & _ & _ & E).
  destruct (IH (id + 1) base' (out ++ [nick]) h2 (same_streams_ok _ _ Hs Hh) Hg') as [f Hf].
  { intros k. destruct (Hp k) as [i Hi]. exists i. by rewrite (good_place_streams _ _ _ _ Hs). }
  exists (max (S j) f). intros f' Hf'. rewrite E by lia. destruct (Hf f') as [[e|[bots h']] ->]; [lia | by eexists..].
Qed.
End spawning.

(** ** The page *)

Lemma random_tile_streams w : same_streams (w_host w) (w_host (random_tile w).2).
Proof.
  unfold random_tile, wbind, wrand, RandInt, Math_random, wmapf, wupd. cbn.
  destruct (negb _); cbn; (split_and!; [done | done | cbn; lia | cbn; lia]).
Qed.

Lemma random_tile_borders w : w_ignoreBorders (random_tile w).2 = w_ignoreBorders w.
Proof. unfold random_tile, wbind, wrand, wmapf, wupd. cbn. by destruct (negb _). Qed.

(** While borders are ignored a frame only draws random numbers. *)
Lemma free_frame_streams v w : w_ignoreBorders w = true -> same_streams (w_host w) (w_host (World.Update v w).2).
Proof.
  intros Hi. pose proof (random_tile_streams w) as H1. pose proof (random_tile_borders w) as K1.
  unfold World.Update, wbind. destruct (random_tile w) as [[e|?] w1]; cbn [fst snd] in *; [exact H1|].
  pose proof (random_tile_streams w1) as H2. pose proof (random_tile_borders w1) as K2.
  destruct (random_tile w1) as [[e|?] w2]; cbn [fst snd] in *; [etransitivity; [exact H1 | exact H2]|].
  cbn [wget]. rewrite K2, K1, Hi. cbn. etransitivity; [exact H1|]. etransitivity; [exact H2|].
  by destruct (Bots w2), (CurrentBot w2).
Qed.

(** The random tiles of a frame lie east of column 34. *)
Lemma random_tile_far w : Host_ok (w_host w) -> width (w_map w) <= 35 -> w_map (random_tile w).2 = w_map w.
Proof.
  intros Hh Hw. unfold random_tile, wbind, wrand. pose proof (RandInt_range 35 75 (w_host w) Hh ltac:(lia)) as Hx.
  destruct (RandInt 35 75 (w_host w)) as [x h1]. cbn [fst] in Hx. destruct (RandInt 70 81 _) as [y h2].
  destruct (RandInt 0 1 _) as [r h3]. destruct (negb _); destruct (RandInt _ _ _) as [id h4];
    unfold wmapf, wupd, SetTileWithCoords, ValidCoords; cbn; by replace (x <? width (w_map w)) with false by lia; rewrite !andb_false_r.
Qed.

Lemma free_frame_far v w : w_ignoreBorders w = true -> Host_ok (w_host w) -> width (w_map w) <= 35 ->
  w_map (World.Update v w).2 = w_map w.
Proof.
  intros Hi Hh Hw. pose proof (random_tile_streams w) as H1. pose proof (random_tile_borders w) as K1.
  pose proof (random_tile_far w Hh Hw) as M1.
  unfold World.Update, wbind. destruct (random_tile w) as [[e|?] w1]; cbn [fst snd] in *; [exact M1|].
  pose proof (random_tile_borders w1) as K2.
  pose proof (random_tile_far w1 (same_streams_ok _ _ H1 Hh) ltac:(by rewrite M1)) as M2.
  destruct (random_tile w1) as [[e|?] w2]; cbn [fst snd] in *; [by rewrite M2|].
  cbn [wget]. rewrite K2, K1, Hi. cbn. rewrite <- M1, <- M2. by destruct (Bots w2), (CurrentBot w2).
Qed.

(** The page after its first frame. *)
Definition first_page (wrld : WorldData) (h : Host) : World :=
  let '(m, h) := start_map wrld h in (World.Update (λ _, false) (empty_page m h)).2.

Section page.
Context (wrld : WorldData) (Hw : 0 <= wd_width wrld) (Hk : 0 <= wd_height wrld)
  (Hs : wd_width wrld * wd_height wrld <= 2 ^ 31) (h : Host) (Hh : Host_ok h).

Lemma first_page_ok : WInv (first_page wrld h) /\ same_streams h (w_host (first_page wrld h)) /\
  length (Bots (first_page wrld h)) = 0%nat.
Proof.
  destruct (start_map_ok wrld h Hw Hk Hh) as (Hm & Hsh & Hst). unfold first_page. destruct (start_map wrld h) as [m h1].
  cbn [fst snd] in *. destruct (Update_wsafe (λ _, false) (empty_page m h1)) as (Hi & (_ & Hl & _) & _).
  2: { split; [exact Hi|]. split; [|exact Hl]. etransitivity; [exact Hst | by apply (free_frame_streams _ (empty_page m h1))]. }
  split; cbn; [done | | by eapply same_streams_ok | done | done].
  destruct Hsh as (-> & -> & _), (Resyze_size (wd_width wrld) (wd_height wrld) (new_WorldMap 2 2)) as [-> ->]. exact Hs.
Qed.

Context (names : list JsStr) (Hne : names <> []).

Lemma given_none : given names (N_string <$> names) [].
Proof.
  split.
  - rewrite <- list_fmap_compose. by apply list_fmap_id.
  - intros i c s Hi. rewrite list_lookup_fmap in Hi. by destruct (names !! i).
  - by intros w Hin%not_elem_of_nil.
  - apply NoDup_nil_2.
Qed.

(** The start, up to the loop of the other bots. *)
Lemma named_none : named names (N_string <$> names) [].
Proof. split; [by destruct names | intros _; apply given_none]. Qed.

Lemma start_eq : exists nick base b h2,
  same_streams h h2 /\ named names base [nick] /\ bot_ok b /\ (fresh b /\ bot_id b = 1 /\ position b = mkV2 50 50) /\
  forall fuel, start fuel wrld names h =
    match spawn 50 fuel (w_map (first_page wrld h)) 2 base h2 with
    | None => None
    | Some (inl e) => Some (inl e)
    | Some (inr (bots, h')) =>
        Some (inr (w_set_ticking true (w_set_Bots (b :: bots.*1) (w_set_host h' (first_page wrld h))), nick :: bots.*2))
    end.
Proof.
  destruct first_page_ok as (_ & Hst & _). unfold start. unfold first_page in *. destruct (start_map wrld h) as [m h1].
  set (w := (World.Update _ _).2) in *. clearbody w. pose proof (same_streams_ok _ _ Hst Hh) as Hh1.
  destruct (named_random names Hne _ [] (w_host w) named_none Hh1) as (nick & base & h2 & E & H2 & Hg).
  destruct (new_Bot_ok 1 (mkV2 50 50) h2 (same_streams_ok _ _ H2 Hh1)) as (Hb & Hf & Hp & H3 & Hid).
  destruct (new_Bot 1 (mkV2 50 50) h2) as [b h3] eqn:Eb. cbn [fst snd] in Hb, Hf, Hp, H3, Hid.
  exists nick, base, b, h3. split; [|split; [exact Hg|split; [exact Hb|split; [exact (conj Hf (conj Hid Hp))|]]]].
  - etransitivity; [exact Hst|]. etransitivity; [exact H2 | exact H3].
  - intros fuel. by rewrite E, Eb.
Qed.

(** What a page that loads begins with. *)
Lemma start_ok (fuel : nat) (r : JsError + World * list JsStr) : start fuel wrld names h = Some r ->
  exists w nicks, r = inr (w, nicks) /\ WInv w /\ ticking w = true /\
    length (Bots w) = 51%nat /\ length nicks = 51%nat /\ (no_clash names -> NoDup nicks) /\
    Forall (λ b, in_panel (inventory b)) (Bots w) /\
    Forall fresh (Bots w) /\ bot_id <$> Bots w = seqZ 1 51 /\
    position <$> head (Bots w) = Some (mkV2 50 50) /\
    (forall i b, Bots w !! S i = Some b -> goodcoords (w_map w) (vx (position b)) (vy (position b)) = true).
Proof.
  intros Hr. destruct start_eq as (nick & base & b & h2 & Hst & Hg & Hb & (Hf & Hid & Hpos) & E). rewrite E in Hr. clear E.
  destruct first_page_ok as (H0 & _ & Hl0). set (w0 := first_page wrld h) in *. clearbody w0.
  destruct (spawn 50 fuel (w_map w0) 2 base h2) as [r'|] eqn:Es; [|done].
  destruct (spawn_ok names Hne (w_map w0) 50 fuel 2 base [nick] h2 r' (same_streams_ok _ _ Hst Hh) Hg Es)
    as (bots & h' & -> & Hs' & Hl & Hp & Hd & Hids).
  injection Hr as <-. set (w := w_set_ticking true _). exists w, (nick :: bots.*2).
  assert (WInv w) as Hwi.
  { destruct H0 as [M1 M2 M3 M4 M5]. split; cbn.
    - exact M1.
    - exact M2.
    - apply (same_streams_ok _ _ Hs'), (same_streams_ok _ _ Hst), Hh.
    - intros [|i] b'; cbn; [intros [= <-]; by split; [|apply Hf]|]. intros Hi. destruct (Forall_lookup_1 _ _ _ _ Hp Hi) as (? & [? _ _ _] & _). by split.
    - intros i Hi. apply M5 in Hi. lia. }
  assert (length (Bots w) = 51%nat) as Hn by (cbn; by rewrite length_fmap, Hl).
  assert (Forall fresh (Bots w)) as Hfr.
  { constructor; [done|]. eapply list.Forall_impl; [exact Hp|]. by intros b' (_ & ? & _). }
  split_and!; [done|done|done|done|cbn; by rewrite length_fmap, Hl|done| |done| |cbn; by rewrite Hpos|].
  - eapply list.Forall_impl; [exact Hfr|]. by intros b' [].
  - cbn. by rewrite Hid, Hids.
  - intros i b' Hi. cbn in Hi. by destruct (Forall_lookup_1 _ _ _ _ Hp Hi) as (_ & _ & Hxy).
Qed.

(** C3: The page starts safely: whatever world is loaded, of at most 2^31 cells, and
    whatever the clock and the random numbers, when the start of the page comes to its
    end it has thrown nothing, and the world is well formed: there are 51 bots, which have the
    ids 1 to 51 in their order, no program but the preset one, which does not run, and no cooldown; they
    have names, which are different when the base of the names has no clashes; the first stands at
    (50, 50), each other one on a cell of the map whose block has a hardness of 0 or more, so that it
    can be dug, and which is solid; the timer of the programs is set; and while messages bring
    well-formed programs longer than the starts, no later event spoils this. *)
Theorem page_starts_safe (fuel : nat) (r : JsError + World * list JsStr) (Hr : start fuel wrld names h = Some r) :
  exists w nicks, r = inr (w, nicks) /\ WInv w /\ ticking w = true /\
    bot_id <$> Bots w = seqZ 1 51 /\ length nicks = 51%nat /\ (no_clash names -> NoDup nicks) /\
    (forall b, b ∈ Bots w -> (exists t, programCondition b = new_ProgramCondition t) /\ cooldown b = 0%Q) /\
    position <$> head (Bots w) = Some (mkV2 50 50) /\
    (forall i b, Bots w !! S i = Some b ->
       ValidCoords (w_map w) (vx (position b)) (vy (position b)) = true /\
       0 <= hardness (stats (GetIDByCoord (w_map w) (vx (position b)) (vy (position b)))) /\
       solid (stats (GetIDByCoord (w_map w) (vx (position b)) (vy (position b)))) = true) /\
    (forall w', rtc good_step w w' -> WInv w' /\ ticking w' = true /\ length (Bots w') = 51%nat).
Proof.
  destruct (start_ok fuel r Hr) as (w & nicks & -> & Hwi & Ht & Hb & Hn & Hd & _ & Hf & Hi & Hp & Hg). exists w, nicks.
  split_and!; [done..| | done | |].
  - intros b Hin. destruct (proj1 (list.Forall_forall _ _) Hf b Hin). done.
  - intros i b Hl. specialize (Hg i b Hl). destruct (goodcoords_solid _ _ _ (wi_map w Hwi) Hg). split_and!; [done | | done].
    unfold goodcoords in Hg. by apply Z.leb_le.
  - intros w' Hrun. destruct (good_steps_ok _ _ Hwi Hrun) as (Hw' & Et & Eb & _). split_and!; [done | by rewrite Et | by rewrite Eb].
Qed.

Lemma start_ends :
  (forall k, exists j, good_place (w_map (first_page wrld h)) h (k + 2 * j) = true) ->
  exists fuel r, start fuel wrld names h = Some r.
Proof.
  destruct start_eq as (nick & base & b & h2 & Hst & Hg & _ & _ & E). intros Hp.
  destruct (spawn_ends names Hne (w_map (first_page wrld h)) 50 2 base [nick] h2) as [fuel Hf];
    [by apply (same_streams_ok h) | done | |].
  - intros k. destruct (Hp k) as [j Hj]. exists j. by rewrite (good_place_streams _ _ _ _ Hst).
  - exists fuel. destruct (Hf fuel ltac:(lia)) as [[e|[bots h3]] Es]; rewrite E, Es; by eexists.
Qed.

(** C11: The page starts if and only if there is a block to put the bots in: when the
    random numbers try every place again and again, the search for places ends
    exactly when some cell of the map, after the first frame, holds a block with a
    hardness - a solid one; on a world of free cells the page hangs while it
    loads. *)
Theorem page_starts_iff
    (Hdraw : forall k x y, 0 <= x <= width (w_map (first_page wrld h)) -> 0 <= y <= height (w_map (first_page wrld h)) ->
       exists j, place (w_map (first_page wrld h)) h (k + 2 * j) = (x, y)) :
  (exists fuel r, start fuel wrld names h = Some r) <->
  (exists x y, goodcoords (w_map (first_page wrld h)) x y = true).
Proof.
  destruct first_page_ok as (H0 & _ & _). split.
  - destruct start_eq as (nick & base & b & h2 & _ & _ & _ & _ & E). intros (fuel & r & Hr). rewrite E in Hr.
    destruct (find_place fuel (w_map (first_page wrld h)) h2) as [[[x y] h3]|] eqn:Ef.
    + exists x, y. by apply find_place_ok in Ef as [? _].
    + by rewrite (spawn_searches 49 fuel _ 2 base h2 Ef) in Hr.
  - intros (x & y & Hxy). apply start_ends. intros k. destruct (goodcoords_solid _ _ _ (wi_map _ H0) Hxy) as [Hv _].
    unfold ValidCoords in Hv. destruct (Hdraw k x y ltac:(lia) ltac:(lia)) as [j Hj]. exists j.
    unfold good_place. by rewrite Hj.
Qed.
End page.

(** ** A small page *)

(** Random numbers in which every place of a one cell world comes up again and
    again, at even and at odd positions. *)
Definition demo_random : list Q := [0; 0; 1 # 2; 1 # 2; 0]%Q.
Definition demo_start_host : Host := mkHost (λ _, 0%Q) (λ n, nth (n mod 5) demo_random 0%Q) 0 0.
Definition demo_wrld : WorldData := mkWorldData 1 1 [].
Definition demo_names : list JsStr := [u "Ann"; u "Bob"].

Lemma demo_start_host_ok : Host_ok demo_start_host.
Proof.
  split; intros n; cbn [clock random demo_start_host]; [done|].
  destruct (n mod 5)%nat as [|[|[|[|[|[|i]]]]]]; split; by vm_compute.
Qed.

Lemma demo_places m k x y : width m = 1 -> height m = 1 -> 0 <= x <= 1 -> 0 <= y <= 1 ->
  exists j, place m demo_start_host (k + 2 * j) = (x, y).
Proof.
  intros Hw Hk Hx Hy.
  assert (forall n, place m demo_start_host n = place m demo_start_host (n mod 5)) as Hmod.
  { intros n. unfold place, RandInt, Math_random. cbn [random clock nclock nrandom demo_start_host fst snd].
    rewrite Nat.Div0.mod_mod. change (S (n mod 5)) with (1 + n mod 5)%nat. by rewrite Nat.Div0.add_mod_idemp_r. }
  assert (forall r, (r < 5)%nat -> exists j, place m demo_start_host ((r + 2 * j) mod 5) = (x, y)) as Hj.
  { unfold place. rewrite Hw, Hk. intros r Hr. assert ((x = 0 \/ x = 1) /\ (y = 0 \/ y = 1)) as [[-> | ->] [-> | ->]] by lia;
      do 5 (destruct r as [|r]; [first [by exists 0%nat | by exists 1%nat | by exists 2%nat | by exists 3%nat | by exists 4%nat]|]); lia. }
  destruct (Hj (k mod 5)%nat) as [j E]; [apply Nat.mod_upper_bound; lia|]. exists j.
  rewrite Hmod, <- E. by rewrite Nat.Div0.add_mod_idemp_l.
Qed.

Lemma demo_number k c : (c < 5)%nat -> random demo_start_host (5 * k + c) = nth c demo_random 0%Q.
Proof. intros Hc. cbn [random demo_start_host]. rewrite Nat.mul_comm, Nat.add_comm, Nat.Div0.mod_add, Nat.mod_small by done. done. Qed.

Definition demo_at (k : nat) : Host := mkHost (clock demo_start_host) (random demo_start_host) 0 (5 * k).

(** Every round of the scattering writes the same block into the cell. *)
Lemma demo_scatter k m : scatter (m, demo_at k) = (SetTileWithCoords 0 0 (Block B_alive_cyan) 0 m, demo_at (S k)).
Proof.
  unfold scatter, scatter_id, RandInt, Math_random, demo_at. cbn [random nrandom clock nclock].
  replace (5 * k)%nat with (5 * k + 0)%nat by lia. rewrite <- !Nat.add_succ_r, !demo_number by lia.
  change (nth 0 demo_random 0%Q) with 0%Q. change (nth 1 demo_random 0%Q) with 0%Q.
  change (nth 2 demo_random 0%Q) with (1 # 2)%Q. change (nth 3 demo_random 0%Q) with (1 # 2)%Q.
  change (nth 4 demo_random 0%Q) with 0%Q. cbn -[Nat.mul SetTileWithCoords]. by replace (5 * S k)%nat with (5 * k + 5)%nat by lia.
Qed.

Lemma demo_scatters n m : wf m -> exists m', wf m' /\ Nat.iter n scatter (m, demo_at 0) = (m', demo_at n).
Proof.
  intros Hm. induction n as [|n (m' & Hm' & IH)]; [by eexists|]. rewrite Nat.iter_succ, IH, demo_scatter.
  eexists. split; [|done]. apply wf_SetTileWithCoords; [apply Block_byte | done].
Qed.

Lemma demo_first : let m := w_map (first_page demo_wrld demo_start_host) in
  width m = 1 /\ height m = 1 /\ goodcoords m 0 0 = true.
Proof.
  destruct (start_map_ok demo_wrld demo_start_host ltac:(by vm_compute) ltac:(by vm_compute) demo_start_host_ok) as (Hm & Hs & Hst).
  destruct (Resyze_size 1 1 (new_WorldMap 2 2)) as [Ew Ek]. destruct Hs as (Hw & Hk & _).
  change (wd_width demo_wrld) with 1 in Hw, Hk. change (wd_height demo_wrld) with 1 in Hw, Hk. rewrite Ew in Hw. rewrite Ek in Hk.
  unfold first_page.
  assert (exists m, wf m /\ start_map demo_wrld demo_start_host = (SetTileWithCoords 0 0 (Block B_alive_cyan) 0 m, demo_at 100)) as (m & Hm' & E).
  { unfold start_map. change (LoadWorld demo_wrld (new_WorldMap 2 2) demo_start_host) with (Resyze 1 1 (new_WorldMap 2 2), demo_at 0).
    cbv beta iota zeta. set (m := ClearRect 0 0 100 100 _).
    assert (wf m) as Hwf by (unfold m; repeat apply wf_ClearRect; by apply wf_Resyze). clearbody m.
    change 100%nat with (S 99). rewrite Nat.iter_succ.
    destruct (demo_scatters 99 m Hwf) as (m' & Hm' & ->). rewrite demo_scatter. exists m'. split; [exact Hm' | reflexivity]. }
  rewrite E in *. cbn [fst snd] in *.
  destruct (SetTileWithCoords_shape 0 0 (Block B_alive_cyan) 0 m) as (Sw & Sk & _). set (m0 := SetTileWithCoords _ _ _ _ m) in *.
  rewrite (free_frame_far (λ _, false) (empty_page m0 (demo_at 100))); [|done| by eapply same_streams_ok, demo_start_host_ok | cbn; lia].
  cbn [w_map empty_page]. split_and!; [done|done|]. unfold goodcoords, m0.
  rewrite (GetID_SetTileWithCoords m 0 0 (Block B_alive_cyan) 0 0 0 Hm' (Block_byte _)).
  assert (ValidCoords m 0 0 = true) as -> by (unfold ValidCoords; lia). by vm_compute.
Qed.

Lemma demo_starts : exists fuel r, start fuel demo_wrld demo_names demo_start_host = Some r.
Proof.
  destruct demo_first as (Hw & Hk & Hg).
  apply (start_ends demo_wrld ltac:(by vm_compute) ltac:(by vm_compute) ltac:(by vm_compute) demo_start_host
    demo_start_host_ok demo_names ltac:(done)).
  intros k. destruct (demo_places _ k 0 0 Hw Hk) as [j Hj]; [lia..|]. exists j. unfold good_place. rewrite Hj. exact Hg.
Qed.

Lemma page_starts_safe_witness :
  exists fuel w nicks, start fuel demo_wrld demo_names demo_start_host = Some (inr (w, nicks)) /\ ticking w = true /\
    bot_id <$> Bots w = seqZ 1 51 /\ position <$> head (Bots w) = Some (mkV2 50 50).
Proof.
  destruct demo_starts as (fuel & r & E). exists fuel. rewrite E.
  destruct (page_starts_safe demo_wrld ltac:(by vm_compute) ltac:(by vm_compute) ltac:(by vm_compute) demo_start_host
    demo_start_host_ok demo_names ltac:(done) fuel r E) as (w & nicks & -> & _ & Ht & Hi & _ & _ & _ & Hp & _).
  exists w, nicks. split; [exact eq_refl|]. split; [exact Ht|]. split; [exact Hi | exact Hp].
Defined.

Lemma page_starts_iff_witness : exists fuel r, start fuel demo_wrld demo_names demo_start_host = Some r.
Proof.
  destruct demo_first as (Hw & Hk & Hg).
  apply (page_starts_iff demo_wrld ltac:(by vm_compute) ltac:(by vm_compute) ltac:(by vm_compute) demo_start_host
    demo_start_host_ok demo_names ltac:(done)).
  - intros k x y. rewrite Hw, Hk. apply demo_places; assumption.
  - exists 0, 0. exact Hg.
Defined.
