(* ===== verification/Async.v ===== *)
(** * Asynchronous functions

    The async functions of the admin panel ([admin/app.js]) as trees of the
    points where they wait: between two of them a function runs to completion,
    at each of them any other function of the page may run.  The file holds
    the trees, the event loop that interleaves them, and a logic of ownership
    for a lock that is a boolean of the page's state. *)

From S2P Require Import Prelude.

(** What rejects a promise: a TypeError, a URIError, a fetch that failed,
    or a body that could not be read or parsed. *)
Inductive Exn := E_type | E_uri | E_net (message : list Z) | E_body (message : list Z).

Section async.
Context {State W : Type} {Ans : W -> Type}.

(** ** Synchronous code *)

Definition Syn (A : Type) : Type := State -> (Exn + A) * State.
Definition sret {A} (a : A) : Syn A := λ s, (inr a, s).
Definition sthrow {A} (e : Exn) : Syn A := λ s, (inl e, s).
Definition sget {A} (f : State -> A) : Syn A := λ s, (inr (f s), s).
Definition supd (f : State -> State) : Syn unit := λ s, (inr tt, f s).
Definition sbind {A B} (m : Syn A) (k : A -> Syn B) : Syn B := λ s,
  match m s with (inl e, s') => (inl e, s') | (inr a, s') => k a s' end.
Definition swhen (b : bool) (m : Syn unit) : Syn unit := if b then m else sret tt.

(** ** Asynchronous code *)

Inductive Async (A : Type) : Type :=
  | Pure (a : A)
  | Throw (e : Exn)
  | Get (k : State -> Async A)
  | Upd (f : State -> State) (t : Async A)
  | Await (w : W) (k : Ans w -> Async A).

Arguments Pure {A} a.
Arguments Throw {A} e.
Arguments Get {A} k.
Arguments Upd {A} f t.
Arguments Await {A} w k.

Fixpoint abind {A B} (t : Async A) (k : A -> Async B) : Async B :=
  match t with
  | Pure a => k a
  | Throw e => Throw e
  | Get h => Get (λ s, abind (h s) k)
  | Upd f t => Upd f (abind t k)
  | Await w h => Await w (λ a, abind (h a) k)
  end.

Definition of_result {A} (r : Exn + A) : Async A :=
  match r with inl e => Throw e | inr a => Pure a end.

Definition sync {A} (m : Syn A) : Async A :=
  Get (λ s, Upd (λ _, (m s).2) (of_result (m s).1)).

(** [try { t } catch (e) { h(e) }]. *)
Fixpoint acatch {A} (t : Async A) (h : Exn -> Async A) : Async A :=
  match t with
  | Pure a => Pure a
  | Throw e => h e
  | Get k => Get (λ s, acatch (k s) h)
  | Upd f t => Upd f (acatch t h)
  | Await w k => Await w (λ a, acatch (k a) h)
  end.

(** [try { t } finally { fin() }]. *)
Fixpoint afinally {A} (t : Async A) (fin : State -> State) : Async A :=
  match t with
  | Pure a => Upd fin (Pure a)
  | Throw e => Upd fin (Throw e)
  | Get k => Get (λ s, afinally (k s) fin)
  | Upd f t => Upd f (afinally t fin)
  | Await w k => Await w (λ a, afinally (k a) fin)
  end.

(** [await f()] for an async function f: its caller goes on in a later turn of
    the microtask queue, whether the promise was fulfilled or rejected. *)
Fixpoint awaiting {A} (turn : W) (t : Async A) : Async A :=
  match t with
  | Pure a => Await turn (λ _, Pure a)
  | Throw e => Await turn (λ _, Throw e)
  | Get k => Get (λ s, awaiting turn (k s))
  | Upd f t => Upd f (awaiting turn t)
  | Await w k => Await w (λ a, awaiting turn (k a))
  end.

(** Run up to the next point where the function waits, or to its end. *)
Fixpoint run {A} (t : Async A) (s : State) : Async A * State :=
  match t with
  | Pure _ | Throw _ | Await _ _ => (t, s)
  | Get k => run (k s) s
  | Upd f t => run t (f s)
  end.

(** ** The event loop *)

(** The state of the page, the functions that wait, and the exceptions no one
    caught (the console of the browser lists them). *)
Record Loop := mkLoop { page_state : State; waiting : list (Async unit); uncaught : list Exn }.

(** Put what is left of a function after a run back among the waiting ones. *)
Definition settle (l : Loop) (r : Async unit * State) : Loop :=
  match r.1 with
  | Throw e => mkLoop r.2 (waiting l) (uncaught l ++ [e])
  | Await _ _ => mkLoop r.2 (waiting l ++ [r.1]) (uncaught l)
  | _ => mkLoop r.2 (waiting l) (uncaught l)
  end.

Definition spawn (t : Async unit) (l : Loop) : Loop := settle l (run t (page_state l)).

Definition without (i : nat) (l : Loop) : Loop :=
  mkLoop (page_state l) (delete i (waiting l)) (uncaught l).

(** One turn: a handler starts, or what a waiting function waits for arrives. *)
Inductive turn {E} (handler : E -> Async unit) : Loop -> Loop -> Prop :=
  | Turn_event e l : turn handler l (spawn (handler e) l)
  | Turn_answer i w k (a : Ans w) l :
      waiting l !! i = Some (Await w k) ->
      turn handler l (settle (without i l) (run (k a) (page_state l))).

(** ** Ownership of a lock

    [flag] is the lock, a boolean of the state; [guarded w] says that only the
    owner may wait for w.  [safe t o s Q]: started in state s, owning the lock
    iff o, the function takes the lock only when it is free, gives up only a
    lock it owns, and ends in Q; wherever it waits the others may do anything
    but free a lock it owns. *)

Section lock.
Context (flag : State -> bool) (guarded : W -> bool).

Definition own_after (o : bool) (s s' : State) : bool := if flag s then o && flag s' else flag s'.

Fixpoint safe {A} (t : Async A) (o : bool) (s : State) (Q : bool -> State -> Exn + A -> Prop) : Prop :=
  match t with
  | Pure a => Q o s (inr a)
  | Throw e => Q o s (inl e)
  | Get k => safe (k s) o s Q
  | Upd f t =>
      (flag s = true -> o = false -> flag (f s) = true) /\ safe t (own_after o s (f s)) (f s) Q
  | Await w k =>
      (guarded w = true -> o = true) /\
      forall a s', (o = true -> flag s' = true) -> safe (k a) o s' Q
  end.

Lemma safe_mono {A} (t : Async A) o s (Q Q' : bool -> State -> Exn + A -> Prop) :
  (forall o s r, (o = true -> flag s = true) -> Q o s r -> Q' o s r) ->
  (o = true -> flag s = true) -> safe t o s Q -> safe t o s Q'.
Proof.
  intros HQ. revert o s. induction t as [a|e|k IH|f t IH|w k IH]; intros o s Ho; cbn [safe]; auto.
  - intros [H1 H2]. split; [done|]. apply IH; [|done]. unfold own_after.
    destruct (flag s), o; cbn; auto; destruct (flag (f s)); auto.
  - intros [H1 H2]. split; [done|]. intros a s' Hs. by apply IH, H2.
Qed.

Lemma safe_bind {A B} (t : Async A) (k : A -> Async B) o s Q :
  (o = true -> flag s = true) ->
  safe t o s (λ o s r, match r with inl e => Q o s (inl e) | inr a => safe (k a) o s Q end) ->
  safe (abind t k) o s Q.
Proof.
  revert o s. induction t as [a|e|h IH|f t IH|w h IH]; intros o s Ho; cbn [safe abind]; auto.
  - intros [H1 H2]. split; [done|]. apply IH; [|done]. unfold own_after.
    destruct (flag s), o; cbn; auto; destruct (flag (f s)); auto.
  - intros [H1 H2]. split; [done|]. intros a s' Hs. apply IH; [done|]. by apply H2.
Qed.

Lemma safe_catch {A} (t : Async A) h o s Q :
  (o = true -> flag s = true) ->
  safe t o s (λ o s r, match r with inl e => safe (h e) o s Q | inr a => Q o s (inr a) end) ->
  safe (acatch t h) o s Q.
Proof.
  revert o s. induction t as [a|e|k IH|f t IH|w k IH]; intros o s Ho; cbn [safe acatch]; auto.
  - intros [H1 H2]. split; [done|]. apply IH; [|done]. unfold own_after.
    destruct (flag s), o; cbn; auto; destruct (flag (f s)); auto.
  - intros [H1 H2]. split; [done|]. intros a s' Hs. apply IH; [done|]. by apply H2.
Qed.

Lemma safe_finally {A} (t : Async A) fin o s Q :
  (o = true -> flag s = true) ->
  safe t o s (λ o s r, (flag s = true -> o = false -> flag (fin s) = true) /\
                       Q (own_after o s (fin s)) (fin s) r) ->
  safe (afinally t fin) o s Q.
Proof.
  revert o s. induction t as [a|e|k IH|f t IH|w k IH]; intros o s Ho; cbn [safe afinally]; auto.
  - intros [H1 H2]. split; [done|]. apply IH; [|done]. unfold own_after.
    destruct (flag s), o; cbn; auto; destruct (flag (f s)); auto.
  - intros [H1 H2]. split; [done|]. intros a s' Hs. apply IH; [done|]. by apply H2.
Qed.

(** Waiting for an async function: the result is stable under the others. *)
Lemma safe_awaiting {A} turn (t : Async A) o s Q :
  guarded turn = false ->
  (o = true -> flag s = true) ->
  safe t o s (λ o s r, forall s', (o = true -> flag s' = true) -> Q o s' r) ->
  safe (awaiting turn t) o s Q.
Proof.
  intros Ht. revert o s.
  induction t as [a|e|k IH|f t IH|w k IH]; intros o s Ho; cbn [safe awaiting]; auto;
    try (intros H; split; [congruence|]; intros _ s' Hs'; by apply H).
  - intros [H1 H2]. split; [done|]. apply IH; [|done]. unfold own_after.
    destruct (flag s), o; cbn; auto; destruct (flag (f s)); auto.
  - intros [H1 H2]. split; [done|]. intros a s' Hs. apply IH; [done|]. by apply H2.
Qed.

(** Synchronous code that leaves the lock alone. *)
Lemma safe_sync {A} (m : Syn A) o s Q :
  (o = true -> flag s = true) -> flag (m s).2 = flag s -> Q o (m s).2 (m s).1 ->
  safe (sync m) o s Q.
Proof.
  intros Ho Hf HQ. unfold sync. cbn [safe]. split; [congruence|].
  replace (own_after o s (m s).2) with o; [by destruct (m s).1|].
  unfold own_after. rewrite Hf. destruct (flag s), o; auto. by discriminate Ho.
Qed.

(** Running to the next stop keeps the books: the lock changes hands only
    through this function. *)
Lemma run_safe {A} (t : Async A) o s Q :
  safe t o s Q -> (o = true -> flag s = true) ->
  exists o', safe (run t s).1 o' (run t s).2 Q /\ (o' = true -> flag (run t s).2 = true) /\
    (Nat.b2n (flag (run t s).2) + Nat.b2n o = Nat.b2n (flag s) + Nat.b2n o')%nat.
Proof.
  revert o s. induction t as [a|e|k IH|f t IH|w k IH]; intros o s Hs Ho; cbn [run].
  - by exists o.
  - by exists o.
  - by apply IH.
  - destruct Hs as [H1 H2].
    destruct (IH _ _ H2) as (o' & ? & ? & Hn).
    { unfold own_after. destruct (flag s), o; cbn; auto; destruct (flag (f s)); auto. }
    exists o'. split_and!; [done|done|]. revert Hn. unfold own_after.
    destruct (flag s) eqn:E1, o; cbn [andb]; intros Hn.
    + cbn [Nat.b2n] in *. lia.
    + rewrite (H1 eq_refl eq_refl) in Hn. cbn [Nat.b2n] in *. lia.
    + by specialize (Ho eq_refl).
    + cbn [Nat.b2n] in *. lia.
  - by exists o.
Qed.

(** What a handler must end in: without the lock. *)
Definition released {A} (o : bool) (_ : State) (_ : Exn + A) : Prop := o = false.

Definition is_waiting {A} (t : Async A) : Prop := match t with Await _ _ => True | _ => False end.

(** A waiting function, and whether it owns the lock. *)
Definition held (t : Async unit) (o : bool) : Prop := is_waiting t /\ forall s, safe t o s released.

Definition owners (os : list bool) : nat := sum_list (Nat.b2n <$> os).

(** The books of the loop: every waiting function keeps to the rules, and the
    lock is taken iff exactly one of them owns it. *)
Definition lock_inv (l : Loop) : Prop :=
  exists os, Forall2 held (waiting l) os /\ owners os = Nat.b2n (flag (page_state l)).

Lemma owners_app os os' : owners (os ++ os') = (owners os + owners os')%nat.
Proof. unfold owners. induction os as [|b os IH]; cbn; [done|]. rewrite IH. lia. Qed.

Lemma run_stops {A} (t : Async A) s :
  match (run t s).1 with Get _ | Upd _ _ => False | _ => True end.
Proof.
  revert s. induction t as [a|e|k IH|f t IH|w k IH]; intros s; cbn [run fst]; [done|done| |apply IH|done].
  apply IH.
Qed.

Lemma settle_inv l t o s os :
  Forall2 held (waiting l) os -> safe t o s released -> (o = true -> flag s = true) ->
  (owners os + Nat.b2n o = Nat.b2n (flag s))%nat ->
  lock_inv (settle l (run t s)).
Proof.
  intros Hos Ht Ho Hn. destruct (run_safe t o s released Ht Ho) as (o' & Hs & Ho' & Hb).
  pose proof (run_stops t s) as Hst.
  destruct (run t s) as [t' s']. cbn in *. unfold settle. cbn.
  destruct t' as [a|e|k|f t'|w k]; cbn in *.
  - exists os. split; [done|]. unfold released in Hs. subst o'. cbn in *. lia.
  - exists os. split; [done|]. unfold released in Hs. subst o'. cbn in *. lia.
  - done.
  - done.
  - exists (os ++ [o']). split.
    + apply Forall2_app; [done|]. constructor; [|constructor]. split; [done|].
      intros s0. cbn. exact Hs.
    + rewrite owners_app. unfold owners at 2. cbn. lia.
Qed.

Lemma owners_delete os i o : os !! i = Some o ->
  owners os = (owners (delete i os) + Nat.b2n o)%nat.
Proof.
  intros H. rewrite <- (take_drop_middle os i o H) at 1. rewrite delete_take_drop, !owners_app.
  change (o :: drop (S i) os) with ([o] ++ drop (S i) os). rewrite owners_app.
  unfold owners at 2. cbn. lia.
Qed.

Lemma Forall2_delete_both (P : Async unit -> bool -> Prop) ts os i :
  Forall2 P ts os -> Forall2 P (delete i ts) (delete i os).
Proof.
  intros H. rewrite !delete_take_drop.
  apply Forall2_app; [by apply Forall2_take | by apply Forall2_drop].
Qed.

(** The books are kept by every turn, whatever the handlers do meanwhile. *)
Lemma turn_lock {E} (handler : E -> Async unit) l l' :
  (forall e s, safe (handler e) false s released) ->
  turn handler l l' -> lock_inv l -> lock_inv l'.
Proof.
  intros Hh Ht (os & Hos & Hn). destruct Ht as [e l|i w k a l Hi].
  - apply settle_inv with false os; [done|apply Hh|done|cbn; lia].
  - destruct (Forall2_lookup_l _ _ _ _ _ Hos Hi) as (o & Ho & _ & Hs).
    specialize (Hs (page_state l)). cbn in Hs. destruct Hs as [_ Hs].
    assert (o = true -> flag (page_state l) = true) as Hf.
    { intros ->. pose proof (owners_delete os i true Ho). destruct (flag (page_state l)); [done|].
      cbn in *. lia. }
    apply settle_inv with o (delete i os).
    + by apply Forall2_delete_both.
    + by apply Hs.
    + done.
    + rewrite <- (owners_delete os i o Ho). lia.
Qed.

(** At most one function waits for something guarded, and then the lock is taken. *)
Definition waits_guarded (t : Async unit) : bool :=
  match t with Await w _ => guarded w | _ => false end.

Lemma guarded_owners (s : State) ts os :
  Forall2 held ts os -> (length (filter (λ t, waits_guarded t = true) ts) <= owners os)%nat.
Proof.
  induction 1 as [|t o ts os [Hw Hs] _ IH]; [cbn; lia|].
  change (owners (o :: os)) with (Nat.b2n o + owners os)%nat.
  rewrite filter_cons. case_decide as Hg; cbn [length]; [|lia].
  destruct t as [| | | |w k]; try done. destruct (Hs s) as [Ho _].
  rewrite (Ho Hg). cbn. lia.
Qed.

(** A free lock means that nobody is inside; a taken one that somebody is. *)
Lemma lock_inv_facts l :
  lock_inv l ->
  (length (filter (λ t, waits_guarded t = true) (waiting l)) <= Nat.b2n (flag (page_state l)))%nat /\
  (flag (page_state l) = true -> waiting l <> []).
Proof.
  intros (os & Hos & Hn). split.
  - rewrite <- Hn. by apply (guarded_owners (page_state l)).
  - intros Hf Hw. rewrite Hw in Hos. inversion Hos; subst. rewrite Hf in Hn. cbn in Hn. lia.
Qed.

End lock.

(** ** Changes every piece of code respects *)

Section follows.
Context (R : relation State) `{!PreOrder R}.

(** Each change of state the function makes is in R, whatever the state was
    when it started and whenever it was resumed. *)
Fixpoint follows {A} (t : Async A) (s : State) : Prop :=
  match t with
  | Pure _ | Throw _ => True
  | Get k => follows (k s) s
  | Upd f t => R s (f s) /\ follows t (f s)
  | Await w k => forall a s', follows (k a) s'
  end.

Lemma follows_bind {A B} (t : Async A) (k : A -> Async B) s :
  follows t s -> (forall a s, follows (k a) s) -> follows (abind t k) s.
Proof.
  intros Ht Hk. revert s Ht.
  induction t as [a|e|h IH|f t IH|w h IH]; intros s Ht; cbn in *; auto.
  destruct Ht. auto.
Qed.

Lemma follows_catch {A} (t : Async A) h s :
  follows t s -> (forall e s, follows (h e) s) -> follows (acatch t h) s.
Proof.
  intros Ht Hh. revert s Ht.
  induction t as [a|e|k IH|f t IH|w k IH]; intros s Ht; cbn in *; auto.
  destruct Ht. auto.
Qed.

Lemma follows_finally {A} (t : Async A) fin s :
  follows t s -> (forall s, R s (fin s)) -> follows (afinally t fin) s.
Proof.
  intros Ht Hf. revert s Ht.
  induction t as [a|e|k IH|f t IH|w k IH]; intros s Ht; cbn in *; auto.
  destruct Ht. auto.
Qed.

Lemma follows_awaiting {A} tn (t : Async A) s : follows t s -> follows (awaiting tn t) s.
Proof.
  revert s. induction t as [a|e|k IH|f t IH|w k IH]; intros s Ht; cbn in *; auto.
  destruct Ht. auto.
Qed.

Lemma follows_run {A} (t : Async A) s :
  follows t s -> R s (run t s).2 /\ forall s', follows (run t s).1 s'.
Proof.
  revert s. induction t as [a|e|k IH|f t IH|w k IH]; intros s Ht; cbn in *.
  - split; [reflexivity | done].
  - split; [reflexivity | done].
  - by apply IH.
  - destruct Ht as [H1 H2]. destruct (IH _ H2) as [H3 H4]. split; [by etransitivity | done].
  - split; [reflexivity | done].
Qed.

(** The same for synchronous code. *)
Definition skeeps {A} (m : Syn A) : Prop := forall s, R s (m s).2.

Lemma follows_sync {A} (m : Syn A) s : skeeps m -> follows (sync m) s.
Proof. intros H. cbn. split; [apply H|]. by destruct (m s).1. Qed.

Lemma skeeps_ret {A} (a : A) : skeeps (sret a).
Proof. intros s. reflexivity. Qed.
Lemma skeeps_throw {A} e : skeeps (sthrow (A := A) e).
Proof. intros s. reflexivity. Qed.
Lemma skeeps_get {A} (f : State -> A) : skeeps (sget f).
Proof. intros s. reflexivity. Qed.
Lemma skeeps_bind {A B} (m : Syn A) (k : A -> Syn B) :
  skeeps m -> (forall a, skeeps (k a)) -> skeeps (sbind m k).
Proof.
  intros Hm Hk s. unfold sbind. specialize (Hm s). destruct (m s) as [[e|a] s']; [done|].
  etransitivity; [exact Hm | apply Hk].
Qed.
Lemma skeeps_when b m : skeeps m -> skeeps (swhen b m).
Proof. intros H. destruct b; [done | apply skeeps_ret]. Qed.

Definition calm (l : Loop) : Prop := Forall (λ t, forall s, follows t s) (waiting l).

Lemma turn_follows {E} (handler : E -> Async unit) l l' :
  (forall e s, follows (handler e) s) ->
  turn handler l l' -> calm l -> calm l' /\ R (page_state l) (page_state l').
Proof.
  intros Hh Ht Hc.
  assert (forall l t, calm l -> follows t (page_state l) ->
    calm (settle l (run t (page_state l))) /\
    R (page_state l) (page_state (settle l (run t (page_state l))))) as Hs.
  { intros l0 t0 Hc0 Ht0. destruct (follows_run t0 _ Ht0) as [HR Hk].
    destruct (run t0 (page_state l0)) as [t' s']. unfold settle. cbn in *.
    destruct t'; (split; [|done]); unfold calm; cbn; try done.
    apply Forall_app. split; [done|]. by constructor. }
  destruct Ht as [e l|i w k a l Hi]; [by apply Hs|].
  apply (Hs (without i l) (k a)).
  - unfold calm in *. cbn. rewrite delete_take_drop.
    apply Forall_app. split; [by apply Forall_take | by apply Forall_drop].
  - pose proof (Forall_lookup_1 _ _ _ _ Hc Hi (page_state l)) as H. cbn in H. apply H.
Qed.

End follows.

(** ** A function on its own

    [solo answer t s] runs the function to its end when nothing else happens
    and every wait is answered by [answer]. *)
Fixpoint solo {A} (answer : forall w, Ans w) (t : Async A) (s : State) : (Exn + A) * State :=
  match t with
  | Pure a => (inr a, s)
  | Throw e => (inl e, s)
  | Get k => solo answer (k s) s
  | Upd f t => solo answer t (f s)
  | Await w k => solo answer (k (answer w)) s
  end.

Lemma solo_bind {A B} answer (t : Async A) (k : A -> Async B) s :
  solo answer (abind t k) s =
  match solo answer t s with (inr a, s') => solo answer (k a) s' | (inl e, s') => (inl e, s') end.
Proof. revert s. induction t; intros s0; cbn; auto. Qed.

Lemma solo_catch {A} answer (t : Async A) h s :
  solo answer (acatch t h) s =
  match solo answer t s with (inl e, s') => solo answer (h e) s' | r => r end.
Proof. revert s. induction t; intros s0; cbn; auto. Qed.

Lemma solo_finally {A} answer (t : Async A) fin s :
  solo answer (afinally t fin) s = let '(r, s') := solo answer t s in (r, fin s').
Proof. revert s. induction t; intros s0; cbn; auto. Qed.

Lemma solo_awaiting {A} answer tn (t : Async A) s : solo answer (awaiting tn t) s = solo answer t s.
Proof. revert s. induction t; intros s0; cbn; auto. Qed.

Lemma solo_sync {A} answer (m : Syn A) s : solo answer (sync m) s = m s.
Proof. cbn. destruct (m s) as [[e|a] s']; done. Qed.

End async.

Create Rewrite HintDb solo.
#[export] Hint Rewrite @solo_bind @solo_catch @solo_finally @solo_awaiting @solo_sync : solo.

Arguments Pure {State W Ans A} a.
Arguments Throw {State W Ans A} e.
Arguments Get {State W Ans A} k.
Arguments Upd {State W Ans A} f t.
Arguments Await {State W Ans A} w k.
Arguments Async {State W} Ans A.
Arguments Loop {State W} Ans.
