(* ===== verification/InventoryPanel.v ===== *)
(** * The inventory panel

    Models [scripts/tables/items.js] (the codes, names and icons of the items) and
    [class GUIInventory] of [scripts/userGUI/Inventory.js]: the panel shows the
    items of a bot in a row of places.  A place is an element of the document, and
    so is what it shows: appending an element to a place takes it away from the
    place it was in. *)

From S2P Require Import Prelude JsNum.

(** ** Items *)

(** [ItemCodes], in the order of the source. *)
Definition ItemCodes : list (string * Z) :=
  ([ ("tp", 0); ("resp", 1); ("up", 2); ("market", 3); ("clan", 4); ("boom", 5); ("proto", 6);
    ("razr", 7); ("cred", 8); ("rem", 9); ("geo_0", 10); ("geo_c", 11); ("geo_r", 12);
    ("geo_v", 13); ("geo_ba", 14); ("geo_w", 15); ("geo_b", 16); ("radar_vul", 17);
    ("radar_alive", 18); ("radar_bobot", 19); ("tpr", 20); ("constrbot", 21); ("bg", 22);
    ("zz", 23); ("craft", 24); ("booms", 25); ("gun", 26); ("gate", 27); ("dizz", 28);
    ("stock", 29); ("scaner", 30); ("scills", 31); ("freeup", 32); ("mine4", 33); ("geo_h", 34);
    ("poly", 35); ("nanobot", 36); ("accu", 37); ("trans", 38); ("compr", 39); ("c190", 40);
    ("fed", 41); ("geo_br", 42); ("geo_rr", 43); ("auto", 44); ("emi", 45); ("geo_rain", 46);
    ("spot", 47); ("nc", 48); ("dollar", 49); ("opp", 50) ])%string.

(** [new Array(51)] filled by [for (const key in ItemCodes)]. *)
Definition ItemNameByCode : list (option string) :=
  foldl (λ a p, <[Z.to_nat p.2 := Some p.1]> a) (replicate 51 None) ItemCodes.

(** An entry of [ItemData]: the code and the file of its icon; the number in the
    name of the file is kept as a number. *)
Record ItemDatum := mkItemDatum { itemcode : string; item_src : Z }.
Definition ItemData : list (option ItemDatum) :=
  foldl (λ a p, <[Z.to_nat p.2 := Some (mkItemDatum p.1 p.2)]> a) (replicate 51 None) ItemCodes.

(** ** The panel *)

(** [inventoryCells] maps an item to its element, known by the item itself, and to
    the number in its text; a place is its children and whether it is displayed. *)
Record Place := mkPlace { children : list Z; displayed : bool }.
Record GUIInventory := mkGUIInventory {
  isMinimized : bool; inventoryCells : gmap Z Z; inventoryPlaces : list Place }.

(** [Math.ceil(ItemData.length / 10)] columns of ten places. *)
Definition columns : Z := (Z.of_nat (length ItemData) + 9) / 10.

Definition new_GUIInventory : GUIInventory :=
  mkGUIInventory true
    (foldl (λ m i, match ItemData !! i with Some (Some _) => <[Z.of_nat i := Z.of_nat i]> m | _ => m end)
       ∅ (seq 0 (length ItemData)))
    (replicate (Z.to_nat (columns * 10)) (mkPlace [] true)).

Definition SwitchMinimizing (g : GUIInventory) : GUIInventory :=
  mkGUIInventory (negb (isMinimized g)) (inventoryCells g) (inventoryPlaces g).

Definition with_places (l : list Place) (g : GUIInventory) : GUIInventory :=
  mkGUIInventory (isMinimized g) (inventoryCells g) l.

(** [innerHTML &&= '']. *)
Definition clear_place (p : Place) : Place := mkPlace [] (displayed p).
Definition show_place (b : bool) (p : Place) : Place := mkPlace (children p) b.

(** [place.appendChild(element)]: the element leaves its parent. *)
Definition detach (item : Z) (p : Place) : Place :=
  mkPlace (filter (λ c, c <> item) (children p)) (displayed p).
Definition append_child (n : nat) (item : Z) (l : list Place) : list Place :=
  alter (λ p, mkPlace (children p ++ [item]) (displayed p)) n (detach item <$> l).

(** [SetItemInPlace(itemID, PlaceNum)]; [hasChildNodes] is a function, which is
    true, so the test of it does nothing. *)
Definition SetItemInPlace (itemID : option Z) (n : nat) (g : GUIInventory) : JsError + GUIInventory :=
  match itemID with
  | None =>
      match inventoryPlaces g !! n with
      | Some _ => inr (with_places (alter clear_place n (inventoryPlaces g)) g)
      | None => inl TypeError
      end
  | Some item =>
      match inventoryCells g !! item, inventoryPlaces g !! n with
      | Some _, Some p =>
          if decide (head (children p) = Some item) then inr g
          else inr (with_places (append_child n item (alter clear_place n (inventoryPlaces g))) g)
      | _, _ => inl TypeError
      end
  end.

(** [inventoryCells.get(itemID).text = itemCount]. *)
Definition set_text (item count : Z) (g : GUIInventory) : JsError + GUIInventory :=
  match inventoryCells g !! item with
  | Some _ => inr (mkGUIInventory (isMinimized g) (<[item := count]> (inventoryCells g)) (inventoryPlaces g))
  | None => inl TypeError
  end.

(** [inventoryPlaces[i].style.display = ..]. *)
Definition set_display (b : bool) (n : nat) (g : GUIInventory) : JsError + GUIInventory :=
  match inventoryPlaces g !! n with
  | Some _ => inr (with_places (alter (show_place b) n (inventoryPlaces g)) g)
  | None => inl TypeError
  end.

Definition and_then {A} (r : JsError + A) (k : A -> JsError + A) : JsError + A :=
  match r with inl e => inl e | inr a => k a end.

(** The callback of [itemsAvailable.forEach], for one item after the other. *)
Fixpoint show_items (es : list (Z * Z)) (iterator : nat) (g : GUIInventory) : JsError + (nat * GUIInventory) :=
  match es with
  | [] => inr (iterator, g)
  | (item, count) :: es =>
      if isMinimized g && (9 <? Z.of_nat iterator) then show_items es iterator g
      else
        match and_then (SetItemInPlace (Some item) iterator g)
                (λ g, and_then (set_text item count g) (set_display true iterator)) with
        | inl e => inl e
        | inr g => show_items es (S iterator) g
        end
  end.

(** The places from number n on are emptied and hidden. *)
Definition hide_from (n : nat) (g : GUIInventory) : GUIInventory :=
  with_places (imap (λ i p, if decide (n <= i)%nat then mkPlace [] false else p) (inventoryPlaces g)) g.

(** [Update(bot)], with the entries of the bot's [itemsAvailable] in the order of
    the map; a missing bot is [None]. *)
Definition Update (bot : option (list (Z * Z))) (g : GUIInventory) : JsError + GUIInventory :=
  match bot with
  | Some es =>
      match show_items es 0 g with
      | inl e => inl e
      | inr (n, g) => inr (hide_from n g)
      end
  | None => inr (hide_from 0 g)
  end.

(** ** The tables of items *)

(** The table of names is the inverse of the table of codes, and both tables have
    an entry for every code below 51. *)
Lemma item_tables :
  NoDup (fst <$> ItemCodes) /\ NoDup (snd <$> ItemCodes) /\
  (forall k c, (k, c) ∈ ItemCodes <-> exists n, c = Z.of_nat n /\ ItemNameByCode !! n = Some (Some k)) /\
  (forall i, (i < 51)%nat -> exists d, ItemData !! i = Some (Some d) /\ (itemcode d, Z.of_nat i) ∈ ItemCodes).
Proof.
  split_and!; [by apply (bool_decide_unpack _); vm_compute .. | |].
  - intros k c.
    assert (forallb (λ p, bool_decide (ItemNameByCode !! Z.to_nat p.2 = Some (Some p.1)) && (0 <=? p.2)) ItemCodes = true)
      as H1 by (by vm_compute).
    assert (forallb (λ n, match ItemNameByCode !! n with
                          | Some (Some k) => bool_decide ((k, Z.of_nat n) ∈ ItemCodes) | _ => true end)
              (seq 0 51) = true) as H2 by (by vm_compute).
    rewrite forallb_forall in H1, H2. split.
    + intros Hin%list_elem_of_In. specialize (H1 _ Hin). cbn [fst snd] in H1.
      apply andb_prop in H1 as [H%bool_decide_eq_true ?].
      exists (Z.to_nat c). split; [lia | done].
    + intros (n & -> & Hn). assert (n < 51)%nat as Hl by (apply lookup_lt_Some in Hn; by vm_compute in Hn).
      specialize (H2 n ltac:(apply in_seq; lia)). rewrite Hn in H2. by apply bool_decide_eq_true in H2.
  - intros i Hi.
    assert (forallb (λ n, match ItemData !! n with
                          | Some (Some d) => bool_decide ((itemcode d, Z.of_nat n) ∈ ItemCodes) | _ => false end)
              (seq 0 51) = true) as H by (by vm_compute).
    rewrite forallb_forall in H. specialize (H i ltac:(apply in_seq; lia)).
    destruct (ItemData !! i) as [[d|]|]; [|done..]. exists d. split; [done|]. by apply bool_decide_eq_true in H.
Qed.

(** ** What the panel shows *)

(** At most one child in a place. *)
Definition single (p : Place) : Prop := (length (children p) <= 1)%nat.

(** The items [es] stand in the first places, with their counts. *)
Record showing (es : list (Z * Z)) (g : GUIInventory) : Prop := {
  sh_places : forall i e, es !! i = Some e -> inventoryPlaces g !! i = Some (mkPlace [e.1] true);
  sh_texts : forall e, e ∈ es -> inventoryCells g !! e.1 = Some e.2;
  sh_single : Forall single (inventoryPlaces g) }.

(** What no operation of the panel changes. *)
Definition same_panel (g g' : GUIInventory) : Prop :=
  isMinimized g' = isMinimized g /\ length (inventoryPlaces g') = length (inventoryPlaces g) /\
  dom (inventoryCells g') = dom (inventoryCells g).

#[global] Instance same_panel_preorder : PreOrder same_panel.
Proof.
  split; [by intros g | intros g1 g2 g3 (?&?&?) (?&?&?); unfold same_panel; split_and!; congruence].
Qed.

Lemma single_detach item p : single p -> single (detach item p).
Proof. unfold single, detach. cbn [children]. pose proof (length_filter (λ c, c <> item) (children p)). lia. Qed.

Lemma append_child_lookup n item l i :
  append_child n item l !! i =
  (λ p, if decide (i = n) then mkPlace (children (detach item p) ++ [item]) (displayed p) else detach item p) <$> l !! i.
Proof.
  unfold append_child. destruct (decide (i = n)) as [->|Hn].
  - rewrite list_lookup_alter_eq, list_lookup_fmap. by destruct (l !! n).
  - rewrite list_lookup_alter_ne by done. rewrite list_lookup_fmap. done.
Qed.

Lemma length_append_child n item l : length (append_child n item l) = length l.
Proof. unfold append_child. by rewrite length_alter, length_fmap. Qed.

(** Showing the next item. *)
Definition show_one (item count : Z) (n : nat) (g : GUIInventory) : JsError + GUIInventory :=
  and_then (SetItemInPlace (Some item) n g) (λ g, and_then (set_text item count g) (set_display true n)).

Lemma single_head p item : single p -> head (children p) = Some item -> children p = [item].
Proof. unfold single. destruct (children p) as [|c [|c' l]]; cbn; [done | by intros _ [= ->] | lia]. Qed.

Lemma filter_absent (item : Z) (cs : list Z) : item ∉ cs -> filter (λ c, c <> item) cs = cs.
Proof.
  induction cs as [|c cs IH]; [done|]. intros [Hc Hcs]%not_elem_of_cons.
  rewrite filter_cons_True by done. by rewrite IH.
Qed.

(** Placing an item leaves it alone in its place, takes it from no earlier one. *)
Lemma SetItemInPlace_ok item n g :
  (n < length (inventoryPlaces g))%nat -> is_Some (inventoryCells g !! item) -> Forall single (inventoryPlaces g) ->
  exists g', SetItemInPlace (Some item) n g = inr g' /\ same_panel g g' /\ inventoryCells g' = inventoryCells g /\
    Forall single (inventoryPlaces g') /\
    (forall i p, i <> n -> inventoryPlaces g !! i = Some p -> item ∉ children p ->
       inventoryPlaces g' !! i = Some p) /\
    exists d, inventoryPlaces g' !! n = Some (mkPlace [item] d).
Proof.
  intros Hn [t Ht] Hs. destruct (lookup_lt_is_Some_2 _ _ Hn) as [p Hp].
  unfold SetItemInPlace. rewrite Ht, Hp. case_decide as Hd.
  { exists g. split_and!; try done. exists (displayed p). rewrite Hp. f_equal.
    rewrite Forall_lookup in Hs. pose proof (single_head p item (Hs n p Hp) Hd) as E. destruct p. cbn in *. by subst. }
  set (l := alter clear_place n (inventoryPlaces g)).
  assert (l !! n = Some (mkPlace [] (displayed p))) as Hl by (unfold l; by rewrite list_lookup_alter_eq, Hp).
  assert (length l = length (inventoryPlaces g)) as Hlen by (unfold l; by rewrite length_alter).
  assert (Forall single l) as Hsl.
  { apply Forall_alter; [done|]. intros. unfold single, clear_place. cbn. lia. }
  eexists. split; [done|]. unfold same_panel, with_places. cbn [isMinimized inventoryCells inventoryPlaces].
  rewrite length_append_child. split_and!; [done..| | |].
  - apply Forall_lookup. intros i q Hq. rewrite append_child_lookup in Hq.
    apply fmap_Some in Hq as (q' & Hq' & ->). case_decide as Hi.
    + subst i. rewrite Hl in Hq'. injection Hq' as <-. unfold single. cbn. lia.
    + apply single_detach. rewrite Forall_lookup in Hsl. by eapply Hsl.
  - intros i q Hi Hq Hni. rewrite append_child_lookup. unfold l. rewrite list_lookup_alter_ne, Hq by done. cbn.
    rewrite decide_False by done. f_equal. unfold detach. destruct q as [cs b]. cbn in *. f_equal.
    by apply filter_absent.
  - exists (displayed p). rewrite append_child_lookup, Hl. cbn. by rewrite decide_True.
Qed.

Lemma set_text_ok item count g :
  is_Some (inventoryCells g !! item) ->
  exists g', set_text item count g = inr g' /\ same_panel g g' /\ inventoryPlaces g' = inventoryPlaces g /\
    inventoryCells g' = <[item := count]> (inventoryCells g).
Proof.
  intros [t Ht]. unfold set_text. rewrite Ht. eexists. split; [done|]. unfold same_panel. cbn.
  split_and!; [done..| |done|done]. rewrite dom_insert_L. apply elem_of_dom_2 in Ht. set_solver.
Qed.

Lemma set_display_ok b n g p :
  inventoryPlaces g !! n = Some p ->
  exists g', set_display b n g = inr g' /\ same_panel g g' /\ inventoryCells g' = inventoryCells g /\
    inventoryPlaces g' = alter (show_place b) n (inventoryPlaces g).
Proof.
  intros Hp. unfold set_display. rewrite Hp. eexists. split; [done|]. unfold same_panel. cbn.
  by rewrite length_alter.
Qed.

Lemma show_one_ok item count es g :
  showing es g -> item ∉ es.*1 -> is_Some (inventoryCells g !! item) ->
  (length es < length (inventoryPlaces g))%nat ->
  exists g', show_one item count (length es) g = inr g' /\ same_panel g g' /\ showing (es ++ [(item, count)]) g'.
Proof.
  intros [Hp Ht Hs] Hni Hc Hn.
  destruct (SetItemInPlace_ok item (length es) g Hn Hc Hs) as (g1 & E1 & K1 & C1 & S1 & P1 & d & D1).
  destruct (set_text_ok item count g1) as (g2 & E2 & K2 & P2 & C2); [by rewrite C1|].
  destruct (set_display_ok true (length es) g2 (mkPlace [item] d)) as (g3 & E3 & K3 & C3 & P3); [by rewrite P2|].
  exists g3. unfold show_one. rewrite E1. cbn [and_then]. rewrite E2. cbn [and_then]. rewrite E3.
  split; [done|]. split; [by transitivity g2; [transitivity g1|]|]. split.
  - intros i e He. rewrite P3, P2. destruct (decide (i = length es)) as [->|Hi].
    + rewrite lookup_app_r, Nat.sub_diag in He by lia. injection He as <-.
      by rewrite list_lookup_alter_eq, D1.
    + rewrite list_lookup_alter_ne by done.
      assert (es !! i = Some e) as He'.
      { rewrite <- (lookup_app_l _ [(item, count)]); [done|]. apply lookup_lt_Some in He. rewrite length_app in He. cbn in He. lia. }
      apply P1; [done | by apply Hp |]. cbn. intros ->%list_elem_of_singleton. apply Hni.
      apply list_elem_of_fmap. exists e. split; [done|]. by eapply list_elem_of_lookup_2.
  - intros e [He|He]%elem_of_app; rewrite C3, C2, C1.
    + rewrite lookup_insert_ne; [by apply Ht|]. intros ->. apply Hni. by apply list_elem_of_fmap_2.
    + apply list_elem_of_singleton in He as ->. apply lookup_insert_eq.
  - rewrite P3, P2. by apply Forall_alter.
Qed.

(** How much of the inventory is visible. *)
Definition visible (g : GUIInventory) (es : list (Z * Z)) : list (Z * Z) :=
  if isMinimized g then take 10 es else es.

Lemma visible_full g done es :
  isMinimized g = true -> (10 <= length done)%nat -> visible g (done ++ es) = visible g done.
Proof. unfold visible. intros -> H. by rewrite take_app_le. Qed.

Lemma show_items_ok es : forall done g,
  showing done g -> NoDup (done ++ es).*1 -> (forall e, e ∈ es -> is_Some (inventoryCells g !! e.1)) ->
  visible g done = done -> (length (visible g (done ++ es)) <= length (inventoryPlaces g))%nat ->
  exists g', show_items es (length done) g = inr (length (visible g (done ++ es)), g') /\ same_panel g g' /\
    showing (visible g (done ++ es)) g'.
Proof.
  induction es as [|[item count] es IH]; intros done g Hs Hnd Hc Hv Hl.
  { rewrite app_nil_r, Hv. by exists g. }
  cbn [show_items]. destruct (isMinimized g && (9 <? Z.of_nat (length done))) eqn:Em.
  - apply andb_prop in Em as [Em Hlen]. zprop.
    assert (forall l, visible g (done ++ l) = done) as Hall by (intros l; rewrite visible_full by (done || lia); done).
    rewrite Hall in Hl |- *. destruct (IH done g Hs) as (g' & E & K & H); [| |done|by rewrite Hall|].
    + rewrite fmap_app in Hnd |- *. apply list.NoDup_app in Hnd as (H1 & H2 & H3). apply list.NoDup_cons in H3 as [_ H3].
      apply list.NoDup_app. split_and!; [done| |done]. intros x Hx Hx'. apply (H2 x Hx). by right.
    + intros e He. apply Hc. by right.
    + rewrite Hall in E, H. by exists g'.
  - fold (show_one item count (length done) g).
    assert (visible g (done ++ [(item, count)]) = done ++ [(item, count)]) as Hv'.
    { unfold visible in *. destruct (isMinimized g); [|done]. cbn [andb] in Em. zprop. apply take_ge. rewrite length_app. cbn [length]. lia. }
    assert (length done < length (visible g (done ++ (item, count) :: es)))%nat as Hlt.
    { unfold visible in *. destruct (isMinimized g); cbn [andb] in Em; zprop; rewrite ?length_take, length_app; cbn [length]; lia. }
    destruct (show_one_ok item count done g Hs) as (g1 & E1 & K1 & S1); [| |lia|].
    + rewrite fmap_app in Hnd. apply list.NoDup_app in Hnd as (_ & H2 & _). intros Hx. apply (H2 item Hx). by left.
    + apply (Hc (item, count)). by left.
    + rewrite E1. destruct K1 as (Km & Kl & Kd).
      replace (S (length done)) with (length (done ++ [(item, count)])) by (rewrite length_app; cbn; lia).
      assert (forall l, visible g1 l = visible g l) as Hvis by (intros l; unfold visible; by rewrite Km).
      destruct (IH (done ++ [(item, count)]) g1 S1) as (g' & E & K & H).
      * by rewrite <- app_assoc.
      * intros e He. apply elem_of_dom. rewrite Kd. apply elem_of_dom, Hc. by right.
      * by rewrite Hvis.
      * rewrite Hvis, <- app_assoc, Kl. done.
      * rewrite Hvis, <- app_assoc in E, H. exists g'. split; [done|]. split; [|done]. by transitivity g1.
Qed.

Lemma subset_length (l : list Z) (X : gset Z) : NoDup l -> (forall x, x ∈ l -> x ∈ X) -> (length l <= size X)%nat.
Proof.
  intros Hn H. rewrite <- (size_list_to_set (C := gset Z) l Hn). apply subseteq_size.
  intros x Hx. apply H. by apply elem_of_list_to_set in Hx.
Qed.

(** The panels of the page: the 51 items, 60 places of at most one child. *)
Definition panel_ok (g : GUIInventory) : Prop :=
  dom (inventoryCells g) = dom (inventoryCells new_GUIInventory) /\
  length (inventoryPlaces g) = 60%nat /\ Forall single (inventoryPlaces g).

Lemma new_panel_ok : panel_ok new_GUIInventory.
Proof.
  split_and!; [done | by vm_compute |]. unfold new_GUIInventory. cbn [inventoryPlaces].
  apply Forall_replicate. unfold single. cbn. lia.
Qed.

Lemma same_panel_ok g g' : same_panel g g' -> Forall single (inventoryPlaces g') -> panel_ok g -> panel_ok g'.
Proof. intros (_ & Hl & Hd) Hs (H1 & H2 & _). unfold panel_ok. split_and!; congruence. Qed.

Lemma item_in_panel c : 0 <= c <= 50 -> c ∈ dom (inventoryCells new_GUIInventory).
Proof.
  intros Hc. assert (forallb (λ n, bool_decide (is_Some (inventoryCells new_GUIInventory !! n))) (seqZ 0 51) = true)
    as H by (by vm_compute).
  apply elem_of_dom. pose proof (range_check _ _ _ H c ltac:(lia)) as Hb. by apply bool_decide_eq_true in Hb.
Qed.

Lemma take_nil_visible g : visible g [] = [].
Proof. unfold visible. by destruct (isMinimized g). Qed.

Lemma visible_fits g (es : list (Z * Z)) :
  NoDup es.*1 -> (forall e, e ∈ es -> 0 <= e.1 <= 50) -> (length (visible g es) <= 60)%nat.
Proof.
  intros Hn Hc. assert (length es <= 51)%nat.
  { change 51%nat with (Z.to_nat 51). rewrite <- (length_fmap fst), <- (length_seqZ 0 51).
    apply (subset_length _ (list_to_set (seqZ 0 51))) in Hn.
    - rewrite size_list_to_set in Hn by apply NoDup_seqZ. done.
    - intros x (e & -> & He)%list_elem_of_fmap. apply elem_of_list_to_set, elem_of_seqZ. specialize (Hc e He). lia. }
  unfold visible. destruct (isMinimized g); rewrite ?length_take; lia.
Qed.

Lemma hide_from_shows g g1 es :
  showing es g1 -> panel_ok g1 -> isMinimized g1 = isMinimized g ->
  let g' := hide_from (length es) g1 in
  panel_ok g' /\ isMinimized g' = isMinimized g /\
  (forall i, (i < 60)%nat -> inventoryPlaces g' !! i =
     Some (match es !! i with Some e => mkPlace [e.1] true | None => mkPlace [] false end)) /\
  (forall e, e ∈ es -> inventoryCells g' !! e.1 = Some e.2).
Proof.
  intros [Hp Ht Hs] (Hd & Hl & _) Hm. cbv zeta. unfold hide_from, panel_ok, with_places.
  cbn [isMinimized inventoryCells inventoryPlaces]. split_and!; [done | by rewrite length_imap | | done | | done].
  - apply Forall_lookup. intros i q Hq. rewrite list_lookup_imap in Hq. apply fmap_Some in Hq as (q' & Hq' & ->).
    case_decide; [unfold single; cbn; lia|]. rewrite Forall_lookup in Hs. by eapply Hs.
  - intros i Hi. rewrite list_lookup_imap. destruct (lookup_lt_is_Some_2 (inventoryPlaces g1) i ltac:(lia)) as [q Hq].
    rewrite Hq. cbn. destruct (es !! i) as [e|] eqn:E.
    + rewrite decide_False by (apply lookup_lt_Some in E; lia). rewrite (Hp i e E) in Hq. by injection Hq as <-.
    + rewrite decide_True by (by apply lookup_ge_None in E). done.
Qed.

(** The panel shows the items of a bot: those that are visible in the first places,
    with their counts, all other places are empty and hidden. *)
Definition shows_items (bot : option (list (Z * Z))) (g : GUIInventory) : Prop :=
  let es := visible g (default [] bot) in
  (forall i, (i < 60)%nat -> inventoryPlaces g !! i =
     Some (match es !! i with Some e => mkPlace [e.1] true | None => mkPlace [] false end)) /\
  (forall e, e ∈ es -> inventoryCells g !! e.1 = Some e.2).

Lemma Update_shows (g : GUIInventory) (bot : option (list (Z * Z))) :
  panel_ok g -> NoDup (default [] bot).*1 -> (forall e, e ∈ default [] bot -> 0 <= e.1 <= 50) ->
  exists g', Update bot g = inr g' /\ panel_ok g' /\ isMinimized g' = isMinimized g /\ shows_items bot g'.
Proof.
  intros Hg Hnd Hc. enough (exists g', Update bot g = inr g' /\ panel_ok g' /\ isMinimized g' = isMinimized g /\
    let es := visible g (default [] bot) in
    (forall i, (i < 60)%nat -> inventoryPlaces g' !! i =
       Some (match es !! i with Some e => mkPlace [e.1] true | None => mkPlace [] false end)) /\
    (forall e, e ∈ es -> inventoryCells g' !! e.1 = Some e.2)) as (g' & E & Hp & Hm & H).
  { exists g'. split_and!; [done..|]. unfold shows_items. assert (visible g' (default [] bot) = visible g (default [] bot)) as ->; [|done].
    unfold visible. by rewrite Hm. }
  cbv zeta. destruct bot as [es|]; cbn [default] in *.
  - destruct (show_items_ok es [] g) as (g1 & E & K & H); [| done | | by apply take_nil_visible | |].
    + split; [done | by intros e He%not_elem_of_nil | apply Hg].
    + intros e He. apply elem_of_dom. rewrite (proj1 Hg). by apply item_in_panel, Hc.
    + cbn [app]. destruct Hg as (_ & -> & _). by apply visible_fits.
    + cbn [app length] in E, H. unfold Update. rewrite E. eexists. split; [done|].
      apply hide_from_shows; [done | by apply (same_panel_ok g g1 K (sh_single _ _ H)) | apply K].
  - exists (hide_from 0 g). split; [done|]. unfold visible. rewrite take_nil. replace (if isMinimized g then [] else []) with (@nil (Z * Z)) by (by destruct (isMinimized g)).
    apply (hide_from_shows g g []); [|done|done]. split; [done | by intros e He%not_elem_of_nil | apply Hg].
Qed.

(** C24: The inventory panel always shows the inventory: whatever it showed before,
    for whatever bot whose items have different codes from 0 to 50, as all that exist have, an
    update never throws and then place i shows exactly the i-th item of the bot, with its count, as far as there are items - the first
    ten while the panel is minimized -, every other place is empty and hidden, and
    without a bot all of them are. *)
Theorem inventory_shown (g : GUIInventory) (bot : option (list (Z * Z)))
    (Hg : panel_ok g) (Hnd : NoDup (default [] bot).*1)
    (Hc : forall e, e ∈ default [] bot -> 0 <= e.1 <= 50) :
  let es := visible g (default [] bot) in
  exists g', Update bot g = inr g' /\ panel_ok g' /\ isMinimized g' = isMinimized g /\
    (forall i, (i < 60)%nat -> inventoryPlaces g' !! i =
       Some (match es !! i with Some e => mkPlace [e.1] true | None => mkPlace [] false end)) /\
    (forall e, e ∈ es -> inventoryCells g' !! e.1 = Some e.2).
Proof.
  cbv zeta. destruct (Update_shows g bot Hg Hnd Hc) as (g' & E & Hp & Hm & H1 & H2). exists g'.
  assert (visible g (default [] bot) = visible g' (default [] bot)) as -> by (unfold visible; by rewrite Hm).
  by split_and!.
Qed.

Lemma inventory_shown_witness :
  exists g', Update (Some [(7, 3); (0, 12)]) (SwitchMinimizing new_GUIInventory) = inr g' /\
    inventoryPlaces g' !! 1%nat = Some (mkPlace [0] true) /\ inventoryPlaces g' !! 2%nat = Some (mkPlace [] false).
Proof.
  destruct (inventory_shown (SwitchMinimizing new_GUIInventory) (Some [(7, 3); (0, 12)])) as (g' & E & _ & _ & P & _).
  - exact new_panel_ok.
  - apply (bool_decide_unpack _). vm_compute. exact I.
  - intros e [->|[->|[]%not_elem_of_nil]%elem_of_cons]%elem_of_cons; cbn; lia.
  - exists g'. split; [exact E|]. split; [apply (P 1%nat) | apply (P 2%nat)]; lia.
Defined.
