(* ===== verification/StatusPanel.v ===== *)
(** * The status panels

    Models the panels of [scripts/userGUI/guiControls.js] that show the current bot
    - [BotstatusPanel], [CastomProgressBar], [BotBasicInfoPanel] - and [BotInfo] of
    [scripts/wrenderer.js], which writes a part of the state on the canvas and
    refreshes the panels every few frames.  The panels write only what has
    changed: each keeps what it wrote last. *)

From S2P Require Import Prelude Host JsNum JsText Blocks WMap Vec Cargo Machine InventoryPanel Names.

(** ** The modes *)

(** The fields of [class BotMode] in their order, as booleans; the last two are
    never written. *)
Definition mode_entries (m : BotMode) : list (string * bool) :=
  [ ("autodigg", autodigg m); ("roadignore", roadignore m); ("agr", agr m); ("debug", debug m);
    ("hand", hand m); ("accuaccelerate", false); ("overweight", false) ]%string.

(** [BotstatusPanel]: for every element whether it is hidden. *)
Abbreviation BotstatusPanel := (gmap string bool).
Definition status_elements : list string :=
  ["autodigg"; "roadignore"; "agr"; "debug"; "hand"; "accuaccelerate"; "overweight"]%string.
Definition new_BotstatusPanel : BotstatusPanel := list_to_map ((λ k, (k, false)) <$> status_elements).

(** [SetValues(bmodes)]. *)
Fixpoint SetValues (entries : list (string * bool)) (p : BotstatusPanel) : JsError + BotstatusPanel :=
  match entries with
  | [] => inr p
  | (key, v) :: entries =>
      match p !! key with
      | None => inl TypeError
      | Some hidden => SetValues entries (if negb (eqb hidden (negb v)) then <[key := negb v]> p else p)
      end
  end.

(** ** Progress bars *)

(** [CastomProgressBar]: its value, the width of the line in percent, the text of
    the percents, the label and its title; whether labels are formatted and
    percents are shortened. *)
Record CastomProgressBar := mkBar {
  b_value : num; line_width : num; PersentText : JsStr; LabelDIV : JsStr; Label_title : JsStr;
  LabelDataFormat : bool; persentsCut : bool }.

Definition bar_max : num := num_of_Z 100.
Definition clip (v : num) : num := if num_ltb bar_max v then bar_max else v.

(** [constructor(container, width, height, value, params)]. *)
Definition new_CastomProgressBar (value : Z) (format cut : bool) : CastomProgressBar :=
  mkBar (num_of_Z value) (clip (num_of_Z value)) (int_text value ++ u "%") (int_text value) [] format cut.

(** [`${persentsCut ? MoneyConverter.toKKKformat(~~value, 1000) : ~~value}%`]. *)
Definition percents (cut : bool) (v : num) : JsStr :=
  (if cut then toKKKformat (to_int32 v) 1000 else int_text (to_int32 v)) ++ u "%".

(** [set value(val)]. *)
Definition set_value (v : num) (b : CastomProgressBar) : CastomProgressBar :=
  if negb (num_eqb v (b_value b)) then
    mkBar v (clip v) (percents (persentsCut b) v) (LabelDIV b) (Label_title b) (LabelDataFormat b) (persentsCut b)
  else b.

(** The format of the labels, with the default bound of [toKKKformat]. *)
Definition label_text (format : bool) (n : Z) : JsStr := if format then toKKKformat n 100000 else int_text n.

(** [set Label(val)] with a number. *)
Definition set_Label (n : Z) (b : CastomProgressBar) : CastomProgressBar :=
  if bool_decide (text_number (LabelDIV b) = Some n) then b
  else mkBar (b_value b) (line_width b) (PersentText b) (label_text (LabelDataFormat b) n)
         (if LabelDataFormat b then int_text n else []) (LabelDataFormat b) (persentsCut b).

(** [set Label(val)] with a text, where labels are not formatted. *)
Definition set_Label_text (s : JsStr) (b : CastomProgressBar) : CastomProgressBar :=
  mkBar (b_value b) (line_width b) (PersentText b) s [] (LabelDataFormat b) (persentsCut b).

(** ** The basic information *)

Record BotBasicInfoPanel := mkInfo {
  nickNameDIV : JsStr; coordsDIV : JsStr; botCoordsPrev : Vector2d;
  BarHP : CastomProgressBar; BarCryCargoAll : CastomProgressBar; BarCryCargo : list (CryKey * CastomProgressBar) }.

(** [constructor(targetWRenderer)]; the texts the document starts with are
    arguments. *)
Definition new_BotBasicInfoPanel (nick coords : JsStr) : BotBasicInfoPanel :=
  mkInfo nick coords (mkV2 0 0)
    (new_CastomProgressBar 15 false false)
    (set_Label_text [1054; 1073; 1097; 1080; 1081; 32; 1075; 1088; 1091; 1079; 58] (new_CastomProgressBar 0 false true))
    [ (K_g, new_CastomProgressBar 15 true true); (K_b, new_CastomProgressBar 15 true true);
      (K_r, new_CastomProgressBar 15 true true); (K_w, new_CastomProgressBar 25 true true);
      (K_v, new_CastomProgressBar 15 true true); (K_c, new_CastomProgressBar 66 true true) ].

(** [`X:${val.x} Y:${val.y}`]. *)
Definition coords_text (p : Vector2d) : JsStr := u "X:" ++ int_text (vx p) ++ u " Y:" ++ int_text (vy p).

(** [set coords(val)]. *)
Definition set_coords (p : Vector2d) (i : BotBasicInfoPanel) : BotBasicInfoPanel :=
  if decide (botCoordsPrev i = p) then i
  else mkInfo (nickNameDIV i) (coords_text p) p (BarHP i) (BarCryCargoAll i) (BarCryCargo i).

(** One step of [BarCryCargo.forEach]. *)
Definition show_crystals (c : BotCargo) (e : CryKey * CastomProgressBar) : CryKey * CastomProgressBar :=
  (e.1, set_value (num_mul (GetVolume c (Some e.1)) (num_of_Z 100)) (set_Label (cry_get (cry c) e.1) e.2)).

(** [Update()], for the current bot and its name. *)
Definition info_Update (bot : option (Bot * JsStr)) (i : BotBasicInfoPanel) : BotBasicInfoPanel :=
  match bot with
  | Some (b, nick) =>
      let i := set_coords (position b) (mkInfo nick (coordsDIV i) (botCoordsPrev i) (BarHP i) (BarCryCargoAll i) (BarCryCargo i)) in
      let s := bot_stats b in
      let hp := set_value (num_mul (num_div (num_of_Z (hpNow s)) (num_of_Z (hpMax s))) (num_of_Z 100))
                  (set_Label (hpNow s) (BarHP i)) in
      let all := set_value (num_mul (GetVolume (cargo b) None) (num_of_Z 100)) (BarCryCargoAll i) in
      mkInfo (nickNameDIV i) (coordsDIV i) (botCoordsPrev i) hp all (show_crystals (cargo b) <$> BarCryCargo i)
  | None => i
  end.

(** ** What is written on the canvas *)

(** [BotInfo()] writes the blocks picked up last, ... *)
Fixpoint geo_blocks (n : nat) (geo : list Z) (i : Z) : JsStr :=
  match n with
  | O => []
  | S n =>
      if 0 <=? i then
        match aget geo i with Some b => int_text b | None => u "undefined" end ++ u "-" ++ geo_blocks n geo (i - 1)
      else []
  end.

Definition geo_text (c : BotCargo) : JsStr :=
  u "Geo:[" ++ (u "-" ++ geo_blocks 5 (geo c) (geoFilledValue c - 1)) ++ u "]" ++
  int_text (geoFilledValue c) ++ u "/" ++ int_text (geo_length c).

(** ... and the blocks and densities around the bot. *)
Definition around_texts (m : WorldMap) (p : Vector2d) : list (Z * Z * JsStr) :=
  flat_map (λ dy, flat_map (λ dx,
    [ (50 + 20 * dx, 320 + 20 * dy, int_text (GetIDByCoord m (vx p + dx) (vy p + dy)));
      (50 + 20 * dx, 320 + 10 + 20 * dy, int_text (GetMetaByCoord m (vx p + dx) (vy p + dy))) ])
    (up_to (-1) 2)) (up_to (-1) 2).

(** ** The panels of a frame *)

Record Hud := mkHud { hud_inventory : GUIInventory; hud_info : BotBasicInfoPanel; hud_status : BotstatusPanel }.

(** What a frame is told of the current bot: the bot, its name and the entries of
    its inventory in the order of the map. *)
Record Shown := mkShown { s_bot : Bot; s_nick : JsStr; s_items : list (Z * Z) }.

(** The last lines of [BotInfo()]. *)
Definition refresh_panels (frameCount : Z) (s : Shown) (h : Hud) : JsError + Hud :=
  match (if frameCount mod 15 =? 0 then InventoryPanel.Update (Some (s_items s)) (hud_inventory h)
         else inr (hud_inventory h)) with
  | inl e => inl e
  | inr inv =>
      let info := if frameCount mod 5 =? 3 then info_Update (Some (s_bot s, s_nick s)) (hud_info h) else hud_info h in
      match (if frameCount mod 5 =? 0 then SetValues (mode_entries (mode (s_bot s))) (hud_status h)
             else inr (hud_status h)) with
      | inl e => inl e
      | inr status => inr (mkHud inv info status)
      end
  end.

(** Some frames, one after the other. *)
Fixpoint frames (counts : list Z) (s : Shown) (h : Hud) : JsError + Hud :=
  match counts with
  | [] => inr h
  | c :: counts => match refresh_panels c s h with inl e => inl e | inr h => frames counts s h end
  end.

(** ** The modes *)

Lemma SetValues_shows entries p :
  NoDup entries.*1 -> (forall k, k ∈ entries.*1 -> is_Some (p !! k)) ->
  exists p', SetValues entries p = inr p' /\ dom p' = dom p /\
    (forall k v, (k, v) ∈ entries -> p' !! k = Some (negb v)) /\
    (forall k, k ∉ entries.*1 -> p' !! k = p !! k).
Proof.
  revert p. induction entries as [|[key v] entries IH]; intros p Hd Hk.
  { exists p. split_and!; [done|done| by intros k v Hin%not_elem_of_nil | done]. }
  cbn [SetValues]. destruct (Hk key) as [hidden Eh]; [by left|]. rewrite Eh.
  apply list.NoDup_cons in Hd as [Hn Hd]. set (p1 := if negb _ then _ else p).
  assert (dom p1 = dom p /\ p1 !! key = Some (negb v) /\ forall k, k <> key -> p1 !! k = p !! k) as (D1 & K1 & O1).
  { unfold p1. destruct (eqb hidden (negb v)) eqn:E; cbn [negb].
    - apply eqb_prop in E as ->. done.
    - split_and!; [rewrite dom_insert_lookup_L; [done | by eexists] | by rewrite lookup_insert_eq |].
      intros k Hne. by rewrite lookup_insert_ne. }
  destruct (IH p1 Hd) as (p' & E & D & Hs & Ho).
  { intros k Hin. rewrite O1; [by apply Hk; right|]. intros ->. done. }
  exists p'. split_and!; [done | by rewrite D | |].
  - intros k w [[= -> ->]|Hin]%elem_of_cons; [|by apply Hs]. by rewrite Ho.
  - intros k Hk'. apply not_elem_of_cons in Hk' as [Hne Hk']. by rewrite Ho, O1.
Qed.

Definition status_ok (p : BotstatusPanel) : Prop := forall k, k ∈ status_elements -> is_Some (p !! k).

Lemma mode_keys m : (mode_entries m).*1 = status_elements.
Proof. done. Qed.

Lemma status_keys_nodup : NoDup status_elements.
Proof. apply (bool_decide_unpack _). vm_compute. exact I. Qed.

(** The status panel shows a mode: its icon is hidden exactly when it is off. *)
Definition status_shows (m : BotMode) (p : BotstatusPanel) : Prop :=
  forall k v, (k, v) ∈ mode_entries m -> p !! k = Some (negb v).

Lemma SetValues_ok m p : status_ok p ->
  exists p', SetValues (mode_entries m) p = inr p' /\ status_ok p' /\ status_shows m p'.
Proof.
  intros Hp. destruct (SetValues_shows (mode_entries m) p) as (p' & E & D & Hs & _).
  - rewrite mode_keys. apply status_keys_nodup.
  - by rewrite mode_keys.
  - exists p'. split_and!; [done| |done]. intros k Hk. apply elem_of_dom. rewrite D. by apply elem_of_dom, Hp.
Qed.

(** ** A bar *)

(** Equal for the eye: the same number, or zeros of different sign. *)
Definition same_num (x y : num) : Prop := x = y \/ exists s s', x = S754_zero s /\ y = S754_zero s'.

#[global] Instance same_num_symmetric : Symmetric same_num.
Proof. intros x y [->|(s & s' & -> & ->)]; [by left | right; by exists s', s]. Qed.

Lemma num_eqb_same x y : num_eqb x y = true -> same_num x y.
Proof.
  unfold num_eqb, SFeqb. destruct x as [s|s| |s m e], y as [s'|s'| |s' m' e']; cbn; try done; try (destruct s; done); try (destruct s'; done).
  - intros _. right. by exists s, s'.
  - destruct s, s'; try done; by left.
  - destruct s, s'; try done; destruct (Z.compare_spec e e') as [->| |]; try done.
    + destruct (Pos.compare_cont Eq m m') eqn:E; try done. apply Pos.compare_eq in E as ->. by left.
    + destruct (Pos.compare_cont Eq m m') eqn:E; try done. apply Pos.compare_eq in E as ->. by left.
Qed.

(** Numbers that are the same for the eye are drawn the same. *)
Lemma same_num_drawn cut x y : same_num x y -> same_num (clip x) (clip y) /\ percents cut x = percents cut y.
Proof.
  intros [->|(s & s' & -> & ->)]; [split; [by left | reflexivity]|]. split; [|reflexivity].
  right. exists s, s'. by destruct s, s'.
Qed.

(** What a bar keeps: the line and the percents are those of its value. *)
Record bar_ok (b : CastomProgressBar) : Prop := {
  bk_line : line_width b = clip (b_value b);
  bk_text : PersentText b = percents (persentsCut b) (b_value b) }.

(** The bar shows v. *)
Record bar_shows (v : num) (b : CastomProgressBar) : Prop := {
  bs_line : same_num (line_width b) (clip v);
  bs_text : PersentText b = percents (persentsCut b) v }.

Lemma set_value_ok v b : bar_ok b -> bar_ok (set_value v b) /\ bar_shows v (set_value v b).
Proof.
  intros [Hl Ht]. unfold set_value. destruct (num_eqb v (b_value b)) eqn:E; cbn [negb].
  - split; [by split|]. apply num_eqb_same in E. destruct (same_num_drawn (persentsCut b) _ _ E) as [H1 H2].
    split; [|by rewrite Ht]. rewrite Hl. by symmetry.
  - split; [by split|]. split; [by left | done].
Qed.

(** ** Labels *)

(** A label is the text of one number only, of those the counters hold; when it is a
    numeral, the format did nothing. *)
Lemma label_number format n m : (format = true -> 0 <= m < 2 ^ 32) ->
  text_number (label_text format m) = Some n -> n = m /\ label_text format m = int_text m.
Proof.
  intros Hr. unfold label_text. destruct format; [|rewrite text_number_int; by intros [= ->]].
  specialize (Hr eq_refl). unfold toKKKformat. destruct (100000 <=? m) eqn:E1; [|rewrite text_number_int; by intros [= ->]].
  replace (10 ^ 3 <? m) with true by lia. rewrite andb_true_r.
  destruct (m <=? 10 ^ 6) eqn:E2.
  - rewrite Z.quot_div_nonneg by lia. change (u "K") with [75].
    rewrite text_number_unit; [done | apply Z.div_pos; lia | done].
  - replace (10 ^ 6 <? m) with true by lia. rewrite andb_true_r. destruct (m <=? 10 ^ 9) eqn:E3.
    + rewrite Z.quot_div_nonneg by lia. change (u "M") with [77]. rewrite text_number_unit; [done | apply Z.div_pos; lia | done].
    + replace (10 ^ 9 <? m) with true by lia. replace (m <=? 10 ^ 12) with true by lia. cbn [andb].
      rewrite Z.quot_div_nonneg by lia. change (u "B") with [66]. rewrite text_number_unit; [done | apply Z.div_pos; lia | done].
Qed.

(** A label shows a number: its text is the format of it, and the title, where
    there is one, the number itself - or still nothing. *)
Definition label_shows (n : Z) (b : CastomProgressBar) : Prop :=
  LabelDIV b = label_text (LabelDataFormat b) n /\
  (Label_title b = [] \/ (LabelDataFormat b = true /\ Label_title b = int_text n)).

Definition label_ok (b : CastomProgressBar) : Prop :=
  exists m, (LabelDataFormat b = true -> 0 <= m < 2 ^ 32) /\ label_shows m b.

Lemma set_Label_ok n b : (LabelDataFormat b = true -> 0 <= n < 2 ^ 32) -> label_ok b ->
  label_ok (set_Label n b) /\ label_shows n (set_Label n b) /\ (bar_ok b -> bar_ok (set_Label n b)).
Proof.
  intros Hn (m & Hm & Hl & Ht). unfold set_Label. case_bool_decide as E.
  - rewrite Hl in E. apply label_number in E as [-> E]; [|done]. split; [by exists m|]. done.
  - assert (label_shows n (mkBar (b_value b) (line_width b) (PersentText b) (label_text (LabelDataFormat b) n)
         (if LabelDataFormat b then int_text n else []) (LabelDataFormat b) (persentsCut b))) as Hs.
    { split; [done|]. cbn. destruct (LabelDataFormat b); [by right | by left]. }
    split; [by exists n|]. split; [done|]. intros [H1 H2]. by split.
Qed.

Lemma set_value_label v b :
  LabelDIV (set_value v b) = LabelDIV b /\ Label_title (set_value v b) = Label_title b /\
  LabelDataFormat (set_value v b) = LabelDataFormat b /\ persentsCut (set_value v b) = persentsCut b.
Proof. unfold set_value. by destruct (negb _). Qed.

(** ** The basic information *)

Record crystal_bar_ok (b : CastomProgressBar) : Prop := {
  cb_bar : bar_ok b; cb_label : label_ok b; cb_format : LabelDataFormat b = true; cb_cut : persentsCut b = true }.

(** What the panel keeps between two updates. *)
Record info_ok (i : BotBasicInfoPanel) : Prop := {
  ik_coords : botCoordsPrev i = mkV2 0 0 \/ coordsDIV i = coords_text (botCoordsPrev i);
  ik_hp : bar_ok (BarHP i) /\ label_ok (BarHP i) /\ LabelDataFormat (BarHP i) = false /\ persentsCut (BarHP i) = false;
  ik_all : bar_ok (BarCryCargoAll i) /\ persentsCut (BarCryCargoAll i) = true;
  ik_keys : (BarCryCargo i).*1 = CryCodes;
  ik_bars : Forall (λ e, crystal_bar_ok e.2) (BarCryCargo i) }.

Definition hp_percent (s : BotStats) : num := num_mul (num_div (num_of_Z (hpNow s)) (num_of_Z (hpMax s))) (num_of_Z 100).
Definition load_percent (c : BotCargo) (k : option CryKey) : num := num_mul (GetVolume c k) (num_of_Z 100).

(** The panel shows a bot and its name; the position (0, 0) may be missing. *)
Record info_shows (b : Bot) (nick : JsStr) (i : BotBasicInfoPanel) : Prop := {
  is_nick : nickNameDIV i = nick;
  is_coords : position b = mkV2 0 0 \/ coordsDIV i = coords_text (position b);
  is_hp : bar_shows (hp_percent (bot_stats b)) (BarHP i) /\ label_shows (hpNow (bot_stats b)) (BarHP i);
  is_all : bar_shows (load_percent (cargo b) None) (BarCryCargoAll i);
  is_bars : Forall (λ e, bar_shows (load_percent (cargo b) (Some e.1)) e.2 /\
                         label_shows (cry_get (cry (cargo b)) e.1) e.2) (BarCryCargo i) }.

Lemma cry_get_range c k : cargo_wf c -> 0 <= cry_get (cry c) k < 2 ^ 32.
Proof.
  intros (_ & _ & Hf). unfold cry_get. destruct (cry c !! cry_index k) as [v|] eqn:E; cbn [default]; [|lia].
  by apply (Forall_lookup_1 _ _ _ _ Hf E).
Qed.

Lemma new_bar_ok v format cut : 0 <= v < 100 -> bar_ok (new_CastomProgressBar v format cut) /\ label_ok (new_CastomProgressBar v format cut).
Proof.
  intros Hv. assert (toKKKformat v 1000 = int_text v /\ toKKKformat v 100000 = int_text v) as [E1 E2].
  { unfold toKKKformat. by replace (1000 <=? v) with false by lia; replace (100000 <=? v) with false by lia. }
  split.
  - split; [done|]. cbn. unfold percents. rewrite to_int32_of_Z by lia. by destruct cut; rewrite ?E1.
  - exists v. split; [lia|]. split; [|by left]. cbn. unfold label_text. by destruct format; rewrite ?E2.
Qed.

Lemma new_info_ok nick coords : info_ok (new_BotBasicInfoPanel nick coords).
Proof.
  assert (forall v, 0 <= v < 100 -> crystal_bar_ok (new_CastomProgressBar v true true)) as Hc.
  { intros v Hv. destruct (new_bar_ok v true true Hv). by split. }
  split.
  - by left.
  - destruct (new_bar_ok 15 false false) as [? ?]; [lia|]. done.
  - destruct (new_bar_ok 0 false true) as [[? ?] _]; [lia|]. done.
  - done.
  - unfold new_BotBasicInfoPanel. cbn [BarCryCargo]. repeat (constructor; [apply Hc; lia|]). constructor.
Qed.

Lemma show_crystals_ok c e : cargo_wf c -> crystal_bar_ok e.2 ->
  let e' := show_crystals c e in
  crystal_bar_ok e'.2 /\ bar_shows (load_percent c (Some e'.1)) e'.2 /\ label_shows (cry_get (cry c) e'.1) e'.2.
Proof.
  intros Hc [Hb Hl Hf Hp]. cbv zeta. unfold show_crystals. cbn [fst snd]. fold (load_percent c (Some e.1)).
  set (b1 := set_Label _ _). destruct (set_Label_ok (cry_get (cry c) e.1) e.2) as (L1 & L2 & L3); [by intros _; apply cry_get_range | done |].
  fold b1 in L1, L2, L3. specialize (L3 Hb).
  assert (LabelDataFormat b1 = true /\ persentsCut b1 = true) as [F1 F2] by (unfold b1, set_Label; by case_bool_decide).
  destruct (set_value_ok (load_percent c (Some e.1)) b1 L3) as [V1 V2].
  destruct (set_value_label (load_percent c (Some e.1)) b1) as (E1 & E2 & E3 & E4).
  split; [|split; [exact V2|]].
  - split; [done | | congruence | congruence]. destruct L1 as (m & H1 & H2 & H3). exists m. rewrite E3. split; [done|].
    unfold label_shows. by rewrite E1, E2, E3.
  - unfold label_shows in *. by rewrite E1, E2, E3.
Qed.

Lemma info_Update_ok b nick i : cargo_wf (cargo b) -> info_ok i ->
  info_ok (info_Update (Some (b, nick)) i) /\ info_shows b nick (info_Update (Some (b, nick)) i).
Proof.
  intros Hc [Hco (Hb & Hl & Hf & Hp) [Ha1 Ha2] Hk Hbs]. cbn [info_Update]. fold (hp_percent (bot_stats b)) (load_percent (cargo b) None).
  set (i1 := set_coords _ _).
  assert (BarHP i1 = BarHP i /\ BarCryCargoAll i1 = BarCryCargoAll i /\ BarCryCargo i1 = BarCryCargo i /\ nickNameDIV i1 = nick) as (-> & -> & -> & Hn).
  { unfold i1, set_coords. by destruct (decide _). }
  assert ((botCoordsPrev i1 = mkV2 0 0 \/ coordsDIV i1 = coords_text (botCoordsPrev i1)) /\ botCoordsPrev i1 = position b) as [C1 C2].
  { unfold i1, set_coords. cbn [botCoordsPrev]. destruct (decide (botCoordsPrev i = position b)); [done|]. by split; [right|]. }
  set (b1 := set_Label _ _). destruct (set_Label_ok (hpNow (bot_stats b)) (BarHP i)) as (L1 & L2 & L3); [by rewrite Hf | done |].
  fold b1 in L1, L2, L3. specialize (L3 Hb).
  assert (LabelDataFormat b1 = false /\ persentsCut b1 = false) as [F1 F2] by (unfold b1, set_Label; by case_bool_decide).
  destruct (set_value_ok (hp_percent (bot_stats b)) b1 L3) as [V1 V2].
  destruct (set_value_label (hp_percent (bot_stats b)) b1) as (E1 & E2 & E3 & E4).
  destruct (set_value_ok (load_percent (cargo b) None) _ Ha1) as [A1 A2].
  destruct (set_value_label (load_percent (cargo b) None) (BarCryCargoAll i)) as (_ & _ & _ & A4).
  split; split; cbn [botCoordsPrev coordsDIV BarHP BarCryCargoAll BarCryCargo nickNameDIV].
  - exact C1.
  - split; [exact V1|]. split; [|by rewrite E3, E4]. destruct L1 as (m & H1 & H2 & H3). exists m. rewrite E3. split; [done|].
    unfold label_shows. by rewrite E1, E2, E3.
  - by rewrite A4.
  - by rewrite <- list_fmap_compose.
  - apply Forall_fmap. eapply list.Forall_impl; [exact Hbs|]. intros e He. by apply show_crystals_ok.
  - exact Hn.
  - rewrite <- C2. exact C1.
  - split; [exact V2|]. unfold label_shows in *. by rewrite E1, E2, E3.
  - exact A2.
  - apply Forall_fmap. eapply list.Forall_impl; [exact Hbs|]. intros e He. by apply show_crystals_ok.
Qed.

(** A bot that stands at (0, 0) when the panel is new is shown without its
    position. *)
Lemma origin_not_shown nick0 coords0 b nick :
  position b = mkV2 0 0 -> coordsDIV (info_Update (Some (b, nick)) (new_BotBasicInfoPanel nick0 coords0)) = coords0.
Proof. intros Hp. unfold info_Update, set_coords. cbn [botCoordsPrev new_BotBasicInfoPanel]. by rewrite Hp, decide_True. Qed.

(** ** The blocks on the canvas *)

Lemma geo_blocks_spec n g : forall i, -1 <= i < Z.of_nat (length g) ->
  geo_blocks n g i = concat ((λ b, int_text b ++ u "-") <$> take n (reverse (take (Z.to_nat (i + 1)) g))).
Proof.
  induction n as [|n IH]; intros i Hi; [done|]. cbn [geo_blocks]. destruct (Z.leb_spec 0 i) as [H0|H0].
  - destruct (lookup_lt_is_Some_2 g (Z.to_nat i)) as [b Hb]; [lia|]. unfold aget. replace (0 <=? i) with true by lia.
    rewrite Hb. replace (Z.to_nat (i + 1)) with (S (Z.to_nat i)) by lia. rewrite (take_S_r _ _ _ Hb), reverse_app. cbn.
    rewrite IH by lia. replace (Z.to_nat (i - 1 + 1)) with (Z.to_nat i) by lia. by rewrite <- app_assoc.
  - by replace (Z.to_nat (i + 1)) with O by lia.
Qed.

(** The text lists the blocks picked up last, the last one first. *)
Lemma geo_text_shows c : cargo_wf c ->
  geo_text c = u "Geo:[-" ++ concat ((λ b, int_text b ++ u "-") <$> take 5 (geo_stack c)) ++ u "]" ++
    int_text (geoFilledValue c) ++ u "/" ++ int_text (geo_length c).
Proof.
  intros [H _]. unfold geo_text, geo_stack, geoFilledValue, geo_length in *. rewrite geo_blocks_spec by lia.
  by replace (geoLast c + 1 - 1 + 1) with (geoLast c + 1) by lia.
Qed.

(** ** The panels together *)

Record shown_ok (s : Shown) : Prop := {
  so_cargo : cargo_wf (cargo (s_bot s));
  so_nodup : NoDup (s_items s).*1;
  so_codes : forall e, e ∈ s_items s -> 0 <= e.1 <= 50 }.

Record hud_ok (h : Hud) : Prop := {
  hk_inventory : panel_ok (hud_inventory h);
  hk_info : info_ok (hud_info h);
  hk_status : status_ok (hud_status h) }.

(** The three panels, each showing the bot when P holds of it. *)
Definition hud_shows (P : Z -> Z -> Prop) (s : Shown) (h : Hud) : Prop :=
  (P 15 0 -> shows_items (Some (s_items s)) (hud_inventory h)) /\
  (P 5 3 -> info_shows (s_bot s) (s_nick s) (hud_info h)) /\
  (P 5 0 -> status_shows (mode (s_bot s)) (hud_status h)).

Lemma refresh_panels_ok P c s h : shown_ok s -> hud_ok h -> hud_shows P s h ->
  exists h', refresh_panels c s h = inr h' /\ hud_ok h' /\ hud_shows (λ p r, P p r \/ c mod p = r) s h'.
Proof.
  intros [S1 S2 S3] [K1 K2 K3] (H1 & H2 & H3). unfold refresh_panels.
  assert (exists inv, (if c mod 15 =? 0 then InventoryPanel.Update (Some (s_items s)) (hud_inventory h) else inr (hud_inventory h)) = inr inv /\
    panel_ok inv /\ (P 15 0 \/ c mod 15 = 0 -> shows_items (Some (s_items s)) inv)) as (inv & -> & I1 & I2).
  { destruct (c mod 15 =? 0) eqn:E; zprop.
    - destruct (Update_shows (hud_inventory h) (Some (s_items s)) K1 S2 S3) as (inv & Eu & Hp & _ & Hs). by exists inv.
    - exists (hud_inventory h). split_and!; [done|done|]. intros [?|?]; [by apply H1 | done]. }
  destruct (SetValues_ok (mode (s_bot s)) (hud_status h) K3) as (st & Es & V1 & V2).
  destruct (info_Update_ok (s_bot s) (s_nick s) (hud_info h) S1 K2) as [U1 U2].
  rewrite Es. set (info := info_Update _ _) in *. clearbody info.
  destruct (c mod 5 =? 3) eqn:E3, (c mod 5 =? 0) eqn:E0; zprop; (eexists; split; [done|]); (split; [by split|]);
    (split_and!; cbn [hud_inventory hud_info hud_status]; [exact I2 | |]); intros [?|?]; first [done | by apply H2 | by apply H3 | lia].
Qed.

Lemma hud_shows_mono (P Q : Z -> Z -> Prop) s h : (forall p r, Q p r -> P p r) -> hud_shows P s h -> hud_shows Q s h.
Proof. intros H (H1 & H2 & H3). split_and!; auto. Qed.

Lemma frames_ok s (Hs : shown_ok s) counts : forall P h, hud_ok h -> hud_shows P s h ->
  exists h', frames counts s h = inr h' /\ hud_ok h' /\ hud_shows (λ p r, P p r \/ exists c, c ∈ counts /\ c mod p = r) s h'.
Proof.
  induction counts as [|c counts IH]; intros P h Hk Hh; cbn [frames].
  - exists h. split_and!; [done|done|]. apply (hud_shows_mono P); [|done]. by intros p r [?|(c & Hc%not_elem_of_nil & _)].
  - destruct (refresh_panels_ok P c s h Hs Hk Hh) as (h1 & -> & Hk1 & Hh1).
    destruct (IH _ h1 Hk1 Hh1) as (h' & -> & Hk' & Hh'). exists h'. split_and!; [done|done|].
    eapply hud_shows_mono; [|exact Hh']. cbn beta. intros p r [?|(c' & [->|Hin]%elem_of_cons & E)]; [by left; left | by left; right |].
    right. by exists c'.
Qed.

(** C16: Fifteen frames bring every panel up to date, and nothing throws: whatever the
    panels showed before, after fifteen frames with the same bot as the current one
    the inventory panel shows its items, the information panel its name, its
    position, its health, and for every kind of crystals the number and the load,
    and the status panel has the icon of exactly the modes that are on - only a
    position of (0, 0) may be missing. *)
Theorem panels_follow (k : Z) (s : Shown) (h : Hud) (Hs : shown_ok s) (Hh : hud_ok h) :
  exists h', frames (up_to k (k + 15)) s h = inr h' /\ hud_ok h' /\
    shows_items (Some (s_items s)) (hud_inventory h') /\
    info_shows (s_bot s) (s_nick s) (hud_info h') /\
    status_shows (mode (s_bot s)) (hud_status h').
Proof.
  destruct (frames_ok s Hs (up_to k (k + 15)) (λ _ _, False) h Hh) as (h' & E & Hk & H1 & H2 & H3); [by split_and!|].
  assert (forall p r, 0 <= r < p -> p <= 15 -> exists c, c ∈ up_to k (k + 15) /\ c mod p = r) as Hc.
  { intros p r Hr Hp. exists (k + (r - k) mod p). split.
    - apply elem_of_up_to. pose proof (Z.mod_pos_bound (r - k) p). lia.
    - rewrite Zplus_mod_idemp_r. replace (k + (r - k)) with r by lia. by apply Z.mod_small. }
  exists h'. split_and!; [done|done|apply H1|apply H2|apply H3]; right; apply Hc; lia.
Qed.

Definition new_Hud : Hud := mkHud new_GUIInventory (new_BotBasicInfoPanel [] []) new_BotstatusPanel.

Lemma new_status_ok : status_ok new_BotstatusPanel.
Proof.
  intros k Hk. assert (forallb (λ k, match new_BotstatusPanel !! k with Some _ => true | None => false end) status_elements = true)
    as H by (vm_compute; reflexivity).
  rewrite forallb_forall in H. specialize (H k (proj1 (list_elem_of_In _ _) Hk)). by destruct (new_BotstatusPanel !! k).
Qed.

Lemma new_Hud_ok : hud_ok new_Hud.
Proof. split; [exact new_panel_ok | exact (new_info_ok [] []) | exact new_status_ok]. Qed.

(** A bot with 1234567 green crystals. *)
Definition rich_bot : Bot :=
  mkBot 1 None (mkV2 12 7) (mkV2 12 7) 0 0 0 (mkBotStats 250 500 20 (34 # 10))
    (mkBotCargo [1234567; 0; 0; 0; 0; 0] (-1) BotCargoStats (replicate 10 0)) new_BotItemInventory new_BotMode true 0
    (new_ProgramCondition 0).

Lemma panels_follow_witness :
  exists h', frames (up_to 100 115) (mkShown rich_bot (u "Ann") [(3, 5)]) new_Hud = inr h' /\
    coordsDIV (hud_info h') = u "X:12 Y:7" /\ PersentText (BarHP (hud_info h')) = u "50%" /\
    hud_status h' !! "debug"%string = Some true.
Proof.
  destruct (panels_follow 100 (mkShown rich_bot (u "Ann") [(3, 5)]) new_Hud) as (h' & E & Hk & _ & Hi & Hm).
  - split.
    + unfold cargo_wf, geo_length. cbn. split_and!; [lia | lia | done |]. repeat constructor; lia.
    + apply (bool_decide_unpack _). vm_compute. exact I.
    + intros e [->|Hin%not_elem_of_nil]%elem_of_cons; [cbn; lia | done].
  - exact new_Hud_ok.
  - exists h'. split; [exact E|]. split; [|split].
    + destruct (is_coords _ _ _ Hi) as [Hp|Hp]; [done | exact Hp].
    + rewrite (bs_text _ _ (proj1 (is_hp _ _ _ Hi))), (proj2 (proj2 (proj2 (ik_hp _ (hk_info _ Hk))))). vm_compute. reflexivity.
    + apply (Hm "debug"%string false). right. right. right. left.
Defined.
