(* ===== verification/Tables.v ===== *)
(** * Tables of names

    Models three tables: [nameByIDtable] and [FallableBlocks] of
    [scripts/tables/DataTables.js], the names of the blocks and random blocks that
    fall, and [CellID] of [scripts/programmator.js], the codes of the cells of a
    program. *)

From S2P Require Import Prelude Host JsNum JsText Blocks Machine Programmator.

(** ** The names of the blocks *)

(** The names that are written after the loop. *)
Definition block_names : list (Z * JsStr) :=
  [ (30, [1074; 1086; 1088; 1086; 1090; 1072]); (31, [1074; 1091; 1083; 1082; 1072; 1085]);
    (32, [1079; 1077; 1084; 1083; 1103]); (33, [1079; 1077; 1084; 1083; 1103; 49]);
    (34, [1079; 1077; 1084; 1083; 1103; 50]); (35, [1076; 1086; 1088; 1086; 1075; 1072]);
    (36, [1079; 45; 1087; 1086; 1082; 1088; 1099; 1090; 1080; 1077]);
    (37, [1074; 1093; 1086; 1076; 32; 1074; 32; 1079; 1076; 1072; 1085; 1080; 1077]);
    (38, [1091; 1075; 1086; 1083; 32; 1079; 1076; 1072; 1085; 1080; 1103]);
    (39, [1087; 1086; 1083; 1080; 1084; 1077; 1088]);
    (40, [1095; 1077; 1088; 1085; 1099; 1081; 32; 1074; 1072; 1083; 1091; 1085; 32; 40; 1086; 41]);
    (41, [1095; 1077; 1088; 1085; 1099; 1081; 32; 1074; 1072; 1083; 1091; 1085; 32; 40; 1082; 49; 41]);
    (42, [1095; 1077; 1088; 1085; 1099; 1081; 32; 1074; 1072; 1083; 1091; 1085; 32; 40; 1082; 50; 41]);
    (43, [1084; 1077; 1090; 46; 32; 1074; 1072; 1083; 1091; 1085; 32; 40; 1082; 41]);
    (44, [1084; 1077; 1090; 46; 32; 1074; 1072; 1083; 1091; 1085; 32; 40; 1089; 41]);
    (45, [1084; 1077; 1090; 46; 32; 1074; 1072; 1083; 1091; 1085; 32; 40; 1092; 41]);
    (48, [1082; 1074; 1072; 1076; 1088; 1086]); (49, [1086; 1087; 1086; 1088; 1072]);
    (50, [1075; 1086; 1083; 1091; 1073; 1072; 1103; 32; 1078; 1080; 1074; 1072]);
    (51, [1082; 1088; 1072; 1089; 1085; 1072; 1103; 32; 1078; 1080; 1074; 1072]);
    (52, [1092; 1080; 1086; 1083; 32; 1078; 1080; 1074; 1072]);
    (53, [1095; 1077; 1088; 1085; 1072; 1103; 32; 1078; 1080; 1074; 1072]);
    (54, [1073; 1077; 1083; 1072; 1103; 32; 1078; 1080; 1074; 1072]);
    (55, [1088; 1072; 1076; 1091; 1078; 1085; 1072; 1103; 32; 1078; 1080; 1074; 1072]);
    (60, [1073; 1077; 1083; 1099; 1081; 32; 1087; 1077; 1089; 1086; 1082; 32; 40; 1089; 41]);
    (61, [1073; 1077; 1083; 1099; 1081; 32; 1087; 1077; 1089; 1086; 1082; 32; 40; 1090; 41]);
    (62, [1082; 1088; 1072; 1089; 1085; 1099; 1081; 32; 1087; 1077; 1089; 1086; 1082; 32; 40; 1089; 41]);
    (63, [1082; 1088; 1072; 1089; 1085; 1099; 1081; 32; 1087; 1077; 1089; 1086; 1082; 32; 40; 1090; 41]);
    (64, [1089; 1077; 1088; 1099; 1081; 32; 1087; 1077; 1089; 1086; 1082; 32; 40; 1089; 41]);
    (65, [1089; 1077; 1088; 1099; 1081; 32; 1087; 1077; 1089; 1086; 1082; 32; 40; 1090; 41]);
    (66, [1073; 1077; 1083; 32; 1089; 1083; 1080; 1079; 1100]);
    (67, [1092; 1080; 1086; 1083; 32; 1089; 1083; 1080; 1079; 1100]); (68, [1087; 1077; 1088; 1083]);
    (71, [1079; 1077; 1083; 32; 1093; 52]); (72, [1089; 1080; 1085; 32; 1093; 51]);
    (73, [1082; 1088; 1072; 1089; 1100; 32; 1093; 50]); (74, [1075; 1086; 1083; 1100; 32; 1093; 50]);
    (75, [1092; 1080; 1086; 1083; 32; 1093; 50]); (80, [1042; 1041; 32; 1082; 1086; 1085; 1089; 1090; 1088]);
    (81, [1042; 1041]); (82, [1042; 1041; 32; 1089; 1083; 1080; 1079; 1100]);
    (86, [1078; 1077; 1083; 1090; 1072; 1103; 32; 1089; 1083; 1080; 1079; 1100]);
    (90, [1073; 1086; 1082; 1089]); (91, [1084; 1072; 1075; 1084; 1072]);
    (92, [1089; 1077; 1088; 1099; 1081; 32; 1074; 1072; 1083; 1091; 1085; 32; 40; 1089; 1088; 41]);
    (93, [1089; 1077; 1088; 1099; 1081; 32; 1074; 1072; 1083; 1091; 1085; 32; 40; 1090; 1077; 1084; 1085; 41]);
    (94, [1089; 1077; 1088; 1099; 1081; 32; 1074; 1072; 1083; 1091; 1085; 32; 40; 1089; 1074; 41]);
    (95, [110; 111; 110; 101; 57; 53]); (96, [110; 111; 110; 101; 57; 54]);
    (97, [1089; 1080; 1085; 1080; 1081; 32; 1087; 1077; 1089; 1086; 1082; 32; 40; 1090; 41]);
    (98, [1089; 1080; 1085; 1080; 1081; 32; 1087; 1077; 1089; 1086; 1082; 32; 40; 1089; 41]);
    (99, [1078; 1077; 1083; 1090; 1099; 1081; 32; 1087; 1077; 1089; 1086; 1082; 32; 40; 1090; 41]);
    (100, [1078; 1077; 1083; 1090; 1099; 1081; 32; 1087; 1077; 1089; 1086; 1082; 32; 40; 1089; 41]);
    (101, [1079; 1077; 1083; 46; 32; 1073; 1083; 1086; 1082]);
    (102, [1078; 1077; 1083; 1090; 46; 32; 1073; 1083; 1086; 1082]);
    (103, [1092; 1080; 1086; 1083; 32; 1089; 1082; 1072; 1083; 1072]);
    (104, [1092; 1077; 1076; 45; 1073; 1083; 1086; 1082]);
    (105, [1082; 1088; 1072; 1089; 1085; 46; 32; 1073; 1083; 1086; 1082]);
    (106, [1092; 1088; 1077; 1081; 1084; 32; 1079; 1076; 1072; 1085; 1080; 1103]);
    (107, [1079; 1077; 1083; 32; 1082; 1088; 1080]); (108, [1082; 1088; 1072; 1089; 32; 1082; 1088; 1080]);
    (109, [1089; 1080; 1085; 32; 1082; 1088; 1080]); (110, [1092; 1080; 1086; 1083; 32; 1082; 1088; 1080]);
    (111, [1073; 1077; 1083; 1100; 32; 1082; 1088; 1080]);
    (112, [1075; 1086; 1083; 1100; 32; 1082; 1088; 1080]);
    (113, [1089; 1080; 1085; 1080; 1081; 32; 1079; 1083; 1072; 1090; 1086; 1089; 1082; 1072; 1083]);
    (114, [1095; 1077; 1088; 1085; 1086; 1089; 1082; 1072; 1083]);
    (115, [1095; 1077; 1088; 1085; 1086; 1089; 1082; 1072; 1083; 32; 1079; 1077; 1083; 1077; 1085; 1099; 1081]);
    (116, [1089; 1080; 1085; 1103; 1103; 32; 1078; 1080; 1074; 1072]);
    (117, [1082; 1088; 1072; 1089; 1085; 1086; 1089; 1082; 1072; 1083]);
    (118, [1082; 1080; 1089; 1083; 1086; 1090; 1082; 1072]);
    (119, [1075; 1080; 1087; 1085; 1086; 1089; 1082; 1072; 1083]);
    (120, [1079; 1083; 1072; 1090; 1086; 1089; 1082; 1072; 1083]);
    (121, [1079; 1077; 1083; 1077; 1085; 1072; 1103; 32; 1089; 1082; 1072; 1083; 1072]);
    (122, [1075; 1086; 1074; 1085; 1086; 1089; 1082; 1072; 1083]) ].

(** A write to a [Uint8Array]: NaN is stored as 0. *)
Definition store_text (a : list Z) (i : Z) (s : JsStr) : list Z := aset a i (default 0 (text_number s)).

Definition nameByIDtable : list Z :=
  let a := new_Uint8Array 256 in
  let a := store_text a 0 (u "none0") in
  let a := store_text a 1 (u "none1") in
  let a := foldl (λ a i, store_text a i (u "none" ++ int_text i)) a (up_to 2 256) in
  foldl (λ a p, store_text a p.1 p.2) a block_names.

(** The table holds no names: a byte array stores all of them as 0. *)
Lemma names_are_lost : nameByIDtable = replicate 256 0.
Proof. vm_compute. reflexivity. Qed.

(** ** Random blocks that fall *)

Inductive Fallable :=
  | F_sand_yellow | F_sand_blue | F_sand_grey | F_sand_red | F_sand_white
  | F_bolder_black | F_bolder_grey | F_bolder_metal.

(** The getters of [FallableBlocks]; [None] is undefined: there is no [Block.red1]. *)
Definition FallableBlocks (f : Fallable) (h : Host) : option Z * Host :=
  let pick a b := let '(r, h) := RandInt 0 1 h in ((if negb (r =? 0) then a else b), h) in
  let shift a := let '(r, h) := RandInt 0 2 h in (Some (a + r), h) in
  match f with
  | F_sand_yellow => pick (Some (Block B_sand_yellow)) (Some (Block B_sand_yellow0))
  | F_sand_blue => pick (Some (Block B_sand_blue0)) (Some (Block B_sand_blue1))
  | F_sand_grey => pick (Some (Block B_sand_grey0)) (Some (Block B_sand_grey1))
  | F_sand_red => pick (Some (Block B_sand_red0)) None
  | F_sand_white => pick (Some (Block B_sand_white0)) (Some (Block B_sand_white1))
  | F_bolder_black => shift (Block B_bolder_black0)
  | F_bolder_grey => shift (Block B_bolder_grey0)
  | F_bolder_metal => shift (Block B_bolder_metal0)
  end.

Definition is_sand (f : Fallable) : bool :=
  match f with F_bolder_black | F_bolder_grey | F_bolder_metal => false | _ => true end.

(** Every block a getter names falls, the way the name says; only the red sand gives
    no block for one of two random bits. *)
Lemma fallable_blocks_fall f h : Host_ok h ->
  match (FallableBlocks f h).1 with
  | Some id => falltype (stats id) = Some (if is_sand f then sand else bolder)
  | None => f = F_sand_red /\ (RandInt 0 1 h).1 = 0
  end.
Proof.
  intros Hh. pose proof (RandInt_range 0 1 h Hh ltac:(lia)) as R1. pose proof (RandInt_range 0 2 h Hh ltac:(lia)) as R2.
  unfold FallableBlocks. destruct (RandInt 0 1 h) as [a h1], (RandInt 0 2 h) as [b h2]. cbn [fst snd] in R1, R2.
  destruct f; cbn [fst is_sand];
    try (destruct (a =? 0) eqn:E; cbn [negb]; zprop; [done || by vm_compute | by vm_compute]);
    assert (b = 0 \/ b = 1 \/ b = 2) as [-> | [-> | ->]] by lia; by vm_compute.
Qed.

(** ** The codes of the cells *)

Definition CellID : list (string * Z) :=
  ([ ("error", (-1)); ("empty", 0); ("new_line", 1); ("mark", 2); ("GO_SUB", 3); ("look_WA", 4); ("look_W", 5);
    ("look_DW", 6); ("look_A", 7); ("non_use_8", 8); ("look_D", 9); ("look_AS", 10); ("look_S", 11);
    ("look_l", 12); ("look_r", 13); ("start", 14); ("stop", 15); ("GO_STATE", 16); ("GO_FUNC", 17);
    ("look_SD", 18); ("look_w", 19); ("look_a", 20); ("look_s", 21); ("look_d", 22); ("look_F", 23);
    ("look_f", 24); ("look_L", 25); ("look_R", 26); ("GO_TO", 27); ("DBG_MSG", 28); ("DBG_PAUSE", 29);
    ("HAND_MODE_ON", 30); ("HAND_MODE_OFF", 31); ("IF_RESP", 32); ("IF_TRUE", 33); ("IF_FALSE", 34);
    ("MACROS_GUN", 35); ("MACROS_DIGG", 36); ("MACROS_BLOCK", 37); ("MACROS_HEAL", 38);
    ("MACROS_DIGG_AROUND", 39); ("OR", 40); ("AND", 41); ("FLIP", 42); ("AUTODIGG_ON", 43);
    ("AUTODIGG_OF", 44); ("RETURN", 45); ("RETURN_FUNK", 46); ("RETURN_STATE", 47); ("VAR_EQUAL", 48);
    ("VAR_MORE", 49); ("VAR_LESS", 50); ("ONLINE_BOOM", 51); ("ONLINE_RAZ", 52); ("ONLINE_PROT", 53);
    ("ONLINE_GEO", 54); ("ONLINE_ZZ", 55); ("ONLINE_C190", 56); ("ONLINE_POLY", 57); ("ONLINE_UP", 58);
    ("ONLINE_CRAFT", 59); ("ONLINE_NANO", 60); ("ONLINE_REM", 61); ("move_W", 62); ("move_A", 63);
    ("move_S", 64); ("move_D", 65); ("digg", 66); ("rotate_w", 67); ("rotate_a", 68); ("rotate_s", 69);
    ("rotate_d", 70); ("non_use_71", 71); ("move_F", 72); ("rotate_CCW", 73); ("rotate_CW", 74);
    ("set_block", 75); ("set_geo", 76); ("beep", 77); ("set_VB", 78); ("set_road", 79); ("heal", 80);
    ("set_quadro", 81); ("rotate_random", 82); ("INVENTORY_w", 83); ("INVENTORY_a", 84); ("INVENTORY_s", 85);
    ("INVENTORY_d", 86); ("is_no_empty", 87); ("is_empty", 88); ("is_falls", 89); ("is_crys", 90);
    ("is_alive", 91); ("is_bolder", 92); ("is_sand", 93); ("is_diggable", 94); ("is_non_diggable", 95);
    ("is_red_rock", 96); ("is_black_rock", 97); ("is_slime", 98); ("is_box", 99); ("is_quadro", 100);
    ("is_road", 101); ("is_red_block", 102); ("is_yellow_block", 103); ("is_green_block", 104);
    ("is_support_block", 105); ("is_in_gun", 106); ("AGR_ON", 107); ("AGR_OFF", 108); ("HP_half", 109);
    ("HP_less100", 110) ])%string.

Definition CellID_length : Z := 111.

(** [CellID.get_random()]. *)
Definition get_random (h : Host) : Z * Host :=
  let '(r, h) := Math_random h in (Qfloor (r * inject_Z CellID_length), h).

Lemma CellID_codes c : c ∈ CellID.*2 <-> -1 <= c < 111.
Proof.
  assert (NoDup CellID.*2 /\ forallb (λ c, (-1 <=? c) && (c <? 111)) CellID.*2 = true /\
    forallb (λ c, bool_decide (c ∈ CellID.*2)) (up_to (-1) 111) = true) as (_ & H1 & H2).
  { split_and!; [apply (bool_decide_unpack _); vm_compute; exact I | by vm_compute | by vm_compute]. }
  rewrite forallb_forall in H1, H2. split.
  - intros Hc%list_elem_of_In. specialize (H1 c Hc). lia.
  - intros Hc. specialize (H2 c). rewrite <- list_elem_of_In, elem_of_up_to in H2.
    specialize (H2 Hc). by apply bool_decide_eq_true in H2.
Qed.

(** C38: Every code names one cell and every cell can be executed: the names and the
    codes of CellID are all different, the codes are exactly -1 (the error) to 110,
    and a random code, for any random number, is the code of a named cell with a
    handler - never the error. *)
Theorem cell_codes (h : Host) (Hh : Host_ok h) :
  NoDup CellID.*1 /\ NoDup CellID.*2 /\ (forall c, c ∈ CellID.*2 <-> -1 <= c < CellID_length) /\
  exists name, (name, (get_random h).1) ∈ CellID /\ name <> "error"%string /\
    is_Some (at_index ExecutorList (get_random h).1).
Proof.
  split_and!; [apply (bool_decide_unpack _); vm_compute; exact I | apply (bool_decide_unpack _); vm_compute; exact I
    | apply CellID_codes |].
  pose proof (RandInt_range 0 110 h Hh ltac:(lia)) as R. unfold RandInt, get_random, Math_random in *. cbn [fst snd] in *.
  replace (110 + 1 - 0) with CellID_length in R by done. set (c := Qfloor _) in *. clearbody c.
  pose proof (proj2 (CellID_codes c) ltac:(unfold CellID_length in R; lia)) as ([name c'] & -> & Hin)%list_elem_of_fmap. cbn [snd] in *.
  exists name. split_and!; [done | |].
  - intros ->. assert (forallb (λ p, negb (String.eqb p.1 "error") || (p.2 =? -1)) CellID = true) as H by (by vm_compute).
    rewrite forallb_forall in H. specialize (H _ (proj1 (list_elem_of_In _ _) Hin)). cbn in H. lia.
  - unfold CellID_length in R. apply at_index_Some. change (length ExecutorList) with 111%nat. lia.
Qed.

Lemma cell_codes_witness : exists name, (name, (get_random (const_host 0 (1 # 2))).1) ∈ CellID.
Proof.
  destruct (cell_codes (const_host 0 (1 # 2))) as (_ & _ & _ & name & H & _).
  - apply const_host_ok. split; [by vm_compute | by vm_compute].
  - exists name. exact H.
Defined.
