(* ===== verification/Skills.v ===== *)
(** * Skills

    Models the skills: the table of types, [SkillParams], [ProgressFunctions] and
    [SkillCalculator] of [scripts/tables/DataTables.js], [BotSkill] and
    [BotSkillsContainer] of [scripts/bot.js], and the panel of
    [scripts/userGUI/Skills.js].  A power of the language is the power of the real
    numbers; levels are whole numbers from 0 on. *)

From Stdlib Require Import Reals Lra Lia.
From S2P Require Import Prelude Host JsNum.

#[local] Open Scope Z_scope.

(** ** Types *)

Definition SkillType : list (string * Z) :=
  ([ ("Unknown", (-1)); ("AntiSlime", 0); ("AntiBlock", 1); ("AdjacentExtraction", 2); ("Geology", 3);
    ("MineBlue", 4); ("MineGreen", 5); ("Destruction", 6); ("Annihilation", 7); ("Crystallography", 8);
    ("Deconstruction", 9); ("AntiGun", 10); ("BuildRed", 11); ("Digging", 12); ("Health", 13);
    ("MineGeneral", 14); ("MineRed", 15); ("BuildGreen", 16); ("BuildQuadro", 17); ("Detection", 18);
    ("Movement", 19); ("BuildYellow", 20); ("Compression", 21); ("Fridge", 22); ("MineCyan", 23);
    ("RoadMovement", 24); ("Upgrade", 25); ("Deactivation", 26); ("HyperPacking", 27); ("MineViolet", 28);
    ("Packing", 29); ("PackingBlue", 30); ("PackingCyan", 31); ("PackingViolet", 32); ("Discount", 33);
    ("Sort", 34); ("Turbo", 35); ("DeMagnetizing", 36); ("MineWhite", 37); ("PackingRed", 38);
    ("PackingWhite", 39); ("PackingGreen", 40); ("Extraction", 41); ("Repair", 42); ("ExpertMining", 43);
    ("Washing", 44); ("Fracturing", 45); ("NanoPacking", 46); ("BuildStructure", 47); ("BuildRoad", 48);
    ("BuildUniversal", 49); ("BuildWar", 50); ("Architecture", 51); ("TotalDestruction", 52);
    ("UltraWhite", 53); ("Jewlery", 54); ("Induction", 55); ("MineSlime", 56); ("MineDeep", 57);
    ("GluonPacking", 58) ])%string.

(** [SkillType.name]. *)
Definition skill_code (name : string) : option Z := (list_to_map SkillType : gmap string Z) !! name.

(** [SkillName], filled by [for (const key in SkillType)]. *)
Definition SkillName : gmap Z string := foldl (λ m p, <[p.2 := p.1]> m) ∅ SkillType.

(** ** Parameters *)

(** The fields of [SkillParams]; [None] is undefined. *)
Record SkillParams := mkSkillParams {
  effect : option (Z -> Z); cost : option (Z -> Z); exp_field : option (Z -> Z); oppCoef : Z }.

(** [constructor(effect, cost, exp)]: the last assignment writes [cost] again. *)
Definition new_SkillParams (e c x : Z -> Z) : SkillParams :=
  let p := mkSkillParams None None None 1000000 in
  let p := mkSkillParams (Some e) (cost p) (exp_field p) (oppCoef p) in
  let p := mkSkillParams (effect p) (Some c) (exp_field p) (oppCoef p) in
  mkSkillParams (effect p) (Some x) (exp_field p) (oppCoef p).

(** The default of the last parameter. *)
Definition default_exp (_ : Z) : Z := 100.

(** [opp(lvl)]: [~~(lvl * this.cost(lvl) / 2 / this.oppCoef)]; [None] when there is no
    cost to call. *)
Definition opp (p : SkillParams) (lvl : Z) : option Z :=
  match cost p with
  | Some c => Some (wrap32 (Z.quot (lvl * c lvl) (2 * oppCoef p)))
  | None => None
  end.

(** ** Powers *)

(** [Math.LN2], a double. *)
Definition LN2 : R := (IZR 6243314768165359 / IZR (2 ^ 53))%R.

(** [x ** y] for x >= 0 and y > 0. *)
Definition js_pow (x : Z) (y : R) : R := if x =? 0 then 0%R else Rpower (IZR x) y.

(** [~~x]. *)
Definition Rtrunc (x : R) : Z := if Rle_dec 0 x then Int_part x else - Int_part (- x).
Definition int32 (x : R) : Z := wrap32 (Rtrunc x).

(** [ProgressFunctions.NaturalLog2(addition, factor, LNCoef, maxResult)]. *)
Definition NaturalLog2 (addition factor : Z) (LNCoef : R) (maxResult lvl : Z) : Z :=
  let result := addition + factor * int32 (js_pow lvl (LN2 * LNCoef)) in
  if result <=? maxResult then result else maxResult.

(** ** The table *)

(** [100 + lvl * 10] and the like. *)
Definition linear (a b lvl : Z) : Z := a + lvl * b.

(** [~~(lvl ** Math.LN2 * c)]. *)
Definition grow (c : R) (lvl : Z) : Z := int32 (js_pow lvl LN2 * c).

(** [lvl < bound ? ~~(lvl ** Math.LN2 * c) : ~~(top ** Math.LN2 * c)]. *)
Definition capped (bound top : Z) (c : R) (lvl : Z) : Z := if lvl <? bound then grow c lvl else grow c top.

Definition thousands_grow (lvl : Z) : Z := 1000 * grow 1 lvl.

Definition DEFAULT_SKILL_CALC : SkillParams := new_SkillParams (linear 100 10) thousands_grow default_exp.

(** The assignments, in their order. *)
Definition SkillCalculator_writes : list (string * SkillParams) :=
  ([ ("Digging", new_SkillParams (linear 100 10) thousands_grow default_exp);
    ("Packing", new_SkillParams (linear 0 100) (grow 100) default_exp);
    ("HyperPacking", new_SkillParams (linear 0 200) (grow 250) default_exp);
    ("NanoPacking", new_SkillParams (linear 0 500) (grow 1500) default_exp);
    ("GluonPacking", new_SkillParams (linear 0 5000) (grow 1000000) default_exp);
    ("AntiGun", new_SkillParams (capped 522 521 (1205 / 1000)) (linear 2000 1000) default_exp);
    ("Deconstruction", new_SkillParams (capped 47 47 (69 / 10)) (linear 1000 500) default_exp);
    ("Movement", new_SkillParams (capped 566 566 (6737 / 100)) (linear 500 500) default_exp);
    ("RoadMovement", new_SkillParams (capped 143 143 (113 / 10)) (linear 1000 500) default_exp);
    ("AntiSlime", new_SkillParams (capped 165 165 (288 / 100)) (linear 400 500) default_exp);
    ("AntiBlock", new_SkillParams (capped 162 162 (268 / 100)) (linear 400 500) default_exp);
    ("Annihilation", new_SkillParams (capped 61 61 (573 / 100)) (linear 50 500) default_exp);
    ("Crystallography", new_SkillParams (capped 47 47 (69 / 10)) (linear 300 500) default_exp);
    ("Deactivation", new_SkillParams (capped 47 47 (69 / 10)) (linear 0 500) default_exp);
    ("Destruction", new_SkillParams (capped 53 53 (573 / 100)) (linear 0 500) default_exp);
    ("Fracturing", new_SkillParams (capped 65 65 (493 / 100)) (linear 0 500) default_exp);
    ("DeMagnetizing", new_SkillParams (capped 61 61 (573 / 100)) (linear 0 500) default_exp);
    ("Discount", new_SkillParams (capped 174 174 (14 / 10)) (linear 200000 500000) default_exp);
    ("TotalDestruction", new_SkillParams (capped 170 170 (282 / 100)) (linear 0 500) default_exp) ])%string%R.

Definition write_skill (t : list SkillParams) (p : string * SkillParams) : list SkillParams :=
  match skill_code p.1 with Some c => <[Z.to_nat c := p.2]> t | None => t end.

Definition SkillCalculator : list SkillParams :=
  foldl write_skill (replicate 59 DEFAULT_SKILL_CALC) SkillCalculator_writes.

(** ** The skills of a bot *)

(** [BotSkillParams]: fields that may be missing, which [||] treats like 0. *)
Record BotSkillParams := mkParams { p_id : option Z; p_lvl : option Z; p_xp : option Z; p_isLocked : option bool }.
Record BotSkill := mkSkill { id : Z; lvl : Z; xp : Z; isLocked : bool }.

(** [v || d] for a number. *)
Definition or_else (v : option Z) (d : Z) : Z := match v with Some z => if z =? 0 then d else z | None => d end.

(** [new BotSkill(params)]; [None] is undefined. *)
Definition new_BotSkill (params : option BotSkillParams) : BotSkill :=
  let get {A} (f : BotSkillParams -> option A) := match params with Some p => f p | None => None end in
  mkSkill (or_else (get p_id) 0) (or_else (get p_lvl) 1) (or_else (get p_xp) 0)
    (match get p_isLocked with Some b => b | None => false end).

Definition with_level (i l : Z) : option BotSkillParams := Some (mkParams (Some i) (Some l) None None).

(** The preset, with its holes. *)
Definition BOTSKILLSPRESET : list (option BotSkillParams) :=
  [ with_level 0 1; with_level 1 1; None; with_level 2 1; with_level 6 1; None; with_level 9 1; with_level 10 1;
    with_level 44 1; None; with_level 22 1; with_level 24 1; with_level 51 1; None; with_level 32 1; with_level 40 1 ].

Definition MaxSkillsCount : nat := 32.

(** [new BotSkillsContainer(skills)]: the list. *)
Definition new_BotSkillsContainer (skills : list (option BotSkillParams)) : list BotSkill :=
  (λ i, new_BotSkill (match skills !! i with Some p => p | None => None end)) <$> seq 0 MaxSkillsCount.

(** ** The panel *)

(** [UP_GUI_SlotsCoords]: top and left. *)
Definition UP_GUI_SlotsCoords : list (Z * Z) :=
  [ (4, 31); (87, 0); (132, 0); (222, 33); (49, 14); (170, 14); (108, 33); (70, 45); (145, 46); (112, 75);
    (16, 74); (206, 74); (6, 356); (57, 356); (117, 356); (158, 351); (85, 112); (126, 124); (41, 137);
    (8, 183); (0, 233); (2, 300); (31, 268); (41, 317); (60, 240); (70, 280); (90, 320); (130, 310);
    (110, 260); (100, 220); (110, 180); (70, 200) ].

(** [SkillIcons.IcoLocations]: the number in the name of each file. *)
Definition IcoLocations : list Z := (λ i, Z.of_nat i + 1) <$> seq 0 56.

(** A [GuiSkill]: where the slot is, the text of its level, its icon; [None] is
    undefined. *)
Record GuiSkill := mkGuiSkill { slot_style : option (Z * Z); slot_lvl : Z; slot_icon : option Z }.

Record GUIUPControlls := mkUP { SkillHTMLElements : list GuiSkill; visible : bool }.

(** The loop of the constructor. *)
Fixpoint make_slots (n i : nat) (h : Host) : list GuiSkill * Host :=
  match n with
  | O => ([], h)
  | S n =>
      let '(l, h) := RandInt 0 5000 h in
      let '(slots, h) := make_slots n (S i) h in
      (mkGuiSkill (UP_GUI_SlotsCoords !! i) l (IcoLocations !! i) :: slots, h)
  end.

Definition set_visibility (v : bool) (g : GUIUPControlls) : GUIUPControlls := mkUP (SkillHTMLElements g) v.

(** [new GUIUPControlls()], shown or not as the document says, and the last line of
    the file. *)
Definition UPGUIController (shown : bool) (h : Host) : GUIUPControlls * Host :=
  let '(slots, h) := make_slots MaxSkillsCount 0 h in (set_visibility false (mkUP slots shown), h).

(** ** The table of types *)

Lemma SkillType_nodup : NoDup SkillType.*1 /\ NoDup SkillType.*2.
Proof. split; apply (bool_decide_unpack _); vm_compute; exact I. Qed.

(** The table of the names is the inverse of the table of the types, which has every
    code from -1, the unknown skill, to 58, the last place of the calculator. *)
Lemma skill_names k c :
  (SkillName !! c = Some k <-> skill_code k = Some c) /\ (c ∈ SkillType.*2 <-> -1 <= c < Z.of_nat (length SkillCalculator)).
Proof.
  destruct SkillType_nodup as [N1 N2].
  assert (SkillName = list_to_map (prod_swap <$> SkillType)) as E by (apply (bool_decide_unpack _); vm_compute; exact I).
  assert (NoDup (prod_swap <$> SkillType).*1) as N3.
  { rewrite <- list_fmap_compose. by rewrite (list_fmap_ext (fst ∘ prod_swap) snd) by (by intros ? []). }
  split.
  - rewrite E. unfold skill_code. rewrite <- !elem_of_list_to_map by done. rewrite list_elem_of_fmap. split.
    + by intros ([k' c'] & [= -> ->] & H).
    + intros H. by exists (k, c).
  - assert (forallb (λ c, (-1 <=? c) && (c <? 59)) SkillType.*2 = true /\
      forallb (λ c, bool_decide (c ∈ SkillType.*2)) (seqZ (-1) 60) = true) as [H1 H2] by (split; by vm_compute).
    assert (Z.of_nat (length SkillCalculator) = 59) as ->.
    { unfold SkillCalculator. enough (forall l t, length (foldl write_skill t l) = length t) as -> by done.
      induction l as [|p l IH]; intros t; [done|]. cbn [foldl]. rewrite IH. unfold write_skill. destruct (skill_code p.1); [|done].
      apply length_insert. }
    rewrite forallb_forall in H1, H2. split.
    + intros Hc%list_elem_of_In. specialize (H1 c Hc). lia.
    + intros Hc. specialize (H2 c). rewrite <- list_elem_of_In, elem_of_seqZ in H2.
      specialize (H2 ltac:(lia)). by apply bool_decide_eq_true in H2.
Qed.

(** ** The costs *)

(** Every entry of the table is made by the constructor with the default. *)
Definition made (p : SkillParams) : Prop := exists e c, p = new_SkillParams e c default_exp.

Lemma SkillCalculator_made : Forall made SkillCalculator.
Proof.
  unfold SkillCalculator. assert (Forall made SkillCalculator_writes.*2) as Hw.
  { unfold SkillCalculator_writes. cbn [fmap list_fmap snd]. repeat (constructor; [by eexists _, _|]). constructor. }
  assert (Forall made (replicate 59 DEFAULT_SKILL_CALC)) as Ht by (apply Forall_replicate; by eexists _, _).
  revert Ht Hw. generalize (replicate 59 DEFAULT_SKILL_CALC) as t.
  induction SkillCalculator_writes as [|p l IH]; intros t Ht Hw; [done|]. cbn [foldl]. cbn in Hw. inversion Hw; subst.
  apply IH; [|done]. unfold write_skill. destruct (skill_code p.1); [|done]. by apply Forall_insert.
Qed.

(** No skill keeps its cost: whatever cost the table was given for a skill, the
    constructor overwrites it with the function of the experience, so that every
    skill costs 100 at every level, the experience is not there at all, and the price
    of a level in opportunities is the level divided by 20000. *)
Theorem skill_costs_lost (i : nat) (p : SkillParams) (lvl : Z)
    (Hp : SkillCalculator !! i = Some p) (Hl : 0 <= lvl < 20000 * 2 ^ 31) :
  (exists c, cost p = Some c /\ forall l, c l = 100) /\ exp_field p = None /\ opp p lvl = Some (lvl / 20000).
Proof.
  destruct (Forall_lookup_1 _ _ _ _ SkillCalculator_made Hp) as (e & c & ->). split_and!.
  - exists default_exp. split; [reflexivity|]. intros l. reflexivity.
  - done.
  - unfold opp. cbn [cost new_SkillParams oppCoef]. f_equal. unfold default_exp. change (2 * 1000000) with (20000 * 100).
    rewrite Z.quot_mul_cancel_r, Z.quot_div_nonneg by lia. apply wrap32_small.
    assert (0 <= lvl / 20000) by (apply Z.div_pos; lia). assert (lvl / 20000 < 2 ^ 31) by (apply Z.div_lt_upper_bound; lia). lia.
Qed.

Lemma skill_costs_lost_witness :
  match SkillCalculator !! 0%nat with Some p => opp p 60000 = Some 3 | None => False end.
Proof.
  destruct (SkillCalculator !! 0%nat) as [p|] eqn:E.
  - destruct (skill_costs_lost 0 p 60000 E) as (_ & _ & H); [lia | exact H].
  - apply lookup_ge_None in E. assert (length SkillCalculator = 59%nat) as Hn by (vm_compute; reflexivity). lia.
Defined.

(** ** Powers, between rational bounds *)

Section powers.
#[local] Open Scope R_scope.

Lemma LN2_pos : 0 < LN2.
Proof. unfold LN2. apply Rdiv_lt_0_compat; apply IZR_lt; lia. Qed.

(** A rational number and the double. *)
Lemma LN2_ge p q : (0 < q)%Z -> (p * 2 ^ 53 <= q * 6243314768165359)%Z -> IZR p / IZR q <= LN2.
Proof.
  intros Hq H. unfold LN2. apply IZR_lt in Hq. apply IZR_le in H. rewrite !mult_IZR in H.
  assert (0 < IZR (2 ^ 53)) as H2 by (apply IZR_lt; lia).
  apply (Rmult_le_reg_r (IZR q * IZR (2 ^ 53))); [by apply Rmult_lt_0_compat|].
  replace (IZR p / IZR q * (IZR q * IZR (2 ^ 53))) with (IZR p * IZR (2 ^ 53)) by (field; lra).
  replace (IZR 6243314768165359 / IZR (2 ^ 53) * (IZR q * IZR (2 ^ 53))) with (IZR q * IZR 6243314768165359) by (field; lra).
  exact H.
Qed.
Lemma LN2_le p q : (0 < q)%Z -> (q * 6243314768165359 <= p * 2 ^ 53)%Z -> LN2 <= IZR p / IZR q.
Proof.
  intros Hq H. unfold LN2. apply IZR_lt in Hq. apply IZR_le in H. rewrite !mult_IZR in H.
  assert (0 < IZR (2 ^ 53)) as H2 by (apply IZR_lt; lia).
  apply (Rmult_le_reg_r (IZR q * IZR (2 ^ 53))); [by apply Rmult_lt_0_compat|].
  replace (IZR p / IZR q * (IZR q * IZR (2 ^ 53))) with (IZR p * IZR (2 ^ 53)) by (field; lra).
  replace (IZR 6243314768165359 / IZR (2 ^ 53) * (IZR q * IZR (2 ^ 53))) with (IZR q * IZR 6243314768165359) by (field; lra).
  exact H.
Qed.

(** A rational power and its q-th power. *)
Lemma root_power x p q : 0 < x -> (0 < q)%Z -> Rpower (Rpower x (IZR p)) (/ IZR q) = Rpower x (IZR p / IZR q).
Proof. intros Hx Hq. by rewrite Rpower_mult. Qed.

Lemma root_self x q : 0 < x -> (0 < q)%Z -> Rpower (Rpower x (IZR q)) (/ IZR q) = x.
Proof.
  intros Hx Hq. rewrite root_power by done. apply IZR_lt in Hq. replace (IZR q / IZR q) with 1 by (field; lra). by apply Rpower_1.
Qed.

Lemma Rpower_Z x p : (0 < x)%Z -> (0 <= p)%Z -> Rpower (IZR x) (IZR p) = IZR (x ^ p).
Proof.
  intros Hx Hp. rewrite <- (Z2Nat.id p Hp). rewrite <- INR_IZR_INZ, Rpower_pow by (by apply IZR_lt).
  by rewrite <- pow_IZR.
Qed.

Lemma Rpower_ratio a b q : (0 < a)%Z -> (0 < b)%Z -> (0 <= q)%Z -> Rpower (IZR a / IZR b) (IZR q) = IZR (a ^ q) / IZR (b ^ q).
Proof.
  intros Ha Hb Hq. rewrite <- !Rpower_Z by done. apply IZR_lt in Ha, Hb. unfold Rdiv.
  rewrite <- Rpower_mult_distr by (try apply Rinv_0_lt_compat; lra). f_equal.
  unfold Rpower. rewrite ln_Rinv by lra. rewrite <- exp_Ropp. f_equal. lra.
Qed.

(** n ** LN2 is at least a/b: a comparison of integers, with a rational number below
    the double. *)
Lemma power_ge n p q a b :
  (1 <= n)%Z -> (0 < p)%Z -> (0 < q)%Z -> (0 < a)%Z -> (0 < b)%Z -> (p * 2 ^ 53 <= q * 6243314768165359)%Z ->
  (a ^ q <= b ^ q * n ^ p)%Z -> IZR a / IZR b <= Rpower (IZR n) LN2.
Proof.
  intros Hn Hp Hq Ha Hb HL H. assert (0 < IZR a / IZR b) as Hab by (apply Rdiv_lt_0_compat; by apply IZR_lt).
  assert (1 <= IZR n) as Hn' by (by apply (IZR_le 1)).
  apply (Rle_trans _ (Rpower (IZR n) (IZR p / IZR q))).
  - rewrite <- (root_self _ q Hab Hq), <- root_power by (lra || done). apply Rle_Rpower_l.
    + left. apply Rinv_0_lt_compat. by apply IZR_lt.
    + rewrite Rpower_ratio, Rpower_Z by lia. apply IZR_le in H. rewrite mult_IZR in H.
      assert (0 < IZR (a ^ q)) as P1 by (apply IZR_lt; apply Z.pow_pos_nonneg; lia).
      assert (0 < IZR (b ^ q)) as P2 by (apply IZR_lt; apply Z.pow_pos_nonneg; lia).
      split; [by apply Rdiv_lt_0_compat|]. apply (Rmult_le_reg_r (IZR (b ^ q))); [done|].
      replace (IZR (a ^ q) / IZR (b ^ q) * IZR (b ^ q)) with (IZR (a ^ q)) by (field; lra). lra.
  - apply Rle_Rpower; [done|]. by apply LN2_ge.
Qed.

Lemma power_le n p q a b :
  (1 <= n)%Z -> (0 < p)%Z -> (0 < q)%Z -> (0 < a)%Z -> (0 < b)%Z -> (q * 6243314768165359 <= p * 2 ^ 53)%Z ->
  (b ^ q * n ^ p <= a ^ q)%Z -> Rpower (IZR n) LN2 <= IZR a / IZR b.
Proof.
  intros Hn Hp Hq Ha Hb HL H. assert (0 < IZR a / IZR b) as Hab by (apply Rdiv_lt_0_compat; by apply IZR_lt).
  assert (1 <= IZR n) as Hn' by (by apply (IZR_le 1)).
  apply (Rle_trans _ (Rpower (IZR n) (IZR p / IZR q))).
  - apply Rle_Rpower; [done|]. by apply LN2_le.
  - rewrite <- (root_self _ q Hab Hq), <- root_power by (lra || done). apply Rle_Rpower_l.
    + left. apply Rinv_0_lt_compat. by apply IZR_lt.
    + rewrite Rpower_ratio, Rpower_Z by lia. apply IZR_le in H. rewrite mult_IZR in H.
      assert (0 < IZR (n ^ p)) as P1 by (apply IZR_lt; apply Z.pow_pos_nonneg; lia).
      assert (0 < IZR (b ^ q)) as P2 by (apply IZR_lt; apply Z.pow_pos_nonneg; lia).
      split; [done|]. apply (Rmult_le_reg_r (IZR (b ^ q))); [done|].
      replace (IZR (a ^ q) / IZR (b ^ q) * IZR (b ^ q)) with (IZR (a ^ q)) by (field; lra). lra.
Qed.
End powers.

(** ** Capped effects *)

Lemma Rtrunc_unique k x : (0 <= IZR k <= x)%R -> (x < IZR (k + 1))%R -> Rtrunc x = k.
Proof.
  intros [Hk Hx] Hlt. unfold Rtrunc. destruct (Rle_dec 0 x) as [_|H]; [|lra].
  destruct (base_Int_part x) as [H1 H2]. assert (IZR (Int_part x) < IZR (k + 1))%R as L1 by lra.
  assert (IZR k < IZR (Int_part x + 1))%R as L2 by (rewrite plus_IZR; lra).
  apply lt_IZR in L1, L2. lia.
Qed.

Lemma Rtrunc_mono x y : (0 <= x <= y)%R -> 0 <= Rtrunc x <= Rtrunc y.
Proof.
  intros [Hx Hy]. unfold Rtrunc. destruct (Rle_dec 0 x) as [_|?]; [|lra]. destruct (Rle_dec 0 y) as [_|?]; [|lra].
  destruct (base_Int_part x) as [H1 H2], (base_Int_part y) as [H3 H4].
  assert (IZR (-1) < IZR (Int_part x))%R as L0 by lra.
  assert (IZR (Int_part x) < IZR (Int_part y + 1))%R as L1 by (rewrite plus_IZR; lra).
  apply lt_IZR in L0, L1. lia.
Qed.

Lemma js_pow_mono a b : 0 <= a <= b -> (0 <= js_pow a LN2 <= js_pow b LN2)%R.
Proof.
  intros [Ha Hb]. unfold js_pow. destruct (a =? 0) eqn:Ea, (b =? 0) eqn:Eb; zprop; try lia; try lra.
  - pose proof (exp_pos (LN2 * ln (IZR b))). unfold Rpower. lra.
  - split; [left; apply exp_pos|]. pose proof LN2_pos. apply Rle_Rpower_l; [lra|].
    split; [apply IZR_lt; lia | apply IZR_le; lia].
Qed.

(** The effect grows with the level as long as it fits into 32 bits. *)
Lemma grow_mono c a b k : (0 <= c)%R -> 0 <= a <= b -> grow c b = k -> (js_pow b LN2 * c < 2 ^ 31)%R -> 0 <= grow c a <= k.
Proof.
  intros Hc Hab Hk Hs. pose proof (js_pow_mono a b Hab) as [P1 P2].
  assert (0 <= js_pow a LN2 * c <= js_pow b LN2 * c)%R as Hp.
  { split; [by apply Rmult_le_pos | by apply Rmult_le_compat_r]. }
  pose proof (Rtrunc_mono _ _ Hp) as Ht. unfold grow, int32 in *.
  assert (Rtrunc (js_pow b LN2 * c) < 2 ^ 31) as Hu.
  { apply lt_IZR. unfold Rtrunc. destruct (Rle_dec 0 (js_pow b LN2 * c)) as [_|?]; [|lra].
    destruct (base_Int_part (js_pow b LN2 * c)) as [H1 _]. replace (IZR (2 ^ 31)) with (2 ^ 31)%R; [lra|].
    by rewrite pow_IZR. }
  rewrite !wrap32_small in * by lia. lia.
Qed.

(** What has to be computed to know the effect at the top level: a rational number
    a / b below the power, seen with the exponent p / q below the double, and one
    above it in the same way, such that the effect lies between k and k + 1. *)
Record Bounds := mkBounds { bd_a : Z; bd_b : Z; bd_p : Z; bd_q : Z }.
Definition bounds_pos (d : Bounds) : bool := (0 <? bd_a d) && (0 <? bd_b d) && (0 <? bd_p d) && (0 <? bd_q d).
Definition cap_check (top cn cd k : Z) (l h : Bounds) : bool :=
  bounds_pos l && bounds_pos h &&
  (bd_p l * 2 ^ 53 <=? bd_q l * 6243314768165359) && (bd_a l ^ bd_q l <=? bd_b l ^ bd_q l * top ^ bd_p l) &&
  (bd_q h * 6243314768165359 <=? bd_p h * 2 ^ 53) && (bd_b h ^ bd_q h * top ^ bd_p h <=? bd_a h ^ bd_q h) &&
  (k * cd * bd_b l <=? bd_a l * cn) && (bd_a h * cn <? (k + 1) * cd * bd_b h).

Lemma cap_value top cn cd k l h :
  1 <= top -> 0 < cn -> 0 < cd -> 0 < k < 2 ^ 31 - 1 -> cap_check top cn cd k l h = true ->
  (js_pow top LN2 * (IZR cn / IZR cd) < 2 ^ 31)%R /\ grow (IZR cn / IZR cd) top = k.
Proof.
  intros Ht Hn Hd Hk Hc. unfold cap_check, bounds_pos in Hc. rewrite !andb_true_iff, !Z.leb_le, !Z.ltb_lt in Hc.
  destruct l as [a b p q], h as [a' b' p' q']. cbn [bd_a bd_b bd_p bd_q] in Hc.
  destruct Hc as [[[[[[[[[[A1 A2] A3] A4] [[[B1 B2] B3] B4]] C1] C2] C3] C4] C5] C6].
  pose proof (power_ge top p q a b Ht A3 A4 A1 A2 C1 C2) as L.
  pose proof (power_le top p' q' a' b' Ht B3 B4 B1 B2 C3 C4) as U. clear C1 C2 C3 C4.
  unfold grow, int32, js_pow. replace (top =? 0) with false by lia. set (x := Rpower (IZR top) LN2) in *. clearbody x.
  apply IZR_le in C5. apply IZR_lt in C6. rewrite !mult_IZR in C5, C6. apply IZR_lt in Hn, Hd, A2, B2.
  assert (0 < IZR cn / IZR cd)%R as Hq by (by apply Rdiv_lt_0_compat).
  assert (IZR k <= x * (IZR cn / IZR cd))%R as L'.
  { apply (Rle_trans _ (IZR a / IZR b * (IZR cn / IZR cd))); [|apply Rmult_le_compat_r; lra].
    apply (Rmult_le_reg_r (IZR cd * IZR b)); [by apply Rmult_lt_0_compat|].
    replace (IZR a / IZR b * (IZR cn / IZR cd) * (IZR cd * IZR b))%R with (IZR a * IZR cn)%R by (field; lra). lra. }
  assert (x * (IZR cn / IZR cd) < IZR (k + 1))%R as U'.
  { apply (Rle_lt_trans _ (IZR a' / IZR b' * (IZR cn / IZR cd))); [apply Rmult_le_compat_r; lra|].
    apply (Rmult_lt_reg_r (IZR cd * IZR b')); [by apply Rmult_lt_0_compat|].
    replace (IZR a' / IZR b' * (IZR cn / IZR cd) * (IZR cd * IZR b'))%R with (IZR a' * IZR cn)%R by (field; lra). lra. }
  assert (0 <= IZR k)%R by (apply (IZR_le 0); lia).
  assert (IZR (k + 1) <= 2 ^ 31)%R.
  { replace (2 ^ 31)%R with (IZR (2 ^ 31)) by (by rewrite pow_IZR). apply IZR_le. lia. }
  split; [lra|]. rewrite (Rtrunc_unique k); [apply wrap32_small; lia | lra | done].
Qed.

(** The effect of a skill, by its name. *)
Definition effect_of (name : string) : option (Z -> Z) :=
  match skill_code name with
  | Some c => match SkillCalculator !! Z.to_nat c with Some p => effect p | None => None end
  | None => None
  end.

(** The skills with a cap in percent: the level it is reached at and the effect
    there. *)
Definition caps : list (string * Z * Z) :=
  ([ ("AntiGun", 521, 92); ("Deconstruction", 47, 99); ("RoadMovement", 143, 352);
    ("AntiSlime", 165, 99); ("AntiBlock", 162, 91); ("Annihilation", 61, 99); ("Crystallography", 47, 99);
    ("Deactivation", 47, 99); ("Destruction", 53, 89); ("Fracturing", 65, 89); ("DeMagnetizing", 61, 99);
    ("Discount", 174, 50); ("TotalDestruction", 170, 99) ])%string.

(** An effect that grows up to a cap. *)
Definition capped_at (top cap : Z) (e : Z -> Z) : Prop :=
  (forall a b, 0 <= a <= b -> 0 <= e a <= e b /\ e b <= cap) /\ (forall a, top <= a -> e a = cap).

Lemma capped_ok bound top cn cd k l h :
  top <= bound <= top + 1 -> 1 <= top -> 0 < cn -> 0 < cd -> 0 < k < 2 ^ 31 - 1 ->
  cap_check top cn cd k l h = true -> capped_at top k (capped bound top (IZR cn / IZR cd)).
Proof.
  intros Hb Ht Hn Hd Hk Hc. destruct (cap_value top cn cd k l h Ht Hn Hd Hk Hc) as [Hs Hv].
  assert (0 <= IZR cn / IZR cd)%R as Hc0.
  { left. apply Rdiv_lt_0_compat; by apply IZR_lt. }
  assert (forall a, 0 <= a <= top -> 0 <= grow (IZR cn / IZR cd) a <= k) as Hg.
  { intros a Ha. by apply (grow_mono _ a top). }
  unfold capped_at, capped. split.
  - intros a b Hab. pose proof (Hg top ltac:(lia)) as Htop. destruct (a <? bound) eqn:Ea, (b <? bound) eqn:Eb; zprop; try lia.
    + pose proof (Hg b ltac:(lia)) as [B1 B2]. split; [|done]. apply (grow_mono _ a b); [done|lia|done|].
      pose proof (js_pow_mono b top ltac:(lia)) as [_ Hm]. eapply Rle_lt_trans; [|exact Hs]. by apply Rmult_le_compat_r.
    + pose proof (Hg a ltac:(lia)). lia.
  - intros a Ha. destruct (a <? bound) eqn:Ea; zprop; [|done]. by replace a with top by lia.
Qed.

(** The levels, factors and caps that occur, with their bounds. *)
Ltac by_cap l h := apply (capped_ok _ _ _ _ _ l h); [lia | lia | lia | lia | lia | vm_compute; reflexivity].

Lemma cap_47 : capped_at 47 99 (capped 47 47 (69 / 10)).
Proof. by_cap (mkBounds 158 11 9 13) (mkBounds 217 15 34 49). Qed.
Lemma cap_53 : capped_at 53 89 (capped 53 53 (573 / 100)).
Proof. by_cap (mkBounds 78 5 9 13) (mkBounds 157 10 43 62). Qed.
Lemma cap_61 : capped_at 61 99 (capped 61 61 (573 / 100)).
Proof. by_cap (mkBounds 3300 191 192 277) (mkBounds 87 5 25 36). Qed.
Lemma cap_65 : capped_at 65 89 (capped 65 65 (493 / 100)).
Proof. by_cap (mkBounds 1011 56 131 189) (mkBounds 73 4 16 23). Qed.
Lemma cap_143 : capped_at 143 352 (capped 143 143 (113 / 10)).
Proof. by_cap (mkBounds 187 6 70 101) (mkBounds 281 9 52 75). Qed.
Lemma cap_162 : capped_at 162 91 (capped 162 162 (268 / 100)).
Proof. by_cap (mkBounds 781 23 70 101) (mkBounds 137 4 25 36). Qed.
Lemma cap_165 : capped_at 165 99 (capped 165 165 (288 / 100)).
Proof. by_cap (mkBounds 172 5 70 101) (mkBounds 243 7 25 36). Qed.
Lemma cap_170 : capped_at 170 99 (capped 170 170 (282 / 100)).
Proof. by_cap (mkBounds 246 7 70 101) (mkBounds 177 5 25 36). Qed.
Lemma cap_174 : capped_at 174 50 (capped 174 174 (14 / 10)).
Proof. by_cap (mkBounds 250 7 70 101) (mkBounds 109 3 16 23). Qed.
Lemma cap_521 : capped_at 521 92 (capped 522 521 (1205 / 1000)).
Proof. by_cap (mkBounds 611 8 70 101) (mkBounds 463 6 25 36). Qed.

Create HintDb caps.
#[export] Hint Resolve cap_47 cap_53 cap_61 cap_65 cap_143 cap_162 cap_165 cap_170 cap_174 cap_521 : caps.

(** C36: The effects of the skills end where they are meant to: for every skill with a
    cap in percent the effect never falls as the level rises, is never above the cap, and is the
    cap from its level on - 92 percent at level 521 for the protection from guns, and
    so on - for the exact powers of the language. *)
Theorem effects_capped (name : string) (top cap : Z) (Hin : (name, top, cap) ∈ caps) :
  exists e, effect_of name = Some e /\ capped_at top cap e.
Proof.
  unfold caps in Hin. rewrite !elem_of_cons, elem_of_nil in Hin.
  destruct Hin as [[= -> -> ->]|[[= -> -> ->]|[[= -> -> ->]|[[= -> -> ->]|[[= -> -> ->]|[[= -> -> ->]|[[= -> -> ->]|
    [[= -> -> ->]|[[= -> -> ->]|[[= -> -> ->]|[[= -> -> ->]|[[= -> -> ->]|[[= -> -> ->]|[]]]]]]]]]]]]]].
  all: eexists; split; [reflexivity | auto with caps nocore].
Qed.

Lemma effects_capped_witness : exists e, effect_of "AntiGun" = Some e /\ e 522 = 92 /\ e 100000 = 92.
Proof.
  destruct (effects_capped "AntiGun" 521 92) as (e & E & _ & H); [by left|]. exists e. split; [exact E|]. split; apply H; lia.
Defined.

(** ** The skills of a bot *)

(** A place without a skill becomes a place with the skill of code 0, the protection
    from slime, at level 1. *)
Lemma empty_place_is_AntiSlime : new_BotSkill None = new_BotSkill (with_level 0 1) /\ skill_code "AntiSlime" = Some 0.
Proof. by split. Qed.

(** So a new bot has that skill on 21 of its 32 places, one of them on purpose. *)
Lemma preset_places : length (filter (λ s, id s = 0) (new_BotSkillsContainer BOTSKILLSPRESET)) = 21%nat.
Proof. by vm_compute. Qed.

(** ** The panel *)

Lemma make_slots_spec n : forall i h, Host_ok h -> forall k s, (make_slots n i h).1 !! k = Some s ->
  slot_style s = UP_GUI_SlotsCoords !! (i + k)%nat /\ slot_icon s = IcoLocations !! (i + k)%nat /\ 0 <= slot_lvl s <= 5000.
Proof.
  induction n as [|n IH]; intros i h Hh k s; cbn [make_slots]; [done|].
  pose proof (RandInt_range 0 5000 h Hh ltac:(lia)) as R. pose proof (RandInt_streams 0 5000 h) as S1.
  destruct (RandInt 0 5000 h) as [l h1]. cbn [fst snd] in *.
  pose proof (IH (S i) h1 (same_streams_ok _ _ S1 Hh)) as IH1. destruct (make_slots n (S i) h1) as [slots h2]. cbn [fst] in *.
  destruct k as [|k]; cbn.
  - intros [= <-]. cbn. by rewrite Nat.add_0_r.
  - intros Hs. rewrite Nat.add_succ_r. by apply (IH1 k).
Qed.

Lemma make_slots_length n : forall i h, length (make_slots n i h).1 = n.
Proof.
  induction n as [|n IH]; intros i h; [done|]. cbn [make_slots]. destruct (RandInt 0 5000 h) as [l h1].
  specialize (IH (S i) h1). destruct (make_slots n (S i) h1). cbn in *. by f_equal.
Qed.

(** The panel of the skills has a place for every skill a bot can have: as many as
    the container of a bot has, no two at the same spot, each with an icon of its own
    and a number from 0 to 5000, and it starts hidden. *)
Theorem skill_slots (shown : bool) (h : Host) (Hh : Host_ok h) :
  let g := (UPGUIController shown h).1 in
  visible g = false /\ length (SkillHTMLElements g) = length (new_BotSkillsContainer BOTSKILLSPRESET) /\
  (forall i s, SkillHTMLElements g !! i = Some s ->
     is_Some (slot_style s) /\ slot_icon s = Some (Z.of_nat i + 1) /\ 0 <= slot_lvl s <= 5000) /\
  (forall i j s t, SkillHTMLElements g !! i = Some s -> SkillHTMLElements g !! j = Some t -> slot_style s = slot_style t -> i = j).
Proof.
  cbv zeta. unfold UPGUIController. pose proof (make_slots_spec MaxSkillsCount 0 h Hh) as Hsp.
  pose proof (make_slots_length MaxSkillsCount 0 h) as Hl. destruct (make_slots MaxSkillsCount 0 h) as [slots h1].
  cbn [fst SkillHTMLElements set_visibility visible] in *.
  assert (forall i s, slots !! i = Some s -> (i < 32)%nat) as Hi by (intros i s Hs%lookup_lt_Some; by rewrite Hl in Hs).
  assert (forall i, (i < 32)%nat -> is_Some (UP_GUI_SlotsCoords !! i)) as Hst by (intros i Hlt; by apply lookup_lt_is_Some_2).
  split_and!; [done | by rewrite Hl | |].
  - intros i s Hs. destruct (Hsp i s Hs) as (E1 & E2 & E3). cbn [Nat.add] in *. split_and!; [rewrite E1; by eapply Hst, Hi| |lia|lia].
    rewrite E2. unfold IcoLocations. rewrite list_lookup_fmap, lookup_seq_lt; [done|]. apply Hi in Hs. lia.
  - intros i j s t Hs Ht E. destruct (Hsp i s Hs) as (E1 & _), (Hsp j t Ht) as (E2 & _). cbn [Nat.add] in *.
    rewrite E1, E2 in E. destruct (Hst i (Hi i s Hs)) as [c Hci].
    assert (NoDup UP_GUI_SlotsCoords) as Hn by (apply (bool_decide_unpack _); vm_compute; exact I).
    eapply NoDup_lookup; [exact Hn | exact Hci | by rewrite <- E].
Qed.

Lemma skill_slots_witness : length (SkillHTMLElements (UPGUIController true (const_host 0 (1 # 2))).1) = 32%nat.
Proof.
  destruct (skill_slots true (const_host 0 (1 # 2))) as (_ & H & _).
  - apply const_host_ok. split; by vm_compute.
  - exact H.
Defined.
