(* ===== verification/Windows.v ===== *)
(** * The windows of the client

    Models the windows of [scripts/userGUI/guiControls.js]: the map and the frame of
    the programmator are opened and closed, tabs are switched, and the programmator
    is told the state of the program of the current bot ([GetState] of
    [scripts/programmator.js]) at every callback of [ProgTicker] ([scripts/main.js]). *)

From Stdlib Require Import QArith Qround.
From S2P Require Import Prelude Host JsNum Vec Machine BotFacts World WorldFacts WorldProps.

#[local] Open Scope world_scope.

(** ** The state of a program *)

(** What [GetState()] returns; the two variables are kept apart, without the text
    around them. *)
Record ProgramState := mkState {
  handMode : bool; nowExecute : bool; s_prevIndex : Z; s_index : Z; s_stack : option ProgramStack; s_stackDepth : Z;
  botPosition : Vector2d; s_mode_flip : bool; s_lastVariables : option Key * option Key; s_uservariables : gmap Key Val;
  s_startIndex : Z; Timer : Z }.

(** [GetState()]: the clock is read only while the program runs. *)
Definition GetState (b : Bot) (h : Host) : ProgramState * Host :=
  let p := programCondition b in
  let '(t, h) := if isExecute p then let '(now, h) := performance_now h in (wrap32 (Qtrunc now) - timeStart p, h) else (0, h) in
  (mkState (isHandModeActive p) (isExecute p) (prevIndex p) (currIndex p) (at_index (stack p) (stackDepth p)) (stackDepth p)
     (position b) (mode_flip p) (Younger (lastVariables p), Older (lastVariables p)) (uservariables p) (startIndex p) t, h).

(** ** The windows *)

(** What the programmator is sent. *)
Inductive Sent := S_botstatus (s : ProgramState) | S_initprog.

(** [display] of the style of [prog_frame]. *)
Inductive Display := D_none | D_block.

(** The flags of [windows]; the styles of the two elements; whether the frame has an
    address; what was posted to it, the last one first; how often the map was told
    that it opened and the elements were focused. *)
Record Page := mkPage {
  windows_programmator : bool; windows_map : bool; map_hidden : bool; prog_display : Display; prog_src : bool;
  posted : list Sent; map_opened : nat; focused : nat }.

(** The state the first lines of the file leave. *)
Definition new_Page : Page := mkPage false false true D_none false [] 0 0.

(** [OpenMap()]. *)
Definition OpenMap (p : Page) : Page :=
  let hidden := negb (map_hidden p) in
  let p := mkPage (windows_programmator p) (windows_map p) hidden (prog_display p) (prog_src p) (posted p) (map_opened p) (focused p) in
  let p := mkPage (windows_programmator p) (if map_hidden p then false else true) (map_hidden p) (prog_display p) (prog_src p)
             (posted p) (map_opened p) (focused p) in
  if windows_map p then
    mkPage (windows_programmator p) (windows_map p) (map_hidden p) (prog_display p) (prog_src p) (posted p)
      (S (map_opened p)) (S (focused p))
  else p.

Definition is_block (d : Display) : bool := match d with D_block => true | D_none => false end.

(** [OpenProgrammator()]; the first time the frame gets its address. *)
Definition OpenProgrammator (p : Page) : Page :=
  let p := mkPage (windows_programmator p) (windows_map p) (map_hidden p) (prog_display p) true (posted p) (map_opened p) (focused p) in
  let d := if is_block (prog_display p) then D_none else D_block in
  let p := mkPage (is_block d) (windows_map p) (map_hidden p) d (prog_src p) (posted p) (map_opened p) (focused p) in
  if windows_programmator p then
    mkPage (windows_programmator p) (windows_map p) (map_hidden p) (prog_display p) (prog_src p) (posted p) (map_opened p) (S (focused p))
  else p.

Definition post (s : Sent) (p : Page) : Page :=
  mkPage (windows_programmator p) (windows_map p) (map_hidden p) (prog_display p) (prog_src p) (s :: posted p) (map_opened p) (focused p).

(** [SendBotProgramStatus(data)]. *)
Definition SendBotProgramStatus (data : ProgramState) (p : Page) : Page :=
  if windows_programmator p then post (S_botstatus data) p else p.

(** [prog_frame.onload]. *)
Definition prog_frame_onload (p : Page) : Page := post S_initprog p.

(** What happens to the windows: clicks on the two buttons, the message closeprog, the
    frame that has loaded, a status that is sent. *)
Inductive WindowEvent := W_map | W_prog | W_closeprog | W_onload | W_status (s : ProgramState).
Definition window_event (e : WindowEvent) : Page -> Page :=
  match e with
  | W_map => OpenMap
  | W_prog | W_closeprog => OpenProgrammator
  | W_onload => prog_frame_onload
  | W_status s => SendBotProgramStatus s
  end.

(** ** The callback of [ProgTicker] *)

(** The whole callback: the programs, the next timeout, the status of the current
    bot. *)
Definition prog_callback (w : World) (p : Page) : (JsError + unit) * World * Page :=
  match prog_timer w with
  | (inl e, w) => (inl e, w, p)
  | (inr _, w) =>
      match current w with
      | Some b => let '(s, h) := GetState b (w_host w) in (inr tt, w_set_host h w, SendBotProgramStatus s p)
      | None => (inr tt, w, p)
      end
  end.

(** ** Tabs *)

(** The elements of a container: the ids of the tabs and whether they are hidden, and
    of the switches whether they are active. *)
Record Tabs := mkTabs { tab_elements : list (string * bool); switches : list bool }.

(** [TabSwitch(evt, container, tabId)]: a tab without a switch throws. *)
Fixpoint switch_tabs (tabId : string) (tabs : list (string * bool)) (sw : list bool) : list (string * bool) * list bool * option JsError :=
  match tabs with
  | [] => ([], sw, None)
  | (id, _) :: tabs =>
      let shown := String.eqb id tabId in
      match sw with
      | [] => ((id, negb shown) :: tabs, [], Some TypeError)
      | _ :: sw => let '(tabs, sw, e) := switch_tabs tabId tabs sw in ((id, negb shown) :: tabs, shown :: sw, e)
      end
  end.
Definition TabSwitch (tabId : string) (t : Tabs) : Tabs * option JsError :=
  let '(tabs, sw, e) := switch_tabs tabId (tab_elements t) (switches t) in (mkTabs tabs sw, e).

(** ** The flags follow the windows *)

Record in_step (p : Page) : Prop := {
  st_map : windows_map p = negb (map_hidden p);
  st_prog : windows_programmator p = is_block (prog_display p);
  st_src : windows_programmator p = true -> prog_src p = true }.

Lemma new_Page_in_step : in_step new_Page.
Proof. by split. Qed.

Lemma window_event_in_step e p : in_step p -> in_step (window_event e p).
Proof.
  intros [H1 H2 H3]. destruct e; cbn [window_event].
  - unfold OpenMap. destruct p as [wp wm [|] d src po n f]; cbn in *; split; cbn; auto.
  - unfold OpenProgrammator. destruct p as [wp wm hid [|] src po n f]; cbn in *; split; cbn; auto.
  - unfold OpenProgrammator. destruct p as [wp wm hid [|] src po n f]; cbn in *; split; cbn; auto.
  - split; cbn; auto.
  - unfold SendBotProgramStatus, post. destruct (windows_programmator p) eqn:E; split; cbn; rewrite ?E; auto.
Qed.

Lemma window_events_in_step es p : in_step p -> in_step (foldl (λ p e, window_event e p) p es).
Proof. revert p. induction es as [|e es IH]; intros p Hp; [done|]. by apply IH, window_event_in_step. Qed.

Lemma GetState_streams b h : same_streams h (GetState b h).2.
Proof.
  unfold GetState. destruct (isExecute (programCondition b)); [|done]. pose proof (performance_now_streams h) as H.
  by destruct (performance_now h).
Qed.

(** What is posted in one callback. *)
Definition status_of (w : World) (p : Page) : list Sent :=
  if is_block (prog_display p) then
    match current w with Some b => [S_botstatus (GetState b (w_host w)).1] | None => [] end
  else [].

(** C19: The programmator always sees the program that runs: after any clicks and
    messages, a callback of the timer in a well-formed world throws nothing, keeps the
    world well formed and the timer running, and posts the state of the program of the
    current bot after this callback, once, if the programmator is visible - and
    nothing otherwise. *)
Theorem status_is_sent (w : World) (es : list WindowEvent) (Hw : WInv w) (Ht : ticking w = true) :
  let p := foldl (λ p e, window_event e p) new_Page es in
  exists w1 w' p', prog_timer w = (inr tt, w1) /\ prog_callback w p = (inr tt, w', p') /\
    WInv w' /\ ticking w' = true /\ Bots w' = Bots w1 /\ in_step p' /\
    prog_display p' = prog_display p /\ posted p' = status_of w1 p ++ posted p.
Proof.
  cbv zeta. set (p := foldl _ _ _). assert (in_step p) as Hp by (apply window_events_in_step, new_Page_in_step). clearbody p.
  destruct (prog_timer_wsafe w Hw) as (Hw1 & (Ht1 & _ & _) & Hr). destruct (Hr I) as [[] E].
  unfold prog_callback, status_of. destruct (prog_timer w) as [r w1] eqn:Ew. cbn [fst snd] in *. subst r. rewrite Ht in Ht1.
  destruct (current w1) as [b|] eqn:Ec.
  - pose proof (GetState_streams b (w_host w1)) as Hs. destruct (GetState b (w_host w1)) as [s h] eqn:Es. cbn [fst snd] in *.
    eexists _, _, _. split; [reflexivity|]. split; [reflexivity|]. split; [by apply WInv_host|].
    split; [exact Ht1|]. split; [done|]. split; [by apply (window_event_in_step (W_status s))|].
    unfold SendBotProgramStatus. rewrite <- (st_prog p Hp). destruct (windows_programmator p); cbn; [|done]. by rewrite Ec, Es.
  - eexists _, _, _. split; [reflexivity|]. split; [reflexivity|]. split; [done|]. split; [done|]. split; [done|]. split; [done|].
    split; [done|]. rewrite ?Ec. by destruct (is_block (prog_display p)).
Qed.

Definition watched_world : World := w_set_CurrentBot (Some 0%nat) (w_set_ticking true (demo_world [demo_bot])).

Lemma status_is_sent_witness :
  exists w' p', prog_callback watched_world (OpenProgrammator new_Page) = (inr tt, w', p') /\ length (posted p') = 1%nat.
Proof.
  destruct (status_is_sent watched_world [W_prog]) as (w1 & w' & p' & E1 & E & _ & _ & _ & _ & _ & Hp).
  - assert (WInv (demo_world [demo_bot])) as [H1 H2 H3 H4 H5].
    { apply demo_world_ok. intros [|[|i]] b; cbn; try done. intros [= <-]. split; [apply demo_bot_ok | apply (fine_new 0)]. }
    split; cbn; try done. intros i [= <-]. cbn. lia.
  - done.
  - exists w', p'. split; [exact E|]. cbn [foldl window_event] in Hp. rewrite Hp. unfold status_of. cbn [prog_display OpenProgrammator].
    assert (w1 = (prog_timer watched_world).2) as -> by (by rewrite E1).
    assert (match current (prog_timer watched_world).2 with Some _ => true | None => false end = true) as Hc by (vm_compute; reflexivity).
    cbn. destruct (current (prog_timer watched_world).2); done.
Defined.

(** Switching a tab shows exactly this tab: with a switch for every tab nothing
    throws, a tab is visible if and only if it has the id, its switch is active if and
    only if it is visible, further switches stay as they are; with a switch too few
    it throws. *)
Theorem tab_switch (tabId : string) (t : Tabs) :
  let '(t', e) := TabSwitch tabId t in
  (tab_elements t').*1 = (tab_elements t).*1 /\ length (switches t') = length (switches t) /\
  (e = None <-> (length (tab_elements t) <= length (switches t))%nat) /\
  (e = None ->
    (forall i id hidden, tab_elements t' !! i = Some (id, hidden) ->
       (hidden = false <-> id = tabId) /\ switches t' !! i = Some (negb hidden)) /\
    drop (length (tab_elements t)) (switches t') = drop (length (tab_elements t)) (switches t)).
Proof.
  unfold TabSwitch. destruct t as [tabs sw]. cbn [tab_elements switches]. revert sw.
  induction tabs as [|[id hid] tabs IH]; intros sw; cbn [switch_tabs].
  - cbn. split_and!; [done|done| |]; [split; [intros; lia | done] | intros _; by split].
  - destruct sw as [|s sw].
    + cbn. split_and!; [done|done| |done]. split; [done | lia].
    + specialize (IH sw). destruct (switch_tabs tabId tabs sw) as [[tabs' sw'] e]. cbn [tab_elements switches] in *.
      destruct IH as (H1 & H2 & H3 & H4). cbn. split_and!; [by f_equal | by f_equal | rewrite H3; lia |].
      intros He. destruct (H4 He) as [H5 H6]. split; [|done]. intros [|i] id' hid'; cbn.
      * intros [= <- <-]. destruct (String.eqb_spec id tabId) as [->|Hne]; cbn; by split.
      * apply H5.
Qed.
