(* ===== verification/MapWindow.v ===== *)
(** * The window of the map

    Models the colours of [scripts/tables/MapTables.js] and [class MapDraw] of
    [scripts/userGUI/Mapdrawer.js]: the picture of the map, one pixel a cell, kept
    in an [ImageData] that is made anew when the canvas outgrows it. *)

From Stdlib Require Import QArith Qround.
From S2P Require Import Prelude JsNum Blocks WMap Vec.

(** ** Colours *)

Definition Color : Type := Z * Z * Z.
Definition emptyColor : Color := (179, 100, 174).

(** The assignments [CTS[i] = [..]] after the loop that fills the table. *)
Definition CTS_writes : list (Z * Color) :=
  [ (0, (90, 33, 33)); (1, (0, 0, 0)); (30, (15, 30, 3)); (31, (25, 41, 13)); (32, (0, 0, 0));
    (33, (15, 11, 3)); (34, (29, 25, 18)); (35, (68, 68, 68)); (36, (85, 68, 34)); (37, (68, 0, 0));
    (38, (51, 68, 0)); (39, (19, 39, 3)); (40, (255, 97, 107)); (41, (255, 107, 97));
    (42, (255, 107, 107)); (43, (255, 187, 251)); (44, (191, 241, 251)); (45, (207, 203, 241));
    (48, (255, 255, 255)); (49, (101, 150, 126)); (50, (101, 255, 255)); (51, (255, 51, 51));
    (52, (255, 101, 255)); (53, (34, 101, 255)); (54, (238, 254, 255)); (55, (238, 254, 255));
    (56, (225, 254, 255)); (57, (226, 254, 255)); (58, (227, 254, 255)); (59, (228, 254, 255));
    (60, (204, 204, 204)); (61, (221, 221, 221)); (62, (255, 204, 204)); (63, (255, 221, 221));
    (64, (170, 170, 170)); (65, (187, 187, 187)); (66, (184, 153, 51)); (67, (184, 136, 187));
    (68, (119, 68, 68)); (69, (136, 68, 153)); (70, (221, 255, 221)); (71, (71, 215, 100));
    (72, (101, 134, 247)); (73, (247, 82, 67)); (74, (132, 238, 247)); (75, (255, 135, 231));
    (80, (45, 87, 8)); (81, (40, 82, 3)); (82, (17, 102, 102)); (86, (184, 255, 17));
    (90, (238, 238, 238)); (91, (255, 90, 0)); (92, (193, 187, 187)); (93, (187, 193, 187));
    (94, (187, 187, 193)); (95, (184, 255, 34)); (96, (184, 255, 68)); (97, (112, 160, 183));
    (98, (112, 187, 207)); (99, (219, 209, 125)); (100, (181, 168, 57)); (101, (76, 191, 0));
    (102, (208, 206, 0)); (103, (133, 81, 166)); (104, (153, 153, 136)); (105, (198, 0, 0));
    (106, (136, 136, 136)); (107, (8, 215, 100)); (108, (255, 0, 0)); (109, (0, 0, 255));
    (110, (255, 0, 255)); (111, (238, 238, 255)); (112, (0, 255, 255)); (113, (211, 159, 166));
    (114, (119, 119, 119)); (115, (56, 118, 65)); (116, (17, 17, 255)); (117, (170, 119, 119));
    (118, (100, 98, 21)); (119, (170, 255, 255)); (120, (227, 191, 120)); (121, (163, 136, 72));
    (122, (51, 153, 120)) ].
Definition CTS : list Color :=
  foldl (λ t p, <[Z.to_nat p.1 := p.2]> t) (replicate 256 emptyColor) CTS_writes.
Definition ColorTable : list Color := CTS.
Definition ColorTableDark : list Color := (λ '(r, g, b), (js_shr r 1, js_shr g 1, js_shr b 1)) <$> CTS.

(** ** The picture *)

(** An [ImageData]: four bytes a pixel, clamped to [0, 255] when they are written,
    as in every [Uint8ClampedArray]. *)
Record ImageData := mkImageData { im_width : Z; im_height : Z; im_data : list Z }.
Definition clamp8 (v : Z) : Z := Z.max 0 (Z.min 255 v).
Definition cset (a : list Z) (i v : Z) : list Z := if 0 <=? i then <[Z.to_nat i := clamp8 v]> a else a.

(** [new ImageData(w, h)] throws an IndexSizeError, a kind of range error, when a
    side is 0. *)
Definition new_ImageData (w h : Z) : JsError + ImageData :=
  if (w =? 0) || (h =? 0) then inl RangeError
  else inr (mkImageData w h (replicate (Z.to_nat (w * h * 4)) 0)).

(** The options of the window and its sizes: the canvas of the world, the canvas
    of the map. *)
Record MapOptions := mkMapOptions { night : bool; show_bots : bool }.
Record Sizes := mkSizes { world_width : Z; world_height : Z; map_width : Z; map_height : Z }.

(** [GetCameraCenter()]: [>>] binds weaker than [/], so the count of the shift is that of 1 / 16. *)
Definition GetCameraCenter (z : Sizes) : Z * Z :=
  let n := wrap32 (Qtrunc (1 # 16)) in (wrap32 (js_shr (world_width z) n), wrap32 (js_shr (world_height z) n)).
(** [GetCameraCenterBlockPos()] and [GetFirstBlockCoords()], the camera at [cam]. *)
Definition GetCameraCenterBlockPos (z : Sizes) (cam : Q * Q) : Z * Z :=
  (wrap32 (Qtrunc ((js_shr (world_width z) 1 # 16) + cam.1)),
   wrap32 (Qtrunc ((js_shr (world_height z) 1 # 16) + cam.2))).
Definition GetFirstBlockCoords (z : Sizes) (cam : Q * Q) : Z * Z :=
  let c := GetCameraCenterBlockPos z cam in
  (c.1 - wrap32 (js_shr (map_width z) 1), c.2 - wrap32 (js_shr (map_height z) 1)).

(** The alpha of a new picture: [data[i + 3] = 256] for every fourth i. *)
Definition opaque (d : list Z) : list Z :=
  foldl (λ d k, cset d (4 * k + 3) 256) d (up_to 0 ((Z.of_nat (length d) + 3) / 4)).

(** The picture is made anew when the canvas outgrew it. *)
Definition grow_image (z : Sizes) (im : ImageData) : JsError + ImageData :=
  if (im_width im <? map_width z) || (im_height im <? map_height z) then
    match new_ImageData (map_width z) (map_height z) with
    | inl e => inl e
    | inr im => inr (mkImageData (im_width im) (im_height im) (opaque (im_data im)))
    end
  else inr im.

(** One pixel. *)
Definition pixel_index (im : ImageData) (x y : Z) : Z := js_shl (y * im_width im + x) 2.
Definition set_pixel (i : Z) (c : Color) (d : list Z) : list Z :=
  let '(r, g, b) := c in cset (cset (cset d i r) (i + 1) g) (i + 2) b.

(** The two loops of [Update]; a colour the table lacks would throw. *)
Definition color_of (o : MapOptions) (id : Z) : option Color :=
  at_index (if night o then ColorTableDark else ColorTable) id.
Definition paint_cell (o : MapOptions) (m : WorldMap) (pos : Z * Z) (im : ImageData) (y : Z)
    (st : list Z * option JsError) (x : Z) : list Z * option JsError :=
  match st with
  | (d, Some e) => (d, Some e)
  | (d, None) =>
      match color_of o (GetIDByCoord m (wrap32 (pos.1 + x)) (wrap32 (pos.2 + y))) with
      | Some c => (set_pixel (pixel_index im x y) c d, None)
      | None => (d, Some TypeError)
      end
  end.
Definition paint (o : MapOptions) (z : Sizes) (m : WorldMap) (pos : Z * Z) (im : ImageData) :
    list Z * option JsError :=
  foldl (λ st y, foldl (paint_cell o m pos im y) st (up_to 0 (wrap32 (map_width z))))
    (im_data im, None) (up_to 0 (wrap32 (map_height z))).

(** The marks of the bots, in pixels: all bots within the picture, then the
    current one. *)
Definition marks (o : MapOptions) (z : Sizes) (pos : Z * Z) (bots : list Vector2d) (cur : option Vector2d) :
    JsError + list (Z * Z) :=
  if show_bots o then
    match cur with
    | Some c =>
        inr ((λ p, (vx p - pos.1, vy p - pos.2)) <$>
               (filter (λ p, pos.1 <= vx p <= pos.1 + map_width z /\ pos.2 <= vy p <= pos.2 + map_height z) bots
                ++ [c]))
    | None => inl TypeError
    end
  else inr [].

(** [Update()]: the picture, which is put on the canvas, and the marks on it. *)
Definition Update (o : MapOptions) (z : Sizes) (cam : Q * Q) (m : WorldMap) (bots : list Vector2d)
    (cur : option Vector2d) (im : ImageData) : ImageData * (JsError + list (Z * Z)) :=
  match grow_image z im with
  | inl e => (im, inl e)
  | inr im =>
      let pos := GetFirstBlockCoords z cam in
      let '(d, err) := paint o z m pos im in
      (mkImageData (im_width im) (im_height im) d,
       match err with Some e => inl e | None => marks o z pos bots cur end)
  end.

(** The canvas after [putImageData]: the bytes of pixel (x, y). *)
Definition shown (im : ImageData) (x y : Z) : option Color * option Z :=
  let i := (y * im_width im + x) * 4 in
  (match at_index (im_data im) i, at_index (im_data im) (i + 1), at_index (im_data im) (i + 2) with
   | Some r, Some g, Some b => Some (r, g, b)
   | _, _, _ => None
   end, at_index (im_data im) (i + 3)).

(** ** Colours are bytes, one for every block *)

Definition is_color (c : Color) : Prop := is_byte c.1.1 /\ is_byte c.1.2 /\ is_byte c.2.

(** It is the size of the canvas, not its middle in blocks. *)
Lemma GetCameraCenter_size z : 0 <= world_width z < 2 ^ 31 -> 0 <= world_height z < 2 ^ 31 ->
  GetCameraCenter z = (world_width z, world_height z).
Proof.
  intros Hw Hh. unfold GetCameraCenter, js_shr. change (wrap32 (Qtrunc (1 # 16))) with 0. rewrite !Z.shiftr_0_r, !wrap32_small by (rewrite ?wrap32_small; lia). done.
Qed.

Lemma colors_ok : length ColorTable = 256%nat /\ length ColorTableDark = 256%nat /\
  forall o id c, color_of o id = Some c -> is_color c.
Proof.
  assert (forallb (λ c, bool_decide (is_byte c.1.1) && bool_decide (is_byte c.1.2) && bool_decide (is_byte c.2))
    (ColorTable ++ ColorTableDark) = true) as H by (by vm_compute).
  rewrite forallb_forall in H. split_and!; [by vm_compute | by vm_compute |].
  intros o id c Hc. apply at_index_nat in Hc as (n & _ & Hc%list_elem_of_lookup_2).
  specialize (H c). rewrite !andb_true_iff, !bool_decide_eq_true in H. destruct H as [[H1 H2] H3]; [|done].
  apply list_elem_of_In, elem_of_app. destruct (night o); [by right | by left].
Qed.

Lemma color_of_byte o id : is_byte id -> exists c, color_of o id = Some c.
Proof.
  unfold is_byte. intros H. apply at_index_Some. destruct colors_ok as (E1 & E2 & _).
  destruct (night o); rewrite ?E1, ?E2; lia.
Qed.

(** ** Writing pixels *)

Lemma length_cset d i v : length (cset d i v) = length d.
Proof. unfold cset. destruct (0 <=? i); [apply length_insert | done]. Qed.

Lemma at_index_cset d i v k :
  0 <= i < Z.of_nat (length d) -> at_index (cset d i v) k = if k =? i then Some (clamp8 v) else at_index d k.
Proof.
  intros Hi. unfold at_index, cset. replace (0 <=? i) with true by lia. destruct (k =? i) eqn:E; zprop.
  - subst k. replace (0 <=? i) with true by lia. apply list_lookup_insert_eq. lia.
  - destruct (0 <=? k) eqn:Ek; [|done]. zprop. apply list_lookup_insert_ne. lia.
Qed.

Lemma clamp8_byte v : is_byte v -> clamp8 v = v.
Proof. unfold is_byte, clamp8. lia. Qed.

Lemma length_set_pixel d i c : length (set_pixel i c d) = length d.
Proof. unfold set_pixel. destruct c as [[r g] b]. by rewrite !length_cset. Qed.

Lemma at_index_set_pixel d i c k :
  is_color c -> 0 <= i -> i + 2 < Z.of_nat (length d) ->
  at_index (set_pixel i c d) k =
  if k =? i then Some c.1.1 else if k =? i + 1 then Some c.1.2 else if k =? i + 2 then Some c.2 else at_index d k.
Proof.
  destruct c as [[r g] b]. intros (Hr & Hg & Hb) Hi Hl. cbn [fst snd] in *. unfold set_pixel.
  rewrite !at_index_cset by (rewrite ?length_cset; lia). rewrite !clamp8_byte by done.
  repeat case_match; zprop; try lia; done.
Qed.

(** The alpha of an opaque picture is 255 everywhere. *)
Lemma opaque_spec d :
  length (opaque d) = length d /\
  forall k, 0 <= k -> 4 * k + 3 < Z.of_nat (length d) -> at_index (opaque d) (4 * k + 3) = Some 255.
Proof.
  assert (forall l d', length d' = length d -> length (foldl (λ d k, cset d (4 * k + 3) 256) d' l) = length d) as Hlen.
  { intros l d' Hd'. apply (foldl_invariant (λ a, length a = length d)); [done|].
    intros a b _ Ha. by rewrite length_cset. }
  split; [by apply Hlen|]. intros k Hk Hl. unfold opaque.
  apply (foldl_establish (λ a, length a = length d)
    (λ k a, 0 <= k -> 4 * k + 3 < Z.of_nat (length d) -> at_index a (4 * k + 3) = Some 255)); [done | | | | | done | done].
  - intros a b Ha. by rewrite length_cset.
  - intros a b Ha H1 H2. rewrite at_index_cset by (rewrite Ha; lia). by rewrite Z.eqb_refl.
  - intros a b c Ha Hc H1 H2. destruct (decide (0 <= 4 * b + 3 < Z.of_nat (length a))) as [Hb|Hb].
    + rewrite at_index_cset by done. destruct (_ =? _); [done | by apply Hc].
    + unfold cset. destruct (0 <=? 4 * b + 3) eqn:E; [|by apply Hc].
      rewrite list_insert_ge by lia. by apply Hc.
  - apply elem_of_up_to. split; [done|]. pose proof (Z.mul_div_le (Z.of_nat (length d) + 3) 4 ltac:(lia)).
    pose proof (Z.mod_pos_bound (Z.of_nat (length d) + 3) 4). pose proof (Z.div_mod (Z.of_nat (length d) + 3) 4). lia.
Qed.

(** ** The picture *)

(** The array fits the sides, and its indices fit 32 bits. *)
Definition image_ok (im : ImageData) : Prop :=
  0 < im_width im /\ 0 < im_height im /\
  Z.of_nat (length (im_data im)) = im_width im * im_height im * 4 /\ im_width im * im_height im * 4 < 2 ^ 31.

Lemma grow_image_ok z im :
  image_ok im -> 0 < map_width z -> 0 < map_height z -> map_width z * map_height z * 4 < 2 ^ 31 ->
  exists im1, grow_image z im = inr im1 /\ image_ok im1 /\
    map_width z <= im_width im1 /\ map_height z <= im_height im1 /\
    forall x y, 0 <= x < map_width z -> 0 <= y < map_height z ->
      (shown im1 x y).2 = if (im_width im <? map_width z) || (im_height im <? map_height z)
                          then Some 255 else (shown im x y).2.
Proof.
  intros Him Hw Hh Hb. unfold grow_image. destruct (_ || _) eqn:E.
  2:{ exists im. split_and!; [done..|lia|lia|done]. }
  unfold new_ImageData. replace ((map_width z =? 0) || (map_height z =? 0)) with false by lia.
  cbn [im_width im_height im_data]. destruct (opaque_spec (replicate (Z.to_nat (map_width z * map_height z * 4)) 0)) as [Hl Ha].
  rewrite length_replicate in Hl, Ha. eexists. split; [done|]. unfold image_ok, shown. cbn [im_width im_height im_data snd].
  rewrite Hl. split_and!; [done|done|lia|done|lia|lia|].
  intros x y Hx Hy. replace ((y * map_width z + x) * 4 + 3) with (4 * (y * map_width z + x) + 3) by lia.
  apply Ha; nia.
Qed.

Lemma pixel_index_eq im x y :
  image_ok im -> 0 <= x < im_width im -> 0 <= y < im_height im ->
  pixel_index im x y = (y * im_width im + x) * 4 /\ 0 <= y * im_width im + x /\
  (y * im_width im + x) * 4 + 3 < Z.of_nat (length (im_data im)).
Proof.
  intros (Hw & Hh & Hl & Hb) Hx Hy. assert (0 <= y * im_width im + x < im_width im * im_height im) by nia.
  split; [|lia]. unfold pixel_index, js_shl. rewrite !wrap32_small; [|lia|]; rewrite Z.shiftl_mul_pow2 by lia;
    rewrite ?wrap32_small by lia; lia.
Qed.

Section painting.
Context (o : MapOptions) (m : WorldMap) (pos : Z * Z) (im : ImageData) (Hm : wf m) (Him : image_ok im).

(** The block the pixel stands for. *)
Definition block_at_pixel (x y : Z) : Z := GetIDByCoord m (wrap32 (pos.1 + x)) (wrap32 (pos.2 + y)).

(** What every step keeps: no error, the length, the alpha. *)
Definition painting_ok (st : list Z * option JsError) : Prop :=
  st.2 = None /\ length st.1 = length (im_data im) /\
  forall k, k mod 4 = 3 -> at_index st.1 k = at_index (im_data im) k.

Definition painted (x y : Z) (st : list Z * option JsError) : Prop :=
  (shown (mkImageData (im_width im) (im_height im) st.1) x y).1 = color_of o (block_at_pixel x y).

Lemma color_pixel x y : exists c, color_of o (block_at_pixel x y) = Some c /\ is_color c.
Proof.
  destruct (color_of_byte o (block_at_pixel x y)) as [c Hc]; [by apply GetID_byte|].
  exists c. split; [done|]. destruct colors_ok as (_ & _ & H). by apply (H o (block_at_pixel x y)).
Qed.

Lemma paint_cell_eq x y d :
  exists c, color_of o (block_at_pixel x y) = Some c /\ is_color c /\
    paint_cell o m pos im y (d, None) x = (set_pixel (pixel_index im x y) c d, None).
Proof.
  destruct (color_pixel x y) as (c & Hc & Hok). exists c. split_and!; [done..|].
  unfold paint_cell. fold (block_at_pixel x y). by rewrite Hc.
Qed.

Lemma paint_cell_ok x y st :
  0 <= x < im_width im -> 0 <= y < im_height im -> painting_ok st -> painting_ok (paint_cell o m pos im y st x).
Proof.
  intros Hx Hy. destruct st as [d e]. intros (He & Hl & Ha). cbn [fst snd] in *. subst e.
  destruct (paint_cell_eq x y d) as (c & _ & Hc & ->). destruct (pixel_index_eq im x y Him Hx Hy) as (E & H0 & Hi).
  rewrite E. split; [done|]. cbn [fst]. rewrite length_set_pixel. split; [done|].
  intros k Hk. rewrite at_index_set_pixel by (done || lia). rewrite <- (Ha k Hk).
  set (p := y * im_width im + x) in *. clearbody p. Z.to_euclidean_division_equations.
  repeat case_match; zprop; try lia; done.
Qed.

Lemma paint_cell_paints x y st :
  0 <= x < im_width im -> 0 <= y < im_height im -> painting_ok st -> painted x y (paint_cell o m pos im y st x).
Proof.
  intros Hx Hy. destruct st as [d e]. intros (He & Hl & Ha). cbn [fst snd] in *. subst e.
  destruct (paint_cell_eq x y d) as (c & Ec & Hc & ->). destruct (pixel_index_eq im x y Him Hx Hy) as (E & H0 & Hi).
  unfold painted. rewrite Ec, E. unfold shown. cbn [im_width im_data fst].
  rewrite !at_index_set_pixel by (done || lia). set (i := (y * im_width im + x) * 4).
  rewrite Z.eqb_refl. replace (i + 1 =? i) with false by lia. rewrite Z.eqb_refl.
  replace (i + 2 =? i) with false by lia. replace (i + 2 =? i + 1) with false by lia. rewrite Z.eqb_refl.
  by destruct c as [[r g] b].
Qed.

(** A later cell keeps a painted pixel: it is another one, or the same again. *)
Lemma paint_cell_keeps x y x' y' st :
  0 <= x < im_width im -> 0 <= y < im_height im -> 0 <= x' < im_width im -> 0 <= y' < im_height im ->
  painting_ok st -> painted x y st -> painted x y (paint_cell o m pos im y' st x').
Proof.
  intros Hx Hy Hx' Hy' Hst Hp. destruct (decide (x' = x /\ y' = y)) as [[-> ->]|Hne]; [by apply paint_cell_paints|].
  destruct st as [d e]. destruct Hst as (He & Hl & Ha). cbn [fst snd] in *. subst e.
  destruct (paint_cell_eq x' y' d) as (c & _ & Hc & ->).
  destruct (pixel_index_eq im x' y' Him Hx' Hy') as (E & H0 & Hi).
  assert (y * im_width im + x <> y' * im_width im + x') as Hd.
  { intros Hd. apply Hne. destruct (index_inj (im_width im) x y x' y') as [-> ->]; [done|done|lia|done]. }
  unfold painted in *. rewrite <- Hp. rewrite E. unfold shown. cbn [im_width im_data fst].
  rewrite !at_index_set_pixel by (done || lia).
  set (p := y * im_width im + x) in *. set (p' := y' * im_width im + x') in *. clearbody p p'.
  repeat match goal with |- context [?a =? ?b] => replace (a =? b) with false by lia end. done.
Qed.

(** A row paints its pixels and keeps those that were painted. *)
Lemma paint_row_ok w y st :
  w <= im_width im -> 0 <= y < im_height im -> painting_ok st ->
  let st' := foldl (paint_cell o m pos im y) st (up_to 0 w) in
  painting_ok st' /\ forall x, x ∈ up_to 0 w -> painted x y st'.
Proof.
  intros Hw Hy Hst. apply (foldl_establish_in painting_ok (λ x, painted x y)); [done| | |].
  - intros a x Hx%elem_of_up_to Ha. by apply paint_cell_ok; try lia.
  - intros a x Hx%elem_of_up_to Ha. by apply paint_cell_paints; try lia.
  - intros a x x' Hx%elem_of_up_to Hx'%elem_of_up_to Ha. by apply paint_cell_keeps; try lia.
Qed.

Lemma paint_row_keeps w y st x' y' :
  w <= im_width im -> 0 <= y < im_height im -> 0 <= x' < im_width im -> 0 <= y' < im_height im ->
  painting_ok st -> painted x' y' st -> painted x' y' (foldl (paint_cell o m pos im y) st (up_to 0 w)).
Proof.
  intros Hw Hy Hx' Hy' Hst Hp.
  apply (foldl_invariant (λ a, painting_ok a /\ painted x' y' a)); [done|].
  intros a x Hx%elem_of_up_to [Ha Hpa]. split; [by apply paint_cell_ok; try lia|].
  by apply paint_cell_keeps; try lia.
Qed.

(** All rows: each pixel of the canvas shows its block, the rest is kept. *)
Lemma paint_rows_ok w h :
  w <= im_width im -> h <= im_height im ->
  let st := foldl (λ st y, foldl (paint_cell o m pos im y) st (up_to 0 w)) (im_data im, None) (up_to 0 h) in
  painting_ok st /\ forall y, y ∈ up_to 0 h -> forall x, x ∈ up_to 0 w -> painted x y st.
Proof.
  intros Hw Hh. apply (foldl_establish_in painting_ok (λ y st, forall x, x ∈ up_to 0 w -> painted x y st)); [done| | |].
  - intros a y Hy%elem_of_up_to Ha. by apply paint_row_ok; try lia.
  - intros a y Hy%elem_of_up_to Ha. by apply paint_row_ok; try lia.
  - intros a y y' Hy%elem_of_up_to Hy'%elem_of_up_to Ha Hp x Hx. pose proof Hx as Hx'%elem_of_up_to.
    apply paint_row_keeps; try lia; auto.
Qed.
End painting.

Lemma paint_ok o z m pos im :
  wf m -> image_ok im -> 0 < map_width z <= im_width im -> 0 < map_height z <= im_height im ->
  exists d, paint o z m pos im = (d, None) /\
    image_ok (mkImageData (im_width im) (im_height im) d) /\
    (forall k, k mod 4 = 3 -> at_index d k = at_index (im_data im) k) /\
    forall x y, 0 <= x < map_width z -> 0 <= y < map_height z ->
      shown (mkImageData (im_width im) (im_height im) d) x y =
      (color_of o (block_at_pixel m pos x y), (shown im x y).2).
Proof.
  intros Hm Him Hw Hh.
  destruct (paint_rows_ok o m pos im Hm Him (map_width z) (map_height z) (proj2 Hw) (proj2 Hh)) as [Hok Hp].
  cbv zeta in Hok, Hp. destruct Him as (H1 & H2 & H3 & H4).
  assert (map_width z < 2 ^ 31 /\ map_height z < 2 ^ 31) as [Bw Bh] by nia.
  unfold paint. rewrite (wrap32_small (map_width z)), (wrap32_small (map_height z)) by lia.
  destruct (foldl _ _ _) as [d e]. destruct Hok as (He & Hl & Hk). cbn [fst snd] in He, Hl, Hk. subst e.
  exists d. split; [done|]. split; [unfold image_ok; cbn [im_width im_height im_data]; by rewrite Hl|]. split; [exact Hk|].
  intros x y Hx Hy.
  pose proof (Hp y (proj2 (elem_of_up_to _ _ _) Hy) x (proj2 (elem_of_up_to _ _ _) Hx)) as Hq.
  unfold painted in Hq. cbn [fst] in Hq. rewrite <- Hq.
  apply injective_projections; [done|]. unfold shown. cbn [im_width im_data snd]. apply Hk.
  replace ((y * im_width im + x) * 4 + 3) with (3 + (y * im_width im + x) * 4) by lia.
  by rewrite Z_mod_plus_full.
Qed.

Lemma marks_error o z pos bots cur e : marks o z pos bots cur = inl e <-> e = TypeError /\ show_bots o = true /\ cur = None.
Proof. unfold marks. destruct (show_bots o), cur; split; try done; try (by intros (_ & ? & ?)); [by intros [= <-] | by intros (-> & _)]. Qed.

(** What an update does: the picture, its alpha, its shape, the error. *)
Lemma Update_paints (o : MapOptions) (z : Sizes) (cam : Q * Q) (m : WorldMap) (bots : list Vector2d)
    (cur : option Vector2d) (im : ImageData)
    (Hm : wf m) (Him : image_ok im) (Hw : 0 < map_width z) (Hh : 0 < map_height z)
    (Hz : map_width z * map_height z * 4 < 2 ^ 31) :
  let pos := GetFirstBlockCoords z cam in
  let '(im', r) := Update o z cam m bots cur im in
  image_ok im' /\ r = marks o z pos bots cur /\
  forall x y, 0 <= x < map_width z -> 0 <= y < map_height z ->
    (shown im' x y).1 = color_of o (GetIDByCoord m (wrap32 (pos.1 + x)) (wrap32 (pos.2 + y))) /\
    (shown im' x y).2 = if (im_width im <? map_width z) || (im_height im <? map_height z)
                        then Some 255 else (shown im x y).2.
Proof.
  cbv zeta. destruct (grow_image_ok z im Him Hw Hh Hz) as (im1 & E & Him1 & Hw1 & Hh1 & Ha).
  unfold Update. rewrite E. generalize (GetFirstBlockCoords z cam) as pos. intros pos. cbv zeta.
  destruct (paint_ok o z m pos im1 Hm Him1 (conj Hw Hw1) (conj Hh Hh1)) as (d & Ep & Hok & _ & Hp).
  rewrite Ep. split; [exact Hok|]. split; [done|].
  intros x y Hx Hy. rewrite (Hp x y Hx Hy), <- (Ha x y Hx Hy). by split.
Qed.

(** Every pixel of the picture has the alpha [a]. *)
Definition veil (a : Z) (im : ImageData) : Prop :=
  forall k, 0 <= k -> 4 * k + 3 < Z.of_nat (length (im_data im)) -> at_index (im_data im) (4 * k + 3) = Some a.

Lemma veil_shown a im x y : image_ok im -> veil a im -> 0 <= x < im_width im -> 0 <= y < im_height im -> (shown im x y).2 = Some a.
Proof.
  intros (H1 & H2 & H3 & H4) Hv Hx Hy. unfold shown. cbn [snd].
  replace ((y * im_width im + x) * 4 + 3) with (4 * (y * im_width im + x) + 3) by lia. apply Hv; nia.
Qed.

(** An update that makes the picture anew makes it opaque, any other keeps its alpha. *)
Lemma Update_alpha (o : MapOptions) (z : Sizes) (cam : Q * Q) (m : WorldMap) (bots : list Vector2d)
    (cur : option Vector2d) (im : ImageData) (a : Z)
    (Hm : wf m) (Him : image_ok im) (Hw : 0 < map_width z) (Hh : 0 < map_height z)
    (Hz : map_width z * map_height z * 4 < 2 ^ 31) (Hv : veil a im) :
  let im' := (Update o z cam m bots cur im).1 in
  map_width z <= im_width im' /\ map_height z <= im_height im' /\
  (veil 255 im' \/ (veil a im' /\ im_width im' = im_width im /\ im_height im' = im_height im)).
Proof.
  cbv zeta. destruct (grow_image_ok z im Him Hw Hh Hz) as (im1 & E & Him1 & Hw1 & Hh1 & _).
  assert (veil 255 im1 \/ (veil a im1 /\ im_width im1 = im_width im /\ im_height im1 = im_height im)) as Hv1.
  { unfold grow_image in E. destruct (_ || _); [|injection E as <-; by right]. left.
    unfold new_ImageData in E. destruct (_ || _); [done|]. injection E as <-. unfold veil. cbn [im_data].
    destruct (opaque_spec (replicate (Z.to_nat (map_width z * map_height z * 4)) 0)) as [Hl Ha]. rewrite Hl. exact Ha. }
  unfold Update. rewrite E. generalize (GetFirstBlockCoords z cam) as pos. intros pos. cbv zeta.
  destruct (paint_ok o z m pos im1 Hm Him1 (conj Hw Hw1) (conj Hh Hh1)) as (d & -> & Hok & Hk & _). cbn [fst im_width im_height].
  split; [done|]. split; [done|].
  assert (forall c, veil c im1 -> veil c (mkImageData (im_width im1) (im_height im1) d)) as Hd.
  { intros c Hc k H0 Hl. cbn [im_data] in *. destruct Him1 as (_ & _ & L1 & _), Hok as (_ & _ & L2 & _). cbn [im_width im_height im_data] in L2.
    rewrite Hk; [apply Hc; lia|]. rewrite Z.add_comm, Z.mul_comm. by rewrite Z_mod_plus_full. }
  destruct Hv1 as [Hv1|(Hv1 & Ew & Eh)]; [left | right]; auto.
Qed.

(** The map window shows the map: after an update every pixel of its canvas has
    the colour of the block of its cell - the dark one at night -, the alpha is
    opaque if the picture had to grow and is what it was before if not, the picture
    keeps its shape, and only a missing bot makes the update throw, when bots are
    to be marked. *)
Theorem map_picture (o : MapOptions) (z : Sizes) (cam : Q * Q) (m : WorldMap) (bots : list Vector2d)
    (cur : option Vector2d) (im : ImageData)
    (Hm : wf m) (Him : image_ok im) (Hw : 0 < map_width z) (Hh : 0 < map_height z)
    (Hz : map_width z * map_height z * 4 < 2 ^ 31) :
  let pos := GetFirstBlockCoords z cam in
  let '(im', r) := Update o z cam m bots cur im in
  image_ok im' /\ (r = inl TypeError <-> show_bots o = true /\ cur = None) /\
  forall x y, 0 <= x < map_width z -> 0 <= y < map_height z ->
    (shown im' x y).1 = color_of o (GetIDByCoord m (wrap32 (pos.1 + x)) (wrap32 (pos.2 + y))) /\
    (shown im' x y).2 = if (im_width im <? map_width z) || (im_height im <? map_height z)
                        then Some 255 else (shown im x y).2.
Proof.
  pose proof (Update_paints o z cam m bots cur im Hm Him Hw Hh Hz) as H. cbv zeta in *.
  destruct (Update o z cam m bots cur im) as [im' r]. destruct H as (H1 & -> & H3). rewrite marks_error. naive_solver.
Qed.

Definition demo_image : ImageData := mkImageData 1 1 [0; 0; 0; 0].

Lemma map_picture_witness :
  (shown (Update (mkMapOptions true false) (mkSizes 64 64 3 2) (0, 0)%Q demo_map [] None demo_image).1 2 1).2 = Some 255.
Proof.
  pose proof (map_picture (mkMapOptions true false) (mkSizes 64 64 3 2) (0, 0)%Q demo_map [] None demo_image
    demo_wf ltac:(by split_and!) ltac:(done) ltac:(done) ltac:(done)) as H. cbv zeta in H.
  destruct (Update _ _ _ _ _ _ _) as [im' r]. destruct H as (_ & _ & H). apply (H 2 1); cbn; lia.
Defined.

(** The first picture of the page is 300 pixels wide and 150 high and not opaque:
    on a canvas that never outgrows it the map stays invisible. *)
Lemma map_invisible o z cam m bots cur d x y :
  wf m -> 0 < map_width z <= 300 -> 0 < map_height z <= 150 ->
  0 <= x < map_width z -> 0 <= y < map_height z -> d = replicate (Z.to_nat (300 * 150 * 4)) 0 ->
  (shown (Update o z cam m bots cur (mkImageData 300 150 d)).1 x y).2 = Some 0.
Proof.
  intros Hm Hw Hh Hx Hy Hd.
  assert (Z.of_nat (length d) = 300 * 150 * 4) as Hl by (rewrite Hd, length_replicate, Z2Nat.id; lia).
  pose proof (Update_paints o z cam m bots cur (mkImageData 300 150 d) Hm ltac:(unfold image_ok; cbn [im_width im_height im_data]; lia)
    ltac:(lia) ltac:(lia) ltac:(nia)) as H. cbv zeta in H.
  destruct (Update o z cam m bots cur _) as [im' r]. destruct H as (_ & _ & H). cbn [fst].
  destruct (H x y Hx Hy) as [_ ->]. cbn [im_width im_height].
  replace ((300 <? map_width z) || (150 <? map_height z)) with false by lia.
  unfold shown. cbn [im_width im_data snd]. unfold at_index. replace (0 <=? _) with true by lia.
  rewrite Hd. apply lookup_replicate_2. lia.
Qed.
