(* ===== verification/MapPanel.v ===== *)
(** * The panel of the map

    Models the rest of [scripts/userGUI/Mapdrawer.js]: the options, the size of the
    canvas ([Mresize]), the listeners, the timer that redraws the map every 300 ms and
    the coordinates under the mouse, around the picture of [MapWindow].  The sizes the
    browser gives the canvas ([clientWidth], [clientHeight]) come with the events. *)

From Stdlib Require Import QArith Qround Qpower.
From S2P Require Import Prelude Host JsNum Blocks WMap Vec Machine JsText World WorldFacts WorldProps MapWindow Windows.

#[local] Open Scope Z_scope.

(** ** State *)

(** What the listeners read of the rest of the page: the canvas of the world, the
    camera, the world itself and the windows. *)
Record Scene := mkScene { sc_width : Z; sc_height : Z; sc_cam : Q * Q; sc_world : World; sc_page : Page }.

(** [MapOptions] with [MapZoom], the style the opacity was given ([None] before the
    first change), the size of the canvas, the picture and the text of the
    coordinates. *)
Record MapPanel := mkPanel {
  mp_zoom : Z; MapZoom : Q; mp_options : MapOptions; mp_opacity : bool; opacity_style : option Q;
  canvas : Z * Z; image : ImageData; map_coords : JsStr }.

(** [2 ** zoom]. *)
Definition zoom_factor (zoom : Z) : Q := Qpower 2 zoom.

(** The state the file leaves: the values of the inputs, a new picture for the canvas. *)
Definition new_MapPanel (zoom : Z) (night opacity bots : bool) (w h : Z) (text : JsStr) : JsError + MapPanel :=
  match new_ImageData w h with
  | inl e => inl e
  | inr im => inr (mkPanel zoom (zoom_factor zoom) (mkMapOptions night bots) opacity None (w, h) im text)
  end.

(** ** Operations *)

(** [Mresize()]: one pixel of the canvas for [MapZoom] pixels of the page.  The lengths
    it assigns to the style have no unit, so that the style sheet stays in force. *)
Definition pixels (client : Z) (zoom : Q) : Z := wrap32 (Qtrunc (inject_Z client / zoom)).
Definition Mresize (client : Z * Z) (p : MapPanel) : MapPanel :=
  let size := (pixels client.1 (MapZoom p), pixels client.2 (MapZoom p)) in
  mkPanel (mp_zoom p) (MapZoom p) (mp_options p) (mp_opacity p) (opacity_style p) size (image p) (map_coords p).

Definition sizes (s : Scene) (p : MapPanel) : Sizes := mkSizes (sc_width s) (sc_height s) (canvas p).1 (canvas p).2.

(** [md.Update()]. *)
Definition md_Update (s : Scene) (p : MapPanel) : (JsError + unit) * MapPanel :=
  let w := sc_world s in
  let '(im, r) := Update (mp_options p) (sizes s p) (sc_cam s) (w_map w) (position <$> Bots w) (position <$> current w) (image p) in
  (match r with inl e => inl e | inr _ => inr tt end,
   mkPanel (mp_zoom p) (MapZoom p) (mp_options p) (mp_opacity p) (opacity_style p) (canvas p) im (map_coords p)).

(** [MapHasOpened()]. *)
Definition MapHasOpened (s : Scene) (client : Z * Z) (p : MapPanel) : (JsError + unit) * MapPanel := md_Update s (Mresize client p).

(** The coordinates at the point (x, y) of the canvas, and the text of them. *)
Definition pointed (s : Scene) (p : MapPanel) (x y : Z) : Z * Z :=
  let coor := GetFirstBlockCoords (sizes s p) (sc_cam s) in
  (wrap32 (Qtrunc (inject_Z coor.1 + inject_Z x / MapZoom p)), wrap32 (Qtrunc (inject_Z coor.2 + inject_Z y / MapZoom p))).
Definition map_text (c : Z * Z) : JsStr :=
  [1050; 1072; 1088; 1090; 1072; 32] ++ int_text c.1 ++ u ":" ++ int_text c.2.
Definition mousemove (s : Scene) (x y : Z) (p : MapPanel) : MapPanel :=
  mkPanel (mp_zoom p) (MapZoom p) (mp_options p) (mp_opacity p) (opacity_style p) (canvas p) (image p) (map_text (pointed s p x y)).

(** The four inputs. *)
Definition zoom_oninput (v : Z) (p : MapPanel) : MapPanel :=
  mkPanel v (zoom_factor v) (mp_options p) (mp_opacity p) (opacity_style p) (canvas p) (image p) (map_coords p).
Definition night_onchange (b : bool) (p : MapPanel) : MapPanel :=
  mkPanel (mp_zoom p) (MapZoom p) (mkMapOptions b (show_bots (mp_options p))) (mp_opacity p) (opacity_style p) (canvas p) (image p) (map_coords p).
Definition opacity_onchange (b : bool) (p : MapPanel) : MapPanel :=
  mkPanel (mp_zoom p) (MapZoom p) (mp_options p) b (Some (if b then 9 # 10 else 1)%Q) (canvas p) (image p) (map_coords p).
Definition bots_onchange (b : bool) (p : MapPanel) : MapPanel :=
  mkPanel (mp_zoom p) (MapZoom p) (mkMapOptions (night (mp_options p)) b) (mp_opacity p) (opacity_style p) (canvas p) (image p) (map_coords p).

(** The timer of 300 ms: it redraws the map while the panel is visible. *)
Definition map_timer (s : Scene) (client : Z * Z) (p : MapPanel) : (JsError + unit) * MapPanel :=
  if map_hidden (sc_page s) then (inr tt, p) else MapHasOpened s client p.

(** What happens to the panel. *)
Inductive PanelEvent :=
  | P_resize (s : Scene) (client : Z * Z)
  | P_opened (s : Scene) (client : Z * Z)
  | P_timer (s : Scene) (client : Z * Z)
  | P_mousemove (s : Scene) (x y : Z)
  | P_zoom (v : Z) | P_night (b : bool) | P_opacity (b : bool) | P_bots (b : bool).

(** An error ends the listener, not the page. *)
Definition panel_event (e : PanelEvent) (p : MapPanel) : (JsError + unit) * MapPanel :=
  match e with
  | P_resize s c | P_opened s c => MapHasOpened s c p
  | P_timer s c => map_timer s c p
  | P_mousemove s x y => (inr tt, mousemove s x y p)
  | P_zoom v => (inr tt, zoom_oninput v p)
  | P_night b => (inr tt, night_onchange b p)
  | P_opacity b => (inr tt, opacity_onchange b p)
  | P_bots b => (inr tt, bots_onchange b p)
  end.
Definition panel_events (es : list PanelEvent) (p : MapPanel) : MapPanel := foldl (λ p e, (panel_event e p).2) p es.

(** ** The panel stays in order *)

(** The inputs of the document: the slider of the zoom goes from -1 to 2; the canvas
    is at least four pixels wide and high and at most a thousand times that. *)
Definition client_ok (c : Z * Z) : Prop := 4 <= c.1 <= 4096 /\ 4 <= c.2 <= 4096.
Definition event_ok (e : PanelEvent) : Prop :=
  match e with
  | P_resize s c | P_opened s c | P_timer s c => wf (w_map (sc_world s)) /\ client_ok c
  | P_zoom v => -1 <= v <= 2
  | _ => True
  end.

Record panel_ok (p : MapPanel) : Prop := {
  po_zoom : -1 <= mp_zoom p <= 2;
  po_factor : MapZoom p = zoom_factor (mp_zoom p);
  po_image : image_ok (image p);
  po_opacity : opacity_style p = None \/ opacity_style p = Some (if mp_opacity p then 9 # 10 else 1)%Q }.

Lemma zoom_cases z : -1 <= z <= 2 ->
  (z = -1 /\ (zoom_factor z == 1 # 2)%Q) \/ (z = 0 /\ (zoom_factor z == 1)%Q) \/
  (z = 1 /\ (zoom_factor z == 2)%Q) \/ (z = 2 /\ (zoom_factor z == 4)%Q).
Proof. intros Hz. assert (z = -1 \/ z = 0 \/ z = 1 \/ z = 2) as [->|[->|[->| ->]]] by lia; vm_compute; auto. Qed.

Lemma Qtrunc_floor q : (0 <= q)%Q -> Qtrunc q = Qfloor q.
Proof. unfold Qtrunc. destruct q as [n d]. unfold Qle. cbn. intros H. apply Z.quot_div_nonneg; lia. Qed.

Lemma zoom_positive z : -1 <= z <= 2 -> (0 < zoom_factor z)%Q.
Proof. intros Hz. destruct (zoom_cases z Hz) as [[_ ->]|[[_ ->]|[[_ ->]|[_ ->]]]]; reflexivity. Qed.

Lemma div_nonneg (x z : Q) : (0 <= x)%Q -> (0 < z)%Q -> (0 <= x / z)%Q.
Proof. intros Hx Hz. apply Qle_shift_div_l; [done|]. by rewrite Qmult_0_l. Qed.

(** The canvas is never empty and stays small. *)
Lemma pixels_range c z : -1 <= z <= 2 -> 4 <= c <= 4096 -> 1 <= pixels c (zoom_factor z) <= 8192.
Proof.
  intros Hz Hc. unfold pixels. pose proof (zoom_positive z Hz) as Hp.
  assert (inject_Z 1 <= inject_Z c / zoom_factor z)%Q as Hl.
  { apply Qle_shift_div_l; [done|]. destruct (zoom_cases z Hz) as [[_ ->]|[[_ ->]|[[_ ->]|[_ ->]]]]; unfold Qle; cbn; lia. }
  assert (inject_Z c / zoom_factor z <= inject_Z 8192)%Q as Hh.
  { apply Qle_shift_div_r; [done|]. destruct (zoom_cases z Hz) as [[_ ->]|[[_ ->]|[[_ ->]|[_ ->]]]]; unfold Qle; cbn; lia. }
  rewrite Qtrunc_floor by (eapply Qle_trans; [|exact Hl]; done).
  apply Qfloor_resp_le in Hl, Hh. rewrite Qfloor_Z in Hl, Hh. rewrite wrap32_small by lia. lia.
Qed.

Lemma Mresize_ok c p : panel_ok p -> client_ok c ->
  panel_ok (Mresize c p) /\ 1 <= (canvas (Mresize c p)).1 <= 8192 /\ 1 <= (canvas (Mresize c p)).2 <= 8192.
Proof.
  intros [Hz Hf Hi Ho] [H1 H2]. split; [by split|]. unfold Mresize. cbn [canvas fst snd]. rewrite Hf.
  split; by apply pixels_range.
Qed.

Definition cell (s : Scene) (p : MapPanel) (px py : Z) : Z * Z :=
  let pos := GetFirstBlockCoords (sizes s p) (sc_cam s) in (wrap32 (pos.1 + px), wrap32 (pos.2 + py)).

(** A redraw, the canvas not empty. *)
Lemma MapHasOpened_ok s c p : panel_ok p -> client_ok c -> wf (w_map (sc_world s)) ->
  let '(r, p') := MapHasOpened s c p in
  panel_ok p' /\ mp_options p' = mp_options p /\ MapZoom p' = MapZoom p /\
  canvas p' = (pixels c.1 (MapZoom p), pixels c.2 (MapZoom p)) /\
  (r = inl TypeError <-> show_bots (mp_options p) = true /\ current (sc_world s) = None) /\
  (is_Some (current (sc_world s)) -> r = inr tt) /\
  forall px py, 0 <= px < (canvas p').1 -> 0 <= py < (canvas p').2 ->
    (shown (image p') px py).1 =
    color_of (mp_options p) (GetIDByCoord (w_map (sc_world s)) (cell s p' px py).1 (cell s p' px py).2).
Proof.
  intros Hp Hc Hm. unfold MapHasOpened. destruct (Mresize_ok c p Hp Hc) as (Hq & Hw & Hh).
  assert (mp_options (Mresize c p) = mp_options p /\ MapZoom (Mresize c p) = MapZoom p /\
    canvas (Mresize c p) = (pixels c.1 (MapZoom p), pixels c.2 (MapZoom p))) as (Eo & Ez & Ec) by done.
  destruct Hq as [Hz Hf Hi Ho]. revert Eo Ez Ec Hz Hf Hi Ho Hw Hh. generalize (Mresize c p) as q. intros q Eo Ez Ec Hz Hf Hi Ho Hw Hh.
  pose proof (Update_paints (mp_options q) (sizes s q) (sc_cam s) (w_map (sc_world s)) (position <$> Bots (sc_world s))
    (position <$> current (sc_world s)) (image q) Hm Hi ltac:(unfold sizes; cbn; lia) ltac:(unfold sizes; cbn; lia)
    ltac:(unfold sizes; cbn; nia)) as H. cbv zeta in H.
  unfold md_Update. destruct (Update _ _ _ _ _ _ _) as [im r]. destruct H as (H1 & H2 & H3).
  cbn [canvas mp_options MapZoom]. split; [by split|]. split; [done|]. split; [done|]. split; [done|]. rewrite Eo in H2. split_and!.
  - pose proof (marks_error (mp_options p) (sizes s q) (GetFirstBlockCoords (sizes s q) (sc_cam s)) (position <$> Bots (sc_world s))
      (position <$> current (sc_world s)) TypeError) as He. rewrite <- H2, fmap_None in He. destruct r; naive_solver.
  - intros [b Hb]. destruct r as [e|]; [|done]. symmetry in H2. apply marks_error in H2 as (_ & _ & H2). by rewrite Hb in H2.
  - intros px py Hpx Hpy. rewrite <- Eo. by apply H3.
Qed.

Lemma panel_event_ok e p : panel_ok p -> event_ok e -> panel_ok (panel_event e p).2.
Proof.
  intros Hp He. destruct e as [s c|s c|s c| | | |b|]; cbn [panel_event snd event_ok] in *.
  1,2: destruct He as [Hm Hc]; pose proof (MapHasOpened_ok s c p Hp Hc Hm) as H; destruct (MapHasOpened s c p); by destruct H.
  - unfold map_timer. destruct (map_hidden _); [done|]. destruct He as [Hm Hc].
    pose proof (MapHasOpened_ok s c p Hp Hc Hm) as H; destruct (MapHasOpened s c p); by destruct H.
  - destruct Hp. by split.
  - destruct Hp. by split.
  - destruct Hp. by split.
  - destruct Hp. split; try done. by right.
  - destruct Hp. by split.
Qed.

Lemma panel_events_ok es p : panel_ok p -> Forall event_ok es -> panel_ok (panel_events es p).
Proof. intros Hp Hes. revert p Hp. induction Hes as [|e es He Hes IH]; intros p Hp; [done|]. by apply IH, panel_event_ok. Qed.

Lemma new_MapPanel_ok zoom night opacity bots w h text p :
  -1 <= zoom <= 2 -> 0 <= w -> 0 <= h -> w * h * 4 < 2 ^ 31 -> new_MapPanel zoom night opacity bots w h text = inr p -> panel_ok p.
Proof.
  intros Hz Hw Hh Hl. unfold new_MapPanel, new_ImageData. destruct (_ || _) eqn:E; [done|]. intros [= <-].
  assert (w <> 0 /\ h <> 0) as [? ?] by lia.
  split; cbn [mp_zoom MapZoom image opacity_style mp_opacity]; [done|done| |by left].
  unfold image_ok. cbn [im_width im_height im_data]. rewrite length_replicate. split_and!; lia.
Qed.

(** ** The mouse names what it points at *)

Lemma pointed_cell (z : Q) a x : (0 < z)%Q -> 0 <= x -> 0 <= a + Qfloor (inject_Z x / z) ->
  Qtrunc (inject_Z a + inject_Z x / z) = a + Qfloor (inject_Z x / z).
Proof.
  intros Hz Hx Ha. pose proof (Qfloor_le (inject_Z x / z)) as Hl. pose proof (Qlt_floor (inject_Z x / z)) as Hr.
  set (q := (inject_Z x / z)%Q) in *. clearbody q.
  assert (inject_Z (a + Qfloor q) <= inject_Z a + q)%Q as H1 by (rewrite inject_Z_plus; by apply Qplus_le_r).
  assert (inject_Z a + q < inject_Z (a + Qfloor q + 1))%Q as H2.
  { rewrite <- Z.add_assoc, inject_Z_plus. by apply Qplus_lt_r. }
  rewrite Qtrunc_floor; [|eapply Qle_trans; [|exact H1]; unfold Qle; cbn; lia].
  pose proof (Qfloor_resp_le _ _ H1) as H3. rewrite Qfloor_Z in H3.
  pose proof (Qfloor_le (inject_Z a + q)) as H4. pose proof (Qle_lt_trans _ _ _ H4 H2) as H5.
  rewrite <- Zlt_Qlt in H5. lia.
Qed.

(** ** What the listeners leave *)

(** The options and the zoom after some events: for each the value chosen last. *)
Definition chosen_night (es : list PanelEvent) (b : bool) : bool := foldl (λ b e, match e with P_night b' => b' | _ => b end) b es.
Definition chosen_bots (es : list PanelEvent) (b : bool) : bool := foldl (λ b e, match e with P_bots b' => b' | _ => b end) b es.
Definition chosen_zoom (es : list PanelEvent) (z : Z) : Z := foldl (λ z e, match e with P_zoom z' => z' | _ => z end) z es.

Lemma MapHasOpened_chosen s c p :
  mp_options (MapHasOpened s c p).2 = mp_options p /\ mp_zoom (MapHasOpened s c p).2 = mp_zoom p.
Proof. unfold MapHasOpened, md_Update. by destruct (Update _ _ _ _ _ _ _). Qed.

Lemma panel_events_chosen es : forall p,
  mp_options (panel_events es p) = mkMapOptions (chosen_night es (night (mp_options p))) (chosen_bots es (show_bots (mp_options p))) /\
  mp_zoom (panel_events es p) = chosen_zoom es (mp_zoom p).
Proof.
  induction es as [|e es IH]; intros p; [split; [cbn; by destruct (mp_options p) | done]|].
  change (panel_events (e :: es) p) with (panel_events es (panel_event e p).2). destruct (IH (panel_event e p).2) as [-> ->]. unfold chosen_night, chosen_bots, chosen_zoom. cbn [foldl].
  destruct e as [s c|s c|s c| | | | |]; cbn [panel_event snd]; try done; unfold map_timer;
    try (destruct (map_hidden _); [done|]); by destruct (MapHasOpened_chosen s c p) as [-> ->].
Qed.

(** The first picture is transparent, and stays while it is large enough; one that
    was made anew is opaque. *)
Definition clear_or_opaque (w h : Z) (im : ImageData) : Prop := veil 255 im \/ (veil 0 im /\ im_width im = w /\ im_height im = h).

Lemma MapHasOpened_alpha w h s c p : panel_ok p -> client_ok c -> wf (w_map (sc_world s)) -> clear_or_opaque w h (image p) ->
  let p' := (MapHasOpened s c p).2 in
  clear_or_opaque w h (image p') /\ (canvas p').1 <= im_width (image p') /\ (canvas p').2 <= im_height (image p').
Proof.
  intros Hp Hc Hm Ha. cbv zeta. unfold MapHasOpened, md_Update. destruct (Mresize_ok c p Hp Hc) as ([_ _ Hi _] & Hw & Hh).
  assert (clear_or_opaque w h (image (Mresize c p))) as Hb by done. clear Ha. revert Hi Hw Hh Hb. generalize (Mresize c p) as q. intros q Hi Hw Hh Hb.
  assert (exists a, veil a (image q) /\ (a = 255 \/ a = 0 /\ im_width (image q) = w /\ im_height (image q) = h)) as (a & Hv & Ha)
    by (destruct Hb as [?|(? & ? & ?)]; eexists; eauto 6).
  pose proof (Update_alpha (mp_options q) (sizes s q) (sc_cam s) (w_map (sc_world s)) (position <$> Bots (sc_world s))
    (position <$> current (sc_world s)) (image q) a Hm Hi ltac:(unfold sizes; cbn; lia) ltac:(unfold sizes; cbn; lia)
    ltac:(unfold sizes; cbn; nia) Hv) as H. cbv zeta in H.
  destruct (Update _ _ _ _ _ _ _) as [im r]. cbn [fst snd image canvas] in *. destruct H as (L1 & L2 & H).
  split; [|by split]. destruct H as [H|(H & E1 & E2)]; [by left|]. destruct Ha as [->|(-> & <- & <-)]; [by left | by right].
Qed.

Lemma panel_event_alpha w h e p : panel_ok p -> event_ok e -> clear_or_opaque w h (image p) -> clear_or_opaque w h (image (panel_event e p).2).
Proof.
  intros Hp He Ha. destruct e as [s c|s c|s c| | | | |]; cbn [panel_event snd event_ok] in *; try done; destruct He as [Hm Hc].
  - by apply MapHasOpened_alpha.
  - by apply MapHasOpened_alpha.
  - unfold map_timer. destruct (map_hidden _); [done | by apply MapHasOpened_alpha].
Qed.

Lemma panel_events_alpha w h es p : panel_ok p -> Forall event_ok es -> clear_or_opaque w h (image p) ->
  clear_or_opaque w h (image (panel_events es p)).
Proof.
  intros Hp Hes. revert p Hp. induction Hes as [|e es He Hes IH]; intros p Hp Ha; [done|].
  apply IH; [by apply panel_event_ok | by apply panel_event_alpha].
Qed.

Lemma new_MapPanel_alpha zoom night opacity bots w h text p :
  new_MapPanel zoom night opacity bots w h text = inr p -> clear_or_opaque w h (image p).
Proof.
  unfold new_MapPanel, new_ImageData. destruct (_ || _); [done|]. intros [= <-]. right. split; [|done].
  intros k Hk Hl. cbn [image im_data] in *. rewrite length_replicate in Hl. unfold at_index. replace (0 <=? 4 * k + 3) with true by lia.
  apply lookup_replicate_2. lia.
Qed.

(** C22: The map panel: whatever happened to it before, when its timer redraws it while it
    is visible, the canvas has one pixel for [MapZoom] pixels of the page at the zoom chosen last;
    every pixel has the colour of the block of its cell, dark if night was the choice made last; they all have the
    same alpha, 255, or 0 as long as no redraw needed a picture larger than the first one; only a
    missing bot throws, when marking the bots was the last choice; and then the text under the mouse
    names the cell whose pixel is under the mouse, if this cell is not left of the map
    or above it. *)
Theorem map_names_pixel (zoom : Z) (night opacity bots : bool) (w h : Z) (text : JsStr) (p0 : MapPanel) (es : list PanelEvent)
    (s : Scene) (client : Z * Z)
    (Hz : -1 <= zoom <= 2) (Hw : 0 <= w) (Hh : 0 <= h) (Hl : w * h * 4 < 2 ^ 31)
    (H0 : new_MapPanel zoom night opacity bots w h text = inr p0) (Hes : Forall event_ok es)
    (Hm : wf (w_map (sc_world s))) (Hc : client_ok client) (Hv : map_hidden (sc_page s) = false) :
  let o := mkMapOptions (chosen_night es night) (chosen_bots es bots) in
  let z := zoom_factor (chosen_zoom es zoom) in
  let '(r, p') := map_timer s client (panel_events es p0) in
  let at_x x := Qfloor (inject_Z x / z) in
  let pos := GetFirstBlockCoords (sizes s p') (sc_cam s) in
  canvas p' = (pixels client.1 z, pixels client.2 z) /\
  (r = inl TypeError <-> chosen_bots es bots = true /\ current (sc_world s) = None) /\
  (exists alpha, (alpha = 255 \/ alpha = 0 /\ (canvas p').1 <= w /\ (canvas p').2 <= h) /\
   forall px py, 0 <= px < (canvas p').1 -> 0 <= py < (canvas p').2 ->
    shown (image p') px py =
    (color_of o (GetIDByCoord (w_map (sc_world s)) (cell s p' px py).1 (cell s p' px py).2), Some alpha)) /\
  (forall x y, 0 <= x -> 0 <= y -> 0 <= pos.1 + at_x x -> 0 <= pos.2 + at_x y ->
    map_coords (mousemove s x y p') = map_text (cell s p' (at_x x) (at_x y))).
Proof.
  cbv zeta. pose proof (new_MapPanel_ok _ _ _ _ _ _ _ _ Hz Hw Hh Hl H0) as Hp0. pose proof (panel_events_ok es p0 Hp0 Hes) as Hp.
  pose proof (panel_events_alpha w h es p0 Hp0 Hes (new_MapPanel_alpha _ _ _ _ _ _ _ _ H0)) as Ha.
  destruct (panel_events_chosen es p0) as [Eo Ez0].
  assert (mp_options p0 = mkMapOptions night bots /\ mp_zoom p0 = zoom) as [Eo0 Ez1].
  { unfold new_MapPanel in H0. destruct (new_ImageData w h); [done|]. by injection H0 as <-. }
  rewrite Eo0 in Eo. rewrite Ez1 in Ez0. cbn [MapWindow.night show_bots] in Eo. rewrite <- Ez0.
  replace (mkMapOptions (chosen_night es night) (chosen_bots es bots)) with (mp_options (panel_events es p0)).
  replace (chosen_bots es bots) with (show_bots (mp_options (panel_events es p0))) by (by rewrite Eo).
  clear Eo Ez0 H0 Eo0 Ez1. generalize dependent (panel_events es p0). intros p Hp Ha.
  unfold map_timer. rewrite Hv. pose proof (MapHasOpened_ok s client p Hp Hc Hm) as H.
  pose proof (MapHasOpened_alpha w h s client p Hp Hc Hm Ha) as Hb. cbv zeta in Hb.
  destruct (MapHasOpened s client p) as [r p']. destruct H as (Hp' & Eo & Ez & Ec & Er & _ & Hd). cbn [snd] in Hb. destruct Hb as (Hb & B1 & B2).
  destruct Hp as [Hz0 Hf _ _]. rewrite Hf in Ec, Ez. split_and!; [done|done| |].
  - assert (exists a, veil a (image p') /\ (a = 255 \/ a = 0 /\ (canvas p').1 <= w /\ (canvas p').2 <= h)) as (a & Hva & Haa)
      by (destruct Hb as [?|(? & <- & <-)]; eexists; eauto 6).
    exists a. split; [exact Haa|]. intros px py Hx Hy. rewrite <- (Hd px py Hx Hy). apply injective_projections; [done|]. cbn [snd].
    apply veil_shown; [apply Hp' | done | lia | lia].
  - intros x y Hx Hy Hax Hay. unfold mousemove. cbn [map_coords]. f_equal. unfold pointed, cell. rewrite Ez.
    rewrite !pointed_cell by (done || by apply zoom_positive). done.
Qed.

Definition demo_scene : Scene :=
  mkScene 16 16 (50, 50)%Q (demo_world []) (OpenMap new_Page).

Lemma map_names_pixel_witness : exists p0, new_MapPanel 1 true true false 1 1 [] = inr p0 /\
  let p' := (map_timer demo_scene (8, 8) (panel_events [P_night false; P_zoom 0] p0)).2 in
  canvas p' = (8, 8) /\ map_coords (mousemove demo_scene 3 5 p') = map_text (49, 51).
Proof.
  eexists. split; [reflexivity|].
  pose proof (map_names_pixel 1 true true false 1 1 [] _ [P_night false; P_zoom 0] demo_scene (8, 8)
    ltac:(lia) ltac:(lia) ltac:(lia) ltac:(lia) eq_refl ltac:(repeat constructor; lia) ltac:(apply wf_Resyze; lia)
    ltac:(by split) eq_refl) as H. cbv zeta in H |- *.
  match type of H with context [map_timer ?a ?b ?c] => destruct (map_timer a b c) as [r p'] end.
  destruct H as (Hc & _ & _ & H). cbn [snd]. specialize (H 3 5 ltac:(lia) ltac:(lia)).
  assert (canvas p' = (8, 8)) as E by (rewrite Hc; reflexivity). split; [exact E|].
  assert (GetFirstBlockCoords (sizes demo_scene p') (sc_cam demo_scene) = (46, 46)) as Eg
    by (unfold sizes; rewrite E; reflexivity).
  unfold cell in H. rewrite Eg in H. apply H; cbn [fst snd]; apply Z.leb_le; reflexivity.
Defined.

(** Left of the map the coordinates are cut towards 0: the text names the cell right of
    the one under the mouse. *)
Lemma names_neighbour_left :
  let s := mkScene 16 16 (0, 0)%Q (demo_world []) (OpenMap new_Page) in
  let p := mkPanel 1 2 (mkMapOptions true false) true None (20, 20) demo_image [] in
  (pointed s p 1 1).1 = -9 /\ (cell s p (Qfloor (1 / MapZoom p)) (Qfloor (1 / MapZoom p))).1 = -10.
Proof. split; reflexivity. Qed.
