(* ===== verification/Session.v ===== *)
(** * A session of the page

    Puts the parts of the client together: the world of [World], the view, the tails,
    the strokes, the animations and drops, the panels, the windows and the map, with
    the events that reach them.  A frame is the whole of [WRenderer.Update] of
    [scripts/wrenderer.js] followed by the step of [StartRenderCycle]; every other event is the
    handler of its own component, with what it calls in the others. *)

From Stdlib Require Import QArith Qround Lqa.
From S2P Require Import Prelude Host JsNum JsSet JsText Blocks WMap MapCodec Vec Cargo Machine BotOps BotFacts Programmator ProgSafety World WorldFacts WorldProps Anims Drops Tiles Tails View Overlay Colours InventoryPanel StatusPanel Windows MapWindow MapPanel Start.

#[local] Open Scope world_scope.

(** ** State *)

(** What belongs to a bot beside the state that the world keeps: its name, its skin,
    its tail with a colour for each strand, and the entries of its inventory in the order of the map. *)
Record Look := mkLook { l_nick : JsStr; l_skin : Z; l_colors : list string; l_tail : Tail; l_items : list (Z * Z) }.

Record Session := mkSession {
  s_world : World; s_view : View; looks : list Look; frameCount : Z; renderTime : Q;
  s_anims : Anims; s_drops : Drops; s_marks : Marks; s_pen : Pen;
  s_hud : Hud; s_page : Page; s_map : MapPanel }.

(** What a frame puts on the canvas. *)
Record Picture := mkPicture {
  terrain : list Draw; over : list Call; sparks : list (AnimID * Vector2d * option Frame); texts : list TextCall;
  notes : list (Z * Z * JsStr) }.
Definition no_picture : Picture := mkPicture [] [] [] [] [].

(** ** The texts of a frame *)

(** [toFixed(f)]: of the integers nearest to x * 10^f the larger, its last f digits
    after the point. *)
Definition fixed_text (f : nat) (n : Z) : JsStr :=
  let m := nat_text n in
  let m := replicate (S f - length m) 48 ++ m in
  if (f =? 0)%nat then m else firstn (length m - f) m ++ u "." ++ skipn (length m - f) m.
Definition toFixed (f : nat) (x : Q) : JsStr :=
  let nearest (q : Q) := Qfloor (q * inject_Z (10 ^ Z.of_nat f) + (1 # 2)) in
  if Qlt_bool x 0 then u "-" ++ fixed_text f (nearest (- x)%Q) else fixed_text f (nearest x).

(** The line with the times of a frame. *)
Definition frame_text (deltatime renderTime : Q) : JsStr :=
  u "delta" ++ toFixed 0 deltatime ++ u " render:" ++ toFixed 1 renderTime.

(** What [BotInfo()] writes, on a canvas that is ch pixels high. *)
Definition BotInfo_notes (ch : Z) (deltatime renderTime : Q) (m : WorldMap) (b : Bot) : list (Z * Z * JsStr) :=
  (25, 550, geo_text (cargo b)) :: around_texts m (position b) ++ [(10, ch - 10, frame_text deltatime renderTime)].

(** ** A frame *)

(** The strokes of a tail: each link to the one before it. *)
Fixpoint draw_strand (cam : V2q) (color : string) (prev : V2q) (rest : list V2q) (p : Pen) : list Call * Pen :=
  match rest with
  | [] => ([], p)
  | q :: rest =>
      let '(c, p) := Rey cam q prev color p in
      let '(cs, p) := draw_strand cam color q rest p in (c :: cs, p)
  end.
Fixpoint draw_tail (cam : V2q) (colors : list string) (tail : Tail) (p : Pen) : list Call * Pen :=
  match colors, tail with
  | color :: colors, (head :: rest) :: tail =>
      let '(cs, p) := draw_strand cam color head rest p in
      let '(cs', p) := draw_tail cam colors tail p in (cs ++ cs', p)
  | _, _ => ([], p)
  end.

(** The loop of [DrawBots]: each bot moves on the screen, and is drawn with its tail
    when it is visible; an error ends the loop. *)
Fixpoint draw_bots (width : JsStr -> Q) (o : Marks) (cw ch : Z) (cam : V2q) (bots : list Bot) (vs : list Visual)
    (ls : list Look) (h : Host) (p : Pen) : list Call * option JsError * list Bot * list Visual * list Look * Host * Pen :=
  match bots, vs, ls with
  | b :: bots, v :: vs, l :: ls =>
      let v := draw_bot b v in
      let b := b_isVisible (on_screen cw ch cam (visibleposition v)) b in
      let '(cs, e, l, h, p) :=
        if isVisible b then
          match Tails.Update (visibleposition v) (l_tail l) h with
          | (inl e, h) => ([], Some e, l, h, p)
          | (inr t, h) =>
              let l := mkLook (l_nick l) (l_skin l) (l_colors l) t (l_items l) in
              let '(c1, p) := draw_tail cam (l_colors l) t p in
              let '(c2, e, p) := draw_visible width o cam b (l_nick l) (l_skin l) v p in (c1 ++ c2, e, l, h, p)
          end
        else ([], None, l, h, p) in
      match e with
      | Some e => (cs, Some e, b :: bots, v :: vs, l :: ls, h, p)
      | None =>
          let '(cs', e, bots, vs, ls, h, p) := draw_bots width o cw ch cam bots vs ls h p in
          (cs ++ cs', e, b :: bots, v :: vs, l :: ls, h, p)
      end
  | _, _, _ => ([], None, bots, vs, ls, h, p)
  end.

(** Nothing changes which bots are visible before [DrawBots] does. *)
Definition keep_visible (w : World) (i : nat) : bool := match Bots w !! i with Some b => isVisible b | None => false end.

(** The place where the bot with the given id is drawn. *)
Definition drawn_at (bots : list Bot) (vs : list Visual) (id : nat) : V2q :=
  match list_find (λ b, bot_id b = Z.of_nat id) bots with
  | Some (i, _) => match vs !! i with Some v => visibleposition v | None => (0, 0)%Q end
  | None => (0, 0)%Q
  end.

(** What the panels are told of the current bot. *)
Definition shown_bot (w : World) (ls : list Look) : option Shown :=
  i ← CurrentBot w; b ← Bots w !! i; l ← ls !! i; Some (mkShown b (l_nick l) (l_items l)).

(** [Update()] of the renderer and the step of [StartRenderCycle()], on a canvas of cw
    times ch pixels; [width] is the width of a text.  An error ends the frame where it is thrown. *)
Definition session_frame (width : JsStr -> Q) (cw ch : Z) (s : Session) : (JsError + unit) * Picture * Session :=
  let old := s_world s in
  let '(now, h) := performance_now (w_host old) in
  let dt := (now - elapsed (s_view s))%Q in
  match World.Update (keep_visible old) (w_set_host h old) with
  | (inl e, w) =>
      (inl e, no_picture, mkSession w (mkView (camera (s_view s)) (visuals (s_view s)) now) (looks s) (frameCount s) (renderTime s)
         (s_anims s) (s_drops s) (s_marks s) (s_pen s) (s_hud s) (s_page s) (s_map s))
  | (inr _, w) =>
      let cam := match current w with
                 | Some b => GotoCurrentBot cw ch dt (position b) (camera (s_view s))
                 | None => camera (s_view s)
                 end in
      let '(tiles, h) := DrawTerrain cw ch cam (w_map w) (w_host w) in
      let '(cs, err, bots, vs, ls, h, p) := draw_bots width (s_marks s) cw ch cam (Bots w) (visuals (s_view s)) (looks s) h (s_pen s) in
      let v := mkView cam vs now in
      match err, bots with
      | Some e, _ =>
          (inl e, mkPicture tiles cs [] [] [], mkSession (w_set_Bots bots (w_set_host h w)) v ls (frameCount s) (renderTime s)
             (s_anims s) (s_drops s) (s_marks s) p (s_hud s) (s_page s) (s_map s))
      | None, [] =>
          let '(stop, h) := performance_now h in
          (inr tt, mkPicture tiles cs [] [] [], mkSession (w_set_Bots bots (w_set_host h w)) v ls (frameCount s + 1) (stop - now)%Q
             (s_anims s) (s_drops s) (s_marks s) p (s_hud s) (s_page s) (s_map s))
      | None, _ =>
          let '(sp, a) := DrawFiniteAnims (mkAnims h (store (s_anims s)) (FinishedAnims (s_anims s)) (finiteAnims (s_anims s))) in
          let '(tx, d) := DrawDropsAnim (drawn_at bots vs) cam (s_drops s) in
          let w := w_set_Bots bots (w_set_host (a_host a) w) in
          let next w n t hud := mkSession w v ls n t a d (s_marks s) p hud (s_page s) (s_map s) in
          match shown_bot w ls with
          | None => (inl TypeError, mkPicture tiles cs sp tx [], next w (frameCount s) (renderTime s) (s_hud s))
          | Some b =>
              let pic := mkPicture tiles cs sp tx (BotInfo_notes ch dt (renderTime s) (w_map w) (s_bot b)) in
              match refresh_panels (frameCount s) b (s_hud s) with
              | inl e => (inl e, pic, next w (frameCount s) (renderTime s) (s_hud s))
              | inr hud =>
                  let '(stop, h) := performance_now (w_host w) in
                  (inr tt, pic, next (w_set_host h w) (frameCount s + 1) (stop - now)%Q hud)
              end
          end
      end
  end.

(** ** The other events *)

(** The letters of [randBukiva], as the crystals they stand for. *)
Definition randBukiva (i : Z) : CryKey := nth (Z.to_nat i) [K_v; K_c; K_w; K_b; K_g; K_r] K_v.

(** What a bot shows besides its state: an animation or a drop is made and shown; an
    animation gets the time at which it is handed over, which is after the operation
    that starts it. *)
Definition start_anim (id : AnimID) (p : Vector2d) (r : Z) (s : Session) : Session :=
  let w := s_world s in
  let a := show id p r (mkAnims (w_host w) (store (s_anims s)) (FinishedAnims (s_anims s)) (finiteAnims (s_anims s))) in
  mkSession (w_set_host (a_host a) w) (s_view s) (looks s) (frameCount s) (renderTime s) a (s_drops s) (s_marks s) (s_pen s) (s_hud s) (s_page s) (s_map s).
Definition start_drop (owner : Z) (p : Vector2d) (colour amount : Z) (s : Session) : Session :=
  mkSession (s_world s) (s_view s) (looks s) (frameCount s) (renderTime s) (s_anims s)
    (show_drop (vx p) (vy p) (Z.to_nat owner) (randBukiva colour) amount (s_drops s))
    (s_marks s) (s_pen s) (s_hud s) (s_page s) (s_map s).
Definition show_effect (s : Session) (e : Effect) : Session :=
  match e with
  | A_geo p r => start_anim Anim_geo p r s
  | A_digg p r => start_anim Anim_digg p r s
  | A_heal p r => start_anim Anim_heal p r s
  | A_drop owner p colour amount => start_drop owner p colour amount s
  | BotMoved _ _ => s
  end.

(** The log of the world's effects is emptied into the renderer. *)
Definition no_effects (w : World) : World :=
  mkWorld (w_host w) (w_map w) (w_ignoreBorders w) (progTicks w) (Bots w) (CurrentBot w) (keys w) (World.windows_map w)
    (ticking w) (inProcess w) (iter w) [].
Definition set_world (w : World) (s : Session) : Session :=
  mkSession w (s_view s) (looks s) (frameCount s) (renderTime s) (s_anims s) (s_drops s) (s_marks s) (s_pen s) (s_hud s) (s_page s) (s_map s).
Definition hand_over (w : World) (s : Session) : Session := foldl show_effect (set_world (no_effects w) s) (w_effects w).

Definition set_page (p : Page) (s : Session) : Session :=
  mkSession (s_world s) (s_view s) (looks s) (frameCount s) (renderTime s) (s_anims s) (s_drops s) (s_marks s) (s_pen s) (s_hud s) p (s_map s).
Definition set_map (m : MapPanel) (s : Session) : Session :=
  mkSession (s_world s) (s_view s) (looks s) (frameCount s) (renderTime s) (s_anims s) (s_drops s) (s_marks s) (s_pen s) (s_hud s) (s_page s) m.

(** The sizes the browser gives: of the canvas of the world, of the canvas of the map. *)
Record Screen := mkScreen { scr_width : Z; scr_height : Z; scr_client : Z * Z }.
Definition scene (d : Screen) (s : Session) : Scene :=
  mkScene (scr_width d) (scr_height d) (camera (s_view s)) (s_world s) (s_page s).

(** [OpenMap()], which draws the map when the window opens. *)
Definition open_map (d : Screen) (s : Session) : (JsError + unit) * Session :=
  let s := set_page (OpenMap (s_page s)) s in
  if Windows.windows_map (s_page s) then
    let '(r, m) := MapHasOpened (scene d s) (scr_client d) (s_map s) in (r, set_map m s)
  else (inr tt, s).

(** A handler of the world; the key that calls [OpenMap()] flips a flag of the world. *)
Definition after_world (d : Screen) (old : World) (r : JsError + unit) (w : World) (s : Session) : (JsError + unit) * Session :=
  let s := hand_over w s in
  match r with
  | inl e => (inl e, s)
  | inr _ => if Bool.eqb (World.windows_map old) (World.windows_map w) then (inr tt, s) else open_map d s
  end.

(** What happens to the page. *)
Inductive SessionEvent :=
  | SE_world (e : Event) (d : Screen)
  | SE_frame (width : JsStr -> Q) (cw ch : Z)
  | SE_prog_timer
  | SE_window (e : WindowEvent)
  | SE_map_button (d : Screen)
  | SE_map_redraw (timer : bool) (d : Screen)
  | SE_map_mouse (d : Screen) (x y : Z)
  | SE_zoom (v : Z) | SE_night (b : bool) | SE_opacity (b : bool) | SE_bots (b : bool)
  | SE_marks (o : Marks).

(** The events of the map panel, in the scene of the session. *)
Definition panel_event_of (e : SessionEvent) (s : Session) : option PanelEvent :=
  match e with
  | SE_map_redraw true d => Some (P_timer (scene d s) (scr_client d))
  | SE_map_redraw false d => Some (P_resize (scene d s) (scr_client d))
  | SE_map_mouse d x y => Some (P_mousemove (scene d s) x y)
  | SE_zoom v => Some (P_zoom v)
  | SE_night b => Some (P_night b)
  | SE_opacity b => Some (P_opacity b)
  | SE_bots b => Some (P_bots b)
  | _ => None
  end.

Definition set_marks (o : Marks) (s : Session) : Session :=
  mkSession (s_world s) (s_view s) (looks s) (frameCount s) (renderTime s) (s_anims s) (s_drops s) o (s_pen s) (s_hud s) (s_page s) (s_map s).

(** One event; frames and callbacks of the program timer have their own events. *)
Definition of_world (e : Event) : bool := match e with E_frame _ | E_prog_timer => false | _ => true end.

Inductive session_step (s : Session) : SessionEvent -> (JsError + unit) -> Session -> Prop :=
  | step_world e d r w r' s' : of_world e = true -> page_step (s_world s) e r w ->
      after_world d (s_world s) r w s = (r', s') -> session_step s (SE_world e d) r' s'
  | step_frame width cw ch r pic s' :
      session_frame width cw ch s = (r, pic, s') -> session_step s (SE_frame width cw ch) r s'
  | step_prog_timer r w p :
      prog_callback (s_world s) (s_page s) = (r, w, p) -> session_step s SE_prog_timer r (hand_over w (set_page p s))
  | step_window e : (e = W_prog \/ e = W_closeprog \/ e = W_onload) ->
      session_step s (SE_window e) (inr tt) (set_page (window_event e (s_page s)) s)
  | step_map_button d r s' :
      open_map d (set_world (w_set_windows_map (negb (World.windows_map (s_world s))) (s_world s)) s) = (r, s') ->
      session_step s (SE_map_button d) r s'
  | step_panel e pe r m : panel_event_of e s = Some pe -> panel_event pe (s_map s) = (r, m) ->
      session_step s e r (set_map m s)
  | step_marks o : session_step s (SE_marks o) (inr tt) (set_marks o s).

(** ** The invariant *)

Record look_ok (l : Look) : Prop := {
  lk_skin : 0 <= l_skin l < 5;
  lk_tail : tail_wf (length (l_colors l)) 3 (l_tail l);
  lk_items : NoDup (l_items l).*1;
  lk_codes : forall e, e ∈ l_items l -> 0 <= e.1 <= 50 }.

Record SInv (s : Session) : Prop := {
  si_world : WInv (s_world s);
  si_bots : Bots (s_world s) <> [];
  si_visuals : length (visuals (s_view s)) = length (Bots (s_world s));
  si_looks : length (looks s) = length (Bots (s_world s));
  si_look : Forall look_ok (looks s);
  si_anims : anims_ok (s_anims s);
  si_drops : drops_ok (s_drops s);
  si_hud : hud_ok (s_hud s);
  si_page : in_step (s_page s);
  si_map : MapPanel.panel_ok (s_map s) }.

(** What all events keep: the timer, the number of bots, that one is chosen. *)
Definition skept (s s' : Session) : Prop := kept (s_world s) (s_world s').

#[global] Instance skept_preorder : PreOrder skept.
Proof. split; unfold skept; [by intros s | by intros s1 s2 s3 H1 H2; etransitivity]. Qed.

Lemma nat_text_length n : 0 <= n -> (0 < length (nat_text n))%nat.
Proof.
  intros Hn. destruct (nat_text n) as [|c l] eqn:E; [|cbn; lia]. pose proof (text_number_int n) as H.
  unfold int_text in H. replace (n <? 0) with false in H by lia. rewrite E in H. done.
Qed.

(** Without decimals the text is the numeral of the nearest integer. *)
Lemma toFixed_0 x : (0 <= x)%Q -> text_number (toFixed 0 x) = Some (Qfloor (x + (1 # 2))).
Proof.
  intros Hx. unfold toFixed. replace (Qlt_bool x 0) with false by (unfold Qlt_bool; by rewrite (proj2 (Qle_bool_iff 0 x))).
  cbv zeta. change (inject_Z (10 ^ Z.of_nat 0)) with 1%Q. rewrite Qmult_1_r. set (n := Qfloor _).
  assert (0 <= n) as Hn by (change 0 with (Qfloor 0); apply Qfloor_resp_le; lra).
  unfold fixed_text. pose proof (nat_text_length n Hn). replace (1 - length (nat_text n))%nat with 0%nat by lia. cbn [replicate app Nat.eqb].
  rewrite <- text_number_int. unfold int_text. by replace (n <? 0) with false by lia.
Qed.

Lemma view_cell_fine b : fine (programCondition b) -> view_cell b <> None.
Proof.
  intros Hf. unfold view_cell. destruct (at_index_Some (stack (programCondition b)) (stackDepth (programCondition b))) as [f E].
  - destruct Hf as [Hg|(_ & _ & _ & -> & Hl)]; [apply (pi_depth _ _ Hg) | lia].
  - by rewrite E.
Qed.

(** ** Frames *)

Lemma DrawBots_cons cw ch cam b bots v vs :
  let v' := draw_bot b v in
  DrawBots cw ch cam (b :: bots) (v :: vs) =
  (b_isVisible (on_screen cw ch cam (visibleposition v')) b :: (DrawBots cw ch cam bots vs).1, v' :: (DrawBots cw ch cam bots vs).2).
Proof. done. Qed.

Lemma look_moved l t : look_ok l -> tail_wf (length (l_colors l)) 3 t -> look_ok (mkLook (l_nick l) (l_skin l) (l_colors l) t (l_items l)).
Proof. intros [H1 _ H3 H4] Ht. by split. Qed.

(** Drawing the bots throws nothing and moves them as [DrawBots] of the view does. *)
Lemma draw_bots_ok width o cw ch cam bots : forall vs ls h p,
  Host_ok h -> length vs = length bots -> length ls = length bots ->
  Forall (λ b, view_cell b <> None) bots -> Forall look_ok ls ->
  let '(cs, e, bots', vs', ls', h', p') := draw_bots width o cw ch cam bots vs ls h p in
  e = None /\ (bots', vs') = DrawBots cw ch cam bots vs /\ length ls' = length bots /\ Forall look_ok ls' /\ same_streams h h'.
Proof.
  induction bots as [|b bots IH]; intros [|v vs] [|l ls] h p Hh Hv Hl Hb Hk; try done.
  injection Hv as Hv. injection Hl as Hl. inversion Hb as [|?? Hb1 Hb2]; subst. inversion Hk as [|?? Hk1 Hk2]; subst.
  cbn [draw_bots]. rewrite DrawBots_cons. set (v' := draw_bot b v). set (vb := on_screen cw ch cam (visibleposition v')).
  assert (exists cs l' h1 p1,
    (if isVisible (b_isVisible vb b) then
       match Tails.Update (visibleposition v') (l_tail l) h with
       | (inl e, h) => ([], Some e, l, h, p)
       | (inr t, h) =>
           let '(c1, p) := draw_tail cam (l_colors l) t p in
           let '(c2, e, p) := draw_visible width o cam (b_isVisible vb b) (l_nick l) (l_skin l) v' p in
           (c1 ++ c2, e, mkLook (l_nick l) (l_skin l) (l_colors l) t (l_items l), h, p)
       end
     else ([], None, l, h, p)) = (cs, None, l', h1, p1) /\ look_ok l' /\ same_streams h h1) as (cs & l' & h1 & p1 & E & Hl' & Hs).
  { destruct (isVisible _); [|by exists [], l, h, p].
    pose proof (lk_tail l Hk1) as Ht. destruct (Update_ok _ 3 (visibleposition v') (l_tail l) h Hh Ht) as (t & h1 & -> & Ht' & Hs).
    destruct (draw_tail cam (l_colors l) t p) as [c1 p2].
    destruct (draw_visible_error width o cam (b_isVisible vb b) (l_nick l) (l_skin l) v' p2) as [_ He].
    specialize (He (conj (lk_skin l Hk1) (λ _, Hb1))).
    destruct (draw_visible _ _ _ _ _ _ _ _) as [[cs e] p1]. cbn in He. subst e. eexists _, _, _, _. split; [reflexivity|].
    split; [|done]. by eapply look_moved, tail_ok_wf. }
  cbn [l_nick l_skin l_colors] in *. cbv zeta. rewrite E.
  specialize (IH vs ls h1 p1 (same_streams_ok _ _ Hs Hh) Hv Hl Hb2 Hk2).
  destruct (draw_bots width o cw ch cam bots vs ls h1 p1) as [[[[[[cs' e] bots'] vs'] ls'] h'] p'].
  destruct IH as (-> & Ed & Hl1 & Hf & Hs'). rewrite <- Ed. split_and!; [done|done| |by constructor|by etransitivity].
  cbn. by f_equal.
Qed.

Lemma shown_bot_ok w ls : WInv w -> chosen w -> length ls = length (Bots w) -> Forall look_ok ls ->
  exists b, shown_bot w ls = Some b /\ shown_ok b.
Proof.
  intros Hw [i Hi] Hl Hk. unfold shown_bot. rewrite Hi. cbn.
  pose proof (wi_cur w Hw i Hi) as Hlt. destruct (lookup_lt_is_Some_2 (Bots w) i Hlt) as [b Eb].
  destruct (lookup_lt_is_Some_2 ls i ltac:(lia)) as [l El]. rewrite Eb. cbn. rewrite El. cbn.
  destruct (Forall_lookup_1 _ _ _ _ Hk El) as [_ _ H3 H4]. destruct (wi_bots w Hw i b Eb) as [Hb _].
  eexists. split; [reflexivity|]. split; cbn; [apply Hb | done | done].
Qed.

Lemma refresh_ok c b h : shown_ok b -> hud_ok h -> exists h', refresh_panels c b h = inr h' /\ hud_ok h'.
Proof. intros Hb Hh. destruct (refresh_panels_ok (λ _ _, False) c b h Hb Hh) as (h' & E & Hk & _); [by split_and! | by exists h']. Qed.

(** The world after a frame, but for the host: the one after the event of a frame. *)
Lemma frame_world cw ch cam w h w1 vs :
  World.Update (keep_visible w) h = (inr tt, w1) -> length vs = length (Bots w1) ->
  exists visible, World.Update visible h = (inr tt, w_set_Bots (DrawBots cw ch cam (Bots w1) vs).1 w1).
Proof.
  intros E Hl. destruct (DrawBots_imap cw ch cam (Bots w1) vs) as [visible Hv]; [done|]. rewrite Hv.
  exists visible. rewrite Update_visible. rewrite Update_visible in E.
  destruct (World.Update (λ _, false) h) as [[e|[]] w0] eqn:E0; [done|]. injection E as <-. cbn [Bots w_set_Bots].
  f_equal. transitivity (w_set_Bots (imap (λ i, b_isVisible (visible i)) (imap (λ i, b_isVisible (keep_visible w i)) (Bots w0))) w0); [|done].
  f_equal. apply list_eq. intros i. rewrite !list_lookup_imap. destruct (Bots w0 !! i) as [b|]; [|done]. cbn.
  by rewrite b_isVisible_twice.
Qed.

(** A frame never throws, whoever was chosen, keeps everything in order and chooses a
    bot; the world takes the step of its own frame. *)
Lemma session_frame_ok width cw ch s : SInv s ->
  let '(r, _, s') := session_frame width cw ch s in
  r = inr tt /\ SInv s' /\ skept s s' /\ chosen (s_world s') /\ frameCount s' = frameCount s + 1 /\
  exists visible w1 h, World.Update visible (w_set_host (performance_now (w_host (s_world s))).2 (s_world s)) = (inr tt, w1) /\
    same_streams (w_host w1) h /\ s_world s' = w_set_host h w1.
Proof.
  intros [I1 I2 I3 I4 I5 I6 I7 I8 I9 I10]. unfold session_frame.
  pose proof (performance_now_streams (w_host (s_world s))) as Hn.
  destruct (performance_now (w_host (s_world s))) as [now h0]. cbn [snd] in Hn |- *.
  pose proof (WInv_host _ _ I1 Hn) as J0. destruct (Update_wsafe (keep_visible (s_world s)) _ J0) as (J1 & K1 & Hr).
  destruct (Hr I) as [[] Er]. destruct (World.Update (keep_visible (s_world s)) (w_set_host h0 (s_world s))) as [r w] eqn:Eu.
  cbn [fst snd] in *. subst r. destruct K1 as (K1 & K2 & K3). cbn [Bots w_set_host CurrentBot ticking] in K1, K2, K3.
  assert (Bots w <> []) as Hb by (intros E; rewrite E in K2; destruct (Bots (s_world s)); done).
  pose proof (Update_chosen _ _ _ Eu Hb) as Hc.
  set (cam := match current w with Some b => _ | None => _ end). clearbody cam.
  pose proof (DrawTerrain_streams cw ch cam (w_map w) (w_host w)) as S1.
  destruct (DrawTerrain cw ch cam (w_map w) (w_host w)) as [tiles h1]. cbn [snd] in S1.
  pose proof (draw_bots_ok width (s_marks s) cw ch cam (Bots w) (visuals (s_view s)) (looks s) h1 (s_pen s)
    (same_streams_ok _ _ S1 (wi_host w J1)) ltac:(congruence) ltac:(congruence)
    ltac:(apply Forall_lookup_2; intros i b Hi; by apply view_cell_fine, (wi_bots w J1 i)) I5) as H.
  destruct (draw_bots _ _ _ _ _ _ _ _ _ _) as [[[[[[cs err] bots] vs] ls] h2] p].
  destruct H as (-> & Ed & Hl & Hk & S2).
  destruct (frame_world cw ch cam _ _ _ (visuals (s_view s)) Eu ltac:(congruence)) as [visible Ef].
  destruct (Update_wsafe visible _ J0) as (J2 & _ & _). rewrite Ef in J2. cbn [snd] in J2.
  rewrite <- Ed in Ef, J2. cbn [fst] in Ef, J2.
  assert (length bots = length (Bots w) /\ length vs = length (Bots w)) as [Lb Lv].
  { replace bots with (DrawBots cw ch cam (Bots w) (visuals (s_view s))).1 by (by rewrite <- Ed).
    replace vs with (DrawBots cw ch cam (Bots w) (visuals (s_view s))).2 by (by rewrite <- Ed).
    unfold DrawBots. cbn [fst snd]. rewrite !length_zip_with. lia. }
  destruct bots as [|b0 bots]; [destruct (Bots w); done|]. cbv zeta.
  set (an := mkAnims h2 (store (s_anims s)) (FinishedAnims (s_anims s)) (finiteAnims (s_anims s))).
  assert (anims_ok an) as Ha by (destruct I6; by split).
  destruct (DrawFiniteAnims_ok an Ha) as (Ha' & _ & _). pose proof (DrawFiniteAnims_streams an) as S3.
  destruct (DrawFiniteAnims an) as [sp a]. cbn [snd] in Ha', S3. change (a_host an) with h2 in S3.
  destruct (DrawDropsAnim_ok (drawn_at (b0 :: bots) vs) cam (s_drops s) I7) as (Hd & _ & _ & _).
  destruct (DrawDropsAnim _ cam (s_drops s)) as [tx d]. cbn [snd] in Hd.
  assert (same_streams (w_host w) (a_host a)) as S4 by (etransitivity; [exact S1|]; by etransitivity).
  assert (WInv (w_set_Bots (b0 :: bots) (w_set_host (a_host a) w))) as J3 by (apply (WInv_host _ (a_host a)) in J2; done).
  destruct (shown_bot_ok _ ls J3 Hc) as (sb & Es & Hs); [change (length ls = length (b0 :: bots)); congruence | done|]. rewrite Es.
  destruct (refresh_ok (frameCount s) sb (s_hud s) Hs I8) as (hud & Eh & Hh). rewrite Eh.
  pose proof (performance_now_streams (a_host a)) as S5. apply (WInv_host _ (performance_now (a_host a)).2) in J3; [|exact S5].
  change (w_host (w_set_Bots _ (w_set_host (a_host a) w))) with (a_host a).
  destruct (performance_now (a_host a)) as [stop h3]. cbn [snd] in S5, J3.
  split; [done|]. split.
  - split; cbn [s_world s_view looks s_anims s_drops s_hud s_page s_map visuals Bots w_set_Bots w_set_host]; try done; congruence.
  - split; [unfold skept, kept; cbn; split_and!; [done | change (length (b0 :: bots) = length (Bots (s_world s))); congruence | done]|]. split; [done|]. split; [done|].
    exists visible, (w_set_Bots (b0 :: bots) w), h3. split_and!; [done | by etransitivity | done].
Qed.

(** ** The other events *)

Lemma show_effect_ok s e : SInv s ->
  SInv (show_effect s e) /\ exists h, same_streams (w_host (s_world s)) h /\ s_world (show_effect s e) = w_set_host h (s_world s).
Proof.
  intros Hs.
  assert (forall id p r, SInv (start_anim id p r s) /\
    exists h, same_streams (w_host (s_world s)) h /\ s_world (start_anim id p r s) = w_set_host h (s_world s)) as Ha.
  { intros id p r. destruct Hs as [I1 I2 I3 I4 I5 I6 I7 I8 I9 I10]. unfold start_anim.
    set (an := mkAnims (w_host (s_world s)) _ _ _). destruct (show_ok id p r an) as [H1 H2]; [destruct I6; by split|].
    cbv zeta. split; [|by eexists]. split; try done. cbn. by apply WInv_host. }
  assert (exists h, same_streams (w_host (s_world s)) h /\ s_world s = w_set_host h (s_world s)) as Hid.
  { exists (w_host (s_world s)). split; [done|]. by destruct (s_world s). }
  destruct e; cbn [show_effect]; [apply Ha..| |by split].
  split; [|exact Hid]. destruct Hs as [I1 I2 I3 I4 I5 I6 I7 I8 I9 I10]. split; try done. cbn.
  pose proof (drop_GetExemplar_ok (vx p) (vy p) (Z.to_nat owner) (randBukiva colour) amount (s_drops s) I7) as H.
  by destruct (drop_GetExemplar _ _ _ _ _ _), H as [H _].
Qed.

Lemma hand_over_ok w s : SInv (set_world w s) ->
  SInv (hand_over w s) /\ exists h, same_streams (w_host w) h /\ s_world (hand_over w s) = w_set_host h (no_effects w).
Proof.
  intros Hs. unfold hand_over. assert (SInv (set_world (no_effects w) s)) as H0.
  { destruct Hs as [[] ? ? ? ? ? ? ? ? ?]. split; try done. }
  revert H0. generalize (w_effects w) as fx.
  assert (forall fx s, SInv s -> SInv (foldl show_effect s fx) /\
    exists h, same_streams (w_host (s_world s)) h /\ s_world (foldl show_effect s fx) = w_set_host h (s_world s)) as H.
  { clear. intros fx. induction fx as [|e fx IH]; intros s Hs; cbn [foldl].
    - split; [done|]. exists (w_host (s_world s)). split; [done | by destruct (s_world s)].
    - destruct (show_effect_ok s e Hs) as (H1 & h & S1 & E1). destruct (IH _ H1) as (H2 & h' & S2 & E2).
      split; [done|]. rewrite E1 in S2, E2. exists h'. split; [by etransitivity | exact E2]. }
  intros fx H0. destruct (H fx _ H0) as (H1 & h & S & E). split; [done|]. by exists h.
Qed.

Lemma chosen_current w : WInv w -> chosen w -> is_Some (current w).
Proof.
  intros Hw [i Hi]. unfold current. rewrite Hi. cbn. apply lookup_lt_is_Some_2. by apply (wi_cur w Hw).
Qed.

Lemma set_world_ok w s : SInv s -> WInv w -> length (Bots w) = length (Bots (s_world s)) -> SInv (set_world w s).
Proof.
  intros [I1 I2 I3 I4 I5 I6 I7 I8 I9 I10] Hw Hl. split; try done; cbn; [|congruence..].
  intros E. rewrite E in Hl. by destruct (Bots (s_world s)).
Qed.

Lemma panel_redraw_ok d s : SInv s -> client_ok (scr_client d) ->
  let '(r, m) := MapHasOpened (scene d s) (scr_client d) (s_map s) in
  MapPanel.panel_ok m /\ (chosen (s_world s) -> r = inr tt).
Proof.
  intros Hs Hc. pose proof (MapHasOpened_ok (scene d s) (scr_client d) (s_map s) (si_map s Hs) Hc (wi_map _ (si_world s Hs))) as H.
  destruct (MapHasOpened _ _ _) as [r m]. destruct H as (Hm & _ & _ & _ & _ & Hr & _). split; [done|].
  intros Hch. apply Hr, chosen_current; [apply Hs | done].
Qed.

Lemma set_map_ok m s : SInv s -> MapPanel.panel_ok m -> SInv (set_map m s).
Proof. by intros [] Hm; split. Qed.

Lemma open_map_ok d s : SInv s -> client_ok (scr_client d) ->
  let '(r, s') := open_map d s in
  SInv s' /\ s_world s' = s_world s /\ (chosen (s_world s) -> r = inr tt).
Proof.
  intros Hs Hc. unfold open_map. set (s1 := set_page (OpenMap (s_page s)) s).
  assert (SInv s1) as H1.
  { destruct Hs as [I1 I2 I3 I4 I5 I6 I7 I8 I9 I10]. split; try done. by apply (window_event_in_step W_map). }
  destruct (Windows.windows_map (s_page s1)); [|done]. pose proof (panel_redraw_ok d s1 H1 Hc) as H.
  destruct (MapHasOpened _ _ _) as [r m]. destruct H as [Hm Hr]. split; [by apply set_map_ok | done].
Qed.

Definition session_event_ok (e : SessionEvent) (s : Session) : Prop :=
  match e with
  | SE_world e d => WorldFacts.event_ok e (s_world s) /\ client_ok (scr_client d)
  | SE_map_button d | SE_map_redraw _ d => client_ok (scr_client d)
  | SE_zoom v => -1 <= v <= 2
  | _ => True
  end.

(** Every event keeps the session in order, and throws nothing once a bot was chosen. *)
Lemma session_step_ok s e r s' : SInv s -> session_event_ok e s -> session_step s e r s' ->
  SInv s' /\ skept s s' /\ (chosen (s_world s) -> r = inr tt).
Proof.
  intros Hs Hok Hstep. pose proof (si_world s Hs) as Hw.
  destruct Hstep as [e d r w r' s' He Hp Ha|width cw ch r pic s' Ef|r w p Ec|e He|d r s' Eo|e pe r m Ep Em|o]; cbn [session_event_ok] in Hok.
  - destruct Hok as [Hok Hc]. apply page_step_handle in Hp as [fuel Hh].
    destruct (handle_ok fuel e _ r w Hw Hok Hh) as (Hw' & (K1 & K2 & K3) & Hr).
    destruct (hand_over_ok w s) as (H1 & h & _ & Ew); [by apply set_world_ok|].
    assert (skept s (hand_over w s)) as Hk by (unfold skept, kept; rewrite Ew; by split_and!).
    unfold after_world in Ha. destruct r as [err|[]].
    + injection Ha as <- <-. split_and!; [done|done|]. intros Hch. by apply Hr in Hch.
    + destruct (Bool.eqb _ _); [by injection Ha as <- <-|].
      pose proof (open_map_ok d _ H1 Hc) as H. rewrite Ha in H. destruct H as (H2 & E2 & Hr2).
      split_and!; [done | unfold skept; by rewrite E2|]. intros Hch. apply Hr2. rewrite Ew. by apply K3.
  - pose proof (session_frame_ok width cw ch s Hs) as H. rewrite Ef in H. destruct H as (-> & H1 & H2 & _). by split_and!.
  - unfold prog_callback in Ec. destruct (prog_timer_wsafe (s_world s) Hw) as (Hw1 & (K1 & K2 & K3) & Hr).
    destruct (Hr I) as [[] Er]. destruct (prog_timer (s_world s)) as [r1 w1]. cbn [fst snd] in *. subst r1.
    assert (forall h p, same_streams (w_host w1) h -> in_step p ->
      let s' := hand_over (w_set_host h w1) (set_page p s) in SInv s' /\ skept s s') as Hgo.
    { intros h p' Hh Hp'. cbv zeta. assert (SInv (set_page p' s)) as H0 by (destruct Hs; by split).
      destruct (hand_over_ok (w_set_host h w1) (set_page p' s)) as (H1 & h' & _ & Ew).
      - apply set_world_ok; [done | by apply WInv_host | done].
      - split; [done|]. unfold skept, kept. rewrite Ew. by split_and!. }
    destruct (current w1) as [b|] eqn:Eb.
    + pose proof (GetState_streams b (w_host w1)) as Hg. destruct (GetState b (w_host w1)) as [st h]. cbn [snd] in Hg.
      injection Ec as <- <- <-. destruct (Hgo h (SendBotProgramStatus st (s_page s)) Hg) as [H1 H2].
      { apply (window_event_in_step (W_status st)), Hs. }
      by split_and!.
    + injection Ec as <- <- <-. destruct (Hgo (w_host w1) (s_page s) ltac:(done) (si_page s Hs)) as [H1 H2].
      by replace (w_set_host (w_host w1) w1) with w1 in * by (by destruct w1).
  - split_and!; [|done|done]. destruct Hs. split; try done. by apply window_event_in_step.
  - pose proof (open_map_ok d _ (set_world_ok (w_set_windows_map (negb (World.windows_map (s_world s))) (s_world s)) s Hs
      ltac:(by destruct Hw) eq_refl) Hok) as H.
    rewrite Eo in H. destruct H as (H1 & E1 & Hr). split_and!; [done | unfold skept; by rewrite E1 | done].
  - assert (MapPanel.panel_ok m /\ (chosen (s_world s) -> r = inr tt)) as [Hm Hr].
    { destruct e as [| | | | |[] d| | | | | | ]; try done; injection Ep as <-; cbn [panel_event] in Em; cbn [session_event_ok] in Hok.
      - unfold map_timer in Em. destruct (map_hidden _); [injection Em as <- <-; split; [apply Hs | done]|].
        pose proof (panel_redraw_ok d s Hs Hok) as H. by rewrite Em in H.
      - pose proof (panel_redraw_ok d s Hs Hok) as H. by rewrite Em in H.
      - injection Em as <- <-. split; [|done]. by apply (panel_event_ok (P_mousemove (scene d s) x y)); [apply Hs|].
      - injection Em as <- <-. split; [|done]. by apply (panel_event_ok (P_zoom v)); [apply Hs|].
      - injection Em as <- <-. split; [|done]. by apply (panel_event_ok (P_night b)); [apply Hs|].
      - injection Em as <- <-. split; [|done]. by apply (panel_event_ok (P_opacity b)); [apply Hs|].
      - injection Em as <- <-. split; [|done]. by apply (panel_event_ok (P_bots b)); [apply Hs|]. }
    split_and!; [by apply set_map_ok | done | done].
  - split_and!; [|done|done]. destruct Hs. by split.
Qed.

(** ** The session of a page that loads *)

(** What the start chose for a bot: its name, its skin, the colours and the style of its tail, and the
    entries of its inventory in their order. *)
Record Entry := mkEntry { e_nick : JsStr; e_skin : Z; e_colors : list string; e_style : TailStyle; e_items : list (Z * Z) }.

(** The tail is made before the bot knows its place. *)
Definition make_look (e : Entry) : Look := mkLook (e_nick e) (e_skin e) (e_colors e) (SetTail (e_style e) (0, 0)%Q) (e_items e).

(** The session after [main.js], its first frame drawn at [now] within [rendered]. *)
Definition begin (w : World) (es : list Entry) (now rendered : Q) (m : MapPanel) : Session :=
  mkSession w (mkView (50, 50)%Q ((λ b, new_Visual (position b)) <$> Bots w) now) (make_look <$> es) 1 rendered
    (mkAnims (w_host w) [] set_new set_new) no_drops (mkMarks false true false) (mkPen None "#000000")
    new_Hud new_Page m.

(** One of [TailStyles]; the colours of the last were drawn when the page began. *)
Definition is_style (cs : list string) (s : TailStyle) : Prop :=
  exists i, TailStyles !! i = Some s /\ (TailColors !! i = Some cs \/ i = 10%nat /\ exists h, u <$> cs = (last_style_colors h).1).

Definition entry_ok (b : Bot) (e : Entry) : Prop :=
  0 <= e_skin e <= 4 /\ is_style (e_colors e) (e_style e) /\ e_items e ≡ₚ map_to_list (inventory b).

Lemma is_style_counts cs s : is_style cs s -> length cs = colors s /\ links s = 5%nat.
Proof.
  intros (i & Hi & Hc). split.
  - destruct Hc as [Hc|(-> & h & Hc)].
    + assert (length <$> TailColors = take 10 (colors <$> TailStyles)) as E by done.
      apply (f_equal (.!! i)) in E. rewrite list_lookup_fmap, Hc in E. change (length <$> Some cs) with (Some (length cs)) in E.
      destruct (decide (i < 10)%nat); [|rewrite lookup_take_ge in E by lia; done].
      rewrite lookup_take_lt, list_lookup_fmap, Hi in E by done. cbn in E. congruence.
    + injection Hi as <-. rewrite <- (length_fmap u), Hc. apply random_style_length.
  - assert (Forall (λ s, links s = 5%nat) TailStyles) as Hf by (repeat constructor). by apply (Forall_lookup_1 _ _ _ _ Hf Hi).
Qed.

Lemma make_look_ok b e : in_panel (inventory b) -> entry_ok b e -> look_ok (make_look e).
Proof.
  intros Hb (H1 & H2 & H3). split; cbn.
  - lia.
  - destruct (is_style_counts _ _ H2) as [Hc Hl]. rewrite Hc. replace 3%nat with (links (e_style e) - 2)%nat by lia. apply SetTail_wf. lia.
  - rewrite H3. apply NoDup_fst_map_to_list.
  - intros [c n] Hin. rewrite H3 in Hin. apply elem_of_map_to_list in Hin. cbn. by apply (Hb c n).
Qed.

Lemma no_anims_ok h : anims_ok (mkAnims h [] set_new set_new).
Proof. split; intros k Hk; by apply not_elem_of_nil in Hk. Qed.

Lemma begin_ok w es now rendered m : WInv w -> Bots w <> [] -> Forall (λ b, in_panel (inventory b)) (Bots w) ->
  Forall2 entry_ok (Bots w) es -> MapPanel.panel_ok m -> SInv (begin w es now rendered m).
Proof.
  intros Hw Hb Hi He Hm. split; cbn; try done.
  - by rewrite length_fmap.
  - rewrite length_fmap. symmetry. by eapply Forall2_length.
  - clear Hb Hw. apply Forall_fmap. induction He as [|b e bs es H He IH]; [constructor|].
    inversion Hi; subst. constructor; [by eapply make_look_ok | by apply IH].
  - apply no_anims_ok.
  - apply no_drops_ok.
  - apply new_Hud_ok.
Qed.

(** A bot that was just made at [p] is pushed. *)
Definition push_bot (p : Vector2d) (e : Entry) (b : Bot) (h : Host) (s : Session) : Session :=
  mkSession (w_set_Bots (Bots (s_world s) ++ [b]) (w_set_host h (s_world s)))
    (mkView (camera (s_view s)) (visuals (s_view s) ++ [new_Visual p]) (elapsed (s_view s)))
    (looks s ++ [make_look e]) (frameCount s) (renderTime s)
    (s_anims s) (s_drops s) (s_marks s) (s_pen s) (s_hud s) (s_page s) (s_map s).

(** One round of [SpawnNewRandomBot()] of the console: the bot comes where the current
    one is; [e] is what its constructor chooses besides its state, but for the skin. *)
Definition spawn_here (s : Session) (e : Entry) : Session :=
  let p := match current (s_world s) with Some b => position b | None => mkV2 50 50 end in
  let '(b, h) := new_Bot (Z.of_nat (length (Bots (s_world s))) + 1) p (w_host (s_world s)) in
  push_bot p (mkEntry (e_nick e) 2 (e_colors e) (e_style e) (e_items e)) b h s.
Definition SpawnNewRandomBot (es : list Entry) (s : Session) : Session := foldl spawn_here s es.

Lemma push_bot_ok p e b h s : SInv s -> bot_ok b -> fresh b -> entry_ok b e -> same_streams (w_host (s_world s)) h ->
  SInv (push_bot p e b h s).
Proof.
  intros [[M1 M2 M3 M4 M5] I2 I3 I4 I5 I6 I7 I8 I9 I10] Hb [Hf Hi _ _] He Hh.
  split; cbn [push_bot s_world s_view looks s_anims s_drops s_hud s_page s_map visuals Bots w_set_Bots w_set_host]; try done.
  - split; cbn; [done | done | by eapply same_streams_ok | |].
    + intros i b0 [Hl|[_ [_ Hl]%list_lookup_singleton_Some]]%lookup_app_Some; [by apply (M4 i) | by subst].
    + intros i Hc. rewrite length_app. specialize (M5 i Hc). lia.
  - by intros [? ?]%app_eq_nil.
  - rewrite !length_app. cbn. lia.
  - rewrite !length_app. cbn. lia.
  - apply Forall_app. split; [done|]. constructor; [by apply (make_look_ok b) | done].
Qed.

(** Making bots while the page runs keeps everything in order. *)
Lemma spawn_here_ok s e : SInv s ->
  (forall b, Bots (s_world (spawn_here s e)) = Bots (s_world s) ++ [b] -> entry_ok b e) ->
  SInv (spawn_here s e) /\ length (Bots (s_world (spawn_here s e))) = S (length (Bots (s_world s))).
Proof.
  intros Hs. unfold spawn_here. generalize (match current (s_world s) with Some b => position b | None => mkV2 50 50 end). intros p.
  generalize (Z.of_nat (length (Bots (s_world s))) + 1). intros id.
  destruct (new_Bot_ok id p _ (wi_host _ (si_world s Hs))) as (Hb & Hf & _ & Hh & _).
  destruct (new_Bot id p (w_host (s_world s))) as [b h]. cbn [fst snd] in *. intros He. specialize (He b eq_refl).
  split; [|cbn; rewrite length_app; cbn; lia].
  apply push_bot_ok; [done..| |done]. destruct He as (_ & H2 & H3). by split_and!.
Qed.

(** Any run of acceptable events. *)
Definition good_session (s s' : Session) : Prop := exists e r, session_event_ok e s /\ session_step s e r s'.

Lemma good_session_ok s s' : SInv s -> rtc good_session s s' -> SInv s' /\ skept s s'.
Proof.
  intros Hs Hrun. revert Hs. induction Hrun as [s|s1 s2 s3 (e & r & Hok & Hst) _ IH]; intros Hs; [by split|].
  destruct (session_step_ok _ _ _ _ Hs Hok Hst) as (H2 & K & _). destruct (IH H2) as [H3 K']. split; [done | by etransitivity].
Qed.

Definition is_frame (e : SessionEvent) : bool := match e with SE_frame _ _ _ => true | _ => false end.

Section session.
Context (wrld : WorldData) (Hw : 0 <= wd_width wrld) (Hk : 0 <= wd_height wrld)
  (Hsz : wd_width wrld * wd_height wrld <= 2 ^ 31) (h : Host) (Hh : Host_ok h) (names : list JsStr) (Hne : names <> []).

(** C4: The page as a whole is safe while its inputs are in their ranges: from the start of a page
    that loads, whatever sequence of keys, mouse, program ticks, falls, growth, frames of any size, clicks
    on the windows, redraws and options of the map and messages follows - a program that is
    set is well formed and longer than the start of every bot, the zoom of the map is -1 to 2, and its
    canvas 4 to 4096 pixels wide and high in the page -, every part stays in order -
    the world, the view, the tails, the animations and drops, the panels, the windows
    and the map; the timer of the programs stays set, there are 51 bots, each with its
    visual and its look; no frame ever throws, each chooses a bot, and once a bot is chosen
    no event throws. *)
Theorem session_safe (fuel : nat) (w : World) (nicks : list JsStr) (es : list Entry) (now rendered : Q)
    (zoom : Z) (night opacity bots : bool) (mw mh : Z) (m : MapPanel)
    (s : Session) (e : SessionEvent) (r : JsError + unit) (s' : Session)
    (Hstart : start fuel wrld names h = Some (inr (w, nicks)))
    (Hes : Forall2 entry_ok (Bots w) es)
    (Hzoom : -1 <= zoom <= 2) (Hmw : 0 <= mw) (Hmh : 0 <= mh) (Hml : mw * mh * 4 < 2 ^ 31)
    (Hm : new_MapPanel zoom night opacity bots mw mh [] = inr m)
    (Hrun : rtc good_session (begin w es now rendered m) s) (Hok : session_event_ok e s) (Hstep : session_step s e r s') :
  SInv s' /\ ticking (s_world s') = true /\ length (Bots (s_world s')) = 51%nat /\
  (is_frame e = true \/ chosen (s_world s) -> r = inr tt /\ chosen (s_world s')).
Proof.
  destruct (start_ok wrld Hw Hk Hsz h Hh names Hne fuel _ Hstart) as (w1 & nicks1 & [= <- <-] & Hi & Ht & Hb & _ & _ & Hp & _).
  assert (SInv (begin w es now rendered m)) as H0.
  { apply begin_ok; try done; [by intros E; rewrite E in Hb | by eapply new_MapPanel_ok, Hm]. }
  destruct (good_session_ok _ _ H0 Hrun) as [Hs K]. destruct (session_step_ok _ _ _ _ Hs Hok Hstep) as (Hs' & K' & Hr).
  destruct (transitivity K K') as (K1 & K2 & _). cbn in K1, K2. split_and!; [done | congruence | congruence |].
  intros [Hf|Hc]; [|split; [by apply Hr | by apply K']].
  destruct Hstep as [|width cw ch r pic s' Ef| | | |e pe ? ? Ep|]; try done; [|by destruct e].
  pose proof (session_frame_ok width cw ch s Hs) as H. rewrite Ef in H. by destruct H as (-> & _ & _ & ? & _).
Qed.
End session.

Definition demo_entry (b : Bot) : Entry := mkEntry [] 2 ["#f0f"; "#ff0"; "#f0f"; "#ff0"]%string (mkStyle 4 5) (map_to_list (inventory b)).

Lemma demo_entry_ok b : entry_ok b (demo_entry b).
Proof. split_and!; [cbn; lia | cbn; lia | by exists 2%nat; split; [|left] | done]. Qed.

Lemma session_safe_witness : exists fuel w nicks m,
  start fuel demo_wrld demo_names demo_start_host = Some (inr (w, nicks)) /\
  let s := begin w (demo_entry <$> Bots w) 0 0 m in
  let '(r, _, s') := session_frame (λ _, 0%Q) 640 480 s in
  r = inr tt /\ length (Bots (s_world s')) = 51%nat /\ chosen (s_world s').
Proof.
  destruct demo_starts as (fuel & r & E).
  destruct (start_ok demo_wrld ltac:(by vm_compute) ltac:(by vm_compute) ltac:(by vm_compute) demo_start_host
    demo_start_host_ok demo_names ltac:(done) fuel r E) as (w & nicks & -> & _).
  destruct (new_MapPanel 1 true true true 1 1 []) as [e|m] eqn:Em; [discriminate Em|].
  exists fuel, w, nicks, m. split; [exact E|]. cbv zeta.
  destruct (session_frame (λ _, 0%Q) 640 480 (begin w (demo_entry <$> Bots w) 0 0 m)) as [[r pic] s'] eqn:Ef.
  destruct (session_safe demo_wrld ltac:(by vm_compute) ltac:(by vm_compute) ltac:(by vm_compute) demo_start_host
    demo_start_host_ok demo_names ltac:(done) fuel w nicks (demo_entry <$> Bots w) 0 0 1 true true true 1 1 m
    (begin w (demo_entry <$> Bots w) 0 0 m) (SE_frame (λ _, 0%Q) 640 480) r s' E) as (_ & _ & Hl & H).
  - apply Forall2_fmap_r, Forall_Forall2_diag, Forall_true. exact demo_entry_ok.
  - lia.
  - lia.
  - lia.
  - lia.
  - exact Em.
  - apply rtc_refl.
  - exact I.
  - by eapply step_frame.
  - destruct (H (or_introl eq_refl)) as [-> Hc]. split; [exact eq_refl|]. split; [exact Hl | exact Hc].
Defined.

(** ** The world in a session *)

(** Two worlds that differ in what drawing reads of the host, in the log of the effects
    and in the flag of the map window only. *)
Record same_page (w w' : World) : Prop := {
  sp_host : same_streams (w_host w) (w_host w');
  sp_map : w_map w' = w_map w; sp_bots : Bots w' = Bots w; sp_current : CurrentBot w' = CurrentBot w;
  sp_borders : w_ignoreBorders w' = w_ignoreBorders w; sp_ticks : progTicks w' = progTicks w; sp_keys : keys w' = keys w;
  sp_ticking : ticking w' = ticking w; sp_process : inProcess w' = inProcess w; sp_iter : iter w' = iter w }.

Lemma same_page_host w h : same_streams (w_host w) h -> same_page w (w_set_host h w).
Proof. by split. Qed.

Lemma same_page_refl w : same_page w w.
Proof. by split. Qed.

Lemma hand_over_page w s : SInv (set_world w s) -> same_page w (s_world (hand_over w s)).
Proof. intros Hs. destruct (hand_over_ok w s Hs) as (_ & h & Hh & ->). by split. Qed.

Lemma open_map_page d s r s' : open_map d s = (r, s') -> s_world s' = s_world s.
Proof.
  unfold open_map. destruct (Windows.windows_map _); [|by intros [= <- <-]].
  by destruct (MapHasOpened _ _ _); intros [= <- <-].
Qed.

(** The event of the page that an event of the session contains, if any. *)
Definition moves_world (e : SessionEvent) : bool :=
  match e with SE_world _ _ | SE_frame _ _ _ | SE_prog_timer => true | _ => false end.
Definition world_event (e : SessionEvent) (e' : Event) : Prop :=
  match e with
  | SE_world e0 _ => e' = e0
  | SE_frame _ _ _ => exists visible, e' = E_frame visible
  | SE_prog_timer => e' = E_prog_timer
  | _ => False
  end.

(** C5: A session refines the page: whatever is drawn and shown around it, its world
    takes the steps of [page_step] and no others - an event of the page, a frame or a tick of
    the programs is that one step of the world, from a world that is the one before it and to
    one that is the one after it, but for the clock and the random numbers that drawing reads
    in between, and an error of the step is the error of the event; a click on a window, a
    redraw or an option of the map leaves the world alone. *)
Theorem session_refines_page (s : Session) (e : SessionEvent) (r : JsError + unit) (s' : Session)
    (Hs : SInv s) (Hok : session_event_ok e s) (Hstep : session_step s e r s') :
  if moves_world e then
    exists w1 e' r' w2, world_event e e' /\ same_page (s_world s) w1 /\ page_step w1 e' r' w2 /\ same_page w2 (s_world s') /\
      (forall err, r' = inl err -> r = inl err)
  else same_page (s_world s) (s_world s').
Proof.
  destruct Hstep as [e d r w r' s' He Hp Ha|width cw ch r pic s' Ef|r w p Ec|e He|d r s' Eo|e pe r m Ep Em|o]; cbn [session_event_ok] in Hok.
  - exists (s_world s), e, r, w. split; [done|]. split; [apply same_page_refl|]. split; [done|]. destruct Hok as [Hok _].
    apply page_step_handle in Hp as [fuel Hh]. destruct (handle_ok fuel e _ r w (si_world s Hs) Hok Hh) as (Hw' & (K1 & K2 & K3) & _).
    pose proof (hand_over_page w s (set_world_ok w s Hs Hw' K2)) as Hsp. unfold after_world in Ha. destruct r as [err|[]].
    + injection Ha as <- <-. split; [exact Hsp | by intros err' [= <-]].
    + destruct (Bool.eqb _ _); [by injection Ha as <- <-|]. by rewrite (open_map_page _ _ _ _ Ha).
  - pose proof (session_frame_ok width cw ch s Hs) as H. rewrite Ef in H.
    destruct H as (-> & _ & _ & _ & _ & visible & w1 & h & Eu & Hh & Ew).
    exists (w_set_host (performance_now (w_host (s_world s))).2 (s_world s)), (E_frame visible), (inr tt), w1.
    split; [by exists visible|]. split; [apply same_page_host, performance_now_streams|]. split; [apply (page_step_intro _ 0); cbn [handle]; by rewrite Eu|].
    split; [rewrite Ew; by apply same_page_host | done].
  - destruct (prog_timer_wsafe (s_world s) (si_world s Hs)) as (Hw1 & (K1 & K2 & K3) & Hr). destruct (Hr I) as [[] Er].
    unfold prog_callback in Ec. destruct (prog_timer (s_world s)) as [r1 w1] eqn:E1. cbn [fst snd] in *. subst r1.
    exists (s_world s), E_prog_timer, (inr tt), w1. split; [done|]. split; [apply same_page_refl|].
    split; [apply (page_step_intro _ 0); cbn [handle]; by rewrite E1|]. split; [|done].
    assert (forall p h, in_step p -> same_streams (w_host w1) h ->
      same_page w1 (s_world (hand_over (w_set_host h w1) (set_page p s)))) as Hgo.
    { intros p' h Hp' Hh. assert (SInv (set_page p' s)) as H0 by (destruct Hs; by split).
      destruct (hand_over_page (w_set_host h w1) (set_page p' s)) as [P1 P2 P3 P4 P5 P6 P7 P8 P9 P10].
      - by apply set_world_ok; [|apply WInv_host|].
      - split; try done. by etransitivity. }
    destruct (current w1) as [b|].
    + pose proof (GetState_streams b (w_host w1)) as Hg. destruct (GetState b (w_host w1)) as [st h]. cbn [snd] in Hg.
      injection Ec as <- <- <-. apply Hgo; [apply (window_event_in_step (W_status st)), Hs | done].
    + injection Ec as <- <- <-. specialize (Hgo (s_page s) (w_host w1) (si_page s Hs) ltac:(done)).
      by replace (w_set_host (w_host w1) w1) with w1 in Hgo by (by destruct w1).
  - apply same_page_refl.
  - cbn. rewrite (open_map_page _ _ _ _ Eo). by split.
  - destruct e as [| | | | | | | | | | |]; try done; apply same_page_refl.
  - apply same_page_refl.
Qed.

Definition demo_session (m : MapPanel) : Session := begin (demo_world [demo_bot]) [demo_entry demo_bot] 0 0 m.

Lemma session_refines_page_witness : exists m s' w2, session_step (demo_session m) (SE_world E_blur (mkScreen 640 480 (400, 300))) (inr tt) s' /\
  same_page w2 (s_world s').
Proof.
  destruct (new_MapPanel 1 true true true 1 1 []) as [e|m] eqn:Em; [discriminate Em|]. exists m.
  assert (SInv (demo_session m)) as Hs.
  { apply begin_ok; [| done | | |by eapply new_MapPanel_ok, Em].
    - apply demo_world_ok. intros [|[|i]] b; cbn; try done. intros [= <-]. split; [apply demo_bot_ok | apply (fine_new 0)].
    - constructor; [|constructor]. apply map_Forall_empty.
    - constructor; [apply demo_entry_ok | constructor]. }
  destruct (after_world (mkScreen 640 480 (400, 300)) (s_world (demo_session m)) (inr tt) (wkeys KeyFlags_Reset (s_world (demo_session m))).2 (demo_session m))
    as [r s'] eqn:Ea.
  assert (r = inr tt) as -> by (unfold after_world in Ea; cbn in Ea; by injection Ea as <- <-).
  assert (session_step (demo_session m) (SE_world E_blur (mkScreen 640 480 (400, 300))) (inr tt) s') as Hst.
  { eapply step_world; [done | by apply (page_step_intro _ 0) | exact Ea]. }
  assert (session_event_ok (SE_world E_blur (mkScreen 640 480 (400, 300))) (demo_session m)) as Hok
    by (split; [exact I | split; cbn; lia]).
  destruct (session_refines_page _ _ _ _ Hs Hok Hst) as (w1 & e' & r' & w2 & _ & _ & _ & H & _).
  exists s', w2. split; [exact Hst | exact H].
Defined.
