(* ===== verification/AdminMap.v ===== *)
(** * The map of the admin panel

    The pan and zoom geometry of [admin/app.js] and what [renderMap] draws.
    Screen and world coordinates are rational numbers: the rounding of the
    language's floating point is left out. *)

From Stdlib Require Import QArith Qround Qminmax Lqa.
From S2P Require Import Prelude JsText.

#[local] Open Scope Q_scope.

(** ** Data *)

(** The answer of [/api/map]. *)
Record Building := mkBuilding { bd_x : Z; bd_y : Z; bd_pack_type : JsStr }.
Record MapPlayer := mkMapPlayer { mp_x : Z; mp_y : Z; mp_name : JsStr }.
Record MapData := mkMapData {
  md_width : Z; md_height : Z; md_players : list MapPlayer; md_buildings : list Building }.

(** [mapState]. *)
Record MapState := mkMapState {
  zoom : Q; offsetX : Q; offsetY : Q; dragging : bool; lastX : Q; lastY : Q }.
Definition new_mapState : MapState := mkMapState 1 0 0 false 0 0.

(** The canvas element: its bitmap, its size on the page in CSS pixels, and
    the pixel ratio of the window ([None] when the browser has none). *)
Record Canvas := mkCanvas {
  cv_width : Z; cv_height : Z; clientWidth : Z; clientHeight : Z;
  rect_width : Q; rect_height : Q; devicePixelRatio : option Q }.

(** [window.devicePixelRatio || 1]. *)
Definition pixel_ratio (c : Canvas) : Q :=
  match devicePixelRatio c with
  | Some r => if Qeq_bool r 0 then 1 else r
  | None => 1
  end.

Definition resizeCanvas (c : Canvas) : Canvas :=
  let ratio := pixel_ratio c in
  mkCanvas (Z.max 1 (Qfloor (rect_width c * ratio))) (Z.max 1 (Qfloor (rect_height c * ratio)))
    (clientWidth c) (clientHeight c) (rect_width c) (rect_height c) (devicePixelRatio c).

(** ** Coordinates *)

Definition baseScale (c : Canvas) (m : option MapData) : Q :=
  match m with
  | None => 1
  | Some m =>
      Qmin (inject_Z (cv_width c) / inject_Z (Z.max (md_width m) 1))
           (inject_Z (cv_height c) / inject_Z (Z.max (md_height m) 1)) * (92 # 100)
  end.

Definition map_scale (c : Canvas) (m : MapData) (st : MapState) : Q := baseScale c (Some m) * zoom st.

Definition worldToScreen (c : Canvas) (m : MapData) (st : MapState) (x y : Q) : Q * Q :=
  let scale := map_scale c m st in
  (x * scale + inject_Z (cv_width c) / 2 - (inject_Z (md_width m) * scale) / 2 + offsetX st,
   y * scale + inject_Z (cv_height c) / 2 - (inject_Z (md_height m) * scale) / 2 + offsetY st).

Definition screenToWorld (c : Canvas) (m : MapData) (st : MapState) (x y : Q) : Q * Q :=
  let sx := x * pixel_ratio c in
  let sy := y * pixel_ratio c in
  let scale := map_scale c m st in
  ((sx - inject_Z (cv_width c) / 2 + (inject_Z (md_width m) * scale) / 2 - offsetX st) / scale,
   (sy - inject_Z (cv_height c) / 2 + (inject_Z (md_height m) * scale) / 2 - offsetY st) / scale).

(** [Math.min(hi, Math.max(lo, x))]. *)
Definition clamp (lo hi x : Q) : Q := Qmin hi (Qmax lo x).

Definition with_zoom (z : Q) (st : MapState) : MapState :=
  mkMapState z (offsetX st) (offsetY st) (dragging st) (lastX st) (lastY st).
Definition with_offset (x y : Q) (st : MapState) : MapState :=
  mkMapState (zoom st) x y (dragging st) (lastX st) (lastY st).

(** What [zoomMap] does to [mapState]; the anchor is a point of the page. *)
Definition zoom_state (c : Canvas) (m : MapData) (factor : Q) (anchor : option (Q * Q)) (st : MapState)
    : MapState :=
  let '(ax, ay) := default (inject_Z (clientWidth c) / 2, inject_Z (clientHeight c) / 2) anchor in
  let before := screenToWorld c m st ax ay in
  let st := with_zoom (clamp (2 # 10) 20 (zoom st * factor)) st in
  let after := worldToScreen c m st before.1 before.2 in
  match anchor with
  | Some (ax, ay) => with_offset (offsetX st + (ax - after.1)) (offsetY st + (ay - after.2)) st
  | None => st
  end.

(** ** The mouse *)

Definition mouse_down (x y : Q) (st : MapState) : MapState :=
  mkMapState (zoom st) (offsetX st) (offsetY st) true x y.
Definition mouse_up (st : MapState) : MapState :=
  mkMapState (zoom st) (offsetX st) (offsetY st) false (lastX st) (lastY st).
Definition mouse_move (x y : Q) (st : MapState) : MapState :=
  mkMapState (zoom st) (offsetX st + (x - lastX st)) (offsetY st + (y - lastY st)) (dragging st) x y.
Definition map_reset (st : MapState) : MapState :=
  mkMapState 1 0 0 (dragging st) (lastX st) (lastY st).

(** ** Drawing *)

Inductive Draw :=
  | D_fill (style : string) (x y w h : Q)
  | D_stroke (style : string) (x y w h : Q)
  | D_line (style : string) (x1 y1 x2 y2 : Q)
  | D_disc (style : string) (x y r : Q)
  | D_text (style : string) (size : Q) (s : JsStr) (x y : Q).

Definition chooseGridStep (scale : Q) : Z :=
  if negb (Qle_bool scale 10) then 32%Z
  else if negb (Qle_bool scale 3) then 128%Z
  else 512%Z.

(** [for (let x = 0; x <= limit; x += step)], with fuel for the iterations. *)
Fixpoint grid_loop (fuel : nat) (x limit step : Q) : list Q :=
  match fuel with
  | O => []
  | S fuel => if Qle_bool x limit then x :: grid_loop fuel (x + step) limit step else []
  end.

(** The lines are at least 8 pixels apart. *)
Definition grid_fuel (limit : Q) : nat := S (Z.to_nat (Qfloor (limit / 8))).

Definition drawGrid (origin : Q * Q) (worldW worldH scale : Q) : list Draw :=
  let screenStep := inject_Z (chooseGridStep scale) * scale in
  if negb (Qle_bool 8 screenStep) then []
  else
    ((λ x, D_line "#1f2429" (origin.1 + x) origin.2 (origin.1 + x) (origin.2 + worldH))
       <$> grid_loop (grid_fuel worldW) 0 worldW screenStep) ++
    ((λ y, D_line "#1f2429" origin.1 (origin.2 + y) (origin.1 + worldW) (origin.2 + y))
       <$> grid_loop (grid_fuel worldH) 0 worldH screenStep).

Definition drawBuilding (c : Canvas) (m : MapData) (st : MapState) (b : Building) : list Draw :=
  let point := worldToScreen c m st (inject_Z (bd_x b)) (inject_Z (bd_y b)) in
  let size := clamp 4 14 (5 * zoom st) in
  [D_fill (if decide (bd_pack_type b = u "Gun") then "#d65f5f" else "#4da3ff")
     (point.1 - size / 2) (point.2 - size / 2) size size].

Definition drawBuildings (c : Canvas) (m : MapData) (st : MapState) : list Draw :=
  concat (drawBuilding c m st <$> md_buildings m).

Definition drawPlayer (c : Canvas) (m : MapData) (st : MapState) (p : MapPlayer) : list Draw :=
  let point := worldToScreen c m st (inject_Z (mp_x p)) (inject_Z (mp_y p)) in
  let radius := clamp 4 10 (4 * zoom st) in
  D_disc "#2ea66f" point.1 point.2 radius ::
  (if Qle_bool (65 # 100) (zoom st) then
     [D_text "#eceff3" (clamp 11 16 (10 * zoom st)) (mp_name p) (point.1 + radius + 4) (point.2 - radius)]
   else []).

Definition drawPlayers (c : Canvas) (m : MapData) (st : MapState) : list Draw :=
  concat (drawPlayer c m st <$> md_players m).

(** The picture [renderMap] paints on a resized canvas. *)
Definition picture (c : Canvas) (m : MapData) (st : MapState) : list Draw :=
  let scale := map_scale c m st in
  let origin := worldToScreen c m st 0 0 in
  let worldW := inject_Z (md_width m) * scale in
  let worldH := inject_Z (md_height m) * scale in
  [D_fill "#0b0d10" 0 0 (inject_Z (cv_width c)) (inject_Z (cv_height c));
   D_stroke "#2b3036" origin.1 origin.2 worldW worldH] ++
  drawGrid origin worldW worldH scale ++ drawBuildings c m st ++ drawPlayers c m st.

(** ** Scale and zoom *)

Lemma Qdiv_pos a b : 0 < a -> 0 < b -> 0 < a / b.
Proof. intros. apply Qlt_shift_div_l; [done|]. by rewrite Qmult_0_l. Qed.

Lemma inject_pos z : (0 < z)%Z -> 0 < inject_Z z.
Proof. intros. unfold Qlt. cbn. lia. Qed.

(** A canvas with a bitmap: what [resizeCanvas] leaves. *)
Definition drawable (c : Canvas) : Prop := (0 < cv_width c)%Z /\ (0 < cv_height c)%Z.

Lemma resizeCanvas_drawable c : drawable (resizeCanvas c).
Proof. unfold drawable. cbn. lia. Qed.

Lemma baseScale_pos c m : drawable c -> 0 < baseScale c m.
Proof.
  intros [Hw Hh]. unfold baseScale. destruct m as [m|]; [|lra].
  assert (0 < Qmin (inject_Z (cv_width c) / inject_Z (Z.max (md_width m) 1))
           (inject_Z (cv_height c) / inject_Z (Z.max (md_height m) 1))) as H.
  { apply Q.min_case; [by intros x y -> | |]; apply Qdiv_pos; apply inject_pos; lia. }
  lra.
Qed.

(** The limits of the zoom. *)
Definition zoom_ok (st : MapState) : Prop := 2 # 10 <= zoom st <= 20.

Lemma clamp_bounds lo hi x : lo <= hi -> lo <= clamp lo hi x <= hi.
Proof.
  intros H. unfold clamp. split; [|apply Q.le_min_l].
  apply Q.min_glb; [done | apply Q.le_max_l].
Qed.

Lemma clamp_id lo hi x : lo <= x <= hi -> clamp lo hi x == x.
Proof. intros [H1 H2]. unfold clamp. rewrite Q.max_r by done. by apply Q.min_r. Qed.

Lemma zoom_state_ok c m f a st : zoom_ok (zoom_state c m f a st).
Proof.
  unfold zoom_ok, zoom_state. destruct (default _ a) as [ax ay]; destruct a as [[ax' ay']|];
    cbn [zoom with_offset with_zoom]; apply clamp_bounds; lra.
Qed.

Lemma map_scale_pos c m st : drawable c -> zoom_ok st -> 0 < map_scale c m st.
Proof.
  intros Hc [Hz _]. unfold map_scale. pose proof (baseScale_pos c (Some m) Hc). nra.
Qed.

(** The two conversions are inverse up to the pixel ratio. *)
Lemma world_screen_world c m st x y :
  ~ map_scale c m st == 0 ->
  (worldToScreen c m st (screenToWorld c m st x y).1 (screenToWorld c m st x y).2).1
    == x * pixel_ratio c /\
  (worldToScreen c m st (screenToWorld c m st x y).1 (screenToWorld c m st x y).2).2
    == y * pixel_ratio c.
Proof. intros H. unfold worldToScreen, screenToWorld. cbn. split; field; done. Qed.

Lemma screen_world_screen c m st x y :
  ~ map_scale c m st == 0 -> pixel_ratio c == 1 ->
  (screenToWorld c m st (worldToScreen c m st x y).1 (worldToScreen c m st x y).2).1 == x /\
  (screenToWorld c m st (worldToScreen c m st x y).1 (worldToScreen c m st x y).2).2 == y.
Proof.
  intros H Hr. unfold worldToScreen, screenToWorld. cbn. rewrite Hr. split; field; done.
Qed.

(** C40: Zooming at a point of the canvas keeps the zoom within 0.2 and 20 and moves
    the picture so that what was under the pointer is drawn at the pointer's CSS
    coordinates; on a screen with one device pixel per CSS pixel the pointer
    therefore still stands on the same world point. *)
Theorem zoom_keeps_anchor (c : Canvas) (m : MapData) (f ax ay : Q) (st : MapState)
    (Hc : drawable c) (Hz : zoom_ok st) :
  let before := screenToWorld c m st ax ay in
  let st' := zoom_state c m f (Some (ax, ay)) st in
  zoom_ok st' /\
  (worldToScreen c m st' before.1 before.2).1 == ax /\
  (worldToScreen c m st' before.1 before.2).2 == ay /\
  (pixel_ratio c == 1 ->
     (screenToWorld c m st' ax ay).1 == before.1 /\ (screenToWorld c m st' ax ay).2 == before.2).
Proof.
  intros before st'.
  assert (Hz' : zoom_ok st') by apply zoom_state_ok.
  assert (H1 : (worldToScreen c m st' before.1 before.2).1 == ax).
  { subst st' before. unfold zoom_state, worldToScreen, map_scale. cbn. ring. }
  assert (H2 : (worldToScreen c m st' before.1 before.2).2 == ay).
  { subst st' before. unfold zoom_state, worldToScreen, map_scale. cbn. ring. }
  split_and!; [done|done|done|].
  intros Hr. pose proof (map_scale_pos c m st' Hc Hz') as Hs.
  destruct (screen_world_screen c m st' before.1 before.2) as [E1 E2]; [lra|done|].
  revert E1 E2. unfold screenToWorld. cbn [fst snd]. rewrite H1, H2. done.
Qed.

Definition demo_canvas (ratio : Q) : Canvas := mkCanvas 800 600 800 600 800 600 (Some ratio).
Definition demo_mapdata : MapData :=
  mkMapData 100 50 [mkMapPlayer 10 20 (u "miner")] [mkBuilding 5 5 (u "Gun")].

Lemma zoom_keeps_anchor_witness :
  (screenToWorld (demo_canvas 1) demo_mapdata
     (zoom_state (demo_canvas 1) demo_mapdata (115 # 100) (Some (200, 150)) new_mapState) 200 150).1
  == (screenToWorld (demo_canvas 1) demo_mapdata new_mapState 200 150).1.
Proof.
  apply (zoom_keeps_anchor (demo_canvas 1) demo_mapdata (115 # 100) 200 150 new_mapState).
  - split; reflexivity.
  - split; discriminate.
  - reflexivity.
Defined.

(** With two device pixels per CSS pixel the picture jumps under the pointer:
    the anchor is not multiplied by the ratio as the pointer was. *)
Lemma zoom_jumps_on_dense_screens :
  ~ (screenToWorld (demo_canvas 2) demo_mapdata
       (zoom_state (demo_canvas 2) demo_mapdata 1 (Some (200, 150)) new_mapState) 200 150).1
    == (screenToWorld (demo_canvas 2) demo_mapdata new_mapState 200 150).1.
Proof. vm_compute. discriminate. Qed.

(** ** The grid *)

Lemma chooseGridStep_pos s : (0 < chooseGridStep s)%Z.
Proof. unfold chooseGridStep. split_tests; lia. Qed.

(** The lines of the grid in closed form. *)
Lemma grid_loop_lookup fuel x limit step i :
  0 <= step -> (i < fuel)%nat -> x + inject_Z (Z.of_nat i) * step <= limit ->
  exists q, grid_loop fuel x limit step !! i = Some q /\ q == x + inject_Z (Z.of_nat i) * step.
Proof.
  intros Hs. revert x i. induction fuel as [|fuel IH]; intros x i Hi Hx; [lia|]. cbn [grid_loop].
  assert (0 <= inject_Z (Z.of_nat i) * step) as H0.
  { apply Qmult_le_0_compat; [|done]. unfold Qle. cbn. lia. }
  assert (Qle_bool x limit = true) as -> by (apply Qle_bool_iff; lra).
  destruct i as [|i]; [exists x; split; [done|]; cbn; ring|].
  cbn [lookup list_lookup].
  assert (inject_Z (Z.of_nat (S i)) == inject_Z (Z.of_nat i) + 1) as E.
  { rewrite Nat2Z.inj_succ, <- Z.add_1_r, inject_Z_plus. done. }
  destruct (IH (x + step) i) as (q & Hq & Hv); [lia| |].
  - rewrite E in Hx. lra.
  - exists q. split; [done|]. rewrite Hv, E. ring.
Qed.

Lemma grid_loop_bound fuel x limit step q :
  q ∈ grid_loop fuel x limit step -> q <= limit.
Proof.
  revert x. induction fuel as [|fuel IH]; intros x; cbn [grid_loop]; [by intros ?%not_elem_of_nil|].
  destruct (Qle_bool x limit) eqn:E; [|by intros ?%not_elem_of_nil].
  intros [->|H]%elem_of_cons; [by apply Qle_bool_iff | eauto].
Qed.

(** Fuel for the iterations at least [step] apart is enough. *)
Lemma grid_loop_fuel fuel k x limit step :
  8 <= step -> limit - x < 8 * inject_Z (Z.of_nat fuel) ->
  grid_loop (fuel + k) x limit step = grid_loop fuel x limit step.
Proof.
  intros Hs. revert x. induction fuel as [|fuel IH]; intros x Hx.
  - cbn [Nat.add]. destruct k as [|k]; [done|]. cbn [grid_loop].
    destruct (Qle_bool x limit) eqn:E; [|done]. apply Qle_bool_iff in E.
    change (inject_Z (Z.of_nat 0)) with 0 in Hx. lra.
  - cbn [Nat.add grid_loop]. destruct (Qle_bool x limit); [|done]. f_equal. apply IH.
    rewrite Nat2Z.inj_succ, <- Z.add_1_r, inject_Z_plus in Hx.
    change (inject_Z 1) with 1 in Hx. lra.
Qed.

Lemma grid_fuel_enough limit : 0 <= limit -> limit - 0 < 8 * inject_Z (Z.of_nat (grid_fuel limit)).
Proof.
  intros H. unfold grid_fuel.
  assert (0 <= Qfloor (limit / 8))%Z as H0.
  { change 0%Z with (Qfloor 0). apply Qfloor_resp_le.
    apply Qle_shift_div_l; [reflexivity|]. by rewrite Qmult_0_l. }
  rewrite Nat2Z.inj_succ, Z2Nat.id, <- Z.add_1_r by done.
  pose proof (Qlt_floor (limit / 8)) as Hf.
  assert (limit == 8 * (limit / 8)) as E by field. lra.
Qed.

(** The grid of the map is drawn in a bounded number of steps and is complete:
    for a world of any size on the screen the loop ends, every multiple of the
    step up to the border gets its line, no line lies beyond the border, and more
    fuel changes nothing. *)
Theorem grid_lines_exact (limit step : Q) (Hl : 0 <= limit) (Hs : 8 <= step) :
  let lines := grid_loop (grid_fuel limit) 0 limit step in
  (forall k, grid_loop (grid_fuel limit + k) 0 limit step = lines) /\
  (forall i, inject_Z (Z.of_nat i) * step <= limit ->
     exists q, lines !! i = Some q /\ q == inject_Z (Z.of_nat i) * step) /\
  (forall q, q ∈ lines -> q <= limit).
Proof.
  intros lines. pose proof (grid_fuel_enough limit Hl) as Hf. split_and!.
  - intros k. by apply grid_loop_fuel.
  - intros i Hi. destruct (grid_loop_lookup (grid_fuel limit) 0 limit step i) as (q & Hq & Hv).
    + lra.
    + assert (8 * inject_Z (Z.of_nat i) < 8 * inject_Z (Z.of_nat (grid_fuel limit))) as H.
      { assert (0 <= inject_Z (Z.of_nat i)) by (unfold Qle; cbn; lia). nra. }
      apply Qmult_lt_l in H; [|reflexivity]. unfold Qlt in H. cbn in H. lia.
    + lra.
    + exists q. split; [done|]. rewrite Hv. ring.
  - intros q. apply grid_loop_bound.
Qed.

Lemma grid_lines_exact_witness :
  exists q, grid_loop (grid_fuel 100) 0 100 32 !! 3%nat = Some q /\ q == 96.
Proof.
  apply (grid_lines_exact 100 32 ltac:(discriminate) ltac:(discriminate)). discriminate.
Defined.
