(* ===== verification/AdminPage.v ===== *)
(** * The admin page: its state and what it shows

    The variables of [admin/app.js], the parts of the document it reads and
    writes, and its synchronous functions: status line and toasts, tables,
    forms, views, timers and the map. *)

From Stdlib Require Import QArith.
From S2P Require Import Prelude JsText Async AdminMap.

(** ** Data of the server

    The types of the answers, after the structs of the server's handlers.
    [crystals] is the one field the two sides see differently: the page reads
    an array. *)

Inductive Crystals := Cr_number (n : Z) | Cr_array (l : list Z).

Record Player := mkPlayer {
  p_id : Z; p_name : JsStr; p_x : Z; p_y : Z; p_health : Z; p_max_health : Z;
  p_money : Z; p_creds : Z; p_crystals : Crystals; p_role : Z }.

Record GameEvent := mkGameEvent {
  e_id : JsStr; e_title : JsStr; e_starts_at : Z; e_ends_at : Z; e_xp_mult : Q; e_drop_mult : Q }.

Record Stats := mkStats {
  online_count : Z; active_players : list Player; market_prices : list Z; cost_mod : list Z;
  active_events : list GameEvent }.

Record Command := mkCommand {
  c_name : JsStr; c_slash : option JsStr; c_console : option JsStr; c_description : JsStr }.

(** ** The document *)

(** The controls of a row. *)
Inductive Control :=
  | Ct_none
  | Ct_swatch (css : string)
  (** the options of the role list (value, label, selected) and the kick button *)
  | Ct_player (id : Z) (name : JsStr) (options : list (JsStr * JsStr * bool))
  | Ct_event (e : GameEvent).

Inductive Row :=
  | R_cells (cells : list JsStr) (control : Control)
  | R_empty (colSpan : option Z) (message : JsStr).

Record Toast := mkToast { t_id : nat; t_class : JsStr; t_text : JsStr }.

Record Page := mkPage {
  (** classes ok and bad of the dot, and the text *)
  status : bool * bool * JsStr;
  toasts : list Toast;
  toast_next : nat;
  texts : gmap string JsStr;
  values : gmap string JsStr;
  tables : gmap string (list Row);
  (** the buttons and the sections of the views, each with its class active *)
  buttons : list (string * bool);
  sections : list (string * bool);
  admin_token : option JsStr;
  auto_refresh : bool;
  (** whether the focus is inside the market form *)
  in_market_form : bool;
  canvas : Canvas;
  drawn : list Draw;
  (** the intervals that are set, and the next handle *)
  intervals : gset positive;
  next_handle : positive;
  (** [Date.now()], in milliseconds *)
  clock : Z }.

Definition pg_status v p := mkPage v (toasts p) (toast_next p) (texts p) (values p) (tables p) (buttons p) (sections p) (admin_token p) (auto_refresh p) (in_market_form p) (canvas p) (drawn p) (intervals p) (next_handle p) (clock p).
Definition pg_toasts v n p := mkPage (status p) v n (texts p) (values p) (tables p) (buttons p) (sections p) (admin_token p) (auto_refresh p) (in_market_form p) (canvas p) (drawn p) (intervals p) (next_handle p) (clock p).
Definition pg_texts v p := mkPage (status p) (toasts p) (toast_next p) v (values p) (tables p) (buttons p) (sections p) (admin_token p) (auto_refresh p) (in_market_form p) (canvas p) (drawn p) (intervals p) (next_handle p) (clock p).
Definition pg_values v p := mkPage (status p) (toasts p) (toast_next p) (texts p) v (tables p) (buttons p) (sections p) (admin_token p) (auto_refresh p) (in_market_form p) (canvas p) (drawn p) (intervals p) (next_handle p) (clock p).
Definition pg_tables v p := mkPage (status p) (toasts p) (toast_next p) (texts p) (values p) v (buttons p) (sections p) (admin_token p) (auto_refresh p) (in_market_form p) (canvas p) (drawn p) (intervals p) (next_handle p) (clock p).
Definition pg_views b s p := mkPage (status p) (toasts p) (toast_next p) (texts p) (values p) (tables p) b s (admin_token p) (auto_refresh p) (in_market_form p) (canvas p) (drawn p) (intervals p) (next_handle p) (clock p).
Definition pg_admin_token v p := mkPage (status p) (toasts p) (toast_next p) (texts p) (values p) (tables p) (buttons p) (sections p) v (auto_refresh p) (in_market_form p) (canvas p) (drawn p) (intervals p) (next_handle p) (clock p).
Definition pg_auto_refresh v p := mkPage (status p) (toasts p) (toast_next p) (texts p) (values p) (tables p) (buttons p) (sections p) (admin_token p) v (in_market_form p) (canvas p) (drawn p) (intervals p) (next_handle p) (clock p).
Definition pg_focus v p := mkPage (status p) (toasts p) (toast_next p) (texts p) (values p) (tables p) (buttons p) (sections p) (admin_token p) (auto_refresh p) v (canvas p) (drawn p) (intervals p) (next_handle p) (clock p).
Definition pg_canvas c d p := mkPage (status p) (toasts p) (toast_next p) (texts p) (values p) (tables p) (buttons p) (sections p) (admin_token p) (auto_refresh p) (in_market_form p) c d (intervals p) (next_handle p) (clock p).
Definition pg_intervals v n p := mkPage (status p) (toasts p) (toast_next p) (texts p) (values p) (tables p) (buttons p) (sections p) (admin_token p) (auto_refresh p) (in_market_form p) (canvas p) (drawn p) v n (clock p).
Definition pg_clock v p := mkPage (status p) (toasts p) (toast_next p) (texts p) (values p) (tables p) (buttons p) (sections p) (admin_token p) (auto_refresh p) (in_market_form p) (canvas p) (drawn p) (intervals p) (next_handle p) v.

(** The variables of the script, and the page. *)
Record App := mkApp {
  token : JsStr; currentView : string; statsData : option Stats; mapData : option MapData;
  commandsData : option (list Command); refreshTimer : option positive; requestInFlight : bool;
  mapState : MapState; page : Page }.

Definition a_token v a := mkApp v (currentView a) (statsData a) (mapData a) (commandsData a) (refreshTimer a) (requestInFlight a) (mapState a) (page a).
Definition a_currentView v a := mkApp (token a) v (statsData a) (mapData a) (commandsData a) (refreshTimer a) (requestInFlight a) (mapState a) (page a).
Definition a_statsData v a := mkApp (token a) (currentView a) v (mapData a) (commandsData a) (refreshTimer a) (requestInFlight a) (mapState a) (page a).
Definition a_mapData v a := mkApp (token a) (currentView a) (statsData a) v (commandsData a) (refreshTimer a) (requestInFlight a) (mapState a) (page a).
Definition a_commandsData v a := mkApp (token a) (currentView a) (statsData a) (mapData a) v (refreshTimer a) (requestInFlight a) (mapState a) (page a).
Definition a_refreshTimer v a := mkApp (token a) (currentView a) (statsData a) (mapData a) (commandsData a) v (requestInFlight a) (mapState a) (page a).
Definition a_requestInFlight v a := mkApp (token a) (currentView a) (statsData a) (mapData a) (commandsData a) (refreshTimer a) v (mapState a) (page a).
Definition a_mapState v a := mkApp (token a) (currentView a) (statsData a) (mapData a) (commandsData a) (refreshTimer a) (requestInFlight a) v (page a).
Definition a_page v a := mkApp (token a) (currentView a) (statsData a) (mapData a) (commandsData a) (refreshTimer a) (requestInFlight a) (mapState a) v.

(** What the browser adds: its Unicode tables and its locale. *)
Class Locale := {
  toLowerCase : JsStr -> JsStr;
  (** of a time in milliseconds *)
  toLocaleString : Z -> JsStr;
  toLocaleTimeString : Z -> JsStr }.

(** ** Synchronous functions *)

Abbreviation PS := (@Syn App) (only parsing).

Declare Scope page_scope.
Delimit Scope page_scope with page.
Notation "'let$' x := m 'in' k" := (sbind m (λ x, k))
  (at level 10, x name, m at level 100, k at level 200) : page_scope.
Notation "m ;$ k" := (sbind m (λ _, k)) (at level 100, k at level 200, right associativity) : page_scope.
#[local] Open Scope page_scope.

Definition on_page (f : Page -> Page) : PS unit := supd (λ a, a_page (f (page a)) a).
Definition set_text (id : string) (s : JsStr) : PS unit := on_page (λ p, pg_texts (<[id := s]> (texts p)) p).
Definition set_value (id : string) (s : JsStr) : PS unit := on_page (λ p, pg_values (<[id := s]> (values p)) p).
(** The value of an input: the empty string when nothing was put in. *)
Definition value_of (a : App) (id : string) : JsStr := default [] (values (page a) !! id).

Definition clear (id : string) : PS unit := on_page (λ p, pg_tables (<[id := []]> (tables p)) p).
Definition append_row (id : string) (r : Row) : PS unit :=
  on_page (λ p, pg_tables (<[id := default [] (tables p !! id) ++ [r]]> (tables p)) p).
Definition emptyRow (id : string) (columns : Z) (message : JsStr) : PS unit :=
  append_row id (R_empty (Some columns) message).

Definition setStatus (kind : string) (text : JsStr) : PS unit :=
  on_page (pg_status (bool_decide (kind = "ok"%string), bool_decide (kind = "bad"%string), text)).

(** The timer that removes the toast is its number in [toasts]. *)
Definition toast (message : JsStr) (kind : JsStr) : PS unit :=
  on_page (λ p, pg_toasts (toasts p ++ [mkToast (toast_next p) (trim (u "toast-item " ++ kind)) message])
                          (S (toast_next p)) p).
Definition toast_timeout (n : nat) : PS unit :=
  on_page (λ p, pg_toasts (filter (λ t, t_id t <> n) (toasts p)) (toast_next p) p).

(** [for (const x of l) body(x)]. *)
Fixpoint sfor {A} (l : list A) (body : A -> PS unit) : PS unit :=
  match l with [] => sret tt | x :: l => body x ;$ sfor l body end.

(** [[...l].sort((a, b) => key(a) - key(b))]: the sort of the language is stable. *)
Fixpoint insert_by {A} (key : A -> Z) (x : A) (l : list A) : list A :=
  match l with
  | [] => [x]
  | y :: r => if key x <=? key y then x :: l else y :: insert_by key x r
  end.
Definition sort_by {A} (key : A -> Z) (l : list A) : list A := foldr (insert_by key) [] l.

(** [l.join(sep)]. *)
Fixpoint join (sep : JsStr) (l : list JsStr) : JsStr :=
  match l with [] => [] | [s] => s | s :: l => s ++ sep ++ join sep l end.

Section locale.
Context `{!Locale}.

Definition ROLE_LABELS : list JsStr := [u "Player"; u "Moderator"; u "Admin"].
Definition role_label (role : Z) : option JsStr :=
  if 0 <=? role then ROLE_LABELS !! Z.to_nat role else None.

Definition player_cells (p : Player) : list JsStr :=
  [int_text (p_id p); p_name p; int_text (p_x p) ++ u ":" ++ int_text (p_y p);
   int_text (p_health p) ++ u "/" ++ int_text (p_max_health p); int_text (p_money p)].

Definition renderOverviewPlayers (st : Stats) : PS unit :=
  clear "overview-players" ;$
  let players := take 12 (sort_by p_id (active_players st)) in
  match players with
  | [] => emptyRow "overview-players" 6 (u "No online players")
  | _ => sfor players (λ p,
      append_row "overview-players"
        (R_cells (player_cells p ++ [default (u "Role " ++ int_text (p_role p)) (role_label (p_role p))]) Ct_none))
  end.

Definition matches (query : JsStr) (p : Player) : bool :=
  includes query (int_text (p_id p)) || includes query (toLowerCase (p_name p)).

Definition filteredPlayers (a : App) : list Player :=
  let query := toLowerCase (trim (value_of a "player-filter")) in
  let players := sort_by p_id (match statsData a with Some st => active_players st | None => [] end) in
  match query with
  | [] => players
  | _ => filter (λ p, matches query p = true) players
  end.

(** [player.crystals.join(' / ')]: a number has no such method. *)
Definition crystals_text (c : Crystals) : PS JsStr :=
  match c with
  | Cr_array l => sret (join (u " / ") (int_text <$> l))
  | Cr_number _ => sthrow E_type
  end.

Definition role_options (role : Z) : list (JsStr * JsStr * bool) :=
  imap (λ i label, (int_text (Z.of_nat i), label, role =? Z.of_nat i)) ROLE_LABELS.

Definition renderPlayers : PS unit :=
  clear "players-table" ;$
  let$ players := sget filteredPlayers in
  match players with
  | [] => emptyRow "players-table" 9 (u "No matching online players")
  | _ => sfor players (λ p,
      let$ crystals := crystals_text (p_crystals p) in
      append_row "players-table"
        (R_cells (player_cells p ++ [int_text (p_creds p); crystals])
           (Ct_player (p_id p) (p_name p) (role_options (p_role p)))))
  end.

(** [None] is undefined. *)
Definition formatUnix (value : option Z) : JsStr :=
  match value with Some t => toLocaleString (t * 1000) | None => u "-" end.

Definition event_cells (e : GameEvent) : list JsStr :=
  [e_id e; e_title e; formatUnix (Some (e_starts_at e)); formatUnix (Some (e_ends_at e));
   num_text (e_xp_mult e) ++ u "x"; num_text (e_drop_mult e) ++ u "x"].

Definition renderEvents (st : Stats) : PS unit :=
  clear "events-table" ;$
  match sort_by e_starts_at (active_events st) with
  | [] => emptyRow "events-table" 7 (u "No active or scheduled events")
  | events => sfor events (λ e, append_row "events-table" (R_cells (event_cells e) (Ct_event e)))
  end.

Definition CRYSTALS : list (string * string) :=
  [("Green", "var(--green)"); ("Blue", "var(--blue)"); ("Red", "var(--red)");
   ("Violet", "var(--violet)"); ("White", "var(--white)"); ("Cyan", "var(--cyan)")]%string.

(** [value ?? '']. *)
Definition or_empty (z : option Z) : JsStr := match z with Some z => int_text z | None => [] end.

Definition market_row (st : Stats) (i : nat) (crystal : string * string) : Row :=
  R_cells [u crystal.1; or_empty (cost_mod st !! i); or_empty (market_prices st !! i);
           match market_prices st !! i with Some p => int_text (p * 10) | None => u "NaN" end]
    (Ct_swatch crystal.2).

Definition renderMarketTable (id : string) (st : Stats) : PS unit :=
  clear id ;$
  sfor (imap (λ i c, (i, c)) CRYSTALS) (λ '(i, c), append_row id (market_row st i c)).

(** The inputs mod-0 to mod-5. *)
Definition mod_ids : list string := ["mod-0"; "mod-1"; "mod-2"; "mod-3"; "mod-4"; "mod-5"]%string.

Definition renderMarket (st : Stats) : PS unit :=
  renderMarketTable "market-table" st ;$
  renderMarketTable "overview-market" st ;$
  let$ busy := sget (λ a, in_market_form (page a)) in
  if (busy : bool) then sret tt
  else sfor (imap (λ i id, (i, id)) mod_ids) (λ '(i, id), set_value id (or_empty (cost_mod st !! i))).

Definition renderStats : PS unit :=
  let$ data := sget statsData in
  match data with
  | None => sret tt
  | Some st =>
      set_text "metric-online" (int_text (online_count st)) ;$
      set_text "metric-events" (int_text (Z.of_nat (length (active_events st)))) ;$
      set_text "players-count" (int_text (Z.of_nat (length (active_players st))) ++ u " rows") ;$
      renderOverviewPlayers st ;$
      renderPlayers ;$
      renderEvents st ;$
      renderMarket st
  end.

(** [s || alternative] for a string that may be missing. *)
Definition or_text (s : option JsStr) (alternative : JsStr) : JsStr :=
  match s with Some (c :: r) => c :: r | _ => alternative end.

Definition renderCommands : PS unit :=
  clear "commands-list" ;$
  let$ data := sget commandsData in
  match data with
  | None | Some [] => append_row "commands-list" (R_empty None (u "No command specs"))
  | Some cs => sfor cs (λ c,
      append_row "commands-list"
        (R_cells [c_name c; c_description c; or_text (c_slash c) (u "no slash command");
                  or_text (c_console c) (u "no console command")] Ct_none))
  end.

(** ** Forms *)

(** The synchronous part of [switchView]; what it loads comes with the requests. *)
Definition show_view (view : string) : PS unit :=
  supd (a_currentView view) ;$
  on_page (λ p, pg_views ((λ '(v, _), (v, bool_decide (v = view))) <$> buttons p)
                         ((λ '(v, _), (v, bool_decide (v = view))) <$> sections p) p).

Definition fill_event_inputs (e : GameEvent) : PS unit :=
  set_value "event-id" (e_id e) ;$
  set_value "event-title" (e_title e) ;$
  set_value "event-start" (int_text (e_starts_at e)) ;$
  set_value "event-end" (int_text (e_ends_at e)) ;$
  set_value "event-xp-mult" (num_text (e_xp_mult e)) ;$
  set_value "event-drop-mult" (num_text (e_drop_mult e)).

Definition fillDefaultEventDates : PS unit :=
  let$ ms := sget (λ a, clock (page a)) in
  let now := ms / 1000 in
  set_value "event-start" (int_text now) ;$
  set_value "event-end" (int_text (now + 86400 * 7)).

(** ** The timer *)

Definition clearInterval (h : positive) : PS unit :=
  on_page (λ p, pg_intervals (intervals p ∖ {[h]}) (next_handle p) p).
Definition setInterval : PS positive :=
  let$ h := sget (λ a, next_handle (page a)) in
  on_page (λ p, pg_intervals ({[h]} ∪ intervals p) (Pos.succ h) p) ;$ sret h.

Definition setupAutoRefresh : PS unit :=
  let$ timer := sget refreshTimer in
  match timer with
  | Some h => clearInterval h ;$ supd (a_refreshTimer None)
  | None => sret tt
  end ;$
  let$ checked := sget (λ a, auto_refresh (page a)) in
  if (checked : bool) then let$ h := setInterval in supd (a_refreshTimer (Some h)) else sret tt.

(** ** The map *)

Definition renderMap : PS unit :=
  let$ data := sget mapData in
  match data with
  | None => sret tt
  | Some m =>
      supd (λ a,
        let c := resizeCanvas (canvas (page a)) in
        a_page (pg_canvas c (drawn (page a) ++ picture c m (mapState a)) (page a)) a) ;$
      let$ st := sget mapState in
      set_text "map-zoom" (toFixed2 (zoom st) ++ u "x")
  end.

(** Before a map is loaded [screenToWorld] reads a property of null. *)
Definition zoomMap (factor : Q) (anchor : option (Q * Q)) : PS unit :=
  let$ data := sget mapData in
  match data with
  | None => sthrow E_type
  | Some m =>
      supd (λ a, a_mapState (zoom_state (canvas (page a)) m factor anchor (mapState a)) a) ;$ renderMap
  end.

Definition map_mousedown (x y : Q) : PS unit := supd (λ a, a_mapState (mouse_down x y (mapState a)) a).
Definition map_mouseup : PS unit := supd (λ a, a_mapState (mouse_up (mapState a)) a).
Definition map_mousemove (x y : Q) : PS unit :=
  let$ drag := sget (λ a, dragging (mapState a)) in
  if (drag : bool) then supd (λ a, a_mapState (mouse_move x y (mapState a)) a) ;$ renderMap else sret tt.
Definition map_wheel (deltaY x y : Q) : PS unit :=
  zoomMap (if negb (Qle_bool 0 deltaY) then 115 # 100 else 87 # 100) (Some (x, y)).
Definition map_reset_click : PS unit :=
  supd (λ a, a_mapState (map_reset (mapState a)) a) ;$ renderMap.

End locale.
