(* ===== verification/Admin.v ===== *)
(** * The admin panel: requests and handlers

    The async functions of [admin/app.js], the handlers [bindUi] installs, and
    the page as an event loop that interleaves them. *)

From Stdlib Require Import QArith.
From S2P Require Import Prelude JsText Async AdminMap AdminPage.

#[local] Open Scope page_scope.

(** ** Requests *)

(** The body of a request, before [JSON.stringify]; a number that is NaN
    ([None]) is written as null. *)
Inductive Payload :=
  | Pl_token (token : JsStr)
  | Pl_role (role : Z)
  | Pl_event (id title : JsStr) (starts_at ends_at : option Z) (xp_mult drop_mult : option Q)
  | Pl_market (cost_mod : list (option Z)).

Record Request := mkRequest {
  rq_path : JsStr; rq_method : string; rq_authorization : option JsStr; rq_json : bool;
  rq_payload : option Payload }.

(** What a caller asks for, and the type of the answer's body. *)
Inductive Endpoint := Ep_auth | Ep_stats | Ep_map | Ep_commands | Ep_result | Ep_metrics.

Definition Data (ep : Endpoint) : Type :=
  match ep with
  | Ep_stats => Stats
  | Ep_map => MapData
  | Ep_commands => list Command
  | Ep_auth | Ep_result => bool
  | Ep_metrics => JsStr
  end.

(** The head of an answer: a status of 200 to 299, or another one. *)
Inductive Response := Rs_ok | Rs_fail (status : Z) (statusText : JsStr).

(** The body of an answer that is not ok: an object with or without a message,
    or text. *)
Inductive ErrBody := Eb_object (message : option JsStr) | Eb_text (s : JsStr).

(** What a function can wait for: the head of an answer, its body, or a later
    turn of the microtask queue.  A fetch fails with an error message, reading
    a body may fail too. *)
Inductive Wait := W_fetch (rq : Request) | W_body (ep : Endpoint) | W_errbody | W_turn.

Definition Ans (w : Wait) : Type :=
  match w with
  | W_fetch _ => JsStr + Response
  | W_body ep => JsStr + Data ep
  | W_errbody => JsStr + ErrBody
  | W_turn => unit
  end.

Abbreviation AS := (@Async App Wait Ans) (only parsing).

Declare Scope async_scope.
Notation "'let^' x := t 'in' k" := (abind t (λ x, k))
  (at level 10, x name, t at level 100, k at level 200) : async_scope.
Notation "t ;^ k" := (abind t (λ _, k)) (at level 100, k at level 200, right associativity) : async_scope.
#[local] Open Scope async_scope.

Definition await {A} (t : AS A) : AS A := awaiting W_turn t.

Definition fetch (rq : Request) : AS Response :=
  Await (W_fetch rq) (λ r, match r with inl message => Throw (E_net message) | inr rs => Pure rs end).
Definition read_body (ep : Endpoint) : AS (Data ep) :=
  Await (W_body ep) (λ r, match r with inl message => Throw (E_body message) | inr b => Pure b end).
Definition read_errbody : AS ErrBody :=
  Await W_errbody (λ r, match r with inl message => Throw (E_body message) | inr b => Pure b end).

(** A header value is a byte string without NUL and line breaks. *)
Definition header_ok (s : JsStr) : bool :=
  forallb (λ c, (c <? 256) && negb (existsb (Z.eqb c) [0; 10; 13])) s.

Section locale.
Context `{!Locale}.

Definition message_of (status : Z) (statusText : JsStr) (body : ErrBody) : JsStr :=
  let fallback := int_text status ++ u " " ++ statusText in
  match body with Eb_object message => or_text message fallback | Eb_text _ => fallback end.

(** [apiFetch(path, { method, body })]; [None] is null. *)
Definition apiFetch (ep : Endpoint) (path : JsStr) (method : string) (payload : option Payload)
    : AS (option (Data ep)) :=
  let^ token := sync (sget token) in
  if negb (header_ok (u "Bearer " ++ token)) then Throw E_type
  else
    let rq := mkRequest (u "/api" ++ path) method (Some (u "Bearer " ++ token))
                (match payload with Some _ => true | None => false end) payload in
    let^ response := acatch (let^ r := fetch rq in Pure (Some r)) (λ e,
        let message := match e with E_net s => s | _ => [] end in
        sync (setStatus "bad" (u "Network error: " ++ message) ;$
              toast (u "Network error: " ++ message) (u "bad")) ;^ Pure None) in
    match response with
    | None => Pure None
    | Some Rs_ok => let^ body := await (read_body ep) in Pure (Some body)
    | Some (Rs_fail status statusText) =>
        let^ body := await read_errbody in
        sync (if status =? 401 then
                setStatus "bad" (u "Unauthorized") ;$ toast (u "Invalid or missing admin token") (u "bad")
              else
                let message := message_of status statusText body in
                setStatus "bad" message ;$ toast message (u "bad")) ;^
        Pure None
    end.

Definition loadMap : AS unit :=
  let^ data := await (apiFetch Ep_map (u "/map") "GET" None) in
  match data with
  | None => Pure tt
  | Some m =>
      sync (supd (a_mapData (Some m)) ;$
        let size := int_text (md_width m) ++ u "x" ++ int_text (md_height m) in
        set_text "metric-buildings" (int_text (Z.of_nat (length (md_buildings m)))) ;$
        set_text "metric-world" size ;$
        set_text "map-player-count" (int_text (Z.of_nat (length (md_players m)))) ;$
        set_text "map-building-count" (int_text (Z.of_nat (length (md_buildings m)))) ;$
        set_text "map-world" size ;$
        let$ view := sget currentView in
        swhen (bool_decide (view = "map"%string)) renderMap)
  end.

(** The body of the try block of [refreshAll]. *)
Definition refresh_body : AS unit :=
  let^ data := await (apiFetch Ep_stats (u "/stats") "GET" None) in
  match data with
  | None => Pure tt
  | Some st =>
      sync (supd (a_statsData (Some st)) ;$ renderStats) ;^
      let^ need := sync (sget (λ a, bool_decide (currentView a = "map"%string) ||
                                    match mapData a with None => true | Some _ => false end)) in
      (if need : bool then await loadMap else Pure tt) ;^
      sync (let$ ms := sget (λ a, clock (page a)) in
            setStatus "ok" (u "Updated " ++ toLocaleTimeString ms))
  end.

Definition refreshAll : AS unit :=
  let^ skip := sync (sget (λ a, match token a with [] => true | _ => false end || requestInFlight a)) in
  if (skip : bool) then Pure tt
  else
    sync (supd (a_requestInFlight true)) ;^
    afinally refresh_body (a_requestInFlight false).

(** [authenticate] uses [fetch] itself. *)
Definition authenticate : AS unit :=
  let^ value := sync (sget (λ a, trim (value_of a "auth-token"))) in
  let^ response := fetch (mkRequest (u "/api/auth") "POST" None true (Some (Pl_token value))) in
  let^ success := (match response with
                   | Rs_ok => await (read_body Ep_auth)
                   | Rs_fail _ _ => await read_errbody ;^ Pure false
                   end) in
  if (success : bool) then
    sync (supd (a_token value) ;$ on_page (pg_admin_token (Some value)) ;$
          setStatus "ok" (u "Authenticated") ;$ toast (u "Authenticated") (u "ok")) ;^
    await refreshAll
  else sync (setStatus "bad" (u "Invalid token") ;$ toast (u "Invalid token") (u "bad")).

Definition loadCommands : AS unit :=
  let^ data := sync (sget commandsData) in
  match data with
  | Some _ => sync renderCommands
  | None =>
      let^ data := await (apiFetch Ep_commands (u "/admin/commands") "GET" None) in
      match data with
      | None => Pure tt
      | Some cs => sync (supd (a_commandsData (Some cs)) ;$ renderCommands)
      end
  end.

(** [result && result.success]. *)
Definition succeeded (result : option bool) : bool := default false result.

Definition setPlayerRole (id role : Z) : AS unit :=
  let^ result := await (apiFetch Ep_result (u "/players/" ++ int_text id ++ u "/role") "POST"
                          (Some (Pl_role role))) in
  sync (swhen (succeeded result) (toast (u "Role updated for " ++ int_text id) (u "ok"))) ;^
  await refreshAll.

(** The answer of the confirmation dialogue is an argument. *)
Definition kickPlayer (id : Z) (name : JsStr) (confirmed : bool) : AS unit :=
  let label := match name with [] => int_text id | _ => name ++ u " (" ++ int_text id ++ u ")" end in
  if negb confirmed then Pure tt
  else
    let^ result := await (apiFetch Ep_result (u "/players/" ++ int_text id ++ u "/kick") "POST" None) in
    sync (swhen (succeeded result) (toast (u "Kicked " ++ label) (u "ok"))) ;^
    await refreshAll.

(** *** [encodeURIComponent] *)

(** The characters that stay as they are. *)
Definition unreserved (c : Z) : bool :=
  is_digit c || ((65 <=? c) && (c <=? 90)) || ((97 <=? c) && (c <=? 122)) ||
  existsb (Z.eqb c) [45; 95; 46; 33; 126; 42; 39; 40; 41].

Definition hex_upper (d : Z) : Z := if d <? 10 then 48 + d else 55 + d.
Definition percent_byte (b : Z) : JsStr := [37; hex_upper (b / 16); hex_upper (b mod 16)].

(** The UTF-8 bytes of a code point. *)
Definition utf8 (c : Z) : list Z :=
  if c <? 128 then [c]
  else if c <? 2048 then [192 + c / 64; 128 + c mod 64]
  else if c <? 65536 then [224 + c / 4096; 128 + c / 64 mod 64; 128 + c mod 64]
  else [240 + c / 262144; 128 + c / 4096 mod 64; 128 + c / 64 mod 64; 128 + c mod 64].

Definition high_surrogate (c : Z) : bool := (55296 <=? c) && (c <=? 56319).
Definition low_surrogate (c : Z) : bool := (56320 <=? c) && (c <=? 57343).

Definition encode_point (c : Z) : JsStr := concat (percent_byte <$> utf8 c).

(** [None] is the URIError a lone surrogate throws. *)
Fixpoint encodeURIComponent (s : JsStr) : option JsStr :=
  match s with
  | [] => Some []
  | c :: s =>
      if unreserved c then (λ r, c :: r) <$> encodeURIComponent s
      else if low_surrogate c then None
      else if high_surrogate c then
        match s with
        | d :: s =>
            if low_surrogate d then
              (λ r, encode_point ((c - 55296) * 1024 + (d - 56320) + 65536) ++ r) <$> encodeURIComponent s
            else None
        | [] => None
        end
      else (λ r, encode_point c ++ r) <$> encodeURIComponent s
  end.

Definition deleteEvent (id : JsStr) (confirmed : bool) : AS unit :=
  if negb confirmed then Pure tt
  else
    match encodeURIComponent id with
    | None => Throw E_uri
    | Some id' =>
        let^ result := await (apiFetch Ep_result (u "/events/" ++ id') "DELETE" None) in
        sync (swhen (succeeded result) (toast (u "Event " ++ id ++ u " deleted") (u "ok"))) ;^
        await refreshAll
    end.

Definition event_payload (a : App) : Payload :=
  Pl_event (trim (value_of a "event-id")) (trim (value_of a "event-title"))
    (parseInt10 (value_of a "event-start")) (parseInt10 (value_of a "event-end"))
    (parseFloat (value_of a "event-xp-mult")) (parseFloat (value_of a "event-drop-mult")).

Definition saveEvent : AS unit :=
  let^ payload := sync (sget event_payload) in
  let^ id := sync (sget (λ a, trim (value_of a "event-id"))) in
  let^ result := await (apiFetch Ep_result (u "/events") "POST" (Some payload)) in
  if succeeded result then
    sync (toast (u "Event " ++ id ++ u " saved") (u "ok")) ;^ await refreshAll
  else Pure tt.

Definition market_payload (a : App) : Payload := Pl_market ((λ id, parseInt10 (value_of a id)) <$> mod_ids).

Definition saveMarket : AS unit :=
  let^ payload := sync (sget market_payload) in
  let^ result := await (apiFetch Ep_result (u "/market") "POST" (Some payload)) in
  if succeeded result then sync (toast (u "Market updated") (u "ok")) ;^ await refreshAll
  else Pure tt.

Definition loadMetrics : AS unit :=
  sync (set_text "metrics-output" (u "Loading...")) ;^
  let^ response := fetch (mkRequest (u "/metrics") "GET" None false None) in
  match response with
  | Rs_ok => let^ text := read_body Ep_metrics in sync (set_text "metrics-output" text)
  | Rs_fail status statusText =>
      sync (set_text "metrics-output" (int_text status ++ u " " ++ statusText))
  end.

(** ** Handlers *)

(** What happens to the page: the listeners [bindUi], [setupMap] and the rows of
    the tables install, the timers, and what the user and the browser change
    by themselves. *)
Inductive UiEvent :=
  | Ev_boot
  | Ev_view (view : string)
  | Ev_login
  | Ev_auth_key (enter : bool)
  | Ev_refresh
  | Ev_auto_refresh (checked : bool)
  | Ev_filter (value : JsStr)
  | Ev_event_submit
  | Ev_market_submit
  | Ev_fill_week
  | Ev_metrics
  | Ev_resize
  | Ev_mousedown (x y : Q)
  | Ev_mouseup
  | Ev_mousemove (x y : Q)
  | Ev_wheel (deltaY x y : Q)
  | Ev_zoom_in
  | Ev_zoom_out
  | Ev_map_reset
  | Ev_role (id role : Z)
  | Ev_kick (id : Z) (name : JsStr) (confirmed : bool)
  | Ev_edit (e : GameEvent)
  | Ev_delete (id : JsStr) (confirmed : bool)
  | Ev_interval (h : positive)
  | Ev_toast_timeout (n : nat)
  | Ev_input (id : string) (value : JsStr)
  | Ev_focus (market_form : bool)
  | Ev_layout (clientW clientH : Z) (rectW rectH : Q) (ratio : option Q)
  | Ev_clock (ms : Z).

Definition switchView (view : string) : AS unit :=
  sync (show_view view) ;^
  (if bool_decide (view = "map"%string) then loadMap else Pure tt) ;^
  (if bool_decide (view = "commands"%string) then loadCommands else Pure tt).

Definition fillEventForm (e : GameEvent) : AS unit :=
  sync (fill_event_inputs e) ;^ switchView "events".

(** The end of the script: [bindUi()], the default dates, the first refresh. *)
Definition boot : AS unit :=
  sync (let$ t := sget token in set_value "auth-token" t ;$ setupAutoRefresh ;$ fillDefaultEventDates) ;^
  let^ t := sync (sget token) in
  match t with
  | [] => sync (setStatus "" (u "Enter admin token"))
  | _ => refreshAll
  end.

Definition dispatch (e : UiEvent) : AS unit :=
  match e with
  | Ev_boot => boot
  | Ev_view view => switchView view
  | Ev_login => authenticate
  | Ev_auth_key enter => if enter then authenticate else Pure tt
  | Ev_refresh => refreshAll
  | Ev_auto_refresh checked => sync (on_page (pg_auto_refresh checked) ;$ setupAutoRefresh)
  | Ev_filter value => sync (set_value "player-filter" value ;$ renderPlayers)
  | Ev_event_submit => saveEvent
  | Ev_market_submit => saveMarket
  | Ev_fill_week => sync fillDefaultEventDates
  | Ev_metrics => loadMetrics
  | Ev_resize => sync renderMap
  | Ev_mousedown x y => sync (map_mousedown x y)
  | Ev_mouseup => sync map_mouseup
  | Ev_mousemove x y => sync (map_mousemove x y)
  | Ev_wheel deltaY x y => sync (map_wheel deltaY x y)
  | Ev_zoom_in => sync (zoomMap (12 # 10) None)
  | Ev_zoom_out => sync (zoomMap (85 # 100) None)
  | Ev_map_reset => sync map_reset_click
  | Ev_role id role => setPlayerRole id role
  | Ev_kick id name confirmed => kickPlayer id name confirmed
  | Ev_edit e => fillEventForm e
  | Ev_delete id confirmed => deleteEvent id confirmed
  | Ev_interval h =>
      let^ live := sync (sget (λ a, bool_decide (h ∈ intervals (page a)))) in
      if (live : bool) then refreshAll else Pure tt
  | Ev_toast_timeout n => sync (toast_timeout n)
  | Ev_input id value => sync (set_value id value)
  | Ev_focus b => sync (on_page (pg_focus b))
  | Ev_layout cw ch rw rh ratio =>
      sync (on_page (λ p, let c := canvas p in
              pg_canvas (mkCanvas (cv_width c) (cv_height c) cw ch rw rh ratio) (drawn p) p))
  | Ev_clock ms => sync (on_page (pg_clock ms))
  end.

(** The page as the browser loads it: nothing shown but the overview, the
    check box of the automatic refresh ticked, the token of an earlier visit. *)
Definition views : list string :=
  ["overview"; "players"; "map"; "events"; "market"; "commands"]%string.
Definition new_views : list (string * bool) :=
  (λ v, (v, bool_decide (v = "overview"%string))) <$> views.

Definition new_page (stored : option JsStr) (c : Canvas) (ms : Z) : Page :=
  mkPage (false, false, u "No data loaded") [] 0 ∅ ∅ ∅ new_views new_views stored true false c [] ∅ 1 ms.
Definition new_app (stored : option JsStr) (c : Canvas) (ms : Z) : App :=
  mkApp (default [] stored) "overview" None None None None false new_mapState (new_page stored c ms).
Definition new_loop (stored : option JsStr) (c : Canvas) (ms : Z) : Loop Ans :=
  mkLoop (new_app stored c ms) [] [].

End locale.
