(* ===== verification/AdminFacts.v ===== *)
(** * The admin panel: what holds whatever the user and the network do *)

From Stdlib Require Import QArith.
From S2P Require Import Prelude JsText Async AdminMap AdminPage Admin.

#[local] Open Scope page_scope.
#[local] Open Scope async_scope.

(** ** Rules for the page's own code *)

Section rules.
Context (R : relation App) `{!PreOrder R}.

Lemma skeeps_for {A} (l : list A) body : (forall x, skeeps R (body x)) -> skeeps R (sfor l body).
Proof.
  intros H. induction l as [|x l IH]; [by apply skeeps_ret | by apply skeeps_bind; [| |intros ?]].
Qed.

End rules.

(** Code made of reads and of changes in R. *)
Ltac keeps_step tac :=
  first
    [ progress cbv zeta | apply skeeps_bind; [apply _| |intros ?] | apply skeeps_when; [apply _|]
    | apply skeeps_for; [apply _|intros ?] | apply skeeps_ret; apply _ | apply skeeps_throw; apply _
    | apply skeeps_get; apply _ | tac | case_match
    | progress unfold on_page, set_text, set_value, clear, append_row, emptyRow, setStatus, toast,
        renderMarketTable, crystals_text ].
Ltac keeps_with tac := repeat keeps_step tac.

(** ** The lock *)

Definition same_lock (a a' : App) : Prop := requestInFlight a' = requestInFlight a.

#[global] Instance same_lock_preorder : PreOrder same_lock.
Proof. split; [done|]. intros a b c. unfold same_lock. congruence. Qed.

Ltac lock_keeps := keeps_with ltac:(by intros ?).

Section locale.
Context `{!Locale}.

Lemma renderOverviewPlayers_lock st : skeeps same_lock (renderOverviewPlayers st).
Proof. unfold renderOverviewPlayers. lock_keeps. Qed.
Lemma renderPlayers_lock : skeeps same_lock renderPlayers.
Proof. unfold renderPlayers. lock_keeps. Qed.
Lemma renderEvents_lock st : skeeps same_lock (renderEvents st).
Proof. unfold renderEvents. lock_keeps. Qed.
Lemma renderMarket_lock st : skeeps same_lock (renderMarket st).
Proof. unfold renderMarket. lock_keeps. Qed.
Lemma renderStats_lock : skeeps same_lock renderStats.
Proof.
  unfold renderStats. keeps_with ltac:(first [apply renderOverviewPlayers_lock | apply renderPlayers_lock
    | apply renderEvents_lock | apply renderMarket_lock | by intros ?]).
Qed.
Lemma renderCommands_lock : skeeps same_lock renderCommands.
Proof. unfold renderCommands. lock_keeps. Qed.
Lemma renderMap_lock : skeeps same_lock renderMap.
Proof. unfold renderMap. lock_keeps. Qed.

(** Only the owner of the lock waits for the statistics. *)
Definition asks_stats (w : Wait) : bool :=
  match w with
  | W_fetch rq => bool_decide (rq_path rq = u "/api/stats")
  | W_body Ep_stats => true
  | _ => false
  end.

Abbreviation Safe t o s Q := (@safe App Wait Ans requestInFlight asks_stats _ t o s Q) (only parsing).

(** Code that leaves the lock alone, and a caller that does not mind its result. *)
Lemma safe_syncK {A} (m : PS A) o s Q :
  skeeps same_lock m -> (o = true -> requestInFlight s = true) ->
  (forall s' r, (o = true -> requestInFlight s' = true) -> Q o s' r) -> Safe (sync m) o s Q.
Proof.
  intros Hm Ho HQ. specialize (Hm s). apply safe_sync; [done|apply Hm|].
  apply HQ. intros. rewrite Hm. auto.
Qed.

Definition only_owner (path : JsStr) (ep : Endpoint) (o : bool) : Prop :=
  o = true \/ (path <> u "/stats" /\ ep <> Ep_stats).

Lemma await_apiFetch_safe ep path method payload o s Q :
  only_owner path ep o -> (o = true -> requestInFlight s = true) ->
  (forall s' r, (o = true -> requestInFlight s' = true) -> Q o s' r) ->
  Safe (await (apiFetch ep path method payload)) o s Q.
Proof.
  intros Hw Ho HQ. unfold await. apply safe_awaiting; [done|done|].
  unfold apiFetch. apply safe_bind; [done|]. apply safe_syncK; [lock_keeps|done|].
  intros s1 [e|tk] Hs1; [by intros s' Hs'; apply HQ|].
  case_match; [by intros s' Hs'; apply HQ|].
  apply safe_bind; [done|]. apply safe_catch; [done|]. cbn [fetch abind safe].
  split.
  { cbn [asks_stats rq_path]. rewrite bool_decide_eq_true. intros E. destruct Hw as [?|[Hp _]]; [done|].
    exfalso. apply Hp. by inversion E. }
  intros [msg|rs] s2 Hs2; cbn [abind safe].
  - apply safe_bind; [done|]. apply safe_syncK; [lock_keeps|done|].
    intros s3 r Hs3. destruct r; cbn [safe]; intros s' Hs'; by apply HQ.
  - destruct rs as [|st stx]; (apply safe_bind; [done|]); unfold await;
      (apply safe_awaiting; [done|done|]); cbn [read_body read_errbody safe].
    + split.
      { cbn. destruct ep; try done. intros _. by destruct Hw as [?|[_ []]]. }
      intros [msg|b] s3 Hs3; cbn [safe]; intros s4 Hs4 s' Hs'; by apply HQ.
    + split; [done|]. intros [msg|b] s3 Hs3; cbn [safe]; intros s4 Hs4; [by intros s' Hs'; apply HQ|].
      apply safe_bind; [done|]. apply safe_syncK; [lock_keeps|done|].
      intros s5 r Hs5. destruct r; cbn [safe]; intros s' Hs'; by apply HQ.
Qed.

Lemma loadMap_safe o s Q :
  (o = true -> requestInFlight s = true) ->
  (forall s' r, (o = true -> requestInFlight s' = true) -> Q o s' r) -> Safe loadMap o s Q.
Proof.
  intros Ho HQ. unfold loadMap. apply safe_bind; [done|].
  apply await_apiFetch_safe; [by right|done|]. intros s1 [e|[m|]] Hs1; cbn [safe]; try by apply HQ.
  apply safe_syncK; [|done|done]. lock_keeps.
Qed.

Lemma refresh_body_safe s Q :
  requestInFlight s = true ->
  (forall s' r, requestInFlight s' = true -> Q true s' r) -> Safe refresh_body true s Q.
Proof.
  intros Ho HQ. unfold refresh_body. apply safe_bind; [done|].
  apply await_apiFetch_safe; [by left|done|]. intros s1 [e|[st|]] Hs1; cbn [safe]; try by apply HQ, Hs1.
  apply safe_bind; [done|].
  apply safe_syncK; [apply skeeps_bind; [apply _|by intros ?|intros ?; apply renderStats_lock]|done|].
  intros s2 [e|[]] Hs2; [by apply HQ, Hs2|]. apply safe_bind; [done|].
  apply safe_syncK; [lock_keeps|done|]. intros s3 [e|need] Hs3; [by apply HQ, Hs3|].
  apply safe_bind; [done|].
  assert (forall s' (r : Exn + unit), (true = true -> requestInFlight s' = true) ->
    match r with inl e => Q true s' (inl e) | inr _ => Safe (sync (let$ ms := sget (λ a, clock (page a)) in
      setStatus "ok" (u "Updated " ++ toLocaleTimeString ms))) true s' Q end) as Hend.
  { intros s' [e|[]] Hs'; [by apply HQ, Hs'|]. apply safe_syncK; [lock_keeps|done|].
    intros s4 r Hs4. by apply HQ, Hs4. }
  destruct need.
  - unfold await. apply safe_awaiting; [done|done|]. apply loadMap_safe; [done|].
    intros s' r Hs' s'' Hs''. apply (Hend s'' r). intros _. by apply Hs''.
  - cbn [safe]. apply (Hend s3 (inr tt) Hs3).
Qed.

(** [refreshAll] called by someone who does not own the lock. *)
Lemma refreshAll_safe s Q : (forall s' r, Q false s' r) -> Safe refreshAll false s Q.
Proof.
  intros HQ. unfold refreshAll. apply safe_bind; [done|].
  apply safe_sync; [done|done|]. cbn [sget fst snd].
  destruct (match token s with [] => true | _ => false end); cbn [orb safe]; [apply HQ|].
  destruct (requestInFlight s) eqn:Ef; [apply HQ|].
  apply safe_bind; [done|]. unfold sync. cbn [supd fst snd safe of_result]. split; [by intros; simplify_eq|].
  replace (own_after _ _ _ _) with true by (unfold own_after; by rewrite Ef).
  apply safe_finally; [done|]. apply refresh_body_safe; [done|].
  intros s' r Hs'. split; [done|]. unfold own_after. rewrite Hs'. cbn. apply HQ.
Qed.

Lemma await_refreshAll_safe s Q : (forall s' r, Q false s' r) -> Safe (await refreshAll) false s Q.
Proof. intros HQ. unfold await. apply safe_awaiting; [done|done|]. by apply refreshAll_safe. Qed.

Lemma safe_done {A} (m : PS A) s : skeeps same_lock m -> Safe (sync m) false s (released (A := A)).
Proof. intros Hm. by apply safe_syncK. Qed.

(** A function that asks for something else and then does as it likes. *)
Lemma ask_safe {A} ep path method payload (k : option (Data ep) -> AS A) s :
  path <> u "/stats" -> ep <> Ep_stats ->
  (forall r s, Safe (k r) false s (released (A := A))) ->
  Safe (abind (await (apiFetch ep path method payload)) k) false s (released (A := A)).
Proof.
  intros Hp He Hk. apply safe_bind; [done|]. apply await_apiFetch_safe; [by right|done|].
  intros s' [e|r] _; [done | apply Hk].
Qed.

Lemma then_refresh_safe (m : PS unit) s :
  skeeps same_lock m -> Safe (sync m ;^ await refreshAll) false s (released (A := unit)).
Proof.
  intros Hm. apply safe_bind; [done|]. apply safe_syncK; [done|done|].
  intros s' [e|[]] _; [done|]. by apply await_refreshAll_safe.
Qed.

Lemma authenticate_safe s : Safe authenticate false s (released (A := unit)).
Proof.
  unfold authenticate. apply safe_bind; [done|]. apply safe_syncK; [lock_keeps|done|].
  intros s1 [e|value] _; [done|]. cbn [fetch abind safe]. split; [done|].
  intros [msg|rs] s2 _; [done|]. cbn [abind]. apply safe_bind; [done|].
  assert (forall s (b : bool), Safe (if b then
      sync (supd (a_token value) ;$ on_page (pg_admin_token (Some value)) ;$
            setStatus "ok" (u "Authenticated") ;$ toast (u "Authenticated") (u "ok")) ;^
      await refreshAll
    else sync (setStatus "bad" (u "Invalid token") ;$ toast (u "Invalid token") (u "bad")))
    false s (released (A := unit))) as Hend.
  { intros s3 [|]; [apply then_refresh_safe; lock_keeps | apply safe_done; lock_keeps]. }
  destruct rs.
  - unfold await. apply safe_awaiting; [done|done|]. cbn [read_body safe]. split; [done|].
    intros [msg|b] s3 _ s4 _; [done | apply Hend].
  - cbn [await read_errbody awaiting abind safe]. split; [done|]. intros [msg|b] s3 _;
      (split; [done|]); intros _ s4 _; [done | apply Hend].
Qed.

Lemma switchView_safe v s : Safe (switchView v) false s (released (A := unit)).
Proof.
  unfold switchView. apply safe_bind; [done|]. apply safe_syncK; [unfold show_view; lock_keeps|done|].
  intros s1 [e|[]] _; [done|]. apply safe_bind; [done|].
  assert (forall s, Safe (if bool_decide (v = "commands"%string) then loadCommands else Pure tt)
    false s (released (A := unit))) as Hc.
  { intros s2. destruct (bool_decide (v = "commands"%string)); [|done]. unfold loadCommands.
    apply safe_bind; [done|]. apply safe_syncK; [lock_keeps|done|]. intros s3 [e|[cs|]] _; [done| |].
    - apply safe_done, renderCommands_lock.
    - apply ask_safe; [done|done|]. intros [cs|] s4; [|done].
      apply safe_done. keeps_with ltac:(first [apply renderCommands_lock | by intros ?]). }
  destruct (bool_decide (v = "map"%string)); [|apply Hc]. apply loadMap_safe; [done|]. intros s2 [e|[]] _; [done | apply Hc].
Qed.

Lemma loadMetrics_safe s : Safe loadMetrics false s (released (A := unit)).
Proof.
  unfold loadMetrics. apply safe_bind; [done|]. apply safe_syncK; [lock_keeps|done|].
  intros s1 [e|[]] _; [done|]. cbn [fetch abind safe]. split; [done|].
  intros [msg|[|st tx]] s2 _; [done| |apply safe_done; lock_keeps].
  cbn [abind read_body safe]. split; [done|].
  intros [msg|b] s3 _; [done|]. cbn [abind]. apply safe_done. lock_keeps.
Qed.

Lemma setupAutoRefresh_lock : skeeps same_lock setupAutoRefresh.
Proof. unfold setupAutoRefresh, clearInterval, setInterval. lock_keeps. Qed.

Lemma dispatch_safe e s : Safe (dispatch e) false s (released (A := unit)).
Proof.
  assert (forall s, Safe refreshAll false s (released (A := unit))) as Hr
    by (intros; by apply refreshAll_safe).
  destruct e; cbn [dispatch]; try (apply safe_done; lock_keeps; fail); auto using switchView_safe,
    authenticate_safe, loadMetrics_safe.
  - unfold boot. apply safe_bind; [done|]. apply safe_syncK; [|done|].
    + keeps_with ltac:(first [apply setupAutoRefresh_lock | unfold fillDefaultEventDates; lock_keeps; fail | by intros ?]).
    + intros s1 [e|[]] _; [done|]. apply safe_bind; [done|]. apply safe_syncK; [lock_keeps|done|].
      intros s2 [e|[|c t]] _; [done| |apply Hr]. apply safe_done. lock_keeps.
  - case_match; [apply authenticate_safe | done].
  - unfold saveEvent. apply safe_bind; [done|]. apply safe_syncK; [lock_keeps|done|].
    intros s1 [e|p] _; [done|]. apply safe_bind; [done|]. apply safe_syncK; [lock_keeps|done|].
    intros s2 [e|id] _; [done|]. apply ask_safe; [done|done|]. intros r s3.
    case_match; [apply then_refresh_safe; lock_keeps | done].
  - unfold saveMarket. apply safe_bind; [done|]. apply safe_syncK; [lock_keeps|done|].
    intros s1 [e|p] _; [done|]. apply ask_safe; [done|done|]. intros r s3.
    case_match; [apply then_refresh_safe; lock_keeps | done].
  - unfold setPlayerRole. apply ask_safe; [done|done|]. intros r s3. apply then_refresh_safe. lock_keeps.
  - unfold kickPlayer. case_match; [done|]. apply ask_safe; [done|done|]. intros r s3.
    apply then_refresh_safe. lock_keeps.
  - unfold fillEventForm. apply safe_bind; [done|].
    apply safe_syncK; [unfold fill_event_inputs; lock_keeps|done|].
    intros s1 [e'|[]] _; [done | apply switchView_safe].
  - unfold deleteEvent. case_match; [done|]. case_match; [|done].
    apply ask_safe; [done|done|]. intros r s3. apply then_refresh_safe. lock_keeps.
  - apply safe_bind; [done|]. apply safe_syncK; [lock_keeps|done|]. intros s1 [e|[]] _; [done|apply Hr|done].
Qed.

(** The page from the moment the script ends loading, as the user, the timers
    and the network drive it. *)
Definition page_run (stored : option JsStr) (c : Canvas) (ms : Z) (l : Loop Ans) : Prop :=
  rtc (turn dispatch) (new_loop stored c ms) l.

Lemma page_run_new stored c ms : page_run stored c ms (new_loop stored c ms).
Proof. apply rtc_refl. Qed.

Lemma page_run_spawn stored c ms l e : page_run stored c ms l -> page_run stored c ms (spawn (dispatch e) l).
Proof. intros Hl. eapply rtc_r; [exact Hl | apply Turn_event]. Qed.

(** C6: [requestInFlight] is a lock: however clicks, timers and answers interleave,
    at most one refresh is asking for the statistics, only while the flag is set,
    and the flag is never left set with nothing pending, so a refresh that failed
    never blocks the later ones. *)
Theorem refresh_exclusive (stored : option JsStr) (c : Canvas) (ms : Z) (l : Loop Ans)
    (Hl : page_run stored c ms l) :
  (length (filter (λ t, waits_guarded asks_stats t = true) (waiting l))
     <= Nat.b2n (requestInFlight (page_state l)))%nat /\
  (requestInFlight (page_state l) = true -> waiting l <> []).
Proof.
  apply lock_inv_facts. revert Hl. unfold page_run.
  assert (lock_inv requestInFlight asks_stats (new_loop stored c ms)) as H0.
  { exists []. by split; [constructor|]. }
  generalize (new_loop stored c ms) H0. intros l0 Hi Hl.
  induction Hl as [|l1 l2 l3 Hstep _ IH]; [done|].
  apply IH. eapply turn_lock; [|done|done]. intros e s. apply dispatch_safe.
Qed.
End locale.

#[global] Instance demo_locale : Locale := {|
  toLowerCase s := (λ c, if (65 <=? c) && (c <=? 90) then c + 32 else c) <$> s;
  toLocaleString ms := int_text ms;
  toLocaleTimeString ms := int_text ms |}.

(** With a token a click on Refresh asks for the statistics; a second one does not. *)
Definition demo_loop : Loop Ans :=
  spawn (dispatch Ev_refresh) (spawn (dispatch Ev_refresh) (new_loop (Some (u "secret")) (demo_canvas 1) 0)).

Lemma refresh_exclusive_witness :
  length (waiting demo_loop) = 1%nat /\
  (length (filter (λ t, waits_guarded asks_stats t = true) (waiting demo_loop))
     <= Nat.b2n (requestInFlight (page_state demo_loop)))%nat.
Proof.
  split; [reflexivity|]. eapply (refresh_exclusive (Some (u "secret")) (demo_canvas 1) 0 demo_loop).
  apply page_run_spawn, page_run_spawn, page_run_new.
Defined.
