(* ===== verification/AdminProps.v ===== *)
(** * The admin panel: invariants of the page and the outcomes of its requests *)

From Stdlib Require Import QArith Lqa.
From S2P Require Import Prelude JsText Async AdminMap AdminPage Admin AdminFacts.

#[local] Open Scope page_scope.
#[local] Open Scope async_scope.

(** ** The invariant of the page *)

Definition timer_ok (a : App) : Prop :=
  intervals (page a) = match refreshTimer a with Some h => {[h]} | None => ∅ end.

(** The buttons or sections of the views: exactly the current one is active. *)
Definition shown (view : string) (l : list (string * bool)) : Prop :=
  l.*1 = views /\ Forall (λ e, e.2 = bool_decide (e.1 = view)) l.

Definition page_ok (a : App) : Prop :=
  timer_ok a /\ zoom_ok (mapState a) /\
  (shown (currentView a) (buttons (page a)) /\ shown (currentView a) (sections (page a))) /\
  token a = default [] (admin_token (page a)).

Definition kept (a a' : App) : Prop := page_ok a -> page_ok a'.

#[global] Instance kept_preorder : PreOrder kept.
Proof. split; unfold kept; [by intros a | by intros a b c; auto]. Qed.

Lemma setupAutoRefresh_kept : skeeps kept setupAutoRefresh.
Proof.
  intros a (Ht & Hz & Hv & Hs). unfold timer_ok in Ht.
  unfold setupAutoRefresh, setInterval, clearInterval, sbind, sget, sret, supd, on_page.
  destruct (refreshTimer a) as [h|] eqn:Er; cbn;
    destruct (auto_refresh (page a)); cbn; (split; [|done]); unfold timer_ok; cbn;
    rewrite ?Er, Ht; set_solver.
Qed.

Lemma shown_switch v w l : shown w l -> shown v ((λ '(x, _), (x, bool_decide (x = v))) <$> l).
Proof.
  intros [Hf _]. split.
  - rewrite <- Hf. rewrite <- list_fmap_compose. apply list_fmap_ext. by intros ? [].
  - apply Forall_fmap, Forall_forall. by intros [].
Qed.

Lemma show_view_kept v : skeeps kept (show_view v).
Proof.
  intros a (Ht & Hz & (Hb & Hs) & Ha). unfold show_view, sbind, supd, on_page. cbn.
  split; [done|]. split; [done|]. split; [|done]. split; eapply shown_switch; [apply Hb | apply Hs].
Qed.

Lemma zoom_change_kept f : (forall st, zoom_ok st -> zoom_ok (f st)) ->
  skeeps kept (supd (λ a, a_mapState (f (mapState a)) a)).
Proof. intros Hf a (Ht & Hz & Hv). split; [done|]. split; [apply Hf, Hz | done]. Qed.

Lemma zoomMap_kept f a : skeeps kept (zoomMap f a).
Proof.
  unfold zoomMap, renderMap. intros s (Ht & Hz & Hv & Hs). unfold sbind, sget, supd, sthrow.
  destruct (mapData s) as [m|] eqn:Em; [|done]. cbn. rewrite Em. cbn.
  split; [done|]. split; [apply zoom_state_ok|]. by split.
Qed.

Lemma reset_zoom_ok st : zoom_ok (map_reset st).
Proof. unfold zoom_ok, map_reset. cbn. lra. Qed.

Section locale.
Context `{!Locale}.

Ltac kept_tac := repeat first
  [ match goal with
    | |- skeeps _ setupAutoRefresh => apply setupAutoRefresh_kept
    | |- skeeps _ (show_view _) => apply show_view_kept
    | |- skeeps _ (zoomMap _ _) => apply zoomMap_kept
    | |- skeeps _ (map_wheel _ _ _) => apply zoomMap_kept
    | |- zoom_ok (map_reset _) => apply reset_zoom_ok
    end
  | keeps_step ltac:(first
      [ apply zoom_change_kept; let st := fresh in let Hst := fresh in
        intros st Hst; first [apply reset_zoom_ok | exact Hst]
      | let a := fresh in let Hok := fresh in intros a Hok; exact Hok ]) ].

Ltac fol :=
  repeat first
    [ apply follows_bind; [|intros ? ?] | apply follows_awaiting
    | apply follows_catch; [|intros ? ?] | apply follows_sync; kept_tac; fail
    | exact I | progress cbn [follows fetch read_body read_errbody] | intros [?|?] ? | case_match ].

Lemma renderStats_kept : skeeps kept renderStats.
Proof. unfold renderStats. kept_tac. Qed.
Lemma apiFetch_kept ep path m p s : follows kept (await (apiFetch ep path m p)) s.
Proof. unfold await, apiFetch. fol. Qed.

Lemma loadMap_kept s : follows kept loadMap s.
Proof. unfold loadMap. apply follows_bind; [apply apiFetch_kept|]. intros [m|] s'; fol. Qed.

Lemma refreshAll_kept s : follows kept refreshAll s.
Proof.
  unfold refreshAll. apply follows_bind; [fol|]. intros [|] s1; [done|].
  apply follows_bind; [fol|]. intros [] s2. apply follows_finally; [|intros a Hok; exact Hok].
  unfold refresh_body. apply follows_bind; [apply apiFetch_kept|]. intros [st|] s3; [|done].
  apply follows_bind; [fol|]. intros [] s4. apply follows_bind; [fol|]. intros need s5.
  apply follows_bind; [|intros; fol]. destruct need; [|done].
  apply follows_awaiting, loadMap_kept.
Qed.

(** After [sync m] or a request, refresh. *)
Lemma then_refresh_kept (m : PS unit) s : skeeps kept m -> follows kept (sync m ;^ await refreshAll) s.
Proof.
  intros Hm. apply follows_bind; [by apply follows_sync|].
  intros [] s'. apply follows_awaiting, refreshAll_kept.
Qed.

Lemma ask_kept {A} ep path method payload (k : option (Data ep) -> AS A) s :
  (forall r s, follows kept (k r) s) -> follows kept (abind (await (apiFetch ep path method payload)) k) s.
Proof. intros Hk. by apply follows_bind; [apply apiFetch_kept|]. Qed.

Lemma authenticate_kept s : follows kept authenticate s.
Proof.
  unfold authenticate. apply follows_bind; [fol|]. intros value s1.
  apply follows_bind; [fol|]. intros rs s2. apply follows_bind; [fol|]. intros [|] s3; [|fol].
  apply then_refresh_kept. intros a (Ht & Hz & Hv & _). by split_and!; try apply Hv; try apply Hz.
Qed.

Lemma loadCommands_kept s : follows kept loadCommands s.
Proof.
  unfold loadCommands. apply follows_bind; [fol|]. intros [cs|] s1; [fol|].
  apply ask_kept. intros [cs|] s2; fol.
Qed.

Lemma switchView_kept v s : follows kept (switchView v) s.
Proof.
  unfold switchView. apply follows_bind; [fol|]. intros [] s1. apply follows_bind.
  - destruct (bool_decide _); [apply loadMap_kept | done].
  - intros [] s2. destruct (bool_decide _); [apply loadCommands_kept | done].
Qed.

Lemma dispatch_kept e s : follows kept (dispatch e) s.
Proof.
  destruct e; cbn [dispatch];
    try lazymatch goal with
    | |- follows _ (sync _) _ => apply follows_sync; kept_tac; fail
    | |- follows _ refreshAll _ => apply refreshAll_kept
    | |- follows _ authenticate _ => apply authenticate_kept
    | |- follows _ (switchView _) _ => apply switchView_kept
    end.
  - unfold boot. apply follows_bind; [apply follows_sync; kept_tac|]. intros [] s1.
    apply follows_bind; [fol|]. intros [|c t] s2; [fol | apply refreshAll_kept].
  - destruct enter; [apply authenticate_kept | done].
  - unfold saveEvent. apply follows_bind; [fol|]. intros p s1. apply follows_bind; [fol|]. intros id s2.
    apply ask_kept. intros r s3. destruct (succeeded r); [apply then_refresh_kept; kept_tac | done].
  - unfold saveMarket. apply follows_bind; [fol|]. intros p s1.
    apply ask_kept. intros r s3. destruct (succeeded r); [apply then_refresh_kept; kept_tac | done].
  - unfold loadMetrics. fol.
  - unfold setPlayerRole. apply ask_kept. intros r s3. apply then_refresh_kept. kept_tac.
  - unfold kickPlayer. destruct confirmed; [|done]. apply ask_kept. intros r s3.
    apply then_refresh_kept. kept_tac.
  - unfold fillEventForm. apply follows_bind; [|intros; apply switchView_kept].
    unfold fill_event_inputs. fol.
  - unfold deleteEvent. destruct confirmed; [|done]. cbn [negb]. destruct (encodeURIComponent id); [|done].
    apply ask_kept. intros r s3. apply then_refresh_kept. kept_tac.
  - apply follows_bind; [fol|]. intros [|] s1; [apply refreshAll_kept | done].
Qed.

(** C12: Whatever the user, the timers and the network do, there is at most one
    refresh timer and [refreshTimer] is its handle (none is leaked when the box is
    ticked again), the zoom stays between 0.2 and 20, exactly the button and the
    section of the current view are active, and the token the requests carry is
    the one kept in the local storage. *)
Theorem page_invariant (stored : option JsStr) (c : Canvas) (ms : Z) (l : Loop Ans)
    (Hl : page_run stored c ms l) :
  let a := page_state l in
  intervals (page a) = match refreshTimer a with Some h => {[h]} | None => ∅ end /\
  (2 # 10 <= zoom (mapState a) <= 20)%Q /\
  shown (currentView a) (buttons (page a)) /\ shown (currentView a) (sections (page a)) /\
  token a = default [] (admin_token (page a)).
Proof.
  assert (page_ok (page_state l)) as (Ht & Hz & (Hb & Hs) & Ha); [|by split_and!; try apply Hz].
  assert (page_ok (page_state (new_loop stored c ms))) as H0.
  { split; [done|]. split; [split; cbn; lra|]. split; [|done].
    split; (split; [done|]); repeat constructor. }
  assert (calm kept (new_loop stored c ms)) as Hc by constructor.
  revert Hl H0 Hc. unfold page_run. generalize (new_loop stored c ms). intros l0 Hl.
  induction Hl as [|l1 l2 l3 Hstep _ IH]; [done|]. intros H0 Hc.
  destruct (turn_follows kept dispatch l1 l2 dispatch_kept Hstep Hc) as [Hc' HR].
  apply IH; [by apply HR | done].
Qed.
End locale.

(** The script loads, the box is unticked and ticked again: one timer, the second one. *)
Definition demo_timers : Loop Ans :=
  spawn (dispatch (Ev_auto_refresh true)) (spawn (dispatch (Ev_auto_refresh false))
    (spawn (dispatch Ev_boot) (new_loop None (demo_canvas 1) 0))).

Lemma page_invariant_witness :
  refreshTimer (page_state demo_timers) = Some 2%positive /\
  intervals (page (page_state demo_timers)) = {[2%positive]}.
Proof.
  split; [vm_compute; reflexivity|].
  apply (page_invariant None (demo_canvas 1) 0 demo_timers).
  apply page_run_spawn, page_run_spawn, page_run_spawn, page_run_new.
Defined.
