(* ===== verification/AdminSpec.v ===== *)
(** * The admin panel: what its functions do

    The functional behaviour of the requests and of the tables, each function
    on its own: [solo answer f a] runs f from the page a with the answers
    [answer]. *)

From Stdlib Require Import QArith Sorted.
From S2P Require Import Prelude JsText Async AdminMap AdminPage Admin AdminFacts.

#[local] Open Scope page_scope.
#[local] Open Scope async_scope.

Abbreviation answers := (forall w : Wait, Ans w) (only parsing).

(** The page after an error was shown: the status line and one more toast. *)
Definition complained (text message : JsStr) (a : App) : App :=
  ((setStatus "bad" text ;$ toast message (u "bad")) a).2.

Lemma solo_fetch (answer : answers) rq a :
  solo answer (fetch rq) a =
  match answer (W_fetch rq) with inl message => (inl (E_net message), a) | inr rs => (inr rs, a) end.
Proof. cbn. by destruct (answer (W_fetch rq)). Qed.

Lemma solo_await_body (answer : answers) ep a :
  solo answer (await (read_body ep)) a =
  match answer (W_body ep) with inl message => (inl (E_body message), a) | inr b => (inr b, a) end.
Proof. unfold await. rewrite solo_awaiting. cbn. by destruct (answer (W_body ep)). Qed.

Lemma solo_await_errbody (answer : answers) a :
  solo answer (await read_errbody) a =
  match answer W_errbody with inl message => (inl (E_body message), a) | inr b => (inr b, a) end.
Proof. unfold await. rewrite solo_awaiting. cbn. by destruct (answer W_errbody). Qed.

Section locale.
Context `{!Locale}.

(** ** [apiFetch] *)

(** The request [apiFetch] sends. *)
Definition api_request (a : App) (path : JsStr) (method : string) (payload : option Payload) : Request :=
  mkRequest (u "/api" ++ path) method (Some (u "Bearer " ++ token a))
    (match payload with Some _ => true | None => false end) payload.

(** [apiFetch] on every answer of the server: a failed fetch, a refusal (401)
    and any other error status yield null after exactly one message in the status
    line and one toast; a good answer yields its body and changes nothing; only a
    body that cannot be read is thrown. *)
Theorem apiFetch_outcomes (answer : answers) (ep : Endpoint) (path : JsStr) (method : string)
    (payload : option Payload) (a : App) (Htok : header_ok (u "Bearer " ++ token a) = true) :
  solo answer (apiFetch ep path method payload) a =
  match answer (W_fetch (api_request a path method payload)) with
  | inl message =>
      (inr None, complained (u "Network error: " ++ message) (u "Network error: " ++ message) a)
  | inr Rs_ok =>
      match answer (W_body ep) with
      | inl message => (inl (E_body message), a)
      | inr body => (inr (Some body), a)
      end
  | inr (Rs_fail status statusText) =>
      match answer W_errbody with
      | inl message => (inl (E_body message), a)
      | inr body =>
          (inr None,
           if status =? 401 then complained (u "Unauthorized") (u "Invalid or missing admin token") a
           else let message := message_of status statusText body in complained message message a)
      end
  end.
Proof.
  unfold apiFetch. autorewrite with solo. cbn [sget]. rewrite Htok. cbn [negb].
  fold (api_request a path method payload). rewrite solo_bind, solo_catch, solo_bind, solo_fetch.
  destruct (answer (W_fetch _)) as [msg|[|st tx]]; cbn [solo].
  - by autorewrite with solo.
  - rewrite solo_bind, solo_await_body. by destruct (answer (W_body ep)).
  - rewrite solo_bind, solo_await_errbody. destruct (answer W_errbody) as [msg|b]; [done|].
    autorewrite with solo. by destruct (st =? 401).
Qed.

(** ** [authenticate] *)

Definition auth_request (value : JsStr) : Request :=
  mkRequest (u "/api/auth") "POST" None true (Some (Pl_token value)).

(** Logging in: a failed fetch is thrown and leaves the page as it was; a
    refusal leaves the token alone and shows "Invalid token"; only an accepted
    token is kept, in the variable and in the local storage. *)
Theorem authenticate_outcomes (answer : answers) (a : App) :
  let value := trim (value_of a "auth-token") in
  let '(r, a') := solo answer authenticate a in
  match answer (W_fetch (auth_request value)) with
  | inl message => r = inl (E_net message) /\ a' = a
  | inr Rs_ok =>
      match answer (W_body Ep_auth) with
      | inl message => r = inl (E_body message) /\ a' = a
      | inr true => exists a1, token a1 = value /\ admin_token (page a1) = Some value /\
                      solo answer refreshAll a1 = (r, a')
      | inr false => r = inr tt /\ a' = complained (u "Invalid token") (u "Invalid token") a
      end
  | inr (Rs_fail _ _) =>
      match answer W_errbody with
      | inl message => r = inl (E_body message) /\ a' = a
      | inr _ => r = inr tt /\ a' = complained (u "Invalid token") (u "Invalid token") a
      end
  end.
Proof.
  unfold authenticate. autorewrite with solo. cbn [sget]. rewrite solo_bind, solo_fetch.
  fold (auth_request (trim (value_of a "auth-token"))).
  destruct (answer (W_fetch _)) as [msg|[|st tx]]; [done| |]; rewrite solo_bind.
  - rewrite solo_await_body. destruct (answer (W_body Ep_auth)) as [msg|[|]]; [done| |].
    + autorewrite with solo. cbn [sbind supd setStatus toast on_page].
      unfold await. autorewrite with solo.
      destruct (solo answer refreshAll _) as [r a'] eqn:E. eexists. split; [|split; [|exact E]]; reflexivity.
    + by autorewrite with solo.
  - rewrite solo_bind, solo_await_errbody. destruct (answer W_errbody) as [msg|b]; [done|].
    cbn [solo]. by autorewrite with solo.
Qed.

(** ** The table of players *)

Lemma insert_by_perm {A} (key : A -> Z) x l : insert_by key x l ≡ₚ x :: l.
Proof.
  induction l as [|y l IH]; cbn; [done|]. case_match; [done|]. rewrite IH. apply perm_swap.
Qed.

Lemma sort_by_perm {A} (key : A -> Z) (l : list A) : sort_by key l ≡ₚ l.
Proof. induction l as [|x l IH]; cbn; [done|]. rewrite insert_by_perm. by rewrite IH. Qed.

Definition by_key {A} (key : A -> Z) (x y : A) : Prop := key x <= key y.

Lemma insert_by_sorted {A} (key : A -> Z) x l :
  StronglySorted (by_key key) l -> StronglySorted (by_key key) (insert_by key x l).
Proof.
  unfold by_key. induction 1 as [|y l Hl IH Hy]; cbn; [by repeat constructor|].
  destruct (Z.leb_spec (key x) (key y)).
  - constructor; [by constructor|]. constructor; [done|]. eapply Forall_impl; [|exact Hy]. cbn. lia.
  - constructor; [done|]. rewrite insert_by_perm. constructor; [lia | done].
Qed.

Lemma sort_by_sorted {A} (key : A -> Z) l : StronglySorted (by_key key) (sort_by key l).
Proof. induction l; cbn; [constructor | by apply insert_by_sorted]. Qed.

(** The sort is stable: elements with the same key keep their order. *)
Lemma insert_by_stable {A} (key : A -> Z) x l k :
  filter (λ y, key y = k) (insert_by key x l) = filter (λ y, key y = k) (x :: l).
Proof.
  induction l as [|y l IH]; [done|]. cbn [insert_by].
  destruct (Z.leb_spec (key x) (key y)); [done|].
  rewrite !filter_cons in *. rewrite IH. repeat case_decide; done || lia.
Qed.

Lemma sort_by_stable {A} (key : A -> Z) l k :
  filter (λ y, key y = k) (sort_by key l) = filter (λ y, key y = k) l.
Proof.
  induction l as [|x l IH]; [done|]. cbn [sort_by foldr]. rewrite insert_by_stable, !filter_cons.
  unfold sort_by in IH. by rewrite IH.
Qed.

Lemma filter_sorted {A} (R : relation A) (P : A -> Prop) `{!forall x, Decision (P x)} (l : list A) :
  StronglySorted R l -> StronglySorted R (filter P l).
Proof.
  induction 1 as [|x l Hl IH Hx]; [constructor|]. rewrite filter_cons. case_decide; [|done].
  constructor; [done|]. apply list.Forall_forall. intros y [_ Hy]%list_elem_of_filter.
  rewrite list.Forall_forall in Hx. auto.
Qed.

Lemma filter_comm {A} (P Q : A -> Prop) `{!forall x, Decision (P x), !forall x, Decision (Q x)} (l : list A) :
  filter P (filter Q l) = filter Q (filter P l).
Proof.
  induction l as [|x l IH]; [done|]. rewrite !filter_cons.
  repeat (case_decide; rewrite ?filter_cons); repeat case_decide; try done; by rewrite IH.
Qed.

(** The players the filter lets through: all of them when it is blank. *)
Definition shown_player (a : App) (p : Player) : bool :=
  match toLowerCase (trim (value_of a "player-filter")) with
  | [] => true
  | query => matches query p
  end.

Lemma filteredPlayers_alt a st : statsData a = Some st ->
  filteredPlayers a = filter (λ p, shown_player a p = true) (sort_by p_id (active_players st)).
Proof.
  intros Hs. unfold filteredPlayers, shown_player. rewrite Hs.
  destruct (toLowerCase _); [|done]. generalize (sort_by p_id (active_players st)). intros l.
  induction l as [|p l IH]; [done|]. rewrite filter_cons. by rewrite decide_True, <- IH.
Qed.

(** The table of players shows exactly the online players whose number or name
    contains the filter, each as often as the server lists them, ordered by number,
    and players with the same number in the order of the server. *)
Theorem filteredPlayers_exact (a : App) (st : Stats) (Hs : statsData a = Some st) :
  filteredPlayers a ≡ₚ filter (λ p, shown_player a p = true) (active_players st) /\
  StronglySorted (by_key p_id) (filteredPlayers a) /\
  forall id, filter (λ p, p_id p = id) (filteredPlayers a) =
             filter (λ p, p_id p = id) (filter (λ p, shown_player a p = true) (active_players st)).
Proof.
  rewrite (filteredPlayers_alt a st Hs). split_and!.
  - by rewrite sort_by_perm.
  - apply filter_sorted, sort_by_sorted.
  - intros id. rewrite filter_comm, sort_by_stable. apply filter_comm.
Qed.

(** ** A refresh against the server's own answers *)

(** What the rendering before the players table leaves alone. *)
Definition framed (a a' : App) : Prop :=
  statsData a' = statsData a /\ mapData a' = mapData a /\ currentView a' = currentView a /\
  requestInFlight a' = requestInFlight a /\ mapState a' = mapState a /\
  status (page a') = status (page a) /\ values (page a') = values (page a) /\
  tables (page a') !! "events-table"%string = tables (page a) !! "events-table"%string.

#[local] Instance framed_preorder : PreOrder framed.
Proof. unfold framed. split; [by intros a | intros a b c; intuition congruence]. Qed.

Lemma append_row_framed id r : id <> "events-table"%string -> skeeps framed (append_row id r).
Proof. intros Hid a. unfold framed. cbn. rewrite lookup_insert_ne by done. by split_and!. Qed.

Lemma clear_framed id : id <> "events-table"%string -> skeeps framed (clear id).
Proof. intros Hid a. unfold framed. cbn. rewrite lookup_insert_ne by done. by split_and!. Qed.

Lemma set_text_framed id t : skeeps framed (set_text id t).
Proof. intros a. by unfold framed. Qed.

Lemma for_rows_framed {A} id (row : A -> Row) (l : list A) :
  id <> "events-table"%string -> skeeps framed (sfor l (λ x, append_row id (row x))).
Proof. intros Hid. apply skeeps_for; [apply _|]. intros x. by apply append_row_framed. Qed.

Lemma renderOverviewPlayers_framed st : skeeps framed (renderOverviewPlayers st).
Proof.
  unfold renderOverviewPlayers. apply skeeps_bind; [apply _|by apply clear_framed|]. intros _.
  destruct (take _ _) as [|p l]; [by apply append_row_framed|]. by apply for_rows_framed.
Qed.

Lemma append_row_ok id r a : (append_row id r a).1 = inr tt.
Proof. done. Qed.

Lemma for_rows_ok {A} id (row : A -> Row) (l : list A) a : (sfor l (λ x, append_row id (row x)) a).1 = inr tt.
Proof. revert a. induction l as [|x l IH]; intros a; [done|]. cbn [sfor sbind append_row on_page supd]. apply IH. Qed.

Lemma renderOverviewPlayers_ok st a : (renderOverviewPlayers st a).1 = inr tt.
Proof.
  unfold renderOverviewPlayers. cbn [sbind clear on_page supd].
  destruct (take _ _) as [|p l]; [done|]. apply for_rows_ok.
Qed.

Lemma renderPlayers_number a p ps n :
  filteredPlayers a = p :: ps -> p_crystals p = Cr_number n ->
  (renderPlayers a).1 = inl E_type /\ framed a (renderPlayers a).2 /\
  tables (page (renderPlayers a).2) !! "players-table"%string = Some [].
Proof.
  intros Hf Hn. unfold renderPlayers. cbn [sbind clear on_page supd sget].
  change (filteredPlayers (a_page _ a)) with (filteredPlayers a). rewrite Hf. cbn [sfor].
  rewrite Hn. cbn [crystals_text sbind sthrow fst snd]. split; [done|]. split.
  - unfold framed. cbn. rewrite lookup_insert_ne by done. by split_and!.
  - cbn. by rewrite lookup_insert_eq.
Qed.

(** The rendering of statistics up to the table of players. *)
Lemma renderStats_number a st p ps n :
  statsData a = Some st -> filteredPlayers a = p :: ps -> p_crystals p = Cr_number n ->
  (renderStats a).1 = inl E_type /\ framed a (renderStats a).2 /\
  tables (page (renderStats a).2) !! "players-table"%string = Some [].
Proof.
  intros Hs Hf Hn. unfold renderStats. cbn [sbind sget]. rewrite Hs.
  cbn [set_text sbind on_page supd].
  match goal with |- context [sbind (renderOverviewPlayers st) _ ?x] => set (a1 := x) end.
  assert (framed a a1) as H1 by (unfold framed; by split_and!).
  pose proof (renderOverviewPlayers_ok st a1) as Hok.
  pose proof (renderOverviewPlayers_framed st a1) as H2. unfold sbind.
  destruct (renderOverviewPlayers st a1) as [r a2]. cbn in Hok, H2. subst r.
  assert (framed a a2) as H3 by (transitivity a1; done).
  assert (filteredPlayers a2 = p :: ps) as Hf2.
  { destruct H3 as (E1 & _ & _ & _ & _ & _ & E2 & _). rewrite <- Hf.
    unfold filteredPlayers, value_of. by rewrite E1, E2. }
  destruct (renderPlayers_number a2 p ps n Hf2 Hn) as (Hr & H4 & H5).
  destruct (renderPlayers a2) as [r a3]. cbn [fst snd] in *. subst r.
  split; [done|]. split; [transitivity a2; done | done].
Qed.

Lemma apiFetch_ok (answer : answers) ep path method payload a body :
  header_ok (u "Bearer " ++ token a) = true ->
  answer (W_fetch (api_request a path method payload)) = inr Rs_ok ->
  answer (W_body ep) = inr body ->
  solo answer (await (apiFetch ep path method payload)) a = (inr (Some body), a).
Proof.
  intros Htok Hrs Hb. unfold await, apiFetch. autorewrite with solo. cbn [sget]. rewrite Htok. cbn [negb].
  fold (api_request a path method payload). rewrite solo_bind, solo_catch, solo_bind, solo_fetch, Hrs.
  cbn [solo]. by rewrite solo_bind, solo_await_body, Hb.
Qed.

Lemma apiFetch_unreachable (answer : answers) ep path method payload a message :
  header_ok (u "Bearer " ++ token a) = true ->
  answer (W_fetch (api_request a path method payload)) = inl message ->
  solo answer (await (apiFetch ep path method payload)) a =
  (inr None, complained (u "Network error: " ++ message) (u "Network error: " ++ message) a).
Proof.
  intros Htok Hrs. unfold await, apiFetch. autorewrite with solo. cbn [sget]. rewrite Htok. cbn [negb].
  fold (api_request a path method payload). rewrite solo_bind, solo_catch, solo_bind, solo_fetch, Hrs.
  by autorewrite with solo.
Qed.

(** A page that can refresh. *)
Record can_refresh (a : App) : Prop := {
  cr_token : token a <> [];
  cr_header : header_ok (u "Bearer " ++ token a) = true;
  cr_free : requestInFlight a = false
}.

Lemma solo_refreshAll (answer : answers) a : can_refresh a ->
  solo answer refreshAll a =
  let '(r, a') := solo answer refresh_body (a_requestInFlight true a) in (r, a_requestInFlight false a').
Proof.
  intros [Ht _ Hf]. unfold refreshAll. autorewrite with solo. cbn [sget]. rewrite Hf, orb_false_r.
  destruct (token a); [done|]. autorewrite with solo. cbn [supd]. by rewrite solo_finally.
Qed.

Definition stats_request (a : App) : Request := api_request a (u "/stats") "GET" None.
Definition map_request (a : App) : Request := api_request a (u "/map") "GET" None.

(** The page and the server disagree about [crystals]: the server sends a
    number, the table of players joins an array.  With a player to show, a refresh
    that the server answers without any error throws a TypeError, leaves the table
    of players empty, does not reach the events, the map or the status line; it
    does release the lock. *)
Theorem numeric_crystals_stop_refresh (answer : answers) (a : App) (st : Stats) (p : Player)
    (ps : list Player) (n : Z) (Ha : can_refresh a)
    (Hrs : answer (W_fetch (stats_request a)) = inr Rs_ok) (Hst : answer (W_body Ep_stats) = inr st)
    (Hf : filteredPlayers (a_statsData (Some st) a) = p :: ps) (Hn : p_crystals p = Cr_number n) :
  let '(r, a') := solo answer refreshAll a in
  r = inl E_type /\ requestInFlight a' = false /\ statsData a' = Some st /\
  tables (page a') !! "players-table"%string = Some [] /\
  mapData a' = mapData a /\ status (page a') = status (page a) /\
  tables (page a') !! "events-table"%string = tables (page a) !! "events-table"%string.
Proof.
  rewrite solo_refreshAll by done. unfold refresh_body. rewrite solo_bind.
  rewrite (apiFetch_ok answer Ep_stats _ _ _ _ st); [|apply Ha|exact Hrs|exact Hst].
  rewrite solo_bind, solo_sync. cbn [sbind supd].
  destruct (renderStats_number (a_statsData (Some st) (a_requestInFlight true a)) st p ps n)
    as (Hr & Hfr & Ht); [done|exact Hf|done|].
  destruct (renderStats _) as [r a']. cbn [fst snd] in *. subst r. cbn [solo].
  destruct Hfr as (E1 & E2 & E3 & E4 & E5 & E6 & E7 & E8). by split_and!.
Qed.

(** What rendering never touches. *)
Definition unrelated (a a' : App) : Prop :=
  token a' = token a /\ currentView a' = currentView a /\ mapData a' = mapData a /\
  toasts (page a') = toasts (page a) /\ toast_next (page a') = toast_next (page a).

#[local] Instance unrelated_preorder : PreOrder unrelated.
Proof. unfold unrelated. split; [by intros a | intros a b c; intuition congruence]. Qed.

Lemma renderStats_unrelated : skeeps unrelated renderStats.
Proof.
  unfold renderStats, renderOverviewPlayers, renderPlayers, renderEvents, renderMarket.
  keeps_with ltac:(by intros ?).
Qed.

(** A refresh reports success even when the map could not be loaded: after good
    statistics a failed request for the map is followed by the status "Updated", so
    the message of the failure stays visible only in its toast. *)
Theorem map_failure_masked (answer : answers) (a : App) (st : Stats) (message : JsStr)
    (Ha : can_refresh a) (Hm : currentView a = "map"%string)
    (Hrs : answer (W_fetch (stats_request a)) = inr Rs_ok) (Hst : answer (W_body Ep_stats) = inr st)
    (Hr : (renderStats (a_statsData (Some st) (a_requestInFlight true a))).1 = inr tt)
    (Hmap : answer (W_fetch (map_request a)) = inl message) :
  let '(r, a') := solo answer refreshAll a in
  r = inr tt /\ mapData a' = mapData a /\
  (exists ms, status (page a') = (true, false, u "Updated " ++ toLocaleTimeString ms)) /\
  toasts (page a') = toasts (page a) ++
    [mkToast (toast_next (page a)) (trim (u "toast-item " ++ u "bad")) (u "Network error: " ++ message)].
Proof.
  rewrite solo_refreshAll by done. unfold refresh_body. rewrite solo_bind.
  rewrite (apiFetch_ok answer Ep_stats _ _ _ _ st); [|apply Ha|exact Hrs|exact Hst].
  rewrite solo_bind, solo_sync. cbn [sbind supd Data].
  destruct (renderStats_unrelated (a_statsData (Some st) (a_requestInFlight true a)))
    as (E1 & E2 & E3 & E4 & E5).
  destruct (renderStats _) as [r a1]. cbn [fst snd] in *. subst r. cbn in E1, E2, E3, E4, E5.
  rewrite solo_bind, solo_sync. cbn [sget]. rewrite E2, Hm, bool_decide_true by done. cbn [orb].
  rewrite solo_bind. unfold await at 1. rewrite solo_awaiting. unfold loadMap.
  rewrite solo_bind, (apiFetch_unreachable answer Ep_map _ _ _ a1 message).
  - cbn [solo]. rewrite solo_sync. cbn [sbind sget setStatus on_page supd].
    split; [done|]. split; [exact E3|]. split; [by eexists|]. cbn. by rewrite E4, E5.
  - rewrite E1. apply Ha.
  - rewrite <- Hmap. unfold map_request, api_request. by rewrite E1.
Qed.

(** ** The market form *)

Definition same_form (a a' : App) : Prop :=
  values (page a') = values (page a) /\ in_market_form (page a') = in_market_form (page a).

#[local] Instance same_form_preorder : PreOrder same_form.
Proof. unfold same_form. split; [by intros a | intros a b c; intuition congruence]. Qed.

Lemma renderMarketTable_form id st a :
  (renderMarketTable id st a).1 = inr tt /\ same_form a (renderMarketTable id st a).2.
Proof.
  split.
  - unfold renderMarketTable. cbn [sbind clear on_page supd].
    generalize (imap (λ i c, (i, c)) CRYSTALS). intros l.
    match goal with |- context [sfor l _ ?x] => generalize x end.
    induction l as [|[i c] l IH]; intros x; [done|]. cbn [sfor sbind append_row on_page supd]. apply IH.
  - revert a. change (skeeps same_form (renderMarketTable id st)). keeps_with ltac:(by intros ?).
Qed.

(** C39: The market form is a round trip: unless the user is working in it, rendering
    the market fills the six inputs so that submitting the form sends the very
    prices the server had; while the user is working in it, rendering leaves what
    was typed, so that a refresh cannot change what will be sent. *)
Theorem market_form_roundtrip (a : App) (st : Stats) (Hlen : length (cost_mod st) = 6%nat) :
  let a' := (renderMarket st a).2 in
  market_payload a' =
    if in_market_form (page a) then market_payload a else Pl_market (Some <$> cost_mod st).
Proof.
  intros a'. subst a'. unfold renderMarket. unfold sbind at 1.
  destruct (renderMarketTable_form "market-table" st a) as [Hr1 [Hv1 Hf1]].
  destruct (renderMarketTable "market-table" st a) as [r1 a1]. cbn [fst snd] in *. subst r1.
  unfold sbind at 1.
  destruct (renderMarketTable_form "overview-market" st a1) as [Hr2 [Hv2 Hf2]].
  destruct (renderMarketTable "overview-market" st a1) as [r2 a2]. cbn [fst snd] in *. subst r2.
  cbn [sbind sget]. rewrite Hf2, Hf1. destruct (in_market_form (page a)).
  - cbn [sret snd]. unfold market_payload, value_of. by rewrite Hv2, Hv1.
  - destruct (cost_mod st) as [|c0 [|c1 [|c2 [|c3 [|c4 [|c5 [|]]]]]]]; try done.
    cbn. unfold market_payload, value_of. cbn.
    repeat first [rewrite lookup_insert_eq | rewrite lookup_insert_ne by done].
    cbn. by rewrite !parseInt10_int_text.
Qed.
End locale.

(** ** The theorems at work *)

(** A player and the statistics as the server sends them. *)
Definition demo_player : Player :=
  mkPlayer 7 (u "miner") 10 20 100 100 5000 3 (Cr_number 42) 0.
Definition demo_stats (players : list Player) : Stats :=
  mkStats 1 players [10; 20; 30; 40; 50; 60] [1; -2; 3; -4; 5; -6] [].

Definition demo_app (view : string) : App :=
  a_currentView view (new_app (Some (u "secret")) (demo_canvas 1) 1000).

(** A server that answers every request well, but cannot be reached for the map. *)
Definition demo_answer (players : list Player) : answers := λ w,
  match w return Ans w with
  | W_fetch rq => if decide (rq_path rq = u "/api/map") then inl (u "offline") else inr Rs_ok
  | W_body Ep_stats => inr (demo_stats players)
  | W_body Ep_map => inr demo_mapdata
  | W_body Ep_commands => inr []
  | W_body Ep_auth => inr true
  | W_body Ep_result => inr true
  | W_body Ep_metrics => inr (u "up 1")
  | W_errbody => inr (Eb_text [])
  | W_turn => tt
  end.

Lemma demo_can_refresh v : can_refresh (demo_app v).
Proof. by split. Qed.

Lemma apiFetch_outcomes_witness :
  header_ok (u "Bearer " ++ token (demo_app "map")) = true /\
  solo (demo_answer []) (apiFetch Ep_map (u "/map") "GET" None) (demo_app "map") =
  (inr None, complained (u "Network error: offline") (u "Network error: offline") (demo_app "map")).
Proof.
  split; [reflexivity|].
  rewrite (apiFetch_outcomes (demo_answer []) Ep_map (u "/map") "GET" None (demo_app "map"));
    reflexivity.
Defined.

Lemma filteredPlayers_exact_witness :
  let a := a_statsData (Some (demo_stats [demo_player])) (demo_app "players") in
  statsData a = Some (demo_stats [demo_player]) /\ StronglySorted (by_key p_id) (filteredPlayers a).
Proof.
  split; [reflexivity|].
  apply (filteredPlayers_exact _ (demo_stats [demo_player])). reflexivity.
Defined.

Lemma numeric_crystals_stop_refresh_witness :
  (solo (demo_answer [demo_player]) refreshAll (demo_app "overview")).1 = inl E_type.
Proof.
  pose proof (numeric_crystals_stop_refresh (demo_answer [demo_player]) (demo_app "overview")
    (demo_stats [demo_player]) demo_player [] 42 (demo_can_refresh _) eq_refl eq_refl eq_refl eq_refl) as H.
  destruct (solo _ _ _) as [r a']. apply H.
Defined.

Lemma map_failure_masked_witness :
  exists ms, status (page (solo (demo_answer []) refreshAll (demo_app "map")).2) =
    (true, false, u "Updated " ++ toLocaleTimeString ms).
Proof.
  pose proof (map_failure_masked (demo_answer []) (demo_app "map") (demo_stats []) (u "offline")
    (demo_can_refresh _) eq_refl eq_refl eq_refl eq_refl eq_refl) as H.
  destruct (solo _ _ _) as [r a']. apply H.
Defined.

Lemma market_form_roundtrip_witness :
  length (cost_mod (demo_stats [])) = 6%nat /\
  market_payload (renderMarket (demo_stats []) (demo_app "market")).2 =
    Pl_market [Some 1; Some (-2); Some 3; Some (-4); Some 5; Some (-6)].
Proof.
  split; [reflexivity|].
  apply (market_form_roundtrip (demo_app "market") (demo_stats [])). reflexivity.
Defined.
